(** * A file-system task board: record codec, task store and notification ledger

    Shallow embedding of [agents/src/task_manager.py] and
    [agents/src/notifications.py].

    Python strings are embedded as lists of characters whose code points
    lie below 256 ([ascii] read as Latin-1).  The regular expressions of
    the source are embedded one by one as the string searches they
    perform; each such function quotes the pattern it stands for. *)

From Stdlib Require Import Ascii String.
From Stdlib Require Import List ZArith Lia Bool Arith PeanoNat.
Import ListNotations.

Set Implicit Arguments.

(* ================================================================== *)
(** * Part I.  Definitions                                             *)
(* ================================================================== *)

(** ** Python strings *)

Definition str := list ascii.

(** A string literal of the source. *)
Definition lit (s : string) : str := list_ascii_of_string s.

(** The newline character, written [\n] in the source. *)
Definition nl : ascii := "010"%char.

Fixpoint str_eqb (a b : str) : bool :=
  match a, b with
  | [], [] => true
  | x :: a', y :: b' => Ascii.eqb x y && str_eqb a' b'
  | _, _ => false
  end.

(** [s.startswith(p)] *)
Fixpoint startswith (p s : str) : bool :=
  match p, s with
  | [], _ => true
  | _ :: _, [] => false
  | a :: p', b :: s' => Ascii.eqb a b && startswith p' s'
  end.

(** [s.endswith(p)] *)
Definition endswith (p s : str) : bool := startswith (rev p) (rev s).

(** The leftmost occurrence of [sep] in [s]: the text before it and the
    text after it.  This is [s.split(sep, 1)] when [sep] occurs, and the
    search performed by a lazy [(.*?)] followed by the literal [sep]. *)
Fixpoint split_first (sep s : str) : option (str * str) :=
  if startswith sep s then Some ([], skipn (length sep) s)
  else match s with
       | [] => None
       | c :: s' =>
           match split_first sep s' with
           | Some (a, b) => Some (c :: a, b)
           | None => None
           end
       end.

(** [p in s] *)
Definition occurs (p s : str) : bool :=
  match split_first p s with Some _ => true | None => false end.

(** A lazy [(.*?)] followed by the lookahead [(?=stop1|stop2|...|\Z)]:
    the shortest prefix after which one of the stops begins or the text
    ends; returns the prefix and the remaining text. *)
Fixpoint lazy_until (stops : list str) (s : str) : str * str :=
  if existsb (fun p => startswith p s) stops then ([], s)
  else match s with
       | [] => ([], [])
       | c :: s' => let (a, b) := lazy_until stops s' in (c :: a, b)
       end.

(** [s.split('\n')] *)
Fixpoint split_lines (s : str) : list str :=
  match s with
  | [] => [[]]
  | c :: s' =>
      if Ascii.eqb c nl then [] :: split_lines s'
      else match split_lines s' with
           | [] => [[c]]
           | l :: ls => (c :: l) :: ls
           end
  end.

(** [sep.join(parts)] *)
Fixpoint join (sep : str) (parts : list str) : str :=
  match parts with
  | [] => []
  | [p] => p
  | p :: ps => p ++ sep ++ join sep ps
  end.

(** [s.replace(old, new)]: every non-overlapping occurrence, left to
    right.  [skip] counts the characters of an occurrence still to be
    dropped. *)
Fixpoint replace_from (old new : str) (skip : nat) (s : str) : str :=
  match skip with
  | S k => match s with [] => [] | _ :: s' => replace_from old new k s' end
  | O =>
      match s with
      | [] => if startswith old [] then new else []
      | c :: s' =>
          if startswith old s then
            match old with
            | [] => new ++ c :: replace_from old new 0 s'
            | _ :: old' => new ++ replace_from old new (length old') s'
            end
          else c :: replace_from old new 0 s'
      end
  end.

Definition replace (old new s : str) : str := replace_from old new 0 s.

(** [str.isspace] on one character (code points below 256). *)
Definition isspace (c : ascii) : bool :=
  let n := nat_of_ascii c in
  ((9 <=? n) && (n <=? 13)) || ((28 <=? n) && (n <=? 32))
  || (n =? 133) || (n =? 160).

Fixpoint lstrip (s : str) : str :=
  match s with
  | [] => []
  | c :: s' => if isspace c then lstrip s' else s
  end.

Fixpoint rstrip (s : str) : str :=
  match s with
  | [] => []
  | c :: s' =>
      match rstrip s' with
      | [] => if isspace c then [] else [c]
      | r => c :: r
      end
  end.

(** [s.strip()] *)
Definition strip (s : str) : str := rstrip (lstrip s).

(** [s[a:b]] for [0 <= a <= b] *)
Definition slice (a b : nat) (s : str) : str := firstn (b - a) (skipn a s).

(** [\d] of the [re] module on code points below 256. *)
Definition isdigit (c : ascii) : bool :=
  let n := nat_of_ascii c in (48 <=? n) && (n <=? 57).

(** ** Decimal and hexadecimal numerals *)

Definition digit_char (n : nat) : ascii := ascii_of_nat (48 + n mod 10).

Fixpoint decimal_aux (fuel n : nat) (acc : str) : str :=
  match fuel with
  | O => acc
  | S f =>
      if n <? 10 then digit_char n :: acc
      else decimal_aux f (n / 10) (digit_char n :: acc)
  end.

(** [str(n)] for a natural number *)
Definition decimal (n : nat) : str := decimal_aux (S n) n [].

(** [f"{n:0{w}d}"]: zero-padded to at least [w] digits. *)
Definition zfill (w n : nat) : str :=
  let d := decimal n in
  repeat "0"%char (w - length d) ++ d.

Definition hex_char (n : nat) : ascii :=
  if n <? 10 then ascii_of_nat (48 + n) else ascii_of_nat (87 + n).

(** ** [int(s)] on a string (base 10)

    [int] accepts surrounding whitespace, one sign and digits that may be
    separated by single underscores.  Its whitespace is C's [isspace] on
    ASCII and the Unicode spaces above 127. *)

Definition int_space (c : ascii) : bool :=
  let n := nat_of_ascii c in
  ((9 <=? n) && (n <=? 13)) || (n =? 32) || (n =? 133) || (n =? 160).

Fixpoint int_lstrip (s : str) : str :=
  match s with
  | [] => []
  | c :: s' => if int_space c then int_lstrip s' else s
  end.

Definition int_strip (s : str) : str := rev (int_lstrip (rev (int_lstrip s))).

(** Digits with single underscores between them; [prev] tells whether
    the previous character was a digit. *)
Fixpoint int_digits (prev : bool) (acc : Z) (s : str) : option Z :=
  match s with
  | [] => if prev then Some acc else None
  | c :: s' =>
      if isdigit c then
        int_digits true (10 * acc + Z.of_nat (nat_of_ascii c - 48))%Z s'
      else if Ascii.eqb c "_"%char then
        if prev then int_digits false acc s' else None
      else None
  end.

(** [int(s)]; [None] stands for [ValueError]. *)
Definition py_int (s : str) : option Z :=
  match int_strip s with
  | [] => None
  | c :: s' =>
      if Ascii.eqb c "-"%char then option_map Z.opp (int_digits false 0%Z s')
      else if Ascii.eqb c "+"%char then int_digits false 0%Z s'
      else int_digits false 0%Z (c :: s')
  end.

(** ** [json.dumps] and [json.loads] on lists of strings

    The codec serialises list fields with [json.dumps] and reads back a
    value that starts with a bracket with [json.loads].  Both are
    embedded on the fragment the codec uses, arrays of strings:
    [dumps] with the default [ensure_ascii] and separators, [loads] with
    the default strict mode.  [loads] is [None] where Python raises
    [JSONDecodeError] and also where the text is JSON of another shape
    (numbers, nested arrays, code points above 255), which a [Task] with
    string lists cannot hold. *)

Module Json.

Definition quote : ascii := "034"%char.
Definition backslash : ascii := "\"%char.

(** One character under [ensure_ascii]: the named escapes, then
    [\u00xx] for everything outside [' '..'~']. *)
Definition escape_char (c : ascii) : str :=
  let n := nat_of_ascii c in
  if Ascii.eqb c quote then [backslash; quote]
  else if Ascii.eqb c backslash then [backslash; backslash]
  else if n =? 10 then [backslash; "n"%char]
  else if n =? 13 then [backslash; "r"%char]
  else if n =? 9 then [backslash; "t"%char]
  else if n =? 8 then [backslash; "b"%char]
  else if n =? 12 then [backslash; "f"%char]
  else if (32 <=? n) && (n <=? 126) then [c]
  else [backslash; "u"%char; "0"%char; "0"%char;
        hex_char (n / 16); hex_char (n mod 16)].

Definition dumps_str (s : str) : str :=
  quote :: flat_map escape_char s ++ [quote].

(** [json.dumps(l)] for a list of strings *)
Definition dumps (l : list str) : str :=
  lit "[" ++ join (lit ", ") (map dumps_str l) ++ lit "]".

Definition is_ws (c : ascii) : bool :=
  let n := nat_of_ascii c in
  (n =? 32) || (n =? 9) || (n =? 10) || (n =? 13).

Definition hex_val (c : ascii) : option nat :=
  let n := nat_of_ascii c in
  if (48 <=? n) && (n <=? 57) then Some (n - 48)
  else if (97 <=? n) && (n <=? 102) then Some (n - 87)
  else if (65 <=? n) && (n <=? 70) then Some (n - 55)
  else None.

(** The scanner's position in the grammar
    [ws '[' ws (']' | string ws (',' ws string ws)* ']') ws]. *)
Inductive state :=
| Begin                               (* before the opening bracket *)
| Open                                (* after '[': a string or ']' *)
| Next                                (* after ',': a string *)
| In (acc : str)                      (* inside a string, reversed *)
| Esc (acc : str)                     (* after a backslash *)
| Hex (acc : str) (k : nat) (v : nat) (* in [\u], k digits read *)
| Sep                                 (* after a string: ',' or ']' *)
| Done.                               (* after ']' *)

Fixpoint scan (st : state) (out : list str) (s : str)
  : option (list str) :=
  match s with
  | [] => match st with Done => Some (rev out) | _ => None end
  | c :: s' =>
      match st with
      | Begin =>
          if is_ws c then scan Begin out s'
          else if Ascii.eqb c "["%char then scan Open out s'
          else None
      | Open =>
          if is_ws c then scan Open out s'
          else if Ascii.eqb c "]"%char then scan Done out s'
          else if Ascii.eqb c quote then scan (In []) out s'
          else None
      | Next =>
          if is_ws c then scan Next out s'
          else if Ascii.eqb c quote then scan (In []) out s'
          else None
      | In acc =>
          if Ascii.eqb c quote then scan Sep (rev acc :: out) s'
          else if Ascii.eqb c backslash then scan (Esc acc) out s'
          else if nat_of_ascii c <? 32 then None
          else scan (In (c :: acc)) out s'
      | Esc acc =>
          if Ascii.eqb c quote then scan (In (quote :: acc)) out s'
          else if Ascii.eqb c backslash then scan (In (backslash :: acc)) out s'
          else if Ascii.eqb c "/"%char then scan (In ("/"%char :: acc)) out s'
          else if Ascii.eqb c "b"%char then scan (In (ascii_of_nat 8 :: acc)) out s'
          else if Ascii.eqb c "f"%char then scan (In (ascii_of_nat 12 :: acc)) out s'
          else if Ascii.eqb c "n"%char then scan (In (ascii_of_nat 10 :: acc)) out s'
          else if Ascii.eqb c "r"%char then scan (In (ascii_of_nat 13 :: acc)) out s'
          else if Ascii.eqb c "t"%char then scan (In (ascii_of_nat 9 :: acc)) out s'
          else if Ascii.eqb c "u"%char then scan (Hex acc 0 0) out s'
          else None
      | Hex acc k v =>
          match hex_val c with
          | None => None
          | Some d =>
              let v' := 16 * v + d in
              if k =? 3 then
                if v' <? 256 then scan (In (ascii_of_nat v' :: acc)) out s'
                else None
              else scan (Hex acc (S k) v') out s'
          end
      | Sep =>
          if is_ws c then scan Sep out s'
          else if Ascii.eqb c ","%char then scan Next out s'
          else if Ascii.eqb c "]"%char then scan Done out s'
          else None
      | Done => if is_ws c then scan Done out s' else None
      end
  end.

(** [json.loads(s)] *)
Definition loads (s : str) : option (list str) := scan Begin [] s.

End Json.

(** ** [datetime.now().isoformat()] *)

Record datetime := mkDatetime {
  year : nat; month : nat; day : nat;
  hour : nat; minute : nat; second : nat; microsecond : nat }.

(** [YYYY-MM-DDTHH:MM:SS], followed by [.ffffff] unless the microseconds
    are zero. *)
Definition isoformat (d : datetime) : str :=
  zfill 4 (year d) ++ lit "-" ++ zfill 2 (month d) ++ lit "-" ++
  zfill 2 (day d) ++ lit "T" ++ zfill 2 (hour d) ++ lit ":" ++
  zfill 2 (minute d) ++ lit ":" ++ zfill 2 (second d) ++
  (if microsecond d =? 0 then [] else lit "." ++ zfill 6 (microsecond d)).

(** ** The [Task] dataclass *)

(** A comment of the thread: a dict with the keys [timestamp], [agent]
    and [message]. *)
Record Comment := mkComment {
  timestamp : str; agent : str; message : str }.

Record Task := mkTask {
  id : str;
  title : str;
  description : str;
  status : str;
  priority : str;
  assigned : list str;
  subscribers : list str;
  tags : list str;
  created : str;
  updated : str;
  prd : option str;
  plan : option str;
  pr : option str;
  thread : list Comment }.

(** What the source raises.  [ValueError] carries three messages, kept
    apart here under the names the specification gives them.
    [Unmodelled] marks a run that leaves the embedding: a value of
    another dynamic type than the dataclass declares, a dunder attribute,
    an agent name with regular-expression metacharacters. *)
Inductive error :=
| MalformedRecord            (* ValueError("Invalid task file format") *)
| InvalidStatus (s : str)    (* ValueError("Invalid status: ...") *)
| NotFound (task_id : str)   (* ValueError("Task ... not found") *)
| JSONDecodeError
| FileNotFoundError
| TypeError
| Unmodelled.

Inductive res (A : Type) :=
| Ok (a : A)
| Raise (e : error).
Arguments Ok {A} a.
Arguments Raise {A} e.

(** A value of the frontmatter dict: a string, or a list where the
    source tests [isinstance(value, list)]. *)
Inductive fmval :=
| FStr (s : str)
| FList (l : list str).

(** The optional links are written only when truthy. *)
Definition optional_entry (key : string) (o : option str)
  : list (str * fmval) :=
  match o with
  | Some (c :: s) => [(lit key, FStr (c :: s))]
  | _ => []
  end.

(** The [frontmatter] dict of [to_markdown], in insertion order. *)
Definition frontmatter_of (t : Task) : list (str * fmval) :=
  [ (lit "id", FStr (id t));
    (lit "title", FStr (title t));
    (lit "status", FStr (status t));
    (lit "priority", FStr (priority t));
    (lit "created", FStr (created t));
    (lit "updated", FStr (updated t));
    (lit "assigned", FList (assigned t));
    (lit "subscribers", FList (subscribers t));
    (lit "tags", FList (tags t)) ]
  ++ optional_entry "prd" (prd t)
  ++ optional_entry "plan" (plan t)
  ++ optional_entry "pr" (pr t).

Definition fm_line (kv : str * fmval) : str :=
  match snd kv with
  | FList l => fst kv ++ lit ": " ++ Json.dumps l
  | FStr s => fst kv ++ lit ": " ++ s
  end.

Definition comment_lines (c : Comment) : list str :=
  [ lit "### " ++ timestamp c ++ lit " - " ++ agent c; message c; [] ].

(** [Task.to_markdown] *)
Definition to_markdown (t : Task) : str :=
  let fm_lines := [lit "---"] ++ map fm_line (frontmatter_of t) ++ [lit "---"] in
  let body := [ []; lit "# " ++ title t; []; lit "## Description";
                description t; [] ] in
  let body :=
    match thread t with
    | [] => body
    | _ :: _ => body ++ [lit "## Thread"; []] ++ flat_map comment_lines (thread t)
    end in
  join [nl] (fm_lines ++ body).

(** [re.match] with the pattern [^---\n(.*?)\n---\n] followed by a
    greedy group up to [$], under [re.DOTALL]: the frontmatter text and
    the body. *)
Definition fm_match (content : str) : option (str * str) :=
  if startswith (lit "---" ++ [nl]) content
  then split_first ([nl] ++ lit "---" ++ [nl]) (skipn 4 content)
  else None.

(** One iteration of the loop over the frontmatter lines; the dict is
    kept with its latest binding first. *)
Definition parse_fm_line (fm : list (str * fmval)) (line : str)
  : res (list (str * fmval)) :=
  match split_first (lit ":") line with
  | None => Ok fm
  | Some (k, v) =>
      let key := strip k in
      let value := strip v in
      if startswith (lit "[") value then
        match Json.loads value with
        | Some l => Ok ((key, FList l) :: fm)
        | None => Raise JSONDecodeError
        end
      else Ok ((key, FStr value) :: fm)
  end.

Fixpoint parse_fm_lines (fm : list (str * fmval)) (lines : list str)
  : res (list (str * fmval)) :=
  match lines with
  | [] => Ok fm
  | line :: rest =>
      match parse_fm_line fm line with
      | Ok fm' => parse_fm_lines fm' rest
      | Raise e => Raise e
      end
  end.

Fixpoint fm_get (key : str) (fm : list (str * fmval)) : option fmval :=
  match fm with
  | [] => None
  | (k, v) :: fm' => if str_eqb k key then Some v else fm_get key fm'
  end.

(** [frontmatter.get(key, default)] read at the type the dataclass
    declares for the field. *)
Definition get_str (key : string) (default : str) (fm : list (str * fmval))
  : res str :=
  match fm_get (lit key) fm with
  | None => Ok default
  | Some (FStr s) => Ok s
  | Some (FList _) => Raise Unmodelled
  end.

Definition get_list (key : string) (fm : list (str * fmval))
  : res (list str) :=
  match fm_get (lit key) fm with
  | None => Ok []
  | Some (FList l) => Ok l
  | Some (FStr _) => Raise Unmodelled
  end.

Definition get_opt (key : string) (fm : list (str * fmval))
  : res (option str) :=
  match fm_get (lit key) fm with
  | None => Ok None
  | Some (FStr s) => Ok (Some s)
  | Some (FList _) => Raise Unmodelled
  end.

(** The longest prefix whose characters satisfy [f], and the rest: a
    greedy character class. *)
Fixpoint span (f : ascii -> bool) (s : str) : str * str :=
  match s with
  | [] => ([], [])
  | c :: s' =>
      if f c then let (a, b) := span f s' in (c :: a, b) else ([], s)
  end.

(** [re.findall]: matches are tried at every position from left to
    right; after a match of [n] characters the search resumes behind it.
    [m] returns the captured groups and the length of the match. *)
Fixpoint findall (A : Type) (m : str -> option (A * nat)) (skip : nat) (s : str)
  : list A :=
  match s with
  | [] => []
  | _ :: s' =>
      match skip with
      | S k => findall m k s'
      | O =>
          match m s with
          | Some (a, n) => a :: findall m (n - 1) s'
          | None => findall m 0 s'
          end
      end
  end.

(** The class [[\d\-:T]] *)
Definition is_ts_char (c : ascii) : bool :=
  isdigit c || Ascii.eqb c "-"%char || Ascii.eqb c ":"%char
  || Ascii.eqb c "T"%char.

Definition not_nl (c : ascii) : bool := negb (Ascii.eqb c nl).

(** [### ([\d\-:T]+) - ([^\n]+)\n(.*?)(?=\n### |\Z)] at the head of [s] *)
Definition match_comment (s : str) : option (Comment * nat) :=
  if startswith (lit "### ") s then
    let (ts, s2) := span is_ts_char (skipn 4 s) in
    match ts with
    | [] => None
    | _ :: _ =>
        if startswith (lit " - ") s2 then
          let (ag, s4) := span not_nl (skipn 3 s2) in
          match ag, s4 with
          | _ :: _, _ :: s5 =>
              let (msg, _) := lazy_until [nl :: lit "### "] s5 in
              Some (mkComment ts ag msg,
                    4 + length ts + 3 + length ag + 1 + length msg)
          | _, _ => None
          end
        else None
    end
  else None.

Definition strip_message (c : Comment) : Comment :=
  mkComment (timestamp c) (agent c) (strip (message c)).

(** The thread: the comments found in the text that follows the first
    [## Thread\n\n] of the body ([re.search] with a greedy group up to
    [$], under [re.DOTALL]). *)
Definition parse_thread (body : str) : list Comment :=
  match split_first (lit "## Thread" ++ [nl; nl]) body with
  | Some (_, thread_text) =>
      map strip_message (findall match_comment 0 thread_text)
  | None => []
  end.

(** [re.search(r'## Description\n(.*?)(?=\n## |\Z)', body, re.DOTALL)] *)
Definition parse_description (body : str) : str :=
  match split_first (lit "## Description" ++ [nl]) body with
  | Some (_, rest) => strip (fst (lazy_until [nl :: lit "## "] rest))
  | None => []
  end.

Definition bind_res (A B : Type) (r : res A) (k : A -> res B) : res B :=
  match r with
  | Ok a => k a
  | Raise e => Raise e
  end.

Declare Scope res_scope.
Notation "x <~ r ;; k" := (bind_res r (fun x => k))
  (at level 61, r at next level, right associativity) : res_scope.
Local Open Scope res_scope.

(** [Task.from_markdown], on the text of the file. *)
Definition from_markdown (content : str) : res Task :=
  match fm_match content with
  | None => Raise MalformedRecord
  | Some (fm_text, body) =>
      fm <~ parse_fm_lines [] (split_lines fm_text) ;;
      let thread := parse_thread body in
      let description := parse_description body in
      id_ <~ get_str "id" [] fm ;;
      title_ <~ get_str "title" [] fm ;;
      status_ <~ get_str "status" (lit "inbox") fm ;;
      priority_ <~ get_str "priority" (lit "P2") fm ;;
      assigned_ <~ get_list "assigned" fm ;;
      subscribers_ <~ get_list "subscribers" fm ;;
      tags_ <~ get_list "tags" fm ;;
      created_ <~ get_str "created" [] fm ;;
      updated_ <~ get_str "updated" [] fm ;;
      prd_ <~ get_opt "prd" fm ;;
      plan_ <~ get_opt "plan" fm ;;
      pr_ <~ get_opt "pr" fm ;;
      Ok (mkTask id_ title_ description status_ priority_ assigned_
            subscribers_ tags_ created_ updated_ prd_ plan_ pr_ thread)
  end.

(** ** The workspace

    [tasks] is the directory [workspace/tasks]: one listing per status
    directory that exists, each listing in the order [os.listdir] returns
    it.  A task id names a file of a status directory (no path
    separators).  [clock] is the sequence of readings of
    [datetime.now()], [ticks] the number of readings taken so far. *)

Abbreviation listing := (list (str * str)).

Record World := mkWorld {
  tasks : list (str * listing);
  activity_log : str;
  notifications_file : option str;
  clock : nat -> datetime;
  ticks : nat }.

(** Code that raises keeps the effects it had before: a computation
    returns its outcome together with the workspace it leaves. *)
Definition M (A : Type) := World -> res A * World.

Definition ret (A : Type) (a : A) : M A := fun w => (Ok a, w).
Definition raise (A : Type) (e : error) : M A := fun w => (Raise e, w).
Definition bind (A B : Type) (m : M A) (k : A -> M B) : M B :=
  fun w => match m w with
           | (Ok a, w') => k a w'
           | (Raise e, w') => (Raise e, w')
           end.
Definition lift (A : Type) (r : res A) : M A := fun w => (r, w).
Arguments raise {A} e.

Declare Scope m_scope.
Delimit Scope m_scope with M.
Notation "x <- m ;; k" := (bind m (fun x => k))
  (at level 61, m at next level, right associativity) : m_scope.
Notation "m ;;; k" := (bind m (fun _ => k))
  (at level 61, right associativity) : m_scope.

Fixpoint lookup (A : Type) (k : str) (l : list (str * A)) : option A :=
  match l with
  | [] => None
  | (k', v) :: l' => if str_eqb k' k then Some v else lookup k l'
  end.

(** Bind [k] to [v]: in place when [k] is bound, at the end otherwise. *)
Fixpoint put (A : Type) (k : str) (v : A) (l : list (str * A))
  : list (str * A) :=
  match l with
  | [] => [(k, v)]
  | (k', v') :: l' =>
      if str_eqb k' k then (k', v) :: l' else (k', v') :: put k v l'
  end.

Definition drop (A : Type) (k : str) (l : list (str * A)) : list (str * A) :=
  filter (fun kv => negb (str_eqb (fst kv) k)) l.

Definition mem (x : str) (l : list str) : bool := existsb (str_eqb x) l.

Definition set_tasks (w : World) (t : list (str * listing)) : World :=
  mkWorld t (activity_log w) (notifications_file w) (clock w) (ticks w).
Definition set_activity_log (w : World) (a : str) : World :=
  mkWorld (tasks w) a (notifications_file w) (clock w) (ticks w).
Definition set_notifications_file (w : World) (n : option str) : World :=
  mkWorld (tasks w) (activity_log w) n (clock w) (ticks w).

(** [os.listdir(status_dir)], [None] when the directory does not exist *)
Definition listdir (status : str) (w : World) : option listing :=
  lookup status (tasks w).

(** The content of [tasks/<status>/<filename>], if the file exists *)
Definition read (status filename : str) (w : World) : option str :=
  match listdir status w with
  | Some l => lookup filename l
  | None => None
  end.

(** [os.path.exists(filepath)] *)
Definition file_exists (status filename : str) (w : World) : bool :=
  match read status filename w with Some _ => true | None => false end.

(** [datetime.now()] *)
Definition now : M datetime :=
  fun w => (Ok (clock w (ticks w)),
            mkWorld (tasks w) (activity_log w) (notifications_file w)
              (clock w) (S (ticks w))).

(** [open(filepath, 'r').read()] *)
Definition read_file (status filename : str) : M str :=
  fun w => match read status filename w with
           | Some c => (Ok c, w)
           | None => (Raise FileNotFoundError, w)
           end.

(** [open(filepath, 'w').write(content)] *)
Definition write_file (status filename content : str) : M unit :=
  fun w => match listdir status w with
           | Some l => (Ok tt, set_tasks w (put status (put filename content l) (tasks w)))
           | None => (Raise FileNotFoundError, w)
           end.

(** [os.remove(filepath)] *)
Definition remove_file (status filename : str) : M unit :=
  fun w => match listdir status w with
           | Some l =>
               if file_exists status filename w
               then (Ok tt, set_tasks w (put status (drop filename l) (tasks w)))
               else (Raise FileNotFoundError, w)
           | None => (Raise FileNotFoundError, w)
           end.

Local Open Scope m_scope.

(** ** [TaskManager] *)

Definition statuses : list str :=
  map lit [ "inbox"; "in-discovery"; "in-planning"; "ready-to-build";
            "in-progress"; "ready-for-testing"; "in-qa"; "ready-to-deploy";
            "deployed"; "blocked" ]%string.

Definition md (task_id : str) : str := task_id ++ lit ".md".

(** [TaskManager.log_activity] *)
Definition log_activity (agent message : str) : M unit :=
  d <- now ;;
  fun w => (Ok tt,
            set_activity_log w
              (activity_log w ++ isoformat d ++ lit " | " ++ agent ++
               lit " | " ++ message ++ [nl])).

(** The inner loop of [_generate_task_id] over one directory. *)
Fixpoint max_in_listing (max_id : Z) (l : listing) : Z :=
  match l with
  | [] => max_id
  | (filename, _) :: l' =>
      if startswith (lit "task-") filename && endswith (lit ".md") filename
      then match py_int (slice 5 8 filename) with
           | Some num => max_in_listing (Z.max max_id num) l'
           | None => max_in_listing max_id l'
           end
      else max_in_listing max_id l'
  end.

Fixpoint max_in_statuses (max_id : Z) (sts : list str) (w : World) : Z :=
  match sts with
  | [] => max_id
  | s :: sts' =>
      match listdir s w with
      | Some l => max_in_statuses (max_in_listing max_id l) sts' w
      | None => max_in_statuses max_id sts' w
      end
  end.

(** [f"task-{n:03d}"] *)
Definition task_name (n : Z) : str := lit "task-" ++ zfill 3 (Z.to_nat n).

(** [TaskManager._generate_task_id] *)
Definition _generate_task_id (w : World) : str :=
  task_name (max_in_statuses 0 statuses w + 1).

(** [TaskManager.create_task]; [tags or []] is [tags] itself. *)
Definition create_task (title description priority : str) (tags : list str)
  : M Task :=
  fun w =>
    let task_id := _generate_task_id w in
    (created <- now ;;
     updated <- now ;;
     let task := mkTask task_id title description (lit "inbox") priority
                   [] [] tags (isoformat created) (isoformat updated)
                   None None None [] in
     write_file (lit "inbox") (md task_id) (to_markdown task) ;;;
     log_activity (lit "system")
       (lit "Created task " ++ task_id ++ lit ": " ++ title) ;;;
     ret task) w.

(** The loop of [_find_task_file] and [find_task]: the first status
    directory that holds the file. *)
Fixpoint first_status_with (filename : str) (sts : list str) (w : World)
  : option str :=
  match sts with
  | [] => None
  | s :: sts' =>
      if file_exists s filename w then Some s
      else first_status_with filename sts' w
  end.

(** [TaskManager._find_task_file]: the path [tasks/<status>/<id>.md],
    given by its status directory. *)
Definition _find_task_file (task_id : str) (w : World) : option str :=
  first_status_with (md task_id) statuses w.

(** [Task.from_markdown(filepath)] *)
Definition load (status filename : str) : M Task :=
  content <- read_file status filename ;;
  lift (from_markdown content).

(** [TaskManager.find_task] *)
Definition find_task (task_id : str) : M (option Task) :=
  fun w =>
    match _find_task_file task_id w with
    | Some s => (task <- load s (md task_id) ;; ret (Some task)) w
    | None => (Ok None, w)
    end.

(** The first two statements of the mutating operations. *)
Definition locate (task_id : str) : M str :=
  fun w =>
    match _find_task_file task_id w with
    | Some s => (Ok s, w)
    | None => (Raise (NotFound task_id), w)
    end.

Definition with_id (t : Task) (v : str) : Task :=
  mkTask v (title t) (description t) (status t) (priority t) (assigned t)
    (subscribers t) (tags t) (created t) (updated t) (prd t) (plan t) (pr t)
    (thread t).
Definition with_title (t : Task) (v : str) : Task :=
  mkTask (id t) v (description t) (status t) (priority t) (assigned t)
    (subscribers t) (tags t) (created t) (updated t) (prd t) (plan t) (pr t)
    (thread t).
Definition with_description (t : Task) (v : str) : Task :=
  mkTask (id t) (title t) v (status t) (priority t) (assigned t)
    (subscribers t) (tags t) (created t) (updated t) (prd t) (plan t) (pr t)
    (thread t).
Definition with_status (t : Task) (v : str) : Task :=
  mkTask (id t) (title t) (description t) v (priority t) (assigned t)
    (subscribers t) (tags t) (created t) (updated t) (prd t) (plan t) (pr t)
    (thread t).
Definition with_priority (t : Task) (v : str) : Task :=
  mkTask (id t) (title t) (description t) (status t) v (assigned t)
    (subscribers t) (tags t) (created t) (updated t) (prd t) (plan t) (pr t)
    (thread t).
Definition with_assigned (t : Task) (v : list str) : Task :=
  mkTask (id t) (title t) (description t) (status t) (priority t) v
    (subscribers t) (tags t) (created t) (updated t) (prd t) (plan t) (pr t)
    (thread t).
Definition with_subscribers (t : Task) (v : list str) : Task :=
  mkTask (id t) (title t) (description t) (status t) (priority t) (assigned t)
    v (tags t) (created t) (updated t) (prd t) (plan t) (pr t) (thread t).
Definition with_tags (t : Task) (v : list str) : Task :=
  mkTask (id t) (title t) (description t) (status t) (priority t) (assigned t)
    (subscribers t) v (created t) (updated t) (prd t) (plan t) (pr t)
    (thread t).
Definition with_created (t : Task) (v : str) : Task :=
  mkTask (id t) (title t) (description t) (status t) (priority t) (assigned t)
    (subscribers t) (tags t) v (updated t) (prd t) (plan t) (pr t) (thread t).
Definition with_updated (t : Task) (v : str) : Task :=
  mkTask (id t) (title t) (description t) (status t) (priority t) (assigned t)
    (subscribers t) (tags t) (created t) v (prd t) (plan t) (pr t) (thread t).
Definition with_prd (t : Task) (v : option str) : Task :=
  mkTask (id t) (title t) (description t) (status t) (priority t) (assigned t)
    (subscribers t) (tags t) (created t) (updated t) v (plan t) (pr t)
    (thread t).
Definition with_plan (t : Task) (v : option str) : Task :=
  mkTask (id t) (title t) (description t) (status t) (priority t) (assigned t)
    (subscribers t) (tags t) (created t) (updated t) (prd t) v (pr t)
    (thread t).
Definition with_pr (t : Task) (v : option str) : Task :=
  mkTask (id t) (title t) (description t) (status t) (priority t) (assigned t)
    (subscribers t) (tags t) (created t) (updated t) (prd t) (plan t) v
    (thread t).
Definition with_thread (t : Task) (v : list Comment) : Task :=
  mkTask (id t) (title t) (description t) (status t) (priority t) (assigned t)
    (subscribers t) (tags t) (created t) (updated t) (prd t) (plan t) (pr t) v.

(** The fields of the dataclass, as [update_task] can name them. *)
Inductive field :=
| f_id | f_title | f_description | f_status | f_priority | f_assigned
| f_subscribers | f_tags | f_created | f_updated | f_prd | f_plan | f_pr
| f_thread.

Definition field_name (f : field) : str :=
  lit match f with
      | f_id => "id" | f_title => "title" | f_description => "description"
      | f_status => "status" | f_priority => "priority"
      | f_assigned => "assigned" | f_subscribers => "subscribers"
      | f_tags => "tags" | f_created => "created" | f_updated => "updated"
      | f_prd => "prd" | f_plan => "plan" | f_pr => "pr"
      | f_thread => "thread"
      end%string.

Definition all_fields : list field :=
  [ f_id; f_title; f_description; f_status; f_priority; f_assigned;
    f_subscribers; f_tags; f_created; f_updated; f_prd; f_plan; f_pr;
    f_thread ].

Definition field_of_name (key : str) : option field :=
  find (fun f => str_eqb (field_name f) key) all_fields.

(** A keyword value of [update_task]. *)
Inductive pyval :=
| VStr (s : str)
| VList (l : list str)
| VNone
| VThread (l : list Comment).

(** [setattr(task, key, value)] on a field, for a value of the type the
    dataclass declares. *)
Definition setattr (t : Task) (f : field) (v : pyval) : res Task :=
  match f, v with
  | f_id, VStr s => Ok (with_id t s)
  | f_title, VStr s => Ok (with_title t s)
  | f_description, VStr s => Ok (with_description t s)
  | f_status, VStr s => Ok (with_status t s)
  | f_priority, VStr s => Ok (with_priority t s)
  | f_assigned, VList l => Ok (with_assigned t l)
  | f_subscribers, VList l => Ok (with_subscribers t l)
  | f_tags, VList l => Ok (with_tags t l)
  | f_created, VStr s => Ok (with_created t s)
  | f_updated, VStr s => Ok (with_updated t s)
  | f_prd, VStr s => Ok (with_prd t (Some s))
  | f_prd, VNone => Ok (with_prd t None)
  | f_plan, VStr s => Ok (with_plan t (Some s))
  | f_plan, VNone => Ok (with_plan t None)
  | f_pr, VStr s => Ok (with_pr t (Some s))
  | f_pr, VNone => Ok (with_pr t None)
  | f_thread, VThread l => Ok (with_thread t l)
  | _, _ => Raise Unmodelled
  end.

(** One iteration of [if hasattr(task, key): setattr(task, key, value)].
    Besides its fields a [Task] has the attributes [to_markdown] and
    [from_markdown] and the dunder attributes of every object; the
    boolean records that the instance attribute [to_markdown] now hides
    the method. *)
Definition apply_update (st : Task * bool) (kv : str * pyval)
  : res (Task * bool) :=
  let (t, hidden) := st in
  let (key, v) := kv in
  match field_of_name key with
  | Some f => t' <~ setattr t f v ;; Ok (t', hidden)
  | None =>
      if str_eqb key (lit "to_markdown") then Ok (t, true)
      else if str_eqb key (lit "from_markdown") then Ok (t, hidden)
      else if startswith (lit "__") key then Raise Unmodelled
      else Ok (t, hidden)
  end.

Fixpoint apply_updates (st : Task * bool) (updates : list (str * pyval))
  : res (Task * bool) :=
  match updates with
  | [] => Ok st
  | kv :: rest => st' <~ apply_update st kv ;; apply_updates st' rest
  end.

(** [TaskManager.update_task].  [open(filepath, 'w')] empties the file
    before [task.to_markdown()] is evaluated. *)
Definition update_task (task_id : str) (updates : list (str * pyval))
  : M Task :=
  s <- locate task_id ;;
  task <- load s (md task_id) ;;
  st <- lift (apply_updates (task, false) updates) ;;
  d <- now ;;
  let task := with_updated (fst st) (isoformat d) in
  if snd st then
    write_file s (md task_id) [] ;;; raise TypeError
  else
    write_file s (md task_id) (to_markdown task) ;;; ret task.

(** [TaskManager.move_task] *)
Definition move_task (task_id new_status : str) : M Task :=
  if negb (mem new_status statuses) then raise (InvalidStatus new_status)
  else
    old <- locate task_id ;;
    task <- load old (md task_id) ;;
    let old_status := status task in
    d <- now ;;
    let task := with_updated (with_status task new_status) (isoformat d) in
    write_file new_status (md task_id) (to_markdown task) ;;;
    remove_file old (md task_id) ;;;
    log_activity (lit "system")
      (lit "Moved " ++ task_id ++ lit " from " ++ old_status ++ lit " to "
       ++ new_status) ;;;
    ret task.

Definition pending_header : str := lit "## Pending" ++ [nl; nl].

(** The f-string of [_notify_subscribers] for one agent *)
Definition render_notif (agent commenter message : str) (task : Task)
  (time : str) : str :=
  [nl] ++ lit "### @" ++ agent ++ [nl] ++
  lit "From: " ++ commenter ++ lit " (" ++ id task ++ lit ")" ++ [nl] ++
  lit "Message: " ++ firstn 100 message ++
    (if 100 <? length message then lit "..." else []) ++ [nl] ++
  lit "Time: " ++ time ++ [nl] ++
  lit "Link: workspace/tasks/" ++ status task ++ lit "/" ++ id task ++
    lit ".md" ++ [nl] ++
  [nl].

(** The loop of [_notify_subscribers] over [to_notify] *)
Fixpoint insert_notifs (to_notify : list str) (commenter message : str)
  (task : Task) (content : str) : M str :=
  match to_notify with
  | [] => ret content
  | agent :: rest =>
      d <- now ;;
      let notif := render_notif agent commenter message task
                     (firstn 16 (isoformat d)) in
      insert_notifs rest commenter message task
        (replace pending_header (pending_header ++ notif) content)
  end.

(** [TaskManager._notify_subscribers] *)
Definition _notify_subscribers (task : Task) (commenter message : str)
  : M unit :=
  let to_notify :=
    filter (fun s => negb (str_eqb s commenter)) (subscribers task) in
  match to_notify with
  | [] => ret tt
  | _ :: _ =>
      fun w =>
        let content :=
          match notifications_file w with
          | Some c => c
          | None => lit "# Notifications" ++ [nl; nl] ++ pending_header
          end in
        (content' <- insert_notifs to_notify commenter message task content ;;
         fun w' => (Ok tt, set_notifications_file w' (Some content'))) w
  end.

(** [TaskManager.add_comment] *)
Definition add_comment (task_id agent message : str) : M Task :=
  s <- locate task_id ;;
  task <- load s (md task_id) ;;
  d <- now ;;
  let comment := mkComment (firstn 16 (isoformat d)) agent message in
  let task := with_thread task (thread task ++ [comment]) in
  let task :=
    if mem agent (subscribers task) then task
    else with_subscribers task (subscribers task ++ [agent]) in
  d' <- now ;;
  let task := with_updated task (isoformat d') in
  write_file s (md task_id) (to_markdown task) ;;;
  log_activity agent (lit "Commented on " ++ task_id) ;;;
  _notify_subscribers task agent message ;;;
  ret task.

(** [TaskManager.assign_task] *)
Definition assign_task (task_id agent : str) : M Task :=
  found <- find_task task_id ;;
  match found with
  | None => raise (NotFound task_id)
  | Some task =>
      let task :=
        if mem agent (assigned task) then task
        else
          let task := with_assigned task (assigned task ++ [agent]) in
          if mem agent (subscribers task) then task
          else with_subscribers task (subscribers task ++ [agent]) in
      update_task task_id
        [ (lit "assigned", VList (assigned task));
          (lit "subscribers", VList (subscribers task)) ]
  end.

(** The [.md] files of a listing, as every scan filters them. *)
Definition is_md (filename : str) : bool := endswith (lit ".md") filename.

(** First loop of [find_work], within one directory: the first record
    whose [assigned] holds the role. *)
Fixpoint first_assigned (agent_role : str) (l : listing)
  : res (option Task) :=
  match l with
  | [] => Ok None
  | (filename, content) :: l' =>
      if is_md filename then
        task <~ from_markdown content ;;
        if mem agent_role (assigned task) then Ok (Some task)
        else first_assigned agent_role l'
      else first_assigned agent_role l'
  end.

Fixpoint first_assigned_in (agent_role : str) (sts : list str) (w : World)
  : res (option Task) :=
  match sts with
  | [] => Ok None
  | s :: sts' =>
      match listdir s w with
      | None => first_assigned_in agent_role sts' w
      | Some l =>
          found <~ first_assigned agent_role l ;;
          match found with
          | Some task => Ok (Some task)
          | None => first_assigned_in agent_role sts' w
          end
      end
  end.

(** [find_mentions] within one directory *)
Fixpoint mentions_in_listing (pattern : str) (l : listing) : res (list Task) :=
  match l with
  | [] => Ok []
  | (filename, content) :: l' =>
      if is_md filename && occurs pattern content then
        task <~ from_markdown content ;;
        rest <~ mentions_in_listing pattern l' ;;
        Ok (task :: rest)
      else mentions_in_listing pattern l'
  end.

Fixpoint mentions_in (pattern : str) (sts : list str) (w : World)
  : res (list Task) :=
  match sts with
  | [] => Ok []
  | s :: sts' =>
      match listdir s w with
      | None => mentions_in pattern sts' w
      | Some l =>
          here <~ mentions_in_listing pattern l ;;
          rest <~ mentions_in pattern sts' w ;;
          Ok (here ++ rest)
      end
  end.

(** [TaskManager.find_mentions] *)
Definition find_mentions (agent : str) (w : World) : res (list Task) :=
  mentions_in (lit "@" ++ agent) statuses w.

(** The dict [status_map] of [find_work] *)
Definition status_map (agent_role : str) : option str :=
  lookup agent_role
    [ (lit "pm", lit "inbox");
      (lit "architect", lit "in-planning");
      (lit "engineer", lit "ready-to-build");
      (lit "qa", lit "ready-for-testing");
      (lit "security", lit "in-progress");
      (lit "devops", lit "ready-to-deploy") ].

(** Last loop of [find_work]: the first record without assignee. *)
Fixpoint first_unassigned (l : listing) : res (option Task) :=
  match l with
  | [] => Ok None
  | (filename, content) :: l' =>
      if is_md filename then
        task <~ from_markdown content ;;
        match assigned task with
        | [] => Ok (Some task)
        | _ :: _ => first_unassigned l'
        end
      else first_unassigned l'
  end.

(** [TaskManager.find_work] *)
Definition find_work (agent_role : str) (w : World) : res (option Task) :=
  found <~ first_assigned_in agent_role statuses w ;;
  match found with
  | Some task => Ok (Some task)
  | None =>
      mentions <~ find_mentions agent_role w ;;
      match mentions with
      | task :: _ => Ok (Some task)
      | [] =>
          match status_map agent_role with
          | None => Ok None
          | Some [] => Ok None
          | Some target_status =>
              match listdir target_status w with
              | None => Ok None
              | Some l => first_unassigned l
              end
          end
      end
  end.

(** ** [NotificationManager] *)

Definition delivered_header : str := lit "## Delivered".

Definition fresh_ledger : str :=
  lit "# Notifications" ++ [nl; nl] ++ pending_header ++
  delivered_header ++ [nl; nl].

(** [NotificationManager._ensure_file_exists], run by the constructor *)
Definition _ensure_file_exists : M unit :=
  fun w =>
    match notifications_file w with
    | Some _ => (Ok tt, w)
    | None => (Ok tt, set_notifications_file w (Some fresh_ledger))
    end.

Definition truthy (o : option str) : bool :=
  match o with Some (_ :: _) => true | _ => false end.

(** [NotificationManager.add_notification] *)
Definition add_notification (to_agent from_agent message : str)
  (task_id link : option str) : M unit :=
  fun w =>
    match notifications_file w with
    | None => (Raise FileNotFoundError, w)
    | Some content =>
        (d <- now ;;
         let timestamp := firstn 16 (isoformat d) in
         let notif :=
           [nl] ++ lit "### @" ++ to_agent ++ [nl] ++
           lit "From: " ++ from_agent ++
             (match task_id with
              | Some (c :: s) => lit " (" ++ c :: s ++ lit ")"
              | _ => []
              end) ++ [nl] ++
           lit "Message: " ++ message ++ [nl] ++
           lit "Time: " ++ timestamp ++ [nl] ++
           (match link with
            | Some (c :: s) => lit "Link: " ++ c :: s
            | _ => []
            end) ++ [nl] ++
           [nl] in
         fun w' =>
           (Ok tt,
            set_notifications_file w'
              (Some (replace pending_header (pending_header ++ notif) content))))
          w
    end.

(** The text between the first [## Pending\n\n] and the first
    [## Delivered] behind it: group 1 of the pattern
    [## Pending\n\n(.*?)## Delivered] under [re.DOTALL]. *)
Definition pending_section (content : str) : option str :=
  match split_first pending_header content with
  | Some (_, rest) =>
      match split_first delivered_header rest with
      | Some (pending, _) => Some pending
      | None => None
      end
  | None => None
  end.

(** The agent's name is pasted into a pattern; the embedding reads it
    literally, which is what [re] does for a name without
    metacharacters. *)
Definition regex_literal (agent : str) : bool :=
  forallb (fun c => negb (existsb (Ascii.eqb c) (lit ".^$*+?{}[]\|()"))) agent.

(** [### @<agent>\n(.*?)(?=\n### @|\n## |\Z)] at the head of [s]: the
    header, the lazy group and the length of the match. *)
Definition match_entry (agent : str) (s : str) : option ((str * str) * nat) :=
  let header := lit "### @" ++ agent ++ [nl] in
  if startswith header s then
    let (body, _) :=
      lazy_until [nl :: lit "### @"; nl :: lit "## "]
        (skipn (length header) s) in
    Some ((header, body), length header + length body)
  else None.

(** [re.search(label + '([^...]+)', s)]: the first place where [label]
    is followed by a character of the class, and the greedy run there. *)
Fixpoint search_field (label : str) (f : ascii -> bool) (s : str)
  : option str :=
  match s with
  | [] => None
  | _ :: s' =>
      if startswith label s then
        match fst (span f (skipn (length label) s)) with
        | [] => search_field label f s'
        | run => Some run
        end
      else search_field label f s'
  end.

(** [re.search(r'\(([^)]+)\)', s)] *)
Fixpoint search_parens (s : str) : option str :=
  match s with
  | [] => None
  | c :: s' =>
      if Ascii.eqb c "("%char then
        let (run, rest) := span (fun c => negb (Ascii.eqb c ")"%char)) s' in
        match run, rest with
        | _ :: _, _ :: _ => Some run
        | _, _ => search_parens s'
        end
      else search_parens s'
  end.

(** A notification dict: the keys that were parsed. *)
Record Notification := mkNotification {
  notif_from : option str;
  notif_task_id : option str;
  notif_message : option str;
  notif_time : option str;
  notif_link : option str }.

Definition parse_entry (entry : str) : Notification :=
  mkNotification
    (option_map strip
       (search_field (lit "From: ")
          (fun c => not_nl c && negb (Ascii.eqb c "("%char)) entry))
    (search_parens entry)
    (option_map strip (search_field (lit "Message: ") not_nl entry))
    (option_map strip (search_field (lit "Time: ") not_nl entry))
    (option_map strip (search_field (lit "Link: ") not_nl entry)).

Definition nonempty_dict (n : Notification) : bool :=
  match notif_from n, notif_task_id n, notif_message n, notif_time n,
        notif_link n with
  | None, None, None, None, None => false
  | _, _, _, _, _ => true
  end.

(** [NotificationManager.get_notifications] *)
Definition get_notifications (agent : str) (w : World)
  : res (list Notification) :=
  match notifications_file w with
  | None => Ok []
  | Some content =>
      match pending_section content with
      | None => Ok []
      | Some pending =>
          if regex_literal agent then
            Ok (filter nonempty_dict
                  (map (fun m => parse_entry (snd m))
                     (findall (match_entry agent) 0 pending)))
          else Raise Unmodelled
      end
  end.

(** The loop that stamps the delivered entries *)
Fixpoint stamp_delivered (agent_notifs : list str) : M (list str) :=
  match agent_notifs with
  | [] => ret []
  | notif :: rest =>
      d <- now ;;
      stamped <- stamp_delivered rest ;;
      ret ((notif ++ lit "Delivered: " ++ firstn 16 (isoformat d) ++ [nl])
           :: stamped)
  end.

(** [NotificationManager.mark_delivered] *)
Definition mark_delivered (agent : str) : M unit :=
  fun w =>
    match notifications_file w with
    | None => (Ok tt, w)
    | Some content =>
        match pending_section content with
        | None => (Ok tt, w)
        | Some pending_content =>
            if regex_literal agent then
              let agent_notifs :=
                map (fun m => fst m ++ snd m)
                  (findall (match_entry agent) 0 pending_content) in
              match agent_notifs with
              | [] => (Ok tt, w)
              | _ :: _ =>
                  let pending_content :=
                    fold_left (fun pc notif => replace notif [] pc)
                      agent_notifs pending_content in
                  (delivered_notifs <- stamp_delivered agent_notifs ;;
                   let delivered_content :=
                     match split_first (delivered_header ++ [nl; nl]) content with
                     | Some (_, rest) => rest
                     | None => []
                     end in
                   let new_content :=
                     pending_header ++ pending_content ++ delivered_header ++
                     [nl; nl] ++ concat delivered_notifs ++ delivered_content in
                   fun w' =>
                     (Ok tt, set_notifications_file w' (Some new_content))) w
              end
            else (Raise Unmodelled, w)
        end
    end.


(** ** Sample workspaces

    A clock that advances by one second per reading, and a board whose
    ten status directories exist and are empty. *)

Definition sample_clock (n : nat) : datetime :=
  mkDatetime 2026 2 2 14 (30 + n / 60) (n mod 60) 0.

Definition blank_board : World :=
  mkWorld (map (fun s => (s, [])) statuses) [] None sample_clock 0.

(** The workspace a computation leaves, and whether it returned. *)
Definition after (A : Type) (m : M A) (w : World) : World := snd (m w).

Definition returned (A : Type) (r : res A) : bool :=
  match r with Ok _ => true | Raise _ => false end.

(** [s.count(p)] for a non-empty [p]: the non-overlapping occurrences *)
Fixpoint count_from (p : str) (skip : nat) (s : str) : nat :=
  match s with
  | [] => 0
  | _ :: s' =>
      match skip with
      | S k => count_from p k s'
      | O => if startswith p s then S (count_from p (length p - 1) s')
             else count_from p 0 s'
      end
  end.

Definition count (p s : str) : nat := count_from p 0 s.

(** [createTask("Add login", "Implement OAuth")] on the blank board *)
Definition board_one_task : World :=
  after (create_task (lit "Add login") (lit "Implement OAuth") (lit "P2") [])
    blank_board.

(** A record with two assignees, a link and a thread of two comments,
    the second one of two paragraphs. *)
Definition sample_task : Task :=
  mkTask (lit "task-007") (lit "Add login") (lit "Implement OAuth")
    (lit "in-progress") (lit "P1")
    [lit "engineer"] [lit "engineer"; lit "qa"] [lit "auth"; lit "web"]
    (lit "2026-02-02T14:30:00.250000") (lit "2026-02-02T15:10:42")
    (Some (lit "docs/prd-login.md")) None None
    [ mkComment (lit "2026-02-02T14:45") (lit "engineer") (lit "Started work");
      mkComment (lit "2026-02-02T15:10") (lit "qa")
        (lit "Two things:" ++ [nl; nl] ++ lit "1. tests  2. docs") ].

(** The same record with a description that ends in a newline. *)
Definition sample_task_newline : Task :=
  with_description sample_task (lit "Implement OAuth" ++ [nl]).

(** The id a call of [create_task] returned *)
Definition created_id (r : res Task) : option str :=
  match r with Ok t => Some (id t) | Raise _ => None end.

(** Three tasks created on the blank board *)
Definition board_three_tasks : World :=
  after (create_task (lit "Third") (lit "c") (lit "P2") [])
    (after (create_task (lit "Second") (lit "b") (lit "P2") [])
       (after (create_task (lit "First") (lit "a") (lit "P2") [])
          blank_board)).

(** The text of the ledger, empty when the file is absent *)
Definition ledger_text (w : World) : str :=
  match notifications_file w with Some c => c | None => [] end.

(** The task a computation returned; [sample_task] stands in when it
    raised. *)
Definition task_of (r : res Task) : Task :=
  match r with Ok t => t | Raise _ => sample_task end.

(** The board with one task whose subscribers are alice, bob and carol,
    and the ledger a [NotificationManager] creates. *)
Definition board_subscribed : World :=
  after _ensure_file_exists
    (after (update_task (lit "task-001")
              [(lit "subscribers",
                VList [lit "alice"; lit "bob"; lit "carol"])])
       board_one_task).

(** A comment that quotes the Pending header of the ledger *)
Definition quoting_comment : str :=
  lit "see ## Pending" ++ [nl; nl] ++ lit "above".

(** ** [TaskManager.list_tasks] *)

(** The loop of [list_tasks] over the files of one directory *)
Fixpoint tasks_in_listing (l : listing) : res (list Task) :=
  match l with
  | [] => Ok []
  | (filename, content) :: l' =>
      if is_md filename then
        task <~ from_markdown content ;;
        rest <~ tasks_in_listing l' ;;
        Ok (task :: rest)
      else tasks_in_listing l'
  end.

(** The loop of [list_tasks] over [statuses_to_check] *)
Fixpoint tasks_in (sts : list str) (w : World) : res (list Task) :=
  match sts with
  | [] => Ok []
  | s :: sts' =>
      match listdir s w with
      | None => tasks_in sts' w
      | Some l =>
          here <~ tasks_in_listing l ;;
          rest <~ tasks_in sts' w ;;
          Ok (here ++ rest)
      end
  end.

(** [TaskManager.list_tasks]: [statuses_to_check] is [[status]] when
    [status] is truthy, every status otherwise (an empty string is
    falsy). *)
Definition list_tasks (status : option str) (w : World) : res (list Task) :=
  match status with
  | Some (c :: s) => tasks_in [c :: s] w
  | _ => tasks_in statuses w
  end.

(** ** [ActivityLogger]

    The log is the text of [activity.log].  A log that does not exist
    reads as the empty one: the guard of each reader returns the empty
    list for it, which is what [readlines] gives for the empty text.
    Files are read as they were written: the texts are taken to hold no
    carriage return, which text mode would read back as a line feed. *)

(** [f.readlines()]: the lines with their line breaks *)
Fixpoint readlines (s : str) : list str :=
  match s with
  | [] => []
  | c :: s' =>
      if Ascii.eqb c nl then [nl] :: readlines s'
      else match readlines s' with
           | [] => [[c]]
           | l :: ls => (c :: l) :: ls
           end
  end.

(** [lines[-n:]] for an integer [n]: the last [n] elements when [n] is
    positive, the list without its first [-n] elements otherwise (so
    the whole list for [n = 0]). *)
Definition last_n (A : Type) (n : Z) (l : list A) : list A :=
  if (0 <? n)%Z then skipn (length l - Z.to_nat n) l
  else skipn (Z.to_nat (- n)) l.

(** [c.lower()] for a code point below 256 *)
Definition lower_char (c : ascii) : ascii :=
  let n := nat_of_ascii c in
  if ((65 <=? n) && (n <=? 90))
     || ((192 <=? n) && (n <=? 222) && negb (n =? 215))
  then ascii_of_nat (n + 32)
  else c.

(** [s.lower()] *)
Definition lower (s : str) : str := map lower_char s.

(** [ActivityLogger.log] *)
Definition log (agent message : str) : M unit :=
  d <- now ;;
  fun w => (Ok tt,
            set_activity_log w
              (activity_log w ++ isoformat d ++ lit " | " ++ agent ++
               lit " | " ++ message ++ [nl])).

(** [ActivityLogger.recent] *)
Definition recent (n : Z) (w : World) : list str :=
  last_n n (readlines (activity_log w)).

(** [ActivityLogger.by_agent] *)
Definition by_agent (agent : str) (n : Z) (w : World) : list str :=
  last_n n
    (filter (fun line => occurs (lit " | " ++ agent ++ lit " | ") line)
       (readlines (activity_log w))).

(** [ActivityLogger.search] *)
Definition search (query : str) (w : World) : list str :=
  filter (fun line => occurs (lower query) (lower line))
    (readlines (activity_log w)).

(** ** [StandupGenerator]: the selection of tasks and activities *)

(** [StandupGenerator._completed_today] *)
Definition _completed_today (tasks : list Task) (date : str) : list Task :=
  filter
    (fun task =>
       str_eqb (status task) (lit "deployed")
       && str_eqb (firstn 10 (updated task)) date)
    tasks.

(** [StandupGenerator._in_progress] *)
Definition _in_progress (tasks : list Task) : list Task :=
  filter
    (fun t =>
       mem (status t)
         [lit "in-progress"; lit "in-qa"; lit "in-discovery"; lit "in-planning"])
    tasks.

(** [StandupGenerator._blocked] *)
Definition _blocked (tasks : list Task) : list Task :=
  filter (fun t => str_eqb (status t) (lit "blocked")) tasks.

(** [StandupGenerator._needs_review] *)
Definition _needs_review (tasks : list Task) : list Task :=
  filter (fun t => str_eqb (status t) (lit "ready-to-deploy")) tasks.




(** ** Where the workspace stands for the files

    Every file is opened in text mode.  [open(path, 'r').read()] returns
    the text of the file with each carriage return, and each carriage
    return followed by a line feed, turned into one line feed
    ([text_mode]).  The workspace holds the text of a file as a reader
    gets it, so a text that an operation writes is the text a later
    read returns exactly when it holds no carriage return; the
    properties that read back what was written take their texts from
    that range ([no_cr]).

    An id or a status is pasted into a path by [os.path.join]; the
    workspace looks it up as the name of a file or of a directory,
    which is what the path means when the text holds no separator
    ([no_sep]) and, for a directory, is none of the two dot names
    ([dir_name]). *)

(** The carriage return, written [\r] *)
Definition cr : ascii := "013"%char.

Definition no_cr (s : str) : bool :=
  forallb (fun c => negb (Ascii.eqb c cr)) s.

Definition no_cr_opt (o : option str) : bool :=
  match o with Some s => no_cr s | None => true end.

(** What [read()] returns for a file that holds [s] *)
Fixpoint text_mode (s : str) : str :=
  match s with
  | [] => []
  | c :: s' =>
      if Ascii.eqb c cr then
        nl :: match s' with
              | d :: s'' => if Ascii.eqb d nl then text_mode s'' else text_mode s'
              | [] => []
              end
      else c :: text_mode s'
  end.

Definition no_cr_comment (c : Comment) : bool :=
  no_cr (timestamp c) && no_cr (agent c) && no_cr (message c).

(** The texts of a task that [to_markdown] writes as they are; the
    elements of the three lists are written by [json.dumps], which
    escapes a carriage return. *)
Definition no_cr_task (t : Task) : bool :=
  no_cr (id t) && no_cr (title t) && no_cr (description t) &&
  no_cr (status t) && no_cr (priority t) && no_cr (created t) &&
  no_cr (updated t) && no_cr_opt (prd t) && no_cr_opt (plan t) &&
  no_cr_opt (pr t) && forallb no_cr_comment (thread t).

(** A text without the separator of paths *)
Definition no_sep (s : str) : bool :=
  forallb (fun c => negb (Ascii.eqb c "/"%char)) s.

(** A text that names a directory inside the one it is joined to *)
Definition dir_name (s : str) : bool :=
  no_sep s && negb (str_eqb s (lit ".")) && negb (str_eqb s (lit "..")).

(** A name that a call of [update_task(self, task_id, **updates)] can
    pass as a keyword: the names of the two parameters are taken, a
    call that repeats one of them raises [TypeError] before the body
    runs. *)
Definition keyword (key : str) : bool :=
  negb (str_eqb key (lit "task_id")) && negb (str_eqb key (lit "self")).

(* ================================================================== *)
(** * Part II.  Properties                                             *)
(* ================================================================== *)

(** ** Strings *)

Lemma str_eqb_eq (a b : str) : str_eqb a b = true <-> a = b.
Proof.
  revert b; induction a as [|x a IH]; intros [|y b]; simpl;
    try (split; congruence).
  rewrite andb_true_iff, Ascii.eqb_eq, IH. split.
  - intros [-> ->]; reflexivity.
  - intros H; injection H; auto.
Qed.

Lemma str_eqb_refl (a : str) : str_eqb a a = true.
Proof. apply str_eqb_eq; reflexivity. Qed.

Lemma str_eqb_neq (a b : str) : str_eqb a b = false <-> a <> b.
Proof.
  rewrite <- str_eqb_eq. destruct (str_eqb a b); split; congruence.
Qed.

Lemma mem_In (x : str) (l : list str) : mem x l = true <-> In x l.
Proof.
  unfold mem. rewrite existsb_exists. split.
  - intros [y [Hy E]]. apply str_eqb_eq in E. subst; assumption.
  - intros H. exists x. split; [assumption | apply str_eqb_refl].
Qed.

Lemma mem_false (x : str) (l : list str) : mem x l = false <-> ~ In x l.
Proof.
  rewrite <- mem_In. destruct (mem x l); split; congruence.
Qed.

Lemma startswith_app (p s : str) : startswith p (p ++ s) = true.
Proof.
  induction p as [|c p IH]; simpl; [reflexivity|].
  rewrite Ascii.eqb_refl; assumption.
Qed.

Lemma startswith_iff (p s : str) :
  startswith p s = true <-> exists r, s = p ++ r.
Proof.
  split.
  - revert s; induction p as [|c p IH]; intros s H; simpl in *.
    + exists s; reflexivity.
    + destruct s as [|d s]; [discriminate|].
      apply andb_true_iff in H as [E H]. apply Ascii.eqb_eq in E; subst d.
      destruct (IH _ H) as [r ->]. exists r; reflexivity.
  - intros [r ->]. apply startswith_app.
Qed.

Lemma startswith_skipn (p s : str) :
  startswith p s = true -> s = p ++ skipn (length p) s.
Proof.
  intros H. apply startswith_iff in H as [r ->].
  rewrite skipn_app, skipn_all, Nat.sub_diag. reflexivity.
Qed.

(** The head of [s ++ r] decides [startswith] once [s] is long enough. *)
Lemma startswith_app_long (p s r r' : str) :
  length p <= length s ->
  startswith p (s ++ r) = startswith p (s ++ r').
Proof.
  revert s; induction p as [|c p IH]; intros s H; simpl; [reflexivity|].
  destruct s as [|d s]; simpl in *; [lia|].
  rewrite (IH s) by lia. reflexivity.
Qed.

Lemma split_first_unfold (sep s : str) :
  split_first sep s =
  if startswith sep s then Some ([], skipn (length sep) s)
  else match s with
       | [] => None
       | c :: s' =>
           match split_first sep s' with
           | Some (a, b) => Some (c :: a, b)
           | None => None
           end
       end.
Proof. destruct s; reflexivity. Qed.

Lemma split_first_spec (sep s a b : str) :
  split_first sep s = Some (a, b) -> s = a ++ sep ++ b.
Proof.
  revert a b; induction s as [|c s IH]; intros a b;
    rewrite split_first_unfold.
  - destruct (startswith sep []) eqn:E; [|discriminate].
    intros H; injection H as <- <-. apply startswith_skipn in E. exact E.
  - destruct (startswith sep (c :: s)) eqn:E.
    + intros H; injection H as <- <-.
      apply startswith_skipn in E. exact E.
    + destruct (split_first sep s) as [[a' b']|]; [|discriminate].
      intros H; injection H as <- <-.
      simpl; f_equal. apply IH; reflexivity.
Qed.

(** [sep] starts nowhere inside [a] when [a] is followed by [rest]. *)
Fixpoint clear_before (sep a rest : str) : Prop :=
  match a with
  | [] => True
  | _ :: a' => startswith sep (a ++ rest) = false /\ clear_before sep a' rest
  end.

Lemma split_first_intro (sep a b : str) :
  clear_before sep a (sep ++ b) ->
  split_first sep (a ++ sep ++ b) = Some (a, b).
Proof.
  induction a as [|c a IH]; simpl clear_before.
  - intros _. rewrite split_first_unfold. simpl app.
    rewrite startswith_app, skipn_app, skipn_all, Nat.sub_diag.
    reflexivity.
  - intros [H1 H2]. simpl app in *. rewrite split_first_unfold, H1.
    rewrite (IH H2). reflexivity.
Qed.

Lemma split_first_clear (sep s a b : str) :
  split_first sep s = Some (a, b) -> clear_before sep a (sep ++ b).
Proof.
  revert a b; induction s as [|c s IH]; intros a b;
    rewrite split_first_unfold.
  - destruct (startswith sep []); [|discriminate].
    intros H; injection H as <- <-. exact I.
  - destruct (startswith sep (c :: s)) eqn:E.
    + intros H; injection H as <- <-. exact I.
    + destruct (split_first sep s) as [[a' b']|] eqn:F; [|discriminate].
      intros H; injection H as <- <-. simpl. split.
      * apply split_first_spec in F. rewrite <- F. exact E.
      * apply IH; reflexivity.
Qed.

Lemma clear_before_app (sep a1 a2 rest : str) :
  clear_before sep (a1 ++ a2) rest <->
  clear_before sep a1 (a2 ++ rest) /\ clear_before sep a2 rest.
Proof.
  induction a1 as [|c a1 IH]; simpl.
  - tauto.
  - rewrite IH, <- app_assoc. tauto.
Qed.

(** What follows the occurrence itself does not matter. *)
Lemma clear_before_tail (sep a b b' : str) :
  clear_before sep a (sep ++ b) -> clear_before sep a (sep ++ b').
Proof.
  induction a as [|c a IH]; simpl; [tauto|].
  intros [H1 H2]. split; [|auto].
  rewrite <- H1. rewrite !app_assoc.
  apply (startswith_app_long sep (c :: a ++ sep)).
  simpl. rewrite length_app. lia.
Qed.

Lemma occurs_unfold (p : str) (c : ascii) (s : str) :
  occurs p (c :: s) = startswith p (c :: s) || occurs p s.
Proof.
  unfold occurs. rewrite (split_first_unfold p (c :: s)).
  destruct (startswith p (c :: s)); [reflexivity|].
  destruct (split_first p s) as [[a b]|]; reflexivity.
Qed.

Lemma occurs_nil (p : str) : occurs p [] = startswith p [].
Proof. unfold occurs. simpl. destruct (startswith p []); reflexivity. Qed.

Lemma occurs_false_clear (p a rest : str) :
  occurs p (a ++ rest) = false -> clear_before p a rest.
Proof.
  induction a as [|c a IH]; simpl; [tauto|].
  rewrite occurs_unfold. intros H. apply orb_false_iff in H as [H1 H2].
  split; auto.
Qed.

Lemma clear_occurs (p a rest : str) :
  clear_before p a rest -> occurs p (a ++ rest) = occurs p rest.
Proof.
  induction a as [|c a IH]; simpl; [reflexivity|].
  intros [H1 H2]. rewrite occurs_unfold.
  rewrite H1. simpl. auto.
Qed.

Lemma occurs_split (p s : str) :
  occurs p s = true -> exists a b, split_first p s = Some (a, b).
Proof.
  unfold occurs. destruct (split_first p s) as [[a b]|]; [eauto | discriminate].
Qed.

Lemma occurs_intro (p a b : str) : occurs p (a ++ p ++ b) = true.
Proof.
  induction a as [|c a IH]; simpl.
  - destruct (p ++ b) as [|c s] eqn:E.
    + rewrite occurs_nil. destruct p; [reflexivity | discriminate].
    + rewrite occurs_unfold, <- E, startswith_app. reflexivity.
  - rewrite occurs_unfold, IH. apply orb_true_r.
Qed.

Lemma startswith_head_neq (d : ascii) (p : str) (c : ascii) (s : str) :
  d <> c -> startswith (d :: p) (c :: s) = false.
Proof.
  intros H. cbn [startswith].
  destruct (Ascii.eqb_spec d c); [contradiction | reflexivity].
Qed.

Lemma eqb_false_neq (c d : ascii) : Ascii.eqb c d = false -> d <> c.
Proof. intros H E. subst. rewrite Ascii.eqb_refl in H. discriminate. Qed.

Lemma startswith_cons_same (c : ascii) (p s : str) :
  startswith (c :: p) (c :: s) = startswith p s.
Proof. cbn [startswith]. rewrite Ascii.eqb_refl. reflexivity. Qed.

(** Right-nest every concatenation. *)
Ltac norm_app := repeat (progress (rewrite <- ?app_assoc; cbn [app])).

(** ** Whitespace *)

Lemma lstrip_length (s : str) : length (lstrip s) <= length s.
Proof.
  induction s as [|c s IH]; simpl; [lia|].
  destruct (isspace c); simpl; lia.
Qed.

Lemma rstrip_length (s : str) : length (rstrip s) <= length s.
Proof.
  induction s as [|c s IH]; simpl; [lia|].
  destruct (rstrip s); [destruct (isspace c)|]; simpl in *; lia.
Qed.

Lemma lstrip_fix_head (c : ascii) (s : str) :
  lstrip (c :: s) = c :: s -> isspace c = false.
Proof.
  simpl. destruct (isspace c); [|reflexivity].
  intros H. pose proof (lstrip_length s) as L. rewrite H in L.
  simpl in L. lia.
Qed.

Lemma strip_fix (s : str) :
  strip s = s <-> lstrip s = s /\ rstrip s = s.
Proof.
  unfold strip. split.
  - intros H.
    assert (L : lstrip s = s).
    { destruct s as [|c s]; [reflexivity|]. simpl.
      destruct (isspace c) eqn:E; [|reflexivity].
      exfalso. simpl in H. rewrite E in H.
      pose proof (rstrip_length (lstrip s)). pose proof (lstrip_length s).
      rewrite H in *. simpl in *. lia. }
    rewrite L in H. split; assumption.
  - intros [-> ->]. reflexivity.
Qed.

Lemma rstrip_snoc_space (s : str) (c : ascii) :
  isspace c = true -> rstrip (s ++ [c]) = rstrip s.
Proof.
  intros H. induction s as [|d s IH]; simpl.
  - rewrite H. reflexivity.
  - rewrite IH. reflexivity.
Qed.

Lemma rstrip_snoc_keep (s : str) (c : ascii) :
  isspace c = false -> rstrip (s ++ [c]) = s ++ [c].
Proof.
  intros H. induction s as [|d s IH]; simpl.
  - rewrite H. reflexivity.
  - rewrite IH. destruct (s ++ [c]) eqn:E; [|reflexivity].
    destruct s; discriminate.
Qed.

Lemma strip_cons_space (c : ascii) (s : str) :
  isspace c = true -> strip (c :: s) = strip s.
Proof. intros H. unfold strip. simpl. rewrite H. reflexivity. Qed.

(** A stripped text keeps its value behind one trailing space. *)
Lemma strip_snoc_space (s : str) (c : ascii) :
  isspace c = true -> strip s = s -> strip (s ++ [c]) = s.
Proof.
  intros Hc H. apply strip_fix in H as [L R].
  destruct s as [|d s].
  - unfold strip. simpl. rewrite Hc. reflexivity.
  - pose proof (lstrip_fix_head L) as Hd.
    unfold strip. simpl. rewrite Hd.
    change (d :: s ++ [c]) with ((d :: s) ++ [c]).
    rewrite rstrip_snoc_space by assumption. exact R.
Qed.

Lemma strip_nil : strip [] = [].
Proof. reflexivity. Qed.

(** ** Lines *)

Definition single_line (s : str) : bool := forallb not_nl s.

Lemma single_line_app (a b : str) :
  single_line (a ++ b) = single_line a && single_line b.
Proof. apply forallb_app. Qed.

Lemma split_lines_single (p : str) :
  single_line p = true -> split_lines p = [p].
Proof.
  induction p as [|c p IH]; simpl; [reflexivity|].
  unfold not_nl at 1. destruct (Ascii.eqb c nl); simpl; [discriminate|].
  intros H. rewrite (IH H). reflexivity.
Qed.

Lemma split_lines_app (p rest : str) :
  single_line p = true ->
  split_lines (p ++ nl :: rest) = p :: split_lines rest.
Proof.
  induction p as [|c p IH]; simpl; [reflexivity|].
  unfold not_nl at 1. destruct (Ascii.eqb c nl); simpl; [discriminate|].
  intros H. rewrite (IH H). reflexivity.
Qed.

Lemma join_cons (sep p : str) (q : str) (ps : list str) :
  join sep (p :: q :: ps) = p ++ sep ++ join sep (q :: ps).
Proof. reflexivity. Qed.

Lemma split_lines_join (ls : list str) :
  ls <> [] -> forallb single_line ls = true ->
  split_lines (join [nl] ls) = ls.
Proof.
  induction ls as [|p ls IH]; [congruence|].
  intros _ H. simpl in H. apply andb_true_iff in H as [Hp Hls].
  destruct ls as [|q ls].
  - simpl. apply split_lines_single; assumption.
  - rewrite join_cons.
    change ([nl] ++ join [nl] (q :: ls)) with (nl :: join [nl] (q :: ls)).
    rewrite split_lines_app by assumption.
    rewrite IH; [reflexivity | discriminate | assumption].
Qed.

(** A pattern that begins with a newline starts nowhere inside a single
    line. *)
Lemma clear_before_single_line (sep' a rest : str) :
  single_line a = true -> clear_before (nl :: sep') a rest.
Proof.
  induction a as [|c a IH]; [simpl; tauto|].
  intros H. cbn [single_line forallb] in H.
  apply andb_true_iff in H as [Hc Ha].
  split; [|auto].
  cbn [app startswith].
  replace (Ascii.eqb nl c) with false; [reflexivity|].
  symmetry. apply Ascii.eqb_neq. intros E; subst c. discriminate Hc.
Qed.

(** ** [json.loads (json.dumps l) = l] *)

Module JsonFacts.
Import Json.

Lemma scan_escape (c : ascii) (acc : str) (out : list str) (r : str) :
  scan (In acc) out (escape_char c ++ r) = scan (In (c :: acc)) out r.
Proof.
  destruct c as [b0 b1 b2 b3 b4 b5 b6 b7].
  destruct b0, b1, b2, b3, b4, b5, b6, b7; reflexivity.
Qed.

Lemma scan_string (s acc : str) (out : list str) (r : str) :
  scan (In acc) out (flat_map escape_char s ++ quote :: r)
  = scan Sep (rev (rev s ++ acc) :: out) r.
Proof.
  revert acc; induction s as [|c s IH]; intros acc.
  - reflexivity.
  - simpl flat_map. rewrite <- app_assoc, scan_escape, IH.
    simpl rev. rewrite <- app_assoc. reflexivity.
Qed.

Lemma scan_dumps_str_open (s : str) (out : list str) (r : str) :
  scan Open out (dumps_str s ++ r) = scan Sep (s :: out) r.
Proof.
  unfold dumps_str. simpl app. rewrite <- app_assoc. simpl app.
  change (scan Open out (quote :: flat_map escape_char s ++ quote :: r))
    with (scan (In []) out (flat_map escape_char s ++ quote :: r)).
  rewrite scan_string, app_nil_r, rev_involutive. reflexivity.
Qed.

Lemma scan_dumps_str_next (s : str) (out : list str) (r : str) :
  scan Next out (dumps_str s ++ r) = scan Sep (s :: out) r.
Proof.
  unfold dumps_str. simpl app. rewrite <- app_assoc. simpl app.
  change (scan Next out (quote :: flat_map escape_char s ++ quote :: r))
    with (scan (In []) out (flat_map escape_char s ++ quote :: r)).
  rewrite scan_string, app_nil_r, rev_involutive. reflexivity.
Qed.

Lemma scan_rest (l : list str) (s : str) (out : list str) :
  scan Sep (s :: out)
    (match l with
     | [] => lit "]"
     | _ :: _ => lit ", " ++ join (lit ", ") (map dumps_str l) ++ lit "]"
     end)
  = Some (rev out ++ s :: l).
Proof.
  revert s out; induction l as [|x l IH]; intros s out.
  - reflexivity.
  - change (scan Sep (s :: out)
              (lit ", " ++ join (lit ", ") (map dumps_str (x :: l)) ++ lit "]"))
      with (scan Next (s :: out)
              (join (lit ", ") (map dumps_str (x :: l)) ++ lit "]")).
    destruct l as [|y l].
    + simpl join. rewrite scan_dumps_str_next.
      rewrite (IH x (s :: out)). simpl. rewrite <- app_assoc. reflexivity.
    + simpl map. rewrite join_cons, <- !app_assoc.
      rewrite scan_dumps_str_next.
      change (dumps_str y :: map dumps_str l) with (map dumps_str (y :: l)).
      rewrite (IH x (s :: out)). simpl. rewrite <- app_assoc. reflexivity.
Qed.

Theorem loads_dumps (l : list str) : loads (dumps l) = Some l.
Proof.
  unfold loads, dumps.
  change (scan Begin [] (lit "[" ++ join (lit ", ") (map dumps_str l) ++ lit "]"))
    with (scan Open [] (join (lit ", ") (map dumps_str l) ++ lit "]")).
  destruct l as [|x l]; [reflexivity|].
  destruct l as [|y l].
  - simpl join. rewrite scan_dumps_str_open. apply (scan_rest [] x []).
  - simpl map. rewrite join_cons, <- !app_assoc.
    rewrite scan_dumps_str_open.
    change (dumps_str y :: map dumps_str l) with (map dumps_str (y :: l)).
    apply (scan_rest (y :: l) x []).
Qed.

Lemma escape_char_single_line (c : ascii) :
  single_line (escape_char c) = true.
Proof.
  destruct c as [b0 b1 b2 b3 b4 b5 b6 b7].
  destruct b0, b1, b2, b3, b4, b5, b6, b7; reflexivity.
Qed.

Lemma dumps_str_single_line (s : str) : single_line (dumps_str s) = true.
Proof.
  unfold dumps_str. change (quote :: ?x) with ([quote] ++ x).
  rewrite !single_line_app. simpl. rewrite andb_true_r.
  induction s as [|c s IH]; [reflexivity|].
  simpl. rewrite single_line_app, escape_char_single_line. exact IH.
Qed.

Lemma dumps_single_line (l : list str) : single_line (dumps l) = true.
Proof.
  unfold dumps. rewrite !single_line_app. simpl. rewrite andb_true_r.
  induction l as [|x l IH]; [reflexivity|].
  destruct l as [|y l].
  - simpl. apply dumps_str_single_line.
  - simpl map. rewrite join_cons, !single_line_app.
    rewrite dumps_str_single_line. simpl. exact IH.
Qed.

Lemma dumps_bracket (l : list str) : startswith (lit "[") (dumps l) = true.
Proof. reflexivity. Qed.

Lemma dumps_stripped (l : list str) : strip (dumps l) = dumps l.
Proof.
  unfold dumps, strip. simpl lstrip.
  rewrite app_comm_cons, app_assoc. apply rstrip_snoc_keep. reflexivity.
Qed.

End JsonFacts.

(** ** The frontmatter block *)

(** A value that a frontmatter line carries unchanged: one line, no
    surrounding whitespace, no leading bracket. *)
Definition clean (s : str) : Prop :=
  single_line s = true /\ strip s = s /\ startswith (lit "[") s = false.

Definition clean_opt (o : option str) : Prop :=
  match o with Some s => clean s | None => True end.

Definition clean_task (t : Task) : Prop :=
  clean (id t) /\ clean (title t) /\ clean (status t) /\
  clean (priority t) /\ clean (created t) /\ clean (updated t) /\
  clean_opt (prd t) /\ clean_opt (plan t) /\ clean_opt (pr t).

(** An optional link as it comes back: an empty link is not written. *)
Definition written_opt (o : option str) : option str :=
  match o with Some (c :: s) => Some (c :: s) | _ => None end.

Definition no_colon (s : str) : bool :=
  forallb (fun c => negb (Ascii.eqb c ":"%char)) s.

Definition key_ok (key : str) : bool :=
  match key with
  | c :: _ => negb (Ascii.eqb c "-"%char)
  | [] => false
  end && no_colon key && single_line key && str_eqb (strip key) key.

Definition entry_ok (kv : str * fmval) : Prop :=
  key_ok (fst kv) = true /\
  match snd kv with FStr s => clean s | FList _ => True end.

Lemma split_first_colon (key v : str) :
  no_colon key = true ->
  split_first (lit ":") (key ++ lit ": " ++ v) = Some (key, " "%char :: v).
Proof.
  intros H. apply (split_first_intro (lit ":") key (" "%char :: v)).
  induction key as [|c key IH]; [exact I|].
  cbn [no_colon forallb] in H. apply andb_true_iff in H as [Hc Hk].
  split; [|auto].
  apply startswith_head_neq. apply eqb_false_neq.
  destruct (Ascii.eqb c ":"); [discriminate | reflexivity].
Qed.

Lemma key_ok_parts (key : str) :
  key_ok key = true ->
  no_colon key = true /\ single_line key = true /\ strip key = key /\
  exists c k, key = c :: k /\ c <> "-"%char.
Proof.
  unfold key_ok. intros H.
  apply andb_true_iff in H as [H H4]. apply andb_true_iff in H as [H H3].
  apply andb_true_iff in H as [H1 H2].
  apply str_eqb_eq in H4. repeat split; try assumption.
  destruct key as [|c k]; [discriminate|]. exists c, k. split; [reflexivity|].
  intros ->. discriminate.
Qed.

Lemma parse_fm_line_scalar (fm : list (str * fmval)) (key v : str) :
  key_ok key = true -> clean v ->
  parse_fm_line fm (fm_line (key, FStr v)) = Ok ((key, FStr v) :: fm).
Proof.
  intros Hk (Hl & Hs & Hb). apply key_ok_parts in Hk as (Hc & _ & Hks & _).
  unfold parse_fm_line, fm_line. cbn [fst snd].
  rewrite split_first_colon by assumption.
  rewrite Hks, strip_cons_space by reflexivity. rewrite Hs, Hb. reflexivity.
Qed.

Lemma parse_fm_line_list (fm : list (str * fmval)) (key : str) (l : list str) :
  key_ok key = true ->
  parse_fm_line fm (fm_line (key, FList l)) = Ok ((key, FList l) :: fm).
Proof.
  intros Hk. apply key_ok_parts in Hk as (Hc & _ & Hks & _).
  unfold parse_fm_line, fm_line. cbn [fst snd].
  rewrite split_first_colon by assumption.
  rewrite Hks, strip_cons_space by reflexivity.
  rewrite JsonFacts.dumps_stripped, JsonFacts.dumps_bracket,
    JsonFacts.loads_dumps.
  reflexivity.
Qed.

Lemma parse_fm_lines_entries (entries fm : list (str * fmval)) :
  Forall entry_ok entries ->
  parse_fm_lines fm (map fm_line entries) = Ok (rev entries ++ fm).
Proof.
  intros H. revert fm. induction H as [|[k v] entries [Hk Hv] _ IH]; intros fm.
  - reflexivity.
  - simpl map. simpl parse_fm_lines. simpl in Hk, Hv.
    destruct v as [s|l].
    + rewrite parse_fm_line_scalar by assumption.
      rewrite IH. simpl. rewrite <- app_assoc. reflexivity.
    + rewrite parse_fm_line_list by assumption.
      rewrite IH. simpl. rewrite <- app_assoc. reflexivity.
Qed.

Lemma fm_line_single_line (kv : str * fmval) :
  entry_ok kv -> single_line (fm_line kv) = true.
Proof.
  destruct kv as [k v]. intros [Hk Hv]. simpl in Hk, Hv.
  apply key_ok_parts in Hk as (_ & Hl & _ & _).
  unfold fm_line. cbn [fst snd].
  destruct v as [s|l]; rewrite !single_line_app, Hl; simpl.
  - destruct Hv as (H & _ & _). exact H.
  - apply JsonFacts.dumps_single_line.
Qed.

Lemma fm_line_head (kv : str * fmval) :
  entry_ok kv -> exists c l, fm_line kv = c :: l /\ c <> "-"%char.
Proof.
  destruct kv as [k v]. intros [Hk _]. simpl in Hk.
  apply key_ok_parts in Hk as (_ & _ & _ & c & k' & -> & Hc).
  unfold fm_line. cbn [fst snd]. destruct v; simpl; eauto.
Qed.

(** The closing delimiter of the frontmatter is the first line that is
    exactly [---]. *)
Lemma clear_before_lines (lines : list str) (rest : str) :
  Forall (fun l => single_line l = true /\
                   exists c l', l = c :: l' /\ c <> "-"%char) lines ->
  clear_before (nl :: lit "---" ++ [nl]) (join [nl] lines) rest.
Proof.
  induction 1 as [|p ps [Hp _] Hps IH]; [exact I|].
  destruct ps as [|q ps].
  - simpl join. apply clear_before_single_line; assumption.
  - rewrite join_cons. apply clear_before_app. split.
    + apply clear_before_single_line; assumption.
    + apply clear_before_app. split; [|exact IH].
      split; [|exact I].
      inversion Hps as [|? ? [_ (c & q' & -> & Hc)] _]; subst.
      change ([nl] ++ ?x) with (nl :: x). rewrite startswith_cons_same.
      change (lit "---" ++ [nl]) with ("-"%char :: lit "--" ++ [nl]).
      destruct ps; apply startswith_head_neq; congruence.
Qed.

Lemma join_app (sep : str) (a b : list str) :
  a <> [] -> b <> [] -> join sep (a ++ b) = join sep a ++ sep ++ join sep b.
Proof.
  intros Ha Hb. induction a as [|p a IH]; [congruence|].
  destruct a as [|q a].
  - simpl app. destruct b; [congruence|]. reflexivity.
  - change ((p :: q :: a) ++ b) with (p :: q :: (a ++ b)).
    rewrite !join_cons.
    change (q :: a ++ b) with ((q :: a) ++ b).
    rewrite IH by discriminate. rewrite <- !app_assoc. reflexivity.
Qed.

(** The body lines of [to_markdown] *)
Definition body_lines (t : Task) : list str :=
  [ []; lit "# " ++ title t; []; lit "## Description"; description t; [] ]
  ++ match thread t with
     | [] => []
     | _ :: _ => [lit "## Thread"; []] ++ flat_map comment_lines (thread t)
     end.

Definition body_text (t : Task) : str := join [nl] (body_lines t).

Definition fm_text (t : Task) : str :=
  join [nl] (map fm_line (frontmatter_of t)).

Lemma join_delimited (d : str) (fml body : list str) :
  fml <> [] -> body <> [] ->
  join [nl] ([d] ++ fml ++ [d] ++ body) =
  d ++ [nl] ++ join [nl] fml ++ [nl] ++ d ++ [nl] ++ join [nl] body.
Proof.
  intros Hf Hb.
  rewrite (@join_app [nl] [d] (fml ++ [d] ++ body)).
  - rewrite (@join_app [nl] fml ([d] ++ body)); [|assumption|discriminate].
    rewrite (@join_app [nl] [d] body); [|discriminate|assumption].
    reflexivity.
  - discriminate.
  - destruct fml; [congruence | discriminate].
Qed.

Lemma to_markdown_shape (t : Task) :
  to_markdown t =
  lit "---" ++ [nl] ++ fm_text t ++ [nl] ++ lit "---" ++ [nl] ++ body_text t.
Proof.
  unfold fm_text, body_text.
  rewrite <- join_delimited.
  - unfold to_markdown, body_lines. cbv zeta.
    destruct (thread t); rewrite <- ?app_assoc, ?app_nil_r; reflexivity.
  - unfold frontmatter_of. discriminate.
  - unfold body_lines. discriminate.
Qed.

Lemma optional_entry_ok (key : string) (o : option str) :
  key_ok (lit key) = true -> clean_opt o ->
  Forall entry_ok (optional_entry key o).
Proof.
  intros Hk Ho. destruct o as [[|c s]|]; simpl; constructor; [|constructor].
  split; assumption.
Qed.

Lemma frontmatter_entries_ok (t : Task) :
  clean_task t -> Forall entry_ok (frontmatter_of t).
Proof.
  intros (H1 & H2 & H3 & H4 & H5 & H6 & H7 & H8 & H9).
  unfold frontmatter_of.
  repeat (apply Forall_app; split);
    try (apply optional_entry_ok; [reflexivity | assumption]).
  repeat (constructor; [split; [reflexivity | simpl; auto] |]).
  constructor.
Qed.

Lemma fm_match_to_markdown (t : Task) :
  clean_task t ->
  fm_match (to_markdown t) = Some (fm_text t, body_text t).
Proof.
  intros Hc. rewrite to_markdown_shape. unfold fm_match.
  simpl startswith. simpl skipn.
  apply (split_first_intro (nl :: lit "---" ++ [nl]) (fm_text t) (body_text t)).
  apply clear_before_lines.
  apply Forall_forall. intros l Hl. apply in_map_iff in Hl as [kv [<- Hkv]].
  pose proof (frontmatter_entries_ok Hc) as Hf.
  rewrite Forall_forall in Hf. specialize (Hf kv Hkv). split.
  - apply fm_line_single_line; assumption.
  - apply fm_line_head; assumption.
Qed.

Lemma fm_lines_roundtrip (t : Task) :
  clean_task t ->
  parse_fm_lines [] (split_lines (fm_text t)) = Ok (rev (frontmatter_of t)).
Proof.
  intros Hc. unfold fm_text. pose proof (frontmatter_entries_ok Hc) as Hf.
  rewrite split_lines_join.
  - rewrite parse_fm_lines_entries by assumption. rewrite app_nil_r.
    reflexivity.
  - unfold frontmatter_of. discriminate.
  - apply forallb_forall. intros l Hl.
    apply in_map_iff in Hl as [kv [<- Hkv]].
    rewrite Forall_forall in Hf. apply fm_line_single_line; auto.
Qed.

(** What decoding an encoded task returns: the frontmatter fields as
    they were (an empty link reads back as absent), and the description
    and the thread as the body parses. *)
Theorem from_markdown_to_markdown (t : Task) :
  clean_task t ->
  from_markdown (to_markdown t) =
  Ok (mkTask (id t) (title t) (parse_description (body_text t)) (status t)
        (priority t) (assigned t) (subscribers t) (tags t) (created t)
        (updated t) (written_opt (prd t)) (written_opt (plan t))
        (written_opt (pr t)) (parse_thread (body_text t))).
Proof.
  intros Hc. unfold from_markdown.
  rewrite fm_match_to_markdown by assumption.
  rewrite fm_lines_roundtrip by assumption.
  unfold bind_res at 1.
  generalize (parse_description (body_text t)) (parse_thread (body_text t)).
  intros d th.
  unfold frontmatter_of.
  destruct (prd t) as [[|c1 s1]|], (plan t) as [[|c2 s2]|],
    (pr t) as [[|c3 s3]|]; reflexivity.
Qed.

(** ** Searching a text that is built from known pieces *)

Lemma startswith_prefix (q r s : str) :
  startswith (q ++ r) s = true -> startswith q s = true.
Proof.
  intros H. apply startswith_iff in H as [x ->].
  rewrite <- app_assoc. apply startswith_app.
Qed.

(** A one-line pattern cannot reach across a newline. *)
Lemma startswith_single_line_nl (q u x : str) :
  single_line q = true ->
  startswith q (u ++ nl :: x) = true -> startswith q u = true.
Proof.
  revert u; induction q as [|c q IH]; intros u Hq H; [reflexivity|].
  cbn [single_line forallb] in Hq. apply andb_true_iff in Hq as [Hc Hq].
  destruct u as [|d u].
  - cbn [app startswith] in H. apply andb_true_iff in H as [E _].
    apply Ascii.eqb_eq in E. subst c. discriminate Hc.
  - cbn [app startswith] in H |- *. apply andb_true_iff in H as [E H].
    rewrite E. apply (IH u Hq H).
Qed.

Lemma occurs_false_suffix (p a b : str) :
  occurs p (a ++ b) = false -> occurs p b = false.
Proof.
  induction a as [|c a IH]; [tauto|].
  simpl app. rewrite occurs_unfold. intros H.
  apply orb_false_iff in H as [_ H]. auto.
Qed.

Lemma occurs_false_head (p s : str) :
  occurs p s = false -> startswith p s = false.
Proof.
  destruct s as [|c s].
  - rewrite occurs_nil. tauto.
  - rewrite occurs_unfold. intros H. apply orb_false_iff in H as [H _]. exact H.
Qed.

(** A text without the one-line pattern [q], followed by a newline,
    holds no start of [q ++ r]. *)
Lemma clear_before_line_pattern (q r u x : str) :
  single_line q = true -> occurs q u = false ->
  clear_before (q ++ r) u (nl :: x).
Proof.
  intros Hq. induction u as [|c u IH]; [intros; exact I|].
  intros H. split.
  - destruct (startswith (q ++ r) ((c :: u) ++ nl :: x)) eqn:E; [|reflexivity].
    apply startswith_prefix in E.
    apply startswith_single_line_nl in E; [|assumption].
    apply occurs_false_head in H. congruence.
  - apply IH. apply (occurs_false_suffix q [c] u H).
Qed.

(** The same for a pattern whose only newline is its first character. *)
Lemma clear_before_nl_pattern (q u x : str) :
  single_line q = true -> occurs (nl :: q) u = false ->
  clear_before (nl :: q) u (nl :: x).
Proof.
  intros Hq. induction u as [|c u IH]; [intros; exact I|].
  intros H. split.
  - destruct (startswith (nl :: q) ((c :: u) ++ nl :: x)) eqn:E; [|reflexivity].
    cbn [app startswith] in E. apply andb_true_iff in E as [E1 E2].
    apply startswith_single_line_nl in E2; [|assumption].
    apply occurs_false_head in H. cbn [startswith] in H.
    rewrite E1, E2 in H. discriminate.
  - apply IH. apply (occurs_false_suffix (nl :: q) [c] u H).
Qed.

(** [lazy_until] stops behind [a] when no stop begins inside [a] and
    either a stop begins behind it or the text ends. *)
Fixpoint clear_of (stops : list str) (a rest : str) : Prop :=
  match a with
  | [] => True
  | _ :: a' =>
      existsb (fun p => startswith p (a ++ rest)) stops = false /\
      clear_of stops a' rest
  end.

Lemma lazy_until_unfold (stops : list str) (s : str) :
  lazy_until stops s =
  if existsb (fun p => startswith p s) stops then ([], s)
  else match s with
       | [] => ([], [])
       | c :: s' => let (a, b) := lazy_until stops s' in (c :: a, b)
       end.
Proof. destruct s; reflexivity. Qed.

Lemma lazy_until_intro (stops : list str) (a rest : str) :
  clear_of stops a rest ->
  rest = [] \/ existsb (fun p => startswith p rest) stops = true ->
  lazy_until stops (a ++ rest) = (a, rest).
Proof.
  intros Ha Hr. induction a as [|c a IH].
  - simpl app. rewrite lazy_until_unfold.
    destruct Hr as [-> | ->]; [|reflexivity].
    destruct (existsb _ stops); reflexivity.
  - destruct Ha as [H1 H2]. simpl app in *.
    rewrite lazy_until_unfold, H1, (IH H2). reflexivity.
Qed.

Lemma clear_of_single (p a rest : str) :
  clear_before p a rest -> clear_of [p] a rest.
Proof.
  induction a as [|c a IH]; [tauto|].
  intros [H1 H2]. split; [|auto].
  cbn [existsb]. rewrite H1. reflexivity.
Qed.

Lemma clear_of_app (stops : list str) (a1 a2 rest : str) :
  clear_of stops (a1 ++ a2) rest <->
  clear_of stops a1 (a2 ++ rest) /\ clear_of stops a2 rest.
Proof.
  induction a1 as [|c a1 IH]; simpl.
  - tauto.
  - rewrite IH, <- app_assoc. tauto.
Qed.

Lemma span_unfold (f : ascii -> bool) (s : str) :
  span f s =
  match s with
  | [] => ([], [])
  | c :: s' =>
      if f c then let (a, b) := span f s' in (c :: a, b) else ([], s)
  end.
Proof. destruct s; reflexivity. Qed.

Lemma span_app (f : ascii -> bool) (a : str) (d : ascii) (rest : str) :
  forallb f a = true -> f d = false ->
  span f (a ++ d :: rest) = (a, d :: rest).
Proof.
  intros Ha Hd. induction a as [|c a IH].
  - simpl app. rewrite span_unfold, Hd. reflexivity.
  - cbn [forallb] in Ha. apply andb_true_iff in Ha as [Hc Ha].
    simpl app. rewrite span_unfold, Hc, (IH Ha). reflexivity.
Qed.

Lemma findall_skip (A : Type) (m : str -> option (A * nat)) (a rest : str) :
  findall m (length a) (a ++ rest) = findall m 0 rest.
Proof.
  induction a as [|c a IH]; [reflexivity|].
  simpl. exact IH.
Qed.

Lemma findall_match (A : Type) (m : str -> option (A * nat)) (c : ascii)
  (e rest : str) (x : A) :
  m (c :: e ++ rest) = Some (x, S (length e)) ->
  findall m 0 (c :: e ++ rest) = x :: findall m 0 rest.
Proof.
  intros H. cbn [findall]. rewrite H.
  replace (S (length e) - 1) with (length e) by lia.
  rewrite findall_skip. reflexivity.
Qed.

Lemma findall_miss (A : Type) (m : str -> option (A * nat)) (c : ascii)
  (rest : str) :
  m (c :: rest) = None -> findall m 0 (c :: rest) = findall m 0 rest.
Proof. intros H. cbn [findall]. rewrite H. reflexivity. Qed.

(** ** The body *)

(** The text of one comment in the thread section *)
Definition enc_comment (c : Comment) : str :=
  lit "### " ++ timestamp c ++ lit " - " ++ agent c ++ [nl] ++
  message c ++ [nl].

Fixpoint thread_text (l : list Comment) : str :=
  match l with
  | [] => []
  | c :: l' =>
      enc_comment c ++
      match l' with [] => [] | _ :: _ => nl :: thread_text l' end
  end.

Definition thread_tail (t : Task) : str :=
  match thread t with
  | [] => []
  | _ :: _ => nl :: lit "## Thread" ++ [nl; nl] ++ thread_text (thread t)
  end.

Lemma join_comment_lines (l : list Comment) :
  l <> [] -> join [nl] (flat_map comment_lines l) = thread_text l.
Proof.
  induction l as [|c l IH]; [congruence|]. intros _.
  destruct l as [|c' l].
  - unfold thread_text, enc_comment. rewrite app_nil_r.
    cbn [flat_map comment_lines app join].
    rewrite <- !app_assoc. reflexivity.
  - change (flat_map comment_lines (c :: c' :: l))
      with (comment_lines c ++ flat_map comment_lines (c' :: l)).
    rewrite join_app; [|discriminate|discriminate].
    rewrite IH by discriminate.
    change (thread_text (c :: c' :: l))
      with (enc_comment c ++ nl :: thread_text (c' :: l)).
    unfold enc_comment. cbn [comment_lines join].
    rewrite <- !app_assoc. reflexivity.
Qed.

Lemma body_text_shape (t : Task) :
  body_text t =
  nl :: lit "# " ++ title t ++ [nl; nl] ++ lit "## Description" ++ [nl] ++
  description t ++ [nl] ++ thread_tail t.
Proof.
  unfold body_text, body_lines, thread_tail.
  destruct (thread t) as [|c l] eqn:E.
  - rewrite app_nil_r. cbn [join]. norm_app. reflexivity.
  - rewrite join_app; [|discriminate|discriminate].
    rewrite (@join_app [nl] [lit "## Thread"; []]); [|discriminate|discriminate].
    rewrite join_comment_lines by discriminate.
    cbn [join]. norm_app. reflexivity.
Qed.

(** A comment that the thread section carries unchanged. *)
Definition comment_ok (c : Comment) : Prop :=
  timestamp c <> [] /\ forallb is_ts_char (timestamp c) = true /\
  agent c <> [] /\ single_line (agent c) = true /\
  strip (message c) = message c /\
  occurs (nl :: lit "### ") (message c) = false.

(** A title, a description and a thread that the body carries
    unchanged. *)
Definition body_ok (t : Task) : Prop :=
  occurs (lit "## Description") (title t) = false /\
  occurs (lit "## Thread") (title t) = false /\
  strip (description t) = description t /\
  occurs (nl :: lit "## ") (description t) = false /\
  occurs (lit "## Thread") (description t) = false /\
  Forall comment_ok (thread t).

(** Steps through a text whose literal characters are known: a literal
    character is checked by evaluation, a piece of free text by the
    hypothesis that it does not hold the pattern. *)
Ltac walk_clear :=
  repeat first
    [ exact I
    | match goal with
      | |- clear_before ?p (lit ""%string ++ ?x) ?r =>
          change (clear_before p x r)
      | |- clear_before ?p ([] ++ ?x) ?r =>
          change (clear_before p x r)
      end
    | apply clear_before_app; split;
      [ solve [ apply clear_before_line_pattern; [reflexivity | assumption]
              | apply clear_before_nl_pattern; [reflexivity | assumption] ] | ]
    | split; [reflexivity | ] ].

Lemma parse_description_body (t : Task) :
  body_ok t -> parse_description (body_text t) = description t.
Proof.
  intros (Ht1 & Ht2 & Hd1 & Hd2 & Hd3 & Hth).
  unfold parse_description. rewrite body_text_shape.
  replace (nl :: lit "# " ++ title t ++ [nl; nl] ++ lit "## Description" ++
           [nl] ++ description t ++ [nl] ++ thread_tail t)
    with ((nl :: lit "# " ++ title t ++ [nl; nl]) ++
          (lit "## Description" ++ [nl]) ++
          ((description t ++ [nl]) ++ thread_tail t))
    by (norm_app; reflexivity).
  rewrite split_first_intro.
  - rewrite lazy_until_intro.
    + cbn [fst]. apply strip_snoc_space; [reflexivity | assumption].
    + apply clear_of_single. unfold thread_tail.
      destruct (thread t); walk_clear.
    + unfold thread_tail. destruct (thread t); [left | right]; reflexivity.
  - walk_clear.
Qed.

Definition raw_comment (c : Comment) : Comment :=
  mkComment (timestamp c) (agent c) (message c ++ [nl]).

Lemma match_comment_enc (c : Comment) (x : str) :
  comment_ok c ->
  x = [] \/ (exists y, x = nl :: lit "### " ++ y) ->
  match_comment (enc_comment c ++ x)
  = Some (raw_comment c, length (enc_comment c)).
Proof.
  intros (Hts1 & Hts2 & Hag1 & Hag2 & Hm1 & Hm2) Hx.
  unfold match_comment, enc_comment, raw_comment.
  destruct c as [ts ag msg]. cbn [timestamp agent message] in *.
  norm_app.
  change (startswith (lit "### ") _) with true. cbv iota.
  change (skipn 4 (lit "### " ++ ?z)) with z.
  change (lit " - " ++ ?z) with (" "%char :: lit "- " ++ z).
  rewrite (span_app is_ts_char ts " "%char); [|assumption|reflexivity].
  destruct ts as [|t0 ts]; [congruence|].
  change (startswith (lit " - ") _) with true. cbv iota.
  change (skipn 3 (" "%char :: lit "- " ++ ?z)) with z.
  rewrite (span_app not_nl ag nl); [|assumption|reflexivity].
  destruct ag as [|a0 ag]; [congruence|].
  replace (msg ++ nl :: x) with ((msg ++ [nl]) ++ x) by (norm_app; reflexivity).
  rewrite lazy_until_intro.
  - f_equal. f_equal.
    repeat first [rewrite length_app
                 | progress cbn [length lit list_ascii_of_string]].
    lia.
  - apply clear_of_single.
    destruct Hx as [-> | [y ->]]; walk_clear.
  - destruct Hx as [-> | [y ->]]; [left | right]; reflexivity.
Qed.

Lemma thread_text_head (c : Comment) (l : list Comment) :
  exists y, thread_text (c :: l) = lit "### " ++ y.
Proof.
  cbn [thread_text]. unfold enc_comment. eexists. norm_app. reflexivity.
Qed.

Lemma findall_thread_text (l : list Comment) :
  Forall comment_ok l ->
  findall match_comment 0 (thread_text l) = map raw_comment l.
Proof.
  induction 1 as [|c l Hc Hl IH]; [reflexivity|].
  cbn [thread_text map].
  assert (Hx : match l with [] => [] | _ :: _ => nl :: thread_text l end = []
               \/ exists y, match l with [] => [] | _ :: _ => nl :: thread_text l end
                            = nl :: lit "### " ++ y).
  { destruct l as [|c' l']; [left; reflexivity|]. right.
    destruct (thread_text_head c' l') as [y ->]. exists y. reflexivity. }
  pose proof (match_comment_enc Hc Hx) as Hm.
  remember (match l with [] => [] | _ :: _ => nl :: thread_text l end) as x.
  assert (He : exists e, enc_comment c = "#"%char :: e).
  { unfold enc_comment. eexists. norm_app. reflexivity. }
  destruct He as [e He]. rewrite He in *.
  cbn [app length] in Hm |- *.
  rewrite (@findall_match _ match_comment "#"%char e x _ Hm). f_equal.
  subst x. destruct l as [|c' l']; [reflexivity|].
  rewrite findall_miss; [exact IH | reflexivity].
Qed.

Lemma strip_raw_comment (c : Comment) :
  comment_ok c -> strip_message (raw_comment c) = c.
Proof.
  intros (_ & _ & _ & _ & Hm & _). destruct c as [ts ag msg].
  unfold strip_message, raw_comment. cbn [timestamp agent message] in *.
  rewrite strip_snoc_space; [reflexivity | reflexivity | assumption].
Qed.

Lemma parse_thread_body (t : Task) :
  body_ok t -> parse_thread (body_text t) = thread t.
Proof.
  intros (Ht1 & Ht2 & Hd1 & Hd2 & Hd3 & Hth).
  unfold parse_thread. rewrite body_text_shape. unfold thread_tail.
  destruct (thread t) as [|c l] eqn:E.
  - match goal with
    | |- context [split_first ?p ?s] =>
        assert (H : occurs p s = false)
    end.
    { match goal with
      | |- occurs ?p ?s = false => rewrite <- (app_nil_r s)
      end.
      rewrite clear_occurs; [reflexivity|]. walk_clear. }
    unfold occurs in H.
    destruct (split_first _ _) as [[a b]|]; [discriminate | reflexivity].
  - replace (nl :: lit "# " ++ title t ++ [nl; nl] ++ lit "## Description" ++
             [nl] ++ description t ++ [nl] ++
             nl :: lit "## Thread" ++ [nl; nl] ++ thread_text (c :: l))
      with ((nl :: lit "# " ++ title t ++ [nl; nl] ++ lit "## Description" ++
             [nl] ++ description t ++ [nl; nl]) ++
            (lit "## Thread" ++ [nl; nl]) ++ thread_text (c :: l))
      by (norm_app; reflexivity).
    rewrite split_first_intro by walk_clear.
    rewrite findall_thread_text by assumption.
    rewrite map_map. rewrite <- (map_id (c :: l)) at 2.
    apply map_ext_in. intros x Hx. apply strip_raw_comment.
    rewrite Forall_forall in Hth. auto.
Qed.

(** ** The store *)

Section Assoc.
Variable A : Type.

Lemma lookup_put_same (k : str) (v : A) (l : list (str * A)) :
  lookup k (put k v l) = Some v.
Proof.
  induction l as [|[k' v'] l IH]; cbn [put lookup].
  - rewrite str_eqb_refl. reflexivity.
  - destruct (str_eqb k' k) eqn:E; cbn [lookup]; rewrite E; auto.
Qed.

Lemma lookup_put_other (k k' : str) (v : A) (l : list (str * A)) :
  k' <> k -> lookup k' (put k v l) = lookup k' l.
Proof.
  intros H. induction l as [|[k0 v0] l IH]; cbn [put lookup].
  - destruct (str_eqb k k') eqn:E; [|reflexivity].
    apply str_eqb_eq in E. congruence.
  - destruct (str_eqb k0 k) eqn:E; cbn [lookup].
    + apply str_eqb_eq in E. subst k0.
      destruct (str_eqb k k') eqn:E'; [|reflexivity].
      apply str_eqb_eq in E'. congruence.
    + rewrite IH. reflexivity.
Qed.

Lemma lookup_drop_same (k : str) (l : list (str * A)) :
  lookup k (drop k l) = None.
Proof.
  induction l as [|[k' v'] l IH]; [reflexivity|].
  unfold drop in *. cbn [filter fst].
  destruct (str_eqb k' k) eqn:E; cbn [negb]; [exact IH|].
  cbn [lookup]. rewrite E. exact IH.
Qed.

Lemma lookup_drop_other (k k' : str) (l : list (str * A)) :
  k' <> k -> lookup k' (drop k l) = lookup k' l.
Proof.
  intros H. induction l as [|[k0 v0] l IH]; [reflexivity|].
  unfold drop in *. cbn [filter fst lookup].
  destruct (str_eqb k0 k) eqn:E; cbn [negb lookup].
  - apply str_eqb_eq in E. subst k0.
    destruct (str_eqb k k') eqn:E'; [|exact IH].
    apply str_eqb_eq in E'. congruence.
  - rewrite IH. reflexivity.
Qed.

Lemma lookup_In (k : str) (v : A) (l : list (str * A)) :
  lookup k l = Some v -> In (k, v) l.
Proof.
  induction l as [|[k' v'] l IH]; cbn [lookup]; [discriminate|].
  destruct (str_eqb k' k) eqn:E.
  - apply str_eqb_eq in E. intros H; injection H as ->. subst. left; reflexivity.
  - intros H. right. auto.
Qed.

Lemma In_put (k : str) (v : A) (l : list (str * A)) (x : str * A) :
  In x (put k v l) -> x = (k, v) \/ In x l.
Proof.
  induction l as [|[k' v'] l IH]; cbn [put].
  - intros [<- | []]. left; reflexivity.
  - destruct (str_eqb k' k) eqn:E.
    + apply str_eqb_eq in E. subst k'.
      intros [<- | H]; [left; reflexivity | right; right; exact H].
    + intros [<- | H]; [right; left; reflexivity|].
      destruct (IH H) as [-> | H']; [left; reflexivity | right; right; exact H'].
Qed.

Lemma In_drop (k : str) (l : list (str * A)) (x : str * A) :
  In x (drop k l) -> In x l /\ fst x <> k.
Proof.
  unfold drop. rewrite filter_In. intros [H1 H2]. split; [assumption|].
  apply negb_true_iff in H2. apply str_eqb_neq in H2. exact H2.
Qed.

Lemma In_put_key (k : str) (v : A) (l : list (str * A)) :
  In k (map fst (put k v l)).
Proof.
  induction l as [|[k' v'] l IH]; cbn [put map fst].
  - left; reflexivity.
  - destruct (str_eqb k' k) eqn:E; cbn [map fst].
    + apply str_eqb_eq in E. left; assumption.
    + right; exact IH.
Qed.

Lemma In_put_keep (k : str) (v : A) (l : list (str * A)) (k' : str) :
  In k' (map fst l) -> In k' (map fst (put k v l)).
Proof.
  induction l as [|[k0 v0] l IH]; cbn [put map fst]; [intros []|].
  destruct (str_eqb k0 k) eqn:E; cbn [map fst]; intros [H | H];
    [left | right | left | right]; auto.
Qed.

Lemma In_drop_keep (k : str) (l : list (str * A)) (k' : str) :
  k' <> k -> In k' (map fst l) -> In k' (map fst (drop k l)).
Proof.
  intros Hn H. apply in_map_iff in H as [[k0 v0] [E H]]. cbn [fst] in E. subst k0.
  apply in_map_iff. exists (k', v0). split; [reflexivity|].
  unfold drop. apply filter_In. split; [assumption|].
  apply negb_true_iff. apply str_eqb_neq. exact Hn.
Qed.

Lemma lookup_Some_key (k : str) (l : list (str * A)) :
  (exists v, lookup k l = Some v) <-> In k (map fst l).
Proof.
  induction l as [|[k' v'] l IH]; cbn [lookup map fst].
  - split; [intros [v H]; discriminate | intros []].
  - destruct (str_eqb k' k) eqn:E.
    + apply str_eqb_eq in E. split; [left; assumption | eauto].
    + apply str_eqb_neq in E. rewrite IH.
      split; [intros H; right; exact H | intros [H|H]; [congruence | exact H]].
Qed.

End Assoc.

Lemma listdir_set_tasks (s : str) (w : World) (t : list (str * listing)) :
  listdir s (set_tasks w t) = lookup s t.
Proof. reflexivity. Qed.

Lemma first_status_with_none (f : str) (sts : list str) (w : World) :
  (forall s, In s sts -> file_exists s f w = false) ->
  first_status_with f sts w = None.
Proof.
  induction sts as [|s sts IH]; [reflexivity|].
  intros H. cbn [first_status_with].
  rewrite (H s) by (left; reflexivity). apply IH.
  intros s' Hs'. apply H. right; assumption.
Qed.

Lemma first_status_with_some (f : str) (sts : list str) (w : World) (s : str) :
  first_status_with f sts w = Some s ->
  In s sts /\ file_exists s f w = true.
Proof.
  induction sts as [|s' sts IH]; cbn [first_status_with]; [discriminate|].
  destruct (file_exists s' f w) eqn:E.
  - intros H; injection H as <-. split; [left; reflexivity | assumption].
  - intros H. destruct (IH H). split; [right|]; assumption.
Qed.

(** ** [move_task] and [create_task] as relations on the store *)

Ltac unfold_m :=
  unfold locate, load, log_activity, read_file, lift, now, write_file,
    remove_file, ret, raise; unfold bind; unfold listdir.



(** What a call of [move_task] does to the directories: nothing, or the
    record is written under the new status and removed from the
    directory it was found in. *)
Lemma move_task_tasks (task_id new_status : str) (w : World) :
  tasks (snd (move_task task_id new_status w)) = tasks w \/
  exists old content lnew lold,
    mem new_status statuses = true /\
    _find_task_file task_id w = Some old /\
    lookup new_status (tasks w) = Some lnew /\
    lookup old (put new_status (put (md task_id) content lnew) (tasks w))
      = Some lold /\
    tasks (snd (move_task task_id new_status w)) =
      put old (drop (md task_id) lold)
        (put new_status (put (md task_id) content lnew) (tasks w)).
Proof.
  unfold move_task.
  destruct (mem new_status statuses) eqn:Hs; cbn [negb]; [|left; reflexivity].
  unfold_m.
  destruct (_find_task_file task_id w) as [old|] eqn:Hf; [|left; reflexivity].
  destruct (read old (md task_id) w) as [c|] eqn:Hr; [|left; reflexivity].
  destruct (from_markdown c) as [t|e] eqn:Hd; [|left; reflexivity].
  cbn [tasks].
  destruct (lookup new_status (tasks w)) as [lnew|] eqn:Hn; [|left; reflexivity].
  unfold file_exists, read, listdir, set_tasks, set_activity_log.
  cbn [tasks activity_log notifications_file clock ticks].
  match goal with
  | |- context [put new_status (put (md task_id) ?c lnew) (tasks w)] =>
      set (content := c)
  end.
  assert (Hex : exists lold,
             lookup old (put new_status (put (md task_id) content lnew) (tasks w))
             = Some lold /\ exists c', lookup (md task_id) lold = Some c').
  { unfold read, listdir in Hr.
    destruct (lookup old (tasks w)) as [l0|] eqn:H0; [|discriminate].
    destruct (str_eqb old new_status) eqn:E.
    - apply str_eqb_eq in E. subst old. rewrite lookup_put_same.
      eexists. split; [reflexivity|]. rewrite lookup_put_same. eauto.
    - apply str_eqb_neq in E. rewrite lookup_put_other by assumption.
      rewrite H0. eauto. }
  destruct Hex as (lold & Ho & c' & Hm).
  rewrite Ho, Hm.
  right. exists old, content, lnew, lold. cbn [snd tasks set_activity_log].
  repeat split; try assumption; reflexivity.
Qed.

Lemma create_task_tasks (ti d p : str) (tg : list str) (w : World) :
  forall l, lookup (lit "inbox") (tasks w) = Some l ->
  exists t w',
    create_task ti d p tg w = (Ok t, w') /\
    id t = _generate_task_id w /\
    tasks w' = put (lit "inbox") (put (md (id t)) (to_markdown t) l) (tasks w).
Proof.
  intros l Hl. unfold create_task. unfold_m. cbn [tasks]. rewrite Hl.
  eexists. eexists. split; [reflexivity|]. split; reflexivity.
Qed.

(** ** Id generation *)

(** The file of the task numbered [n] *)
Definition file_of (n : nat) : str := md (task_name (Z.of_nat n)).

Definition file_check (n : nat) : bool :=
  startswith (lit "task-") (file_of n) && endswith (lit ".md") (file_of n) &&
  match py_int (slice 5 8 (file_of n)) with
  | Some z => Z.eqb z (Z.of_nat n)
  | None => false
  end.

Lemma file_check_all : forallb file_check (seq 0 1000) = true.
Proof. vm_compute. reflexivity. Qed.

(** Up to 999 the three characters behind [task-] are the number. *)
Lemma file_of_parse (n : nat) :
  n <= 999 ->
  startswith (lit "task-") (file_of n) && endswith (lit ".md") (file_of n)
    = true /\
  py_int (slice 5 8 (file_of n)) = Some (Z.of_nat n).
Proof.
  intros H. pose proof file_check_all as A. rewrite forallb_forall in A.
  assert (I : In n (seq 0 1000)) by (apply in_seq; lia).
  specialize (A n I). unfold file_check in A.
  apply andb_true_iff in A as [A1 A2]. split; [exact A1|].
  destruct (py_int (slice 5 8 (file_of n))) as [z|]; [|discriminate].
  apply Z.eqb_eq in A2. congruence.
Qed.

Lemma max_in_listing_ge (l : listing) (m : Z) : (m <= max_in_listing m l)%Z.
Proof.
  revert m; induction l as [|[f c] l IH]; intros m; cbn [max_in_listing]; [lia|].
  destruct (startswith (lit "task-") f && endswith (lit ".md") f); [|apply IH].
  destruct (py_int (slice 5 8 f)) as [z|]; [|apply IH].
  specialize (IH (Z.max m z)). lia.
Qed.

Lemma max_in_listing_le (M : nat) (l : listing) (m : Z) :
  M <= 999 ->
  (forall f, In f (map fst l) -> exists n, n <= M /\ f = file_of n) ->
  (m <= Z.of_nat M)%Z -> (max_in_listing m l <= Z.of_nat M)%Z.
Proof.
  intros HM. revert m; induction l as [|[f c] l IH]; intros m Hl Hm;
    cbn [max_in_listing]; [lia|].
  assert (Hl' : forall f, In f (map fst l) -> exists n, n <= M /\ f = file_of n)
    by (intros f' Hf'; apply Hl; right; assumption).
  destruct (Hl f (or_introl eq_refl)) as (n & Hn & ->).
  destruct (@file_of_parse n) as [P1 P2]; [lia|].
  rewrite P1, P2. apply IH; [assumption | lia].
Qed.

Lemma max_in_listing_hit (M : nat) (l : listing) (m : Z) :
  M <= 999 -> In (file_of M) (map fst l) ->
  (Z.of_nat M <= max_in_listing m l)%Z.
Proof.
  intros HM. revert m; induction l as [|[f c] l IH]; intros m Hl; [destruct Hl|].
  cbn [max_in_listing]. destruct Hl as [E | Hl].
  - cbn [fst] in E. subst f.
    destruct (file_of_parse HM) as [P1 P2]. rewrite P1, P2.
    pose proof (max_in_listing_ge l (Z.max m (Z.of_nat M))). lia.
  - destruct (startswith (lit "task-") f && endswith (lit ".md") f); [|auto].
    destruct (py_int (slice 5 8 f)); auto.
Qed.

Lemma max_in_statuses_ge (sts : list str) (w : World) (m : Z) :
  (m <= max_in_statuses m sts w)%Z.
Proof.
  revert m; induction sts as [|s sts IH]; intros m; cbn [max_in_statuses]; [lia|].
  destruct (listdir s w) as [l|]; [|apply IH].
  pose proof (max_in_listing_ge l m). specialize (IH (max_in_listing m l)). lia.
Qed.

Lemma max_in_statuses_le (M : nat) (sts : list str) (w : World) (m : Z) :
  M <= 999 ->
  (forall s l f, In s sts -> listdir s w = Some l -> In f (map fst l) ->
                 exists n, n <= M /\ f = file_of n) ->
  (m <= Z.of_nat M)%Z -> (max_in_statuses m sts w <= Z.of_nat M)%Z.
Proof.
  intros HM. revert m; induction sts as [|s sts IH]; intros m H Hm;
    cbn [max_in_statuses]; [lia|].
  assert (H' : forall s0 l f, In s0 sts -> listdir s0 w = Some l ->
                 In f (map fst l) -> exists n, n <= M /\ f = file_of n)
    by (intros s0 l f Hs; apply H; right; assumption).
  destruct (listdir s w) as [l|] eqn:E; [|auto].
  apply IH; [assumption|].
  apply max_in_listing_le; [assumption | | assumption].
  intros f Hf. apply (H s l f); [left; reflexivity | assumption | assumption].
Qed.

Lemma max_in_statuses_hit (M : nat) (sts : list str) (w : World) (m : Z)
  (s : str) (l : listing) :
  M <= 999 -> In s sts -> listdir s w = Some l ->
  In (file_of M) (map fst l) ->
  (Z.of_nat M <= max_in_statuses m sts w)%Z.
Proof.
  intros HM. revert m; induction sts as [|s0 sts IH]; intros m Hs Hl Hf;
    [destruct Hs|].
  cbn [max_in_statuses]. destruct Hs as [-> | Hs].
  - rewrite Hl.
    pose proof (@max_in_listing_hit M l m HM Hf).
    pose proof (max_in_statuses_ge sts w (max_in_listing m l)). lia.
  - destruct (listdir s0 w); auto.
Qed.

(** The generator returns the successor of the largest number in the
    store. *)
Lemma generate_task_id_max (w : World) (M : nat) :
  M <= 999 ->
  (forall s l f, In s statuses -> listdir s w = Some l -> In f (map fst l) ->
                 exists n, n <= M /\ f = file_of n) ->
  (M = 0 \/ exists s l, In s statuses /\ listdir s w = Some l /\
                        In (file_of M) (map fst l)) ->
  _generate_task_id w = task_name (Z.of_nat M + 1).
Proof.
  intros HM Hle Hhit. unfold _generate_task_id.
  assert (E : max_in_statuses 0 statuses w = Z.of_nat M); [|rewrite E; reflexivity].
  pose proof (@max_in_statuses_le M statuses w 0%Z HM Hle ltac:(lia)) as U.
  pose proof (max_in_statuses_ge statuses w 0) as L.
  destruct Hhit as [E | (s & l & Hs & Hl & Hf)].
  - subst M. change (Z.of_nat 0) with 0%Z in *. lia.
  - pose proof (@max_in_statuses_hit M statuses w 0%Z s l HM Hs Hl Hf). lia.
Qed.

(** A run of the board: tasks are created and moved, in any order. *)
Inductive op :=
| Create (title description priority : str) (tags : list str)
| Move (task_id new_status : str).

(** One call: the id a [create_task] returned (or what it raised), and
    the workspace afterwards. *)
Definition exec (o : op) (w : World) : list (res str) * World :=
  match o with
  | Create ti d p tg =>
      ([match fst (create_task ti d p tg w) with
        | Ok t => Ok (id t)
        | Raise e => Raise e
        end],
       snd (create_task ti d p tg w))
  | Move i s => ([], snd (move_task i s w))
  end.

Fixpoint run (ops : list op) (w : World) : list (res str) * World :=
  match ops with
  | [] => ([], w)
  | o :: ops' =>
      (fst (exec o w) ++ fst (run ops' (snd (exec o w))),
       snd (run ops' (snd (exec o w))))
  end.

(** Every move of the run names another status than the directory that
    holds the record at that moment. *)
Fixpoint relocating (ops : list op) (w : World) : Prop :=
  match ops with
  | [] => True
  | o :: ops' =>
      match o with
      | Move i s => _find_task_file i w <> Some s
      | Create _ _ _ _ => True
      end /\ relocating ops' (snd (exec o w))
  end.

Definition creations (ops : list op) : nat :=
  length (filter (fun o => match o with Create _ _ _ _ => true
                                   | Move _ _ => false end) ops).

(** The ten status directories exist and hold no file. *)
Definition blank (w : World) : Prop :=
  forall s, In s statuses -> listdir s w = Some [].

(** The store after [k] creations: the status directories exist, every
    file is that of a task numbered between 1 and [k], and task [k] is
    there. *)
Definition board_inv (k : nat) (w : World) : Prop :=
  (forall s, In s statuses -> exists l, listdir s w = Some l) /\
  (forall s l f, In s statuses -> listdir s w = Some l -> In f (map fst l) ->
                 exists n, 1 <= n <= k /\ f = file_of n) /\
  (k = 0 \/ exists s l, In s statuses /\ listdir s w = Some l /\
                        In (file_of k) (map fst l)).

Lemma In_put_key_inv (A : Type) (k : str) (v : A) (l : list (str * A)) (k' : str) :
  In k' (map fst (put k v l)) -> k' = k \/ In k' (map fst l).
Proof.
  intros H. apply in_map_iff in H as [[k0 v0] [E H]]. cbn [fst] in E. subst k0.
  apply In_put in H as [H | H].
  - injection H as -> _. left; reflexivity.
  - right. apply in_map_iff. exists (k', v0). split; [reflexivity | assumption].
Qed.

Lemma In_drop_key_inv (A : Type) (k : str) (l : list (str * A)) (k' : str) :
  In k' (map fst (drop k l)) -> In k' (map fst l).
Proof.
  intros H. apply in_map_iff in H as [[k0 v0] [E H]]. cbn [fst] in E. subst k0.
  apply In_drop in H as [H _].
  apply in_map_iff. exists (k', v0). split; [reflexivity | assumption].
Qed.

Lemma blank_inv (w : World) : blank w -> board_inv 0 w.
Proof.
  intros H. split; [|split].
  - intros s Hs. exists []. auto.
  - intros s l f Hs Hl Hf. rewrite (H s Hs) in Hl. injection Hl as <-.
    destruct Hf.
  - left; reflexivity.
Qed.

Lemma inbox_status : In (lit "inbox") statuses.
Proof. left; reflexivity. Qed.

Lemma create_task_inv (k : nat) (ti d p : str) (tg : list str) (w : World) :
  board_inv k w -> k < 999 ->
  exists t w',
    create_task ti d p tg w = (Ok t, w') /\
    id t = task_name (Z.of_nat (k + 1)) /\
    board_inv (k + 1) w'.
Proof.
  intros (I1 & I2 & I3) Hk.
  destruct (I1 _ inbox_status) as [l Hl].
  destruct (@create_task_tasks ti d p tg w l Hl) as (t & w' & Hc & Hid & Ht).
  assert (Hgen : _generate_task_id w = task_name (Z.of_nat (k + 1))).
  { replace (Z.of_nat (k + 1)) with (Z.of_nat k + 1)%Z by lia.
    apply generate_task_id_max; [lia | | exact I3].
    intros s l0 f Hs Hl0 Hf. destruct (I2 s l0 f Hs Hl0 Hf) as (n & Hn & ->).
    exists n. split; [lia | reflexivity]. }
  exists t, w'. split; [exact Hc|]. split; [congruence|].
  assert (Hf : md (id t) = file_of (k + 1))
    by (unfold file_of; congruence).
  assert (Hdir : forall s, listdir s w' =
            if str_eqb (lit "inbox") s
            then Some (put (md (id t)) (to_markdown t) l)
            else listdir s w).
  { intros s. unfold listdir. rewrite Ht.
    destruct (str_eqb (lit "inbox") s) eqn:E.
    - apply str_eqb_eq in E. subst s. apply lookup_put_same.
    - apply str_eqb_neq in E. apply lookup_put_other. congruence. }
  split; [|split].
  - intros s Hs. rewrite Hdir. destruct (str_eqb (lit "inbox") s); eauto.
  - intros s l0 f Hs Hl0 Hf0. rewrite Hdir in Hl0.
    destruct (str_eqb (lit "inbox") s) eqn:E.
    + injection Hl0 as <-. apply In_put_key_inv in Hf0 as [-> | Hf0].
      * exists (k + 1). split; [lia | exact Hf].
      * apply str_eqb_eq in E. subst s.
        destruct (I2 _ l f inbox_status Hl Hf0) as (n & Hn & ->).
        exists n. split; [lia | reflexivity].
    + destruct (I2 s l0 f Hs Hl0 Hf0) as (n & Hn & ->).
      exists n. split; [lia | reflexivity].
  - right. exists (lit "inbox"), (put (md (id t)) (to_markdown t) l).
    split; [exact inbox_status|]. split.
    + rewrite Hdir, str_eqb_refl. reflexivity.
    + rewrite <- Hf. apply In_put_key.
Qed.

Lemma board_inv_ext (k : nat) (w w' : World) :
  tasks w' = tasks w -> board_inv k w -> board_inv k w'.
Proof.
  intros E (I1 & I2 & I3). unfold board_inv, listdir in *. rewrite E.
  auto.
Qed.

Lemma find_task_file_listed (i : str) (w : World) (old : str) :
  _find_task_file i w = Some old ->
  In old statuses /\
  exists l, listdir old w = Some l /\ In (md i) (map fst l).
Proof.
  intros H. apply first_status_with_some in H as [H1 H2]. split; [exact H1|].
  unfold file_exists, read in H2.
  destruct (listdir old w) as [l|]; [|discriminate].
  exists l. split; [reflexivity|].
  apply lookup_Some_key. destruct (lookup (md i) l); [eauto | discriminate].
Qed.

Lemma move_task_inv (k : nat) (i s : str) (w : World) :
  board_inv k w -> _find_task_file i w <> Some s ->
  board_inv k (snd (move_task i s w)).
Proof.
  intros Hinv Hrel.
  destruct (move_task_tasks i s w)
    as [E | (old & content & lnew & lold & Hs & Hf & Hn & Ho & E)].
  - apply (board_inv_ext _ E Hinv).
  - assert (Hne : old <> s) by congruence.
    destruct (find_task_file_listed _ _ Hf) as (Hold & l0 & Hl0 & Hin).
    rewrite lookup_put_other in Ho by assumption.
    unfold listdir in Hl0. rewrite Hl0 in Ho. injection Ho as <-.
    apply mem_In in Hs.
    destruct Hinv as (I1 & I2 & I3).
    set (w' := snd (move_task i s w)) in *.
    assert (Hdir : forall x, listdir x w' =
              if str_eqb old x then Some (drop (md i) l0)
              else if str_eqb s x then Some (put (md i) content lnew)
              else listdir x w).
    { intros x. unfold listdir. rewrite E.
      destruct (str_eqb old x) eqn:E1.
      - apply str_eqb_eq in E1. subst x. apply lookup_put_same.
      - apply str_eqb_neq in E1. rewrite lookup_put_other by congruence.
        destruct (str_eqb s x) eqn:E2.
        + apply str_eqb_eq in E2. subst x. apply lookup_put_same.
        + apply str_eqb_neq in E2. apply lookup_put_other. congruence. }
    split; [|split].
    + intros x Hx. rewrite Hdir.
      destruct (str_eqb old x); [eauto|]. destruct (str_eqb s x); eauto.
    + intros x l f Hx Hl Hf0. rewrite Hdir in Hl.
      destruct (str_eqb old x) eqn:E1.
      * injection Hl as <-. apply In_drop_key_inv in Hf0.
        apply (I2 old l0 f Hold Hl0 Hf0).
      * destruct (str_eqb s x) eqn:E2.
        -- injection Hl as <-. apply In_put_key_inv in Hf0 as [-> | Hf0].
           ++ apply (I2 old l0 (md i) Hold Hl0 Hin).
           ++ apply (I2 s lnew f Hs Hn Hf0).
        -- apply (I2 x l f Hx Hl Hf0).
    + destruct I3 as [-> | (s0 & ls & Hs0 & Hls & Hk)]; [left; reflexivity|].
      right.
      destruct (str_eqb old s0) eqn:E1.
      * apply str_eqb_eq in E1. subst s0.
        unfold listdir in Hls. rewrite Hl0 in Hls. injection Hls as <-.
        destruct (list_eq_dec ascii_dec (file_of k) (md i)) as [Ek | Ek].
        -- exists s, (put (md i) content lnew). split; [exact Hs|]. split.
           ++ rewrite Hdir.
              replace (str_eqb old s) with false
                by (symmetry; apply str_eqb_neq; exact Hne).
              rewrite str_eqb_refl. reflexivity.
           ++ rewrite Ek. apply In_put_key.
        -- exists old, (drop (md i) l0). split; [exact Hold|]. split.
           ++ rewrite Hdir, str_eqb_refl. reflexivity.
           ++ apply In_drop_keep; assumption.
      * destruct (str_eqb s s0) eqn:E2.
        -- apply str_eqb_eq in E2. subst s0.
           unfold listdir in Hls. rewrite Hn in Hls. injection Hls as <-.
           exists s, (put (md i) content lnew). split; [exact Hs|]. split.
           ++ rewrite Hdir, E1, str_eqb_refl. reflexivity.
           ++ apply In_put_keep. assumption.
        -- exists s0, ls. split; [exact Hs0|]. split; [|exact Hk].
           rewrite Hdir, E1, E2. exact Hls.
Qed.

Lemma run_ids (ops : list op) (k : nat) (w : World) :
  board_inv k w -> relocating ops w -> k + creations ops <= 999 ->
  fst (run ops w) =
  map (fun n => Ok (task_name (Z.of_nat n))) (seq (k + 1) (creations ops)).
Proof.
  revert k w; induction ops as [|o ops IH]; intros k w Hinv Hrel Hk;
    [reflexivity|].
  destruct Hrel as [Ho Hrel]. cbn [run]. destruct o as [ti d p tg | i s].
  - unfold creations in *. cbn [filter length] in *.
    destruct (@create_task_inv k ti d p tg w Hinv ltac:(lia))
      as (t & w' & Hc & Hid & Hinv').
    cbn [exec fst snd] in *. rewrite Hc in *. cbn [fst snd] in *.
    rewrite (IH (k + 1) w' Hinv' Hrel) by lia.
    cbn [seq map app]. rewrite Hid.
    replace (S (k + 1)) with (k + 1 + 1) by lia. reflexivity.
  - unfold creations in *. cbn [filter] in *. cbn [exec fst snd app] in *.
    apply IH; [|assumption|assumption].
    apply move_task_inv; assumption.
Qed.

(** ** [find_work] *)

(** The records of a listing in listing order: the text and the task of
    every [.md] file that decodes. *)
Definition records (l : listing) : list (str * Task) :=
  flat_map
    (fun fc =>
       if is_md (fst fc) then
         match from_markdown (snd fc) with
         | Ok t => [(snd fc, t)]
         | Raise _ => []
         end
       else [])
    l.

(** The records of the board in scan order: the statuses in the order of
    the fixed list, within a status the order of the directory listing. *)
Definition scan_order (w : World) : list (str * Task) :=
  flat_map
    (fun s => match listdir s w with Some l => records l | None => [] end)
    statuses.

(** Every [.md] file of the status directories decodes. *)
Definition decodable (w : World) : Prop :=
  forall s l f c,
    In s statuses -> listdir s w = Some l -> In (f, c) l ->
    is_md f = true -> exists t, from_markdown c = Ok t.

(** The role table of the claim *)
Definition role_status (role : str) : option str :=
  if str_eqb role (lit "pm") then Some (lit "inbox")
  else if str_eqb role (lit "architect") then Some (lit "in-planning")
  else if str_eqb role (lit "engineer") then Some (lit "ready-to-build")
  else if str_eqb role (lit "qa") then Some (lit "ready-for-testing")
  else if str_eqb role (lit "security") then Some (lit "in-progress")
  else if str_eqb role (lit "devops") then Some (lit "ready-to-deploy")
  else None.

Definition is_assigned_to (role : str) (r : str * Task) : bool :=
  mem role (assigned (snd r)).

Definition mentions (role : str) (r : str * Task) : bool :=
  occurs (lit "@" ++ role) (fst r).

Definition unassigned (r : str * Task) : bool :=
  match assigned (snd r) with [] => true | _ :: _ => false end.

(** The fallback chain as the claim words it. *)
Definition find_work_chain (role : str) (w : World) : option Task :=
  match find (is_assigned_to role) (scan_order w) with
  | Some r => Some (snd r)
  | None =>
      match find (mentions role) (scan_order w) with
      | Some r => Some (snd r)
      | None =>
          match role_status role with
          | None => None
          | Some st =>
              match listdir st w with
              | None => None
              | Some l => option_map snd (find unassigned (records l))
              end
          end
      end
  end.

Definition listing_decodable (l : listing) : Prop :=
  forall f c, In (f, c) l -> is_md f = true -> exists t, from_markdown c = Ok t.

Lemma listing_decodable_tail (fc : str * str) (l : listing) :
  listing_decodable (fc :: l) -> listing_decodable l.
Proof. intros H f c Hin. apply H. right; assumption. Qed.

Lemma find_app (A : Type) (p : A -> bool) (a b : list A) :
  find p (a ++ b) = match find p a with Some x => Some x | None => find p b end.
Proof.
  induction a as [|x a IH]; [reflexivity|].
  cbn [app find]. destruct (p x); [reflexivity | exact IH].
Qed.

Lemma first_assigned_records (role : str) (l : listing) :
  listing_decodable l ->
  first_assigned role l
  = Ok (option_map snd (find (is_assigned_to role) (records l))).
Proof.
  induction l as [|[f c] l IH]; intros H; [reflexivity|].
  specialize (IH (listing_decodable_tail H)).
  cbn [first_assigned]. unfold records. cbn [flat_map fst snd].
  destruct (is_md f) eqn:E; [|exact IH].
  destruct (H f c (or_introl eq_refl) E) as [t Ht]. rewrite Ht.
  cbn [bind_res app find]. unfold is_assigned_to at 1. cbn [snd].
  destruct (mem role (assigned t)); [reflexivity | exact IH].
Qed.

Lemma first_assigned_in_records (role : str) (sts : list str) (w : World) :
  (forall s l, In s sts -> listdir s w = Some l -> listing_decodable l) ->
  first_assigned_in role sts w
  = Ok (option_map snd
          (find (is_assigned_to role)
             (flat_map (fun s => match listdir s w with
                                 | Some l => records l
                                 | None => []
                                 end) sts))).
Proof.
  induction sts as [|s sts IH]; intros H; [reflexivity|].
  assert (H' : forall s0 l, In s0 sts -> listdir s0 w = Some l ->
                            listing_decodable l)
    by (intros s0 l Hs; apply H; right; assumption).
  specialize (IH H'). cbn [first_assigned_in flat_map].
  destruct (listdir s w) as [l|] eqn:E; [|exact IH].
  rewrite (first_assigned_records role (H s l (or_introl eq_refl) E)).
  cbn [bind_res]. rewrite find_app.
  destruct (find (is_assigned_to role) (records l)); [reflexivity | exact IH].
Qed.

Lemma mentions_in_listing_records (role : str) (l : listing) :
  listing_decodable l ->
  mentions_in_listing (lit "@" ++ role) l
  = Ok (map snd (filter (mentions role) (records l))).
Proof.
  induction l as [|[f c] l IH]; intros H; [reflexivity|].
  specialize (IH (listing_decodable_tail H)).
  cbn [mentions_in_listing]. unfold records. cbn [flat_map fst snd].
  destruct (is_md f) eqn:E; [|exact IH]. cbn [andb].
  destruct (H f c (or_introl eq_refl) E) as [t Ht]. rewrite Ht.
  cbn [app filter]. unfold mentions at 1. cbn [fst].
  destruct (occurs (lit "@" ++ role) c); [|exact IH].
  cbn [bind_res]. fold (records l). rewrite IH. reflexivity.
Qed.

Lemma mentions_in_records (role : str) (sts : list str) (w : World) :
  (forall s l, In s sts -> listdir s w = Some l -> listing_decodable l) ->
  mentions_in (lit "@" ++ role) sts w
  = Ok (map snd
          (filter (mentions role)
             (flat_map (fun s => match listdir s w with
                                 | Some l => records l
                                 | None => []
                                 end) sts))).
Proof.
  induction sts as [|s sts IH]; intros H; [reflexivity|].
  assert (H' : forall s0 l, In s0 sts -> listdir s0 w = Some l ->
                            listing_decodable l)
    by (intros s0 l Hs; apply H; right; assumption).
  specialize (IH H'). cbn [mentions_in flat_map].
  destruct (listdir s w) as [l|] eqn:E; [|exact IH].
  rewrite (mentions_in_listing_records role (H s l (or_introl eq_refl) E)), IH.
  cbn [bind_res]. rewrite filter_app, map_app. reflexivity.
Qed.

Lemma first_unassigned_records (l : listing) :
  listing_decodable l ->
  first_unassigned l = Ok (option_map snd (find unassigned (records l))).
Proof.
  induction l as [|[f c] l IH]; intros H; [reflexivity|].
  specialize (IH (listing_decodable_tail H)).
  cbn [first_unassigned]. unfold records. cbn [flat_map fst snd].
  destruct (is_md f) eqn:E; [|exact IH].
  destruct (H f c (or_introl eq_refl) E) as [t Ht]. rewrite Ht.
  cbn [bind_res app find]. unfold unassigned at 1. cbn [snd].
  destruct (assigned t); [reflexivity | exact IH].
Qed.

Lemma head_filter (A : Type) (p : A -> bool) (l : list A) :
  match filter p l with x :: _ => Some x | [] => None end = find p l.
Proof.
  induction l as [|x l IH]; [reflexivity|].
  cbn [filter find]. destruct (p x); [reflexivity | exact IH].
Qed.

Lemma str_eqb_sym (a b : str) : str_eqb a b = str_eqb b a.
Proof.
  destruct (str_eqb b a) eqn:E.
  - apply str_eqb_eq in E. subst. apply str_eqb_refl.
  - apply str_eqb_neq. apply str_eqb_neq in E. congruence.
Qed.

(** The dict of the source is the table of the claim. *)
Lemma status_map_table (role : str) : status_map role = role_status role.
Proof.
  unfold status_map, role_status. cbn [lookup].
  rewrite !(str_eqb_sym role). reflexivity.
Qed.

Lemma role_status_valid (role st : str) :
  role_status role = Some st -> st <> [] /\ In st statuses.
Proof.
  unfold role_status.
  repeat match goal with
         | |- context [str_eqb role ?a] => destruct (str_eqb role a)
         end;
    intros H; try discriminate H; injection H as <-;
    (split; [discriminate | cbn; tauto]).
Qed.

Lemma decodable_listing (w : World) (s : str) (l : listing) :
  decodable w -> In s statuses -> listdir s w = Some l -> listing_decodable l.
Proof. intros H Hs Hl f c Hin Hmd. apply (H s l f c Hs Hl Hin Hmd). Qed.

Lemma find_work_refines (role : str) (w : World) :
  decodable w -> find_work role w = Ok (find_work_chain role w).
Proof.
  intros Hd. unfold find_work, find_work_chain, scan_order.
  rewrite first_assigned_in_records
    by (intros s l Hs Hl; apply (decodable_listing Hd Hs Hl)).
  cbn [bind_res].
  destruct (find (is_assigned_to role) _) as [r|]; [reflexivity|].
  cbn [option_map]. unfold find_mentions.
  rewrite mentions_in_records
    by (intros s l Hs Hl; apply (decodable_listing Hd Hs Hl)).
  cbn [bind_res]. rewrite <- head_filter.
  destruct (filter (mentions role) _) as [|r rs]; [|reflexivity].
  cbn [map]. rewrite status_map_table.
  destruct (role_status role) as [st|] eqn:E; [|reflexivity].
  destruct (role_status_valid _ E) as [Hne Hst].
  destruct st as [|c st]; [congruence|].
  destruct (listdir (c :: st) w) as [l|] eqn:El; [|reflexivity].
  apply first_unassigned_records. apply (decodable_listing Hd Hst El).
Qed.

(** ** [str.replace] *)

Lemma replace_from_unfold (old new : str) (skip : nat) (s : str) :
  replace_from old new skip s =
  match skip with
  | S k => match s with [] => [] | _ :: s' => replace_from old new k s' end
  | O =>
      match s with
      | [] => if startswith old [] then new else []
      | c :: s' =>
          if startswith old s then
            match old with
            | [] => new ++ c :: replace_from old new 0 s'
            | _ :: old' => new ++ replace_from old new (length old') s'
            end
          else c :: replace_from old new 0 s'
      end
  end.
Proof. destruct s, skip; reflexivity. Qed.

Lemma replace_from_skip (old new a s : str) :
  replace_from old new (length a) (a ++ s) = replace_from old new 0 s.
Proof.
  induction a as [|c a IH]; [reflexivity|].
  cbn [length app]. rewrite replace_from_unfold. exact IH.
Qed.

Lemma replace_absent (old new s : str) :
  old <> [] -> occurs old s = false -> replace old new s = s.
Proof.
  intros Ho. unfold replace. induction s as [|c s IH]; intros H.
  - rewrite replace_from_unfold. destruct old; [congruence | reflexivity].
  - rewrite occurs_unfold in H. apply orb_false_iff in H as [H1 H2].
    rewrite replace_from_unfold, H1, (IH H2). reflexivity.
Qed.

Lemma replace_first (old new a b : str) :
  old <> [] -> clear_before old a (old ++ b) ->
  replace old new (a ++ old ++ b) = a ++ new ++ replace old new b.
Proof.
  intros Ho. unfold replace. induction a as [|c a IH]; intros H.
  - destruct old as [|d old]; [congruence|].
    cbn [app]. rewrite replace_from_unfold.
    change (d :: old ++ b) with ((d :: old) ++ b).
    rewrite startswith_app. rewrite replace_from_skip. reflexivity.
  - destruct H as [H1 H2]. cbn [app] in *.
    rewrite replace_from_unfold, H1, (IH H2). reflexivity.
Qed.

(** ** Texts without the character [#] *)

Definition no_hash (s : str) : bool :=
  forallb (fun c => negb (Ascii.eqb c "#"%char)) s.

Lemma clear_before_no_hash (p x rest : str) :
  no_hash x = true -> clear_before ("#"%char :: p) x rest.
Proof.
  induction x as [|c x IH]; [intros; exact I|].
  intros H. cbn [no_hash forallb] in H. apply andb_true_iff in H as [Hc Hx].
  split; [|auto].
  apply startswith_head_neq. apply eqb_false_neq.
  destruct (Ascii.eqb c "#"); [discriminate | reflexivity].
Qed.

Lemma no_hash_firstn (n : nat) (s : str) :
  no_hash s = true -> no_hash (firstn n s) = true.
Proof.
  revert n; induction s as [|c s IH]; intros [|n] H; try reflexivity.
  cbn [no_hash forallb firstn] in *. apply andb_true_iff in H as [Hc Hs].
  rewrite Hc. apply IH. exact Hs.
Qed.

Lemma no_hash_app (a b : str) : no_hash (a ++ b) = no_hash a && no_hash b.
Proof. apply forallb_app. Qed.

(** ** The characters of a timestamp *)

Definition iso_char (c : ascii) : bool :=
  isdigit c || Ascii.eqb c "-"%char || Ascii.eqb c ":"%char ||
  Ascii.eqb c "T"%char || Ascii.eqb c "."%char.

Lemma digit_char_isdigit (n : nat) : isdigit (digit_char n) = true.
Proof.
  unfold digit_char. pose proof (Nat.mod_upper_bound n 10 ltac:(lia)) as H.
  destruct (n mod 10) as [|[|[|[|[|[|[|[|[|[|k]]]]]]]]]]; try reflexivity. lia.
Qed.

Lemma decimal_aux_digits (fuel n : nat) (acc : str) :
  forallb isdigit acc = true -> forallb isdigit (decimal_aux fuel n acc) = true.
Proof.
  revert n acc; induction fuel as [|f IH]; intros n acc H; [exact H|].
  cbn [decimal_aux]. destruct (n <? 10).
  - cbn [forallb]. rewrite digit_char_isdigit. exact H.
  - apply IH. cbn [forallb]. rewrite digit_char_isdigit. exact H.
Qed.

Lemma decimal_aux_nonempty (fuel n : nat) (acc : str) :
  decimal_aux (S fuel) n acc <> [].
Proof.
  revert n acc; induction fuel as [|f IH]; intros n acc.
  - cbn [decimal_aux]. destruct (n <? 10); discriminate.
  - change (decimal_aux (S (S f)) n acc)
      with (if n <? 10 then digit_char n :: acc
            else decimal_aux (S f) (n / 10) (digit_char n :: acc)).
    destruct (n <? 10); [discriminate | apply IH].
Qed.

Lemma zfill_digits (w n : nat) : forallb isdigit (zfill w n) = true.
Proof.
  unfold zfill. rewrite forallb_app. apply andb_true_iff. split.
  - induction (w - length (decimal n)) as [|k IH]; [reflexivity | exact IH].
  - apply decimal_aux_digits. reflexivity.
Qed.

Lemma zfill_nonempty (w n : nat) : zfill w n <> [].
Proof.
  unfold zfill. intros H. apply app_eq_nil in H as [_ H].
  apply (decimal_aux_nonempty n n [] H).
Qed.

Lemma isdigit_iso (s : str) : forallb isdigit s = true -> forallb iso_char s = true.
Proof.
  intros H. rewrite forallb_forall in *. intros c Hc. unfold iso_char.
  rewrite (H c Hc). reflexivity.
Qed.

Lemma isoformat_chars (d : datetime) : forallb iso_char (isoformat d) = true.
Proof.
  unfold isoformat.
  repeat (rewrite forallb_app; apply andb_true_iff; split);
    try (apply isdigit_iso; apply zfill_digits); try reflexivity.
  destruct (microsecond d =? 0); [reflexivity|].
  rewrite forallb_app. apply andb_true_iff. split; [reflexivity|].
  apply isdigit_iso; apply zfill_digits.
Qed.

Lemma forallb_firstn (f : ascii -> bool) (n : nat) (s : str) :
  forallb f s = true -> forallb f (firstn n s) = true.
Proof.
  revert n; induction s as [|c s IH]; intros [|n] H; try reflexivity.
  cbn [forallb firstn] in *. apply andb_true_iff in H as [Hc Hs].
  rewrite Hc. apply IH. exact Hs.
Qed.

Lemma forallb_impl (f g : ascii -> bool) (s : str) :
  (forall c, f c = true -> g c = true) ->
  forallb f s = true -> forallb g s = true.
Proof.
  intros H Hs. rewrite forallb_forall in *. auto.
Qed.

Lemma iso_char_no_hash (c : ascii) :
  iso_char c = true -> negb (Ascii.eqb c "#"%char) = true.
Proof.
  destruct (Ascii.eqb c "#"%char) eqn:E; [|reflexivity].
  apply Ascii.eqb_eq in E. subst c. discriminate.
Qed.

Lemma iso_char_not_nl (c : ascii) : iso_char c = true -> not_nl c = true.
Proof.
  unfold not_nl. destruct (Ascii.eqb c nl) eqn:E; [|reflexivity].
  apply Ascii.eqb_eq in E. subst c. discriminate.
Qed.

Lemma time_no_hash (d : datetime) (n : nat) :
  no_hash (firstn n (isoformat d)) = true.
Proof.
  apply forallb_firstn.
  apply (forallb_impl iso_char _ _ iso_char_no_hash (isoformat_chars d)).
Qed.

(** ** Fan-out into the ledger *)

(** The entries [_notify_subscribers] renders, in the order of the
    loop: one per agent, stamped with successive readings of the clock. *)
Fixpoint notifs (to_notify : list str) (commenter message : str) (task : Task)
  (clk : nat -> datetime) (t : nat) : list str :=
  match to_notify with
  | [] => []
  | a :: rest =>
      render_notif a commenter message task (firstn 16 (isoformat (clk t)))
      :: notifs rest commenter message task clk (S t)
  end.

(** The workspace after [n] more readings of the clock *)
Definition advance (n : nat) (w : World) : World :=
  mkWorld (tasks w) (activity_log w) (notifications_file w) (clock w)
    (n + ticks w).

(** The texts pasted into an entry hold no [#]. *)
Definition texts_no_hash (commenter message : str) (task : Task) : Prop :=
  no_hash commenter = true /\ no_hash message = true /\
  no_hash (id task) = true /\ no_hash (status task) = true.

Ltac walk_hash :=
  repeat first
    [ exact I
    | match goal with
      | |- clear_before ?p (lit ""%string ++ ?x) ?r =>
          change (clear_before p x r)
      | |- clear_before ?p ([] ++ ?x) ?r =>
          change (clear_before p x r)
      end
    | apply clear_before_app; split;
      [ solve [ apply clear_before_no_hash; assumption ] | ]
    | split; [reflexivity | ] ].


Lemma render_notif_clear_pending (a commenter message : str) (task : Task)
  (d : datetime) (rest : str) :
  texts_no_hash commenter message task -> no_hash a = true ->
  clear_before pending_header
    (render_notif a commenter message task (firstn 16 (isoformat d))) rest.
Proof.
  intros (H1 & H2 & H3 & H4) Ha.
  pose proof (time_no_hash d 16) as Ht.
  pose proof (no_hash_firstn 100 message H2) as Hm.
  unfold render_notif, pending_header.
  change (lit "## Pending" ++ [nl; nl])
    with ("#"%char :: lit "# Pending" ++ [nl; nl]).
  destruct (100 <? length message); walk_hash.
Qed.

Lemma render_notif_clear_delivered (a commenter message : str) (task : Task)
  (d : datetime) (rest : str) :
  texts_no_hash commenter message task -> no_hash a = true ->
  clear_before delivered_header
    (render_notif a commenter message task (firstn 16 (isoformat d))) rest.
Proof.
  intros (H1 & H2 & H3 & H4) Ha.
  pose proof (time_no_hash d 16) as Ht.
  pose proof (no_hash_firstn 100 message H2) as Hm.
  unfold render_notif, delivered_header.
  change (lit "## Delivered") with ("#"%char :: lit "# Delivered").
  destruct (100 <? length message); walk_hash.
Qed.

Lemma advance_succ (n : nat) (w : World) :
  advance n (snd (now w)) = advance (S n) w.
Proof.
  unfold advance, now. cbn [snd tasks activity_log notifications_file clock ticks].
  f_equal. lia.
Qed.

Lemma pending_header_nonempty : pending_header <> [].
Proof. discriminate. Qed.


Lemma insert_notifs_spec (l : list str) (commenter message : str) (task : Task)
  (A B : str) (w : World) :
  texts_no_hash commenter message task ->
  Forall (fun a => no_hash a = true) l ->
  clear_before pending_header A (pending_header ++ B) ->
  occurs pending_header B = false ->
  insert_notifs l commenter message task (A ++ pending_header ++ B) w
  = (Ok (A ++ pending_header ++
         concat (rev (notifs l commenter message task (clock w) (ticks w)))
         ++ B),
     advance (length l) w).
Proof.
  intros Ht Hl. revert B w. induction Hl as [|a l Ha Hl IH]; intros B w HA HB.
  - cbn [insert_notifs notifs rev concat app length]. unfold ret, advance.
    destruct w; reflexivity.
  - cbn [insert_notifs]. unfold bind.
    change (now w) with (Ok (clock w (ticks w)), snd (now w)).
    cbv iota beta.
    rewrite (@replace_first pending_header _ A B pending_header_nonempty HA).
    rewrite (@replace_absent pending_header _ B pending_header_nonempty HB).
    set (n := render_notif a commenter message task
                (firstn 16 (isoformat (clock w (ticks w))))).
    replace (A ++ (pending_header ++ n) ++ B)
      with (A ++ pending_header ++ (n ++ B))
      by (rewrite <- (app_assoc pending_header n B); reflexivity).
    assert (HA' : clear_before pending_header A (pending_header ++ n ++ B))
      by (apply (@clear_before_tail pending_header A B (n ++ B) HA)).
    assert (HB' : occurs pending_header (n ++ B) = false).
    { rewrite (@clear_occurs pending_header n B); [exact HB|].
      apply render_notif_clear_pending; assumption. }
    rewrite (IH (n ++ B) (snd (now w)) HA' HB').
    rewrite advance_succ.
    change (clock (snd (now w))) with (clock w).
    change (ticks (snd (now w))) with (S (ticks w)).
    cbn [length notifs rev]. fold n.
    rewrite concat_app. cbn [concat]. rewrite app_nil_r, <- !app_assoc.
    reflexivity.
Qed.

Lemma notifs_length (l : list str) (commenter message : str) (task : Task)
  (clk : nat -> datetime) (t : nat) :
  length (notifs l commenter message task clk t) = length l.
Proof.
  revert t; induction l as [|a l IH]; intros t; [reflexivity|].
  cbn [notifs length]. rewrite IH. reflexivity.
Qed.

(** No Delivered header begins inside the rendered entries. *)
Lemma notifs_clear_delivered (l : list str) (commenter message : str)
  (task : Task) (clk : nat -> datetime) (t : nat) (rest : str) :
  texts_no_hash commenter message task ->
  Forall (fun a => no_hash a = true) l ->
  clear_before delivered_header
    (concat (rev (notifs l commenter message task clk t))) rest.
Proof.
  intros Ht Hl. revert t rest.
  induction Hl as [|a l Ha Hl IH]; intros t rest; [exact I|].
  cbn [notifs rev]. rewrite concat_app. cbn [concat]. rewrite app_nil_r.
  apply clear_before_app. split; [apply IH|].
  apply render_notif_clear_delivered; assumption.
Qed.

Lemma render_notif_header (a commenter message : str) (task : Task)
  (time : str) :
  exists y,
    render_notif a commenter message task time
    = [nl] ++ (lit "### @" ++ a ++ [nl]) ++ y.
Proof.
  unfold render_notif. eexists. rewrite <- !app_assoc. reflexivity.
Qed.

(** Every addressee's header is in the rendered entries. *)
Lemma notifs_header (l : list str) (commenter message : str) (task : Task)
  (clk : nat -> datetime) (t : nat) (a : str) :
  In a l ->
  exists x y,
    concat (rev (notifs l commenter message task clk t))
    = x ++ (lit "### @" ++ a ++ [nl]) ++ y.
Proof.
  revert t; induction l as [|b l IH]; intros t Hin; [destruct Hin|].
  cbn [notifs rev]. rewrite concat_app. cbn [concat]. rewrite app_nil_r.
  destruct Hin as [-> | Hin].
  - destruct (render_notif_header a commenter message task
                (firstn 16 (isoformat (clk t)))) as [y ->].
    exists (concat (rev (notifs l commenter message task clk (S t))) ++ [nl]), y.
    rewrite <- (app_assoc _ [nl]). reflexivity.
  - destruct (IH (S t) Hin) as (x & y & E). rewrite E.
    exists x.
    exists (y ++ render_notif b commenter message task
                   (firstn 16 (isoformat (clk t)))).
    rewrite <- (app_assoc x), <- (app_assoc _ y). reflexivity.
Qed.

(** The ledger before a fan-out: absent, or a text whose first Pending
    header is behind [A] and is followed by [B], which holds no further
    Pending header. *)
Definition ledger_shape (o : option str) (A B : str) : Prop :=
  match o with
  | None => A = lit "# Notifications" ++ [nl; nl] /\ B = []
  | Some c =>
      split_first pending_header c = Some (A, B) /\
      occurs pending_header B = false
  end.

Definition to_notify_of (task : Task) (commenter : str) : list str :=
  filter (fun s => negb (str_eqb s commenter)) (subscribers task).

Lemma notify_subscribers_none (task : Task) (commenter message : str)
  (w : World) :
  to_notify_of task commenter = [] ->
  _notify_subscribers task commenter message w = (Ok tt, w).
Proof.
  unfold _notify_subscribers, to_notify_of. intros ->. reflexivity.
Qed.

Lemma notify_subscribers_spec (task : Task) (commenter message : str)
  (w : World) (A B : str) :
  to_notify_of task commenter <> [] ->
  texts_no_hash commenter message task ->
  Forall (fun a => no_hash a = true) (to_notify_of task commenter) ->
  ledger_shape (notifications_file w) A B ->
  _notify_subscribers task commenter message w
  = (Ok tt,
     set_notifications_file
       (advance (length (to_notify_of task commenter)) w)
       (Some (A ++ pending_header ++
              concat (rev (notifs (to_notify_of task commenter) commenter
                             message task (clock w) (ticks w)))
              ++ B))).
Proof.
  intros Hne Ht Hl Hs. unfold _notify_subscribers.
  fold (to_notify_of task commenter).
  destruct (to_notify_of task commenter) as [|a0 l0] eqn:E; [congruence|].
  rewrite <- E in *. clear E a0 l0.
  assert (Hc : match notifications_file w with
               | Some c => c
               | None => lit "# Notifications" ++ [nl; nl] ++ pending_header
               end = A ++ pending_header ++ B /\
               clear_before pending_header A (pending_header ++ B) /\
               occurs pending_header B = false).
  { unfold ledger_shape in Hs. destruct (notifications_file w) as [c|].
    - destruct Hs as [H1 H2]. split; [apply split_first_spec; exact H1|].
      split; [apply (split_first_clear _ _ H1) | exact H2].
    - destruct Hs as [-> ->]. split; [rewrite app_nil_r; reflexivity|].
      split; [|reflexivity].
      unfold pending_header. repeat (split; [reflexivity|]). exact I. }
  destruct Hc as (Hc & HA & HB). rewrite Hc. unfold bind.
  rewrite (@insert_notifs_spec _ commenter message task A B w Ht Hl HA HB).
  reflexivity.
Qed.

(** ** [add_comment], [update_task] and [assign_task] step by step *)

(** The task [add_comment] writes: the comment appended, the commenter
    subscribed, [updated] refreshed. *)
Definition commented (t0 : Task) (agent message : str)
  (clk : nat -> datetime) (k : nat) : Task :=
  let t1 := with_thread t0
              (thread t0 ++ [mkComment (firstn 16 (isoformat (clk k))) agent
                               message]) in
  let t2 := if mem agent (subscribers t1) then t1
            else with_subscribers t1 (subscribers t1 ++ [agent]) in
  with_updated t2 (isoformat (clk (S k))).

(** The workspace [add_comment] hands to [_notify_subscribers] *)
Definition commented_world (w : World) (s task_id agent : str) (t : Task)
  (l : listing) : World :=
  mkWorld (put s (put (md task_id) (to_markdown t) l) (tasks w))
    (activity_log w ++ isoformat (clock w (S (S (ticks w)))) ++ lit " | " ++
     agent ++ lit " | " ++ (lit "Commented on " ++ task_id) ++ [nl])
    (notifications_file w) (clock w) (S (S (S (ticks w)))).

Lemma read_listing (s f : str) (w : World) (c : str) :
  read s f w = Some c ->
  exists l, lookup s (tasks w) = Some l /\ lookup f l = Some c.
Proof.
  unfold read, listdir. destruct (lookup s (tasks w)) as [l|]; [|discriminate].
  intros H. exists l. split; [reflexivity | exact H].
Qed.

Lemma add_comment_found (i a m : str) (w : World) (s c : str) (t0 : Task) :
  _find_task_file i w = Some s -> read s (md i) w = Some c ->
  from_markdown c = Ok t0 ->
  exists l,
    lookup s (tasks w) = Some l /\
    add_comment i a m w =
    (let t := commented t0 a m (clock w) (ticks w) in
     let r := _notify_subscribers t a m (commented_world w s i a t l) in
     (match fst r with Ok _ => Ok t | Raise e => Raise e end, snd r)).
Proof.
  intros Hf Hr Hd. destruct (read_listing _ _ _ Hr) as (l & Hl & Hc).
  exists l. split; [exact Hl|].
  unfold add_comment. unfold_m. rewrite Hf, Hr, Hd.
  cbn [tasks]. rewrite Hl. cbv zeta.
  unfold commented, commented_world, set_tasks, set_activity_log.
  cbn [tasks activity_log notifications_file clock ticks].
  destruct (_notify_subscribers _ a m _) as [[u|e] w']; reflexivity.
Qed.

Lemma add_comment_fails (i a m : str) (w : World) :
  (_find_task_file i w = None ->
   add_comment i a m w = (Raise (NotFound i), w)) /\
  (forall s c e, _find_task_file i w = Some s -> read s (md i) w = Some c ->
                 from_markdown c = Raise e ->
                 add_comment i a m w = (Raise e, w)).
Proof.
  split.
  - intros Hf. unfold add_comment. unfold_m. rewrite Hf. reflexivity.
  - intros s c e Hf Hr Hd. unfold add_comment. unfold_m.
    rewrite Hf, Hr, Hd. reflexivity.
Qed.

Lemma find_task_file_read (i : str) (w : World) (s : str) :
  _find_task_file i w = Some s -> exists c, read s (md i) w = Some c.
Proof.
  intros H. apply first_status_with_some in H as [_ H].
  unfold file_exists in H. destruct (read s (md i) w); [eauto | discriminate].
Qed.

(** [_notify_subscribers] never raises and touches only the ledger and
    the clock. *)
Lemma insert_notifs_total (l : list str) (commenter message : str)
  (task : Task) (content : str) (w : World) :
  exists c, insert_notifs l commenter message task content w
            = (Ok c, advance (length l) w).
Proof.
  revert content w; induction l as [|a l IH]; intros content w.
  - exists content. unfold advance. destruct w; reflexivity.
  - cbn [insert_notifs]. unfold bind.
    change (now w) with (Ok (clock w (ticks w)), snd (now w)).
    cbv iota beta.
    match goal with
    | |- context [insert_notifs l commenter message task ?c (snd (now w))] =>
        destruct (IH c (snd (now w))) as [c' ->]
    end.
    exists c'. rewrite advance_succ. reflexivity.
Qed.

Lemma notify_subscribers_total (task : Task) (commenter message : str)
  (w : World) :
  fst (_notify_subscribers task commenter message w) = Ok tt /\
  tasks (snd (_notify_subscribers task commenter message w)) = tasks w.
Proof.
  unfold _notify_subscribers.
  destruct (filter _ (subscribers task)) as [|a0 l0]; [split; reflexivity|].
  unfold bind.
  match goal with
  | |- context [insert_notifs ?l commenter message task ?c w] =>
      destruct (insert_notifs_total l commenter message task c w) as [c' ->]
  end.
  split; reflexivity.
Qed.

(** A successful [add_comment], read backwards. *)
Lemma add_comment_inv (i a m : str) (w : World) (t : Task) (w' : World) :
  add_comment i a m w = (Ok t, w') ->
  exists s c t0 l,
    _find_task_file i w = Some s /\ read s (md i) w = Some c /\
    from_markdown c = Ok t0 /\ lookup s (tasks w) = Some l /\
    t = commented t0 a m (clock w) (ticks w) /\
    w' = snd (_notify_subscribers t a m (commented_world w s i a t l)).
Proof.
  intros H. destruct (add_comment_fails i a m w) as [F1 F2].
  destruct (_find_task_file i w) as [s|] eqn:Hf;
    [|rewrite F1 in H by reflexivity; discriminate].
  destruct (find_task_file_read _ _ Hf) as [c Hr].
  destruct (from_markdown c) as [t0|e] eqn:Hd;
    [|rewrite (F2 s c e eq_refl Hr Hd) in H; discriminate].
  destruct (add_comment_found i a m w Hf Hr Hd) as (l & Hl & E).
  rewrite E in H. cbv zeta in H.
  destruct (notify_subscribers_total (commented t0 a m (clock w) (ticks w)) a m
              (commented_world w s i a (commented t0 a m (clock w) (ticks w)) l))
    as [N1 _].
  rewrite N1 in H. injection H as <- <-.
  exists s, c, t0, l. repeat split; assumption.
Qed.

(** ** Decoded tasks are clean *)

Lemma lstrip_single_line (s : str) :
  single_line s = true -> single_line (lstrip s) = true.
Proof.
  induction s as [|c s IH]; [reflexivity|].
  intros H. cbn [lstrip]. destruct (isspace c); [|exact H].
  cbn [single_line forallb] in H. apply andb_true_iff in H as [_ H]. auto.
Qed.

Lemma rstrip_single_line (s : str) :
  single_line s = true -> single_line (rstrip s) = true.
Proof.
  induction s as [|c s IH]; [reflexivity|].
  intros H. cbn [single_line forallb] in H. apply andb_true_iff in H as [Hc H].
  specialize (IH H). cbn [rstrip].
  destruct (rstrip s) as [|d r] eqn:E.
  - destruct (isspace c); [reflexivity|]. cbn. rewrite Hc. reflexivity.
  - cbn [single_line forallb] in *. rewrite Hc. exact IH.
Qed.

Lemma strip_single_line (s : str) :
  single_line s = true -> single_line (strip s) = true.
Proof.
  intros H. unfold strip. apply rstrip_single_line, lstrip_single_line, H.
Qed.

Lemma lstrip_idem (s : str) : lstrip (lstrip s) = lstrip s.
Proof.
  induction s as [|c s IH]; [reflexivity|].
  cbn [lstrip]. destruct (isspace c) eqn:E; [exact IH|].
  cbn [lstrip]. rewrite E. reflexivity.
Qed.

Lemma rstrip_cons (c : ascii) (s : str) :
  rstrip (c :: s) =
  match rstrip s with
  | [] => if isspace c then [] else [c]
  | r => c :: r
  end.
Proof. reflexivity. Qed.

Lemma rstrip_idem (s : str) : rstrip (rstrip s) = rstrip s.
Proof.
  induction s as [|c s IH]; [reflexivity|].
  rewrite rstrip_cons. destruct (rstrip s) as [|d r] eqn:E.
  - destruct (isspace c) eqn:F; [reflexivity|]. cbn [rstrip]. rewrite F.
    reflexivity.
  - rewrite rstrip_cons, IH. reflexivity.
Qed.

Lemma rstrip_head (c : ascii) (s : str) :
  isspace c = false -> exists r, rstrip (c :: s) = c :: r.
Proof.
  intros H. cbn [rstrip]. destruct (rstrip s); [rewrite H|]; eauto.
Qed.

Lemma lstrip_rstrip (s : str) :
  lstrip s = s -> lstrip (rstrip s) = rstrip s.
Proof.
  destruct s as [|c s]; [reflexivity|]. intros H.
  pose proof (lstrip_fix_head H) as Hc.
  destruct (@rstrip_head c s Hc) as [r ->]. cbn [lstrip]. rewrite Hc. reflexivity.
Qed.

Lemma strip_idem (s : str) : strip (strip s) = strip s.
Proof.
  unfold strip. rewrite lstrip_rstrip by apply lstrip_idem.
  apply rstrip_idem.
Qed.

Lemma split_lines_all_single (s : str) :
  forallb single_line (split_lines s) = true.
Proof.
  induction s as [|c s IH]; [reflexivity|].
  cbn [split_lines]. destruct (Ascii.eqb c nl) eqn:E; [exact IH|].
  destruct (split_lines s) as [|l ls]; cbn [forallb single_line] in *.
  - unfold not_nl. rewrite E. reflexivity.
  - unfold not_nl at 1. rewrite E. exact IH.
Qed.

Definition fm_clean (fm : list (str * fmval)) : Prop :=
  Forall (fun kv => match snd kv with FStr s => clean s | FList _ => True end)
    fm.

Lemma parse_fm_line_clean (fm fm' : list (str * fmval)) (line : str) :
  single_line line = true -> fm_clean fm ->
  parse_fm_line fm line = Ok fm' -> fm_clean fm'.
Proof.
  intros Hl Hfm. unfold parse_fm_line.
  destruct (split_first (lit ":") line) as [[k v]|] eqn:E.
  - apply split_first_spec in E. subst line.
    rewrite !single_line_app in Hl.
    apply andb_true_iff in Hl as [_ Hl]. apply andb_true_iff in Hl as [_ Hv].
    destruct (startswith (lit "[") (strip v)) eqn:B.
    + destruct (Json.loads (strip v)); [|discriminate].
      intros H; injection H as <-. constructor; [exact I | exact Hfm].
    + intros H; injection H as <-. constructor; [|exact Hfm].
      split; [apply strip_single_line; exact Hv|].
      split; [apply strip_idem | exact B].
  - intros H; injection H as <-. exact Hfm.
Qed.

Lemma parse_fm_lines_clean (lines : list str) (fm fm' : list (str * fmval)) :
  forallb single_line lines = true -> fm_clean fm ->
  parse_fm_lines fm lines = Ok fm' -> fm_clean fm'.
Proof.
  revert fm; induction lines as [|line lines IH]; intros fm Hl Hfm.
  - intros H; injection H as <-. exact Hfm.
  - cbn [forallb] in Hl. apply andb_true_iff in Hl as [H1 H2].
    cbn [parse_fm_lines].
    destruct (parse_fm_line fm line) as [fm1|e] eqn:E; [|discriminate].
    apply (IH fm1 H2). apply (parse_fm_line_clean line H1 Hfm E).
Qed.

Lemma fm_get_clean (key : str) (fm : list (str * fmval)) (s : str) :
  fm_clean fm -> fm_get key fm = Some (FStr s) -> clean s.
Proof.
  induction 1 as [|[k v] fm Hv Hfm IH]; cbn [fm_get]; [discriminate|].
  destruct (str_eqb k key); [|exact IH].
  intros H; injection H as ->. exact Hv.
Qed.

Lemma get_str_clean (key : string) (default : str) (fm : list (str * fmval))
  (s : str) :
  fm_clean fm -> clean default -> get_str key default fm = Ok s -> clean s.
Proof.
  intros Hfm Hd. unfold get_str.
  destruct (fm_get (lit key) fm) as [[v|l]|] eqn:E; try discriminate.
  - intros H; injection H as <-. apply (fm_get_clean _ Hfm E).
  - intros H; injection H as <-. exact Hd.
Qed.

Lemma get_opt_clean (key : string) (fm : list (str * fmval)) (o : option str) :
  fm_clean fm -> get_opt key fm = Ok o -> clean_opt o.
Proof.
  intros Hfm. unfold get_opt.
  destruct (fm_get (lit key) fm) as [[v|l]|] eqn:E; try discriminate.
  - intros H; injection H as <-. apply (fm_get_clean _ Hfm E).
  - intros H; injection H as <-. exact I.
Qed.

Lemma clean_literal (s : str) :
  single_line s && str_eqb (strip s) s && negb (startswith (lit "[") s) = true ->
  clean s.
Proof.
  intros H. apply andb_true_iff in H as [H H3].
  apply andb_true_iff in H as [H1 H2].
  split; [exact H1|]. split; [apply str_eqb_eq; exact H2|].
  apply negb_true_iff. exact H3.
Qed.

Ltac bind_inv H :=
  match type of H with
  | bind_res ?r _ = Ok _ =>
      let E := fresh "E" in
      destruct r eqn:E; [cbn [bind_res] in H | discriminate H]
  end.

Theorem from_markdown_clean (content : str) (t : Task) :
  from_markdown content = Ok t -> clean_task t.
Proof.
  unfold from_markdown.
  destruct (fm_match content) as [[fm_text body]|]; [|discriminate].
  intros H. bind_inv H.
  assert (Hfm : fm_clean a).
  { apply (parse_fm_lines_clean (split_lines fm_text) (fm := []));
      [apply split_lines_all_single | constructor | exact E]. }
  do 12 bind_inv H.
  injection H as <-. unfold clean_task. cbn.
  repeat split;
    first [ eapply get_str_clean; [exact Hfm | | eassumption];
            apply clean_literal; reflexivity
          | eapply get_opt_clean; [exact Hfm | eassumption] ].
Qed.

Lemma isoformat_clean (d : datetime) : clean (isoformat d).
Proof.
  pose proof (isoformat_chars d) as H.
  assert (Hz : exists c r, zfill 4 (year d) = c :: r /\ isdigit c = true).
  { pose proof (zfill_digits 4 (year d)) as D.
    pose proof (@zfill_nonempty 4 (year d)) as N.
    destruct (zfill 4 (year d)) as [|c r]; [congruence|].
    cbn [forallb] in D. apply andb_true_iff in D as [D _]. eauto. }
  destruct Hz as (c & r & Ez & Hc).
  assert (Hhead : exists r', isoformat d = c :: r').
  { unfold isoformat. rewrite Ez. eexists. reflexivity. }
  destruct Hhead as [r' Er].
  split; [|split].
  - apply (forallb_impl iso_char _ _ iso_char_not_nl H).
  - apply strip_fix. split.
    + rewrite Er. cbn [lstrip].
      replace (isspace c) with false; [reflexivity|].
      clear - Hc. destruct c as [[] [] [] [] [] [] [] []]; try discriminate Hc;
        reflexivity.
    + clear - H. induction (isoformat d) as [|x s IH]; [reflexivity|].
      cbn [forallb] in H. apply andb_true_iff in H as [Hx Hs].
      cbn [rstrip]. rewrite (IH Hs).
      destruct s; [|reflexivity].
      replace (isspace x) with false; [reflexivity|].
      clear - Hx. destruct x as [[] [] [] [] [] [] [] []]; try discriminate Hx;
        reflexivity.
  - rewrite Er. cbn [startswith lit list_ascii_of_string].
    replace (Ascii.eqb "[" c) with false; [reflexivity|].
    clear - Hc. destruct c as [[] [] [] [] [] [] [] []]; try discriminate Hc;
      reflexivity.
Qed.

(** ** The stored record before and after a write *)

(** The task [assign_task] passes to [update_task] *)
Definition assignee (t0 : Task) (agent : str) : Task :=
  if mem agent (assigned t0) then t0
  else
    let t := with_assigned t0 (assigned t0 ++ [agent]) in
    if mem agent (subscribers t) then t
    else with_subscribers t (subscribers t ++ [agent]).

(** The task [assign_task] writes and returns *)
Definition assigned_task (t0 : Task) (agent : str) (clk : nat -> datetime)
  (k : nat) : Task :=
  with_updated
    (with_subscribers (with_assigned t0 (assigned (assignee t0 agent)))
       (subscribers (assignee t0 agent)))
    (isoformat (clk k)).

(** What [find_task] returns; it leaves the workspace as it is. *)
Definition stored (task_id : str) (w : World) : res (option Task) :=
  fst (find_task task_id w).

Lemma find_task_found (i : str) (w : World) (s c : str) :
  _find_task_file i w = Some s -> read s (md i) w = Some c ->
  find_task i w =
  (match from_markdown c with Ok t => Ok (Some t) | Raise e => Raise e end, w).
Proof.
  intros Hf Hr. unfold find_task. rewrite Hf. unfold_m. rewrite Hr.
  destruct (from_markdown c); reflexivity.
Qed.

Lemma find_task_pure (i : str) (w : World) : snd (find_task i w) = w.
Proof.
  destruct (_find_task_file i w) as [s|] eqn:Hf.
  - destruct (find_task_file_read _ _ Hf) as [c Hr].
    rewrite (find_task_found _ _ Hf Hr). reflexivity.
  - unfold find_task. rewrite Hf. reflexivity.
Qed.

Lemma find_task_stored (i : str) (w : World) :
  find_task i w = (stored i w, w).
Proof.
  unfold stored. rewrite <- (find_task_pure i w) at 3.
  destruct (find_task i w); reflexivity.
Qed.

Lemma stored_found (i : str) (w : World) (t : Task) :
  stored i w = Ok (Some t) ->
  exists s c, _find_task_file i w = Some s /\ read s (md i) w = Some c /\
              from_markdown c = Ok t.
Proof.
  unfold stored. destruct (_find_task_file i w) as [s|] eqn:Hf.
  - destruct (find_task_file_read _ _ Hf) as [c Hr].
    rewrite (find_task_found _ _ Hf Hr). cbn [fst].
    destruct (from_markdown c) as [t'|e] eqn:Hd; [|discriminate].
    intros H; injection H as <-. eauto.
  - unfold find_task. rewrite Hf. discriminate.
Qed.

Lemma first_status_with_ext (f : str) (sts : list str) (w w' : World) :
  (forall s, In s sts -> file_exists s f w' = file_exists s f w) ->
  first_status_with f sts w' = first_status_with f sts w.
Proof.
  induction sts as [|s sts IH]; [reflexivity|].
  intros H. cbn [first_status_with].
  rewrite (H s) by (left; reflexivity). rewrite IH; [reflexivity|].
  intros s' Hs'. apply H. right; assumption.
Qed.

Lemma md_inj (i j : str) : md i = md j -> i = j.
Proof. unfold md. apply app_inv_tail. Qed.

Section Written.

Variables (w w' : World) (i s content : str) (l : listing).
Hypothesis Hf : _find_task_file i w = Some s.
Hypothesis Hl : lookup s (tasks w) = Some l.
Hypothesis Hw : tasks w' = put s (put (md i) content l) (tasks w).

Lemma written_read_same : read s (md i) w' = Some content.
Proof.
  unfold read, listdir. rewrite Hw, lookup_put_same. apply lookup_put_same.
Qed.

Lemma written_read_other (s' f : str) :
  f <> md i -> read s' f w' = read s' f w.
Proof.
  intros Hne. unfold read, listdir. rewrite Hw.
  destruct (str_eqb s' s) eqn:E.
  - apply str_eqb_eq in E. subst s'. rewrite lookup_put_same, Hl.
    apply lookup_put_other. exact Hne.
  - apply str_eqb_neq in E. rewrite lookup_put_other by exact E. reflexivity.
Qed.

Lemma written_read_elsewhere (s' f : str) :
  s' <> s -> read s' f w' = read s' f w.
Proof.
  intros Hne. unfold read, listdir. rewrite Hw.
  rewrite lookup_put_other by exact Hne. reflexivity.
Qed.

Lemma written_exists (s' f : str) :
  file_exists s' f w' = file_exists s' f w.
Proof.
  unfold file_exists.
  destruct (str_eqb s' s) eqn:E.
  - apply str_eqb_eq in E. subst s'.
    destruct (str_eqb f (md i)) eqn:F.
    + apply str_eqb_eq in F. subst f. rewrite written_read_same.
      apply first_status_with_some in Hf as [_ Hx].
      unfold file_exists in Hx. destruct (read s (md i) w); congruence.
    + apply str_eqb_neq in F. rewrite written_read_other by exact F.
      reflexivity.
  - apply str_eqb_neq in E. rewrite written_read_elsewhere by exact E.
    reflexivity.
Qed.

Lemma written_find_file (j : str) : _find_task_file j w' = _find_task_file j w.
Proof.
  unfold _find_task_file. apply first_status_with_ext.
  intros s' _. apply written_exists.
Qed.

Lemma written_stored_same :
  stored i w' =
  match from_markdown content with Ok t => Ok (Some t) | Raise e => Raise e end.
Proof.
  unfold stored.
  rewrite (@find_task_found i w' s content);
    [reflexivity | rewrite written_find_file; exact Hf | exact written_read_same].
Qed.

Lemma written_stored_other (j : str) : j <> i -> stored j w' = stored j w.
Proof.
  intros Hne. unfold stored, find_task. rewrite written_find_file.
  destruct (_find_task_file j w) as [s'|]; [|reflexivity].
  unfold_m. rewrite written_read_other;
    [|intros E; apply md_inj in E; contradiction].
  destruct (read s' (md j) w) as [c|]; [|reflexivity].
  destruct (from_markdown c); reflexivity.
Qed.

End Written.

(** ** [assign_task] step by step *)

Lemma apply_updates_assign (t : Task) (a s : list str) :
  apply_updates (t, false)
    [ (lit "assigned", VList a); (lit "subscribers", VList s) ]
  = Ok (with_subscribers (with_assigned t a) s, false).
Proof. reflexivity. Qed.

(** The workspace [assign_task] leaves *)
Definition assigned_world (w : World) (s task_id : str) (t : Task)
  (l : listing) : World :=
  mkWorld (put s (put (md task_id) (to_markdown t) l) (tasks w))
    (activity_log w) (notifications_file w) (clock w) (S (ticks w)).

Lemma assign_task_found (i a : str) (w : World) (s c : str) (t0 : Task) :
  _find_task_file i w = Some s -> read s (md i) w = Some c ->
  from_markdown c = Ok t0 ->
  exists l,
    lookup s (tasks w) = Some l /\
    assign_task i a w =
    (let t := assigned_task t0 a (clock w) (ticks w) in
     (Ok t, assigned_world w s i t l)).
Proof.
  intros Hf Hr Hd. destruct (read_listing _ _ _ Hr) as (l & Hl & Hc).
  exists l. split; [exact Hl|].
  unfold assign_task. unfold bind at 1. rewrite (find_task_found _ _ Hf Hr), Hd.
  unfold update_task. unfold_m. rewrite Hf, Hr, Hd.
  rewrite apply_updates_assign. cbn [fst snd tasks]. rewrite Hl.
  reflexivity.
Qed.

Lemma assign_task_fails (i a : str) (w : World) :
  (_find_task_file i w = None ->
   assign_task i a w = (Raise (NotFound i), w)) /\
  (forall s c e, _find_task_file i w = Some s -> read s (md i) w = Some c ->
                 from_markdown c = Raise e ->
                 assign_task i a w = (Raise e, w)).
Proof.
  split.
  - intros Hf. unfold assign_task, find_task. unfold_m. rewrite Hf.
    reflexivity.
  - intros s c e Hf Hr Hd. unfold assign_task. unfold bind at 1.
    rewrite (find_task_found _ _ Hf Hr), Hd. reflexivity.
Qed.

(** A successful [assign_task], read backwards. *)
Lemma assign_task_inv (i a : str) (w : World) (t : Task) (w' : World) :
  assign_task i a w = (Ok t, w') ->
  exists s c t0 l,
    _find_task_file i w = Some s /\ read s (md i) w = Some c /\
    from_markdown c = Ok t0 /\ lookup s (tasks w) = Some l /\
    t = assigned_task t0 a (clock w) (ticks w) /\
    w' = assigned_world w s i t l.
Proof.
  intros H. destruct (assign_task_fails i a w) as [F1 F2].
  destruct (_find_task_file i w) as [s|] eqn:Hf;
    [|rewrite F1 in H by reflexivity; discriminate].
  destruct (find_task_file_read _ _ Hf) as [c Hr].
  destruct (from_markdown c) as [t0|e] eqn:Hd;
    [|rewrite (F2 s c e eq_refl Hr Hd) in H; discriminate].
  destruct (assign_task_found i a w Hf Hr Hd) as (l & Hl & E).
  rewrite E in H. cbv zeta in H. injection H as <- <-.
  exists s, c, t0, l. repeat split; assumption.
Qed.

(** ** What a write of either operation leaves in the record *)

Lemma commented_clean (t0 : Task) (a m : str) (clk : nat -> datetime)
  (k : nat) :
  clean_task t0 -> clean_task (commented t0 a m clk k).
Proof.
  intros (H1 & H2 & H3 & H4 & H5 & H6 & H7 & H8 & H9).
  unfold commented. cbv zeta.
  destruct (mem a _); unfold clean_task; cbn;
    (split; [assumption|]); (split; [assumption|]); (split; [assumption|]);
    (split; [assumption|]); (split; [assumption|]);
    (split; [apply isoformat_clean|]); (split; [assumption|]);
    split; assumption.
Qed.

Lemma assigned_task_clean (t0 : Task) (a : str) (clk : nat -> datetime)
  (k : nat) :
  clean_task t0 -> clean_task (assigned_task t0 a clk k).
Proof.
  intros (H1 & H2 & H3 & H4 & H5 & H6 & H7 & H8 & H9).
  unfold assigned_task, clean_task; cbn;
    (split; [assumption|]); (split; [assumption|]); (split; [assumption|]);
    (split; [assumption|]); (split; [assumption|]);
    (split; [apply isoformat_clean|]); (split; [assumption|]);
    split; assumption.
Qed.

Lemma commented_lists (t0 : Task) (a m : str) (clk : nat -> datetime)
  (k : nat) :
  let t := commented t0 a m clk k in
  assigned t = assigned t0 /\
  subscribers t =
    (if mem a (subscribers t0) then subscribers t0 else subscribers t0 ++ [a]).
Proof.
  unfold commented. cbv zeta. cbn [subscribers with_thread].
  destruct (mem a (subscribers t0)); split; reflexivity.
Qed.

Lemma assigned_task_lists (t0 : Task) (a : str) (clk : nat -> datetime)
  (k : nat) :
  let t := assigned_task t0 a clk k in
  assigned t =
    (if mem a (assigned t0) then assigned t0 else assigned t0 ++ [a]) /\
  subscribers t =
    (if mem a (assigned t0) then subscribers t0
     else if mem a (subscribers t0) then subscribers t0
          else subscribers t0 ++ [a]).
Proof.
  unfold assigned_task, assignee. cbv zeta.
  cbn [assigned subscribers with_updated with_subscribers with_assigned].
  destruct (mem a (assigned t0)); [split; reflexivity|].
  cbn [assigned subscribers with_updated with_subscribers with_assigned].
  destruct (mem a (subscribers t0)); split; reflexivity.
Qed.

(** ** Sequences of comments and assignments *)

Inductive call :=
| AddComment (task_id agent message : str)
| AssignTask (task_id agent : str).

Definition target (c : call) : str :=
  match c with AddComment i _ _ => i | AssignTask i _ => i end.

Definition actor (c : call) : str :=
  match c with AddComment _ a _ => a | AssignTask _ a => a end.

Definition perform (c : call) : M Task :=
  match c with
  | AddComment i a m => add_comment i a m
  | AssignTask i a => assign_task i a
  end.

Fixpoint perform_all (cs : list call) (w : World) : World :=
  match cs with
  | [] => w
  | c :: cs' => perform_all cs' (snd (perform c w))
  end.

(** The agents of the calls on [task_id] that returned. *)
Fixpoint actors (task_id : str) (cs : list call) (w : World) : list str :=
  match cs with
  | [] => []
  | c :: cs' =>
      (if returned (fst (perform c w)) && str_eqb (target c) task_id
       then [actor c] else [])
      ++ actors task_id cs' (snd (perform c w))
  end.

(** The task a call writes over the stored task [t0] *)
Definition written (c : call) (t0 : Task) (clk : nat -> datetime) (k : nat)
  : Task :=
  match c with
  | AddComment _ a m => commented t0 a m clk k
  | AssignTask _ a => assigned_task t0 a clk k
  end.

Lemma perform_inv (c : call) (w : World) (t : Task) (w' : World) :
  perform c w = (Ok t, w') ->
  exists s c0 t0 l,
    _find_task_file (target c) w = Some s /\
    read s (md (target c)) w = Some c0 /\
    from_markdown c0 = Ok t0 /\ lookup s (tasks w) = Some l /\
    t = written c t0 (clock w) (ticks w) /\
    tasks w' = put s (put (md (target c)) (to_markdown t) l) (tasks w).
Proof.
  destruct c as [i a m|i a]; cbn [perform target written]; intros H.
  - apply add_comment_inv in H as (s & c0 & t0 & l & Hf & Hr & Hd & Hl & Ht & Hw).
    exists s, c0, t0, l. repeat (split; [assumption|]).
    rewrite Hw.
    destruct (notify_subscribers_total t a m (commented_world w s i a t l))
      as [_ ->].
    reflexivity.
  - apply assign_task_inv in H as (s & c0 & t0 & l & Hf & Hr & Hd & Hl & Ht & Hw).
    exists s, c0, t0, l. repeat (split; [assumption|]).
    rewrite Hw. reflexivity.
Qed.

Lemma perform_fails (c : call) (w : World) (e : error) (w' : World) :
  perform c w = (Raise e, w') -> w' = w.
Proof.
  destruct c as [i a m|i a]; cbn [perform]; intros H.
  - destruct (add_comment_fails i a m w) as [F1 F2].
    destruct (_find_task_file i w) as [s|] eqn:Hf;
      [|rewrite F1 in H by reflexivity; congruence].
    destruct (find_task_file_read _ _ Hf) as [c Hr].
    destruct (from_markdown c) as [t0|e0] eqn:Hd;
      [|rewrite (F2 s c e0 eq_refl Hr Hd) in H; congruence].
    destruct (add_comment_found i a m w Hf Hr Hd) as (l & Hl & E).
    rewrite E in H. cbv zeta in H.
    destruct (notify_subscribers_total (commented t0 a m (clock w) (ticks w))
                a m
                (commented_world w s i a
                   (commented t0 a m (clock w) (ticks w)) l)) as [N1 _].
    rewrite N1 in H. discriminate.
  - destruct (assign_task_fails i a w) as [F1 F2].
    destruct (_find_task_file i w) as [s|] eqn:Hf;
      [|rewrite F1 in H by reflexivity; congruence].
    destruct (find_task_file_read _ _ Hf) as [c Hr].
    destruct (from_markdown c) as [t0|e0] eqn:Hd;
      [|rewrite (F2 s c e0 eq_refl Hr Hd) in H; congruence].
    destruct (assign_task_found i a w Hf Hr Hd) as (l & Hl & E).
    rewrite E in H. discriminate.
Qed.

Lemma written_clean (c : call) (t0 : Task) (clk : nat -> datetime) (k : nat) :
  clean_task t0 -> clean_task (written c t0 clk k).
Proof.
  destruct c; [apply commented_clean | apply assigned_task_clean].
Qed.

(** A call that returns leaves its task stored with the lists it
    returned. *)
Lemma perform_stored (c : call) (w : World) (t : Task) (w' : World) :
  perform c w = (Ok t, w') ->
  exists t0 t',
    stored (target c) w = Ok (Some t0) /\
    t = written c t0 (clock w) (ticks w) /\
    stored (target c) w' = Ok (Some t') /\
    assigned t' = assigned t /\ subscribers t' = subscribers t /\
    forall j, j <> target c -> stored j w' = stored j w.
Proof.
  intros H.
  apply perform_inv in H as (s & c0 & t0 & l & Hf & Hr & Hd & Hl & Ht & Hw).
  assert (Hc : clean_task t).
  { rewrite Ht. apply written_clean. apply (from_markdown_clean _ Hd). }
  exists t0. eexists. split; [|split; [exact Ht|split; [|split; [|split]]]].
  - unfold stored. rewrite (find_task_found _ _ Hf Hr), Hd. reflexivity.
  - rewrite (written_stored_same w w' _ _ Hf Hl Hw).
    rewrite (from_markdown_to_markdown Hc). reflexivity.
  - reflexivity.
  - reflexivity.
  - intros j Hj. apply (written_stored_other w w' _ Hf Hl Hw Hj).
Qed.

Lemma written_lists (c : call) (t0 : Task) (clk : nat -> datetime) (k : nat) :
  let t := written c t0 clk k in
  incl (subscribers t0) (subscribers t) /\
  (incl (assigned t0) (subscribers t0) ->
   incl (assigned t) (subscribers t) /\ In (actor c) (subscribers t)).
Proof.
  destruct c as [i a m|i a]; cbn [written actor]; cbv zeta.
  - destruct (commented_lists t0 a m clk k) as [-> ->].
    destruct (mem a (subscribers t0)) eqn:E.
    + split; [apply incl_refl|]. intros H. split; [exact H|].
      apply mem_In; exact E.
    + split; [apply incl_appl, incl_refl|]. intros H.
      split; [apply incl_appl; exact H|].
      apply in_or_app; right; left; reflexivity.
  - destruct (assigned_task_lists t0 a clk k) as [-> ->].
    destruct (mem a (assigned t0)) eqn:E.
    + split; [apply incl_refl|]. intros H. split; [exact H|].
      apply H. apply mem_In; exact E.
    + destruct (mem a (subscribers t0)) eqn:F.
      * split; [apply incl_refl|]. intros H.
        assert (Ha : In a (subscribers t0)) by (apply mem_In; exact F).
        split; [|exact Ha].
        apply incl_app; [exact H|]. intros x [<-|[]]. exact Ha.
      * split; [apply incl_appl, incl_refl|]. intros H.
        assert (Ha : In a (subscribers t0 ++ [a]))
          by (apply in_or_app; right; left; reflexivity).
        split; [|exact Ha].
        apply incl_app; [apply incl_appl; exact H|].
        intros x [<-|[]]. exact Ha.
Qed.

(** One call keeps the invariant of the record [i]. *)
Lemma perform_step (c : call) (w : World) (i : str) (t0 : Task) :
  stored i w = Ok (Some t0) -> incl (assigned t0) (subscribers t0) ->
  exists t1,
    stored i (snd (perform c w)) = Ok (Some t1) /\
    incl (assigned t1) (subscribers t1) /\
    incl (subscribers t0) (subscribers t1) /\
    (returned (fst (perform c w)) && str_eqb (target c) i = true ->
     In (actor c) (subscribers t1)).
Proof.
  intros Hs Hi.
  destruct (perform c w) as [[t|e] w'] eqn:E; cbn [fst snd returned].
  - destruct (perform_stored c w E)
      as (t0' & t' & Hs0 & Ht & Hs' & Ha & Hb & Hother).
    destruct (str_eqb (target c) i) eqn:Ei.
    + apply str_eqb_eq in Ei. rewrite Ei in *.
      rewrite Hs in Hs0. injection Hs0 as <-.
      destruct (written_lists c t0 (clock w) (ticks w)) as [W1 W2].
      destruct (W2 Hi) as [W3 W4]. rewrite <- Ht in *.
      exists t'. rewrite Ha, Hb. repeat split; auto.
    + apply str_eqb_neq in Ei.
      exists t0. rewrite Hother by congruence.
      repeat split; auto using incl_refl. discriminate.
  - apply perform_fails in E. subst w'. exists t0.
    repeat split; auto using incl_refl. discriminate.
Qed.

Lemma perform_all_inv (cs : list call) (w : World) (i : str) (t0 : Task) :
  stored i w = Ok (Some t0) -> incl (assigned t0) (subscribers t0) ->
  exists t,
    stored i (perform_all cs w) = Ok (Some t) /\
    incl (assigned t) (subscribers t) /\
    incl (subscribers t0) (subscribers t) /\
    incl (actors i cs w) (subscribers t).
Proof.
  revert w t0; induction cs as [|c cs IH]; intros w t0 Hs Hi.
  - exists t0. cbn [perform_all actors].
    repeat split; auto using incl_refl. intros x [].
  - destruct (@perform_step c w i t0 Hs Hi) as (t1 & Hs1 & Hi1 & Hm1 & Ha1).
    destruct (IH _ _ Hs1 Hi1) as (t & Hst & Hit & Hmt & Hat).
    exists t. cbn [perform_all actors].
    split; [exact Hst|]. split; [exact Hit|].
    split; [eapply incl_tran; eassumption|].
    apply incl_app; [|exact Hat].
    destruct (returned (fst (perform c w)) && str_eqb (target c) i);
      [|intros x []].
    intros x [<-|[]]. apply Hmt, Ha1. reflexivity.
Qed.

(** ** The Pending section as a list of entries *)

(** The line that opens an entry of the ledger *)
Definition entry_header (agent : str) : str := lit "### @" ++ agent ++ [nl].

(** An entry: the addressee and the text behind the header line. *)
Definition render_entry (e : str * str) : str :=
  lit "### @" ++ fst e ++ nl :: snd e.

Definition flat (es : list (str * str)) : str := concat (map render_entry es).

Definition entry_plain (e : str * str) : Prop :=
  no_hash (fst e) = true /\ single_line (fst e) = true /\
  no_hash (snd e) = true.

(** Every entry for [a] begins with one of the texts [Ts]. *)
Definition covered (a : str) (Ts : list str) (es : list (str * str)) : Prop :=
  Forall (fun e => fst e = a -> exists T r, In T Ts /\ snd e = T ++ r) es.

Lemma render_entry_shape (n b : str) :
  render_entry (n, b)
  = "#"%char :: "#"%char :: "#"%char :: " "%char :: "@"%char :: n ++ nl :: b.
Proof. reflexivity. Qed.

Lemma entry_header_shape (a : str) :
  entry_header a
  = "#"%char :: "#"%char :: "#"%char :: " "%char :: "@"%char :: a ++ [nl].
Proof. reflexivity. Qed.

Lemma flat_cons (e : str * str) (es : list (str * str)) :
  flat (e :: es) = render_entry e ++ flat es.
Proof. reflexivity. Qed.

Lemma flat_head (es : list (str * str)) :
  flat es = [] \/ exists z, flat es = "#"%char :: z.
Proof.
  destruct es as [|[n b] es]; [left; reflexivity|].
  right. rewrite flat_cons, render_entry_shape. eexists. reflexivity.
Qed.

Lemma no_hash_cons (c : ascii) (s : str) :
  no_hash (c :: s) = negb (Ascii.eqb c "#"%char) && no_hash s.
Proof. reflexivity. Qed.

(** A pattern that begins with [#] starts inside an entry only at one of
    the three [#] of its header. *)
Lemma clear_before_render (p n b rest : str) :
  no_hash n = true -> no_hash b = true ->
  startswith ("#"%char :: p) (render_entry (n, b) ++ rest) = false ->
  startswith ("#"%char :: p) (tl (render_entry (n, b) ++ rest)) = false ->
  startswith ("#"%char :: p) (tl (tl (render_entry (n, b) ++ rest))) = false ->
  clear_before ("#"%char :: p) (render_entry (n, b)) rest.
Proof.
  intros Hn Hb H0 H1 H2. rewrite render_entry_shape in *.
  cbn [app tl] in H0, H1, H2.
  cbn [clear_before app].
  split; [exact H0|]. split; [exact H1|]. split; [exact H2|].
  apply (@clear_before_no_hash p (" "%char :: "@"%char :: n ++ nl :: b) rest).
  rewrite !no_hash_cons, no_hash_app, no_hash_cons, Hn, Hb. reflexivity.
Qed.

Lemma startswith_app_same (p x y : str) :
  startswith (p ++ x) (p ++ y) = startswith x y.
Proof.
  induction p as [|c p IH]; [reflexivity|].
  cbn [app startswith]. rewrite Ascii.eqb_refl. exact IH.
Qed.

(** Two header lines agree when one begins the other. *)
Lemma single_line_prefix (a n x y : str) :
  single_line a = true -> single_line n = true ->
  startswith (a ++ nl :: x) (n ++ nl :: y) = true ->
  a = n /\ startswith x y = true.
Proof.
  revert n; induction a as [|c a IH]; intros n Ha Hn H.
  - destruct n as [|d n]; cbn [app startswith] in H.
    + apply andb_true_iff in H as [_ H]. split; [reflexivity | exact H].
    + apply andb_true_iff in H as [E _]. apply Ascii.eqb_eq in E. subst d.
      cbn [single_line forallb] in Hn. discriminate Hn.
  - cbn [single_line forallb] in Ha. apply andb_true_iff in Ha as [Hc Ha].
    destruct n as [|d n]; cbn [app startswith] in H.
    + apply andb_true_iff in H as [E _]. apply Ascii.eqb_eq in E. subst c.
      discriminate Hc.
    + apply andb_true_iff in H as [E H]. apply Ascii.eqb_eq in E. subst d.
      cbn [single_line forallb] in Hn. apply andb_true_iff in Hn as [_ Hn].
      destruct (IH n Ha Hn H) as [-> Hx]. split; [reflexivity | exact Hx].
Qed.

Lemma startswith_no_hash_app (T b z : str) :
  no_hash T = true -> startswith T (b ++ "#"%char :: z) = true ->
  startswith T b = true.
Proof.
  revert b; induction T as [|c T IH]; intros b HT H; [reflexivity|].
  rewrite no_hash_cons in HT. apply andb_true_iff in HT as [Hc HT].
  destruct b as [|d b]; cbn [app startswith] in H |- *.
  - apply andb_true_iff in H as [E _]. rewrite E in Hc. discriminate Hc.
  - apply andb_true_iff in H as [E H]. rewrite E. apply (IH b HT H).
Qed.

Lemma startswith_before_flat (T b : str) (es : list (str * str)) :
  no_hash T = true -> startswith T (b ++ flat es) = true ->
  startswith T b = true.
Proof.
  intros HT H. destruct (flat_head es) as [E | [z E]]; rewrite E in H.
  - rewrite app_nil_r in H. exact H.
  - apply (startswith_no_hash_app T b z HT H).
Qed.

(** Where the text of a removed entry matches. *)
Lemma entry_match (a T n b : str) (es : list (str * str)) :
  single_line a = true -> single_line n = true -> no_hash T = true ->
  startswith (entry_header a ++ T) (render_entry (n, b) ++ flat es) = true ->
  n = a /\ exists r, b = T ++ r.
Proof.
  intros Ha Hn HT H. unfold entry_header, render_entry in H. cbn [fst snd] in H.
  rewrite <- !app_assoc in H. rewrite startswith_app_same in H.
  change ([nl] ++ T) with (nl :: T) in H.
  change ((nl :: b) ++ flat es) with (nl :: b ++ flat es) in H.
  destruct (single_line_prefix a n T (b ++ flat es) Ha Hn H) as [-> H'].
  split; [reflexivity|].
  apply startswith_iff. apply (startswith_before_flat T b es HT H').
Qed.

Lemma render_entry_split (a T r rest : str) :
  render_entry (a, T ++ r) ++ rest = (entry_header a ++ T) ++ r ++ rest.
Proof.
  unfold entry_header, render_entry. cbn [fst snd]. norm_app. reflexivity.
Qed.

Lemma entry_match_intro (a T r rest : str) :
  startswith (entry_header a ++ T) (render_entry (a, T ++ r) ++ rest) = true.
Proof. rewrite render_entry_split. apply startswith_app. Qed.

(** ** [str.replace] over the entries *)

Lemma replace_clear (old new a b : str) :
  clear_before old a b ->
  replace old new (a ++ b) = a ++ replace old new b.
Proof.
  unfold replace. induction a as [|c a IH]; intros H; [reflexivity|].
  destruct H as [H1 H2]. cbn [app] in *.
  rewrite replace_from_unfold, H1, (IH H2). reflexivity.
Qed.

Lemma replace_head (old new s : str) :
  old <> [] -> replace old new (old ++ s) = new ++ replace old new s.
Proof.
  intros Ho. apply (@replace_first old new [] s Ho). exact I.
Qed.

Lemma entry_header_text_nonempty (a T : str) : entry_header a ++ T <> [].
Proof. rewrite entry_header_shape. discriminate. Qed.

Lemma clear_before_entry_text (a T n b rest : str) :
  no_hash n = true -> no_hash b = true ->
  startswith (entry_header a ++ T) (render_entry (n, b) ++ rest) = false ->
  clear_before (entry_header a ++ T) (render_entry (n, b)) rest.
Proof.
  intros Hn Hb H. rewrite entry_header_shape in *. cbn [app] in *.
  apply clear_before_render; try assumption;
    rewrite render_entry_shape; reflexivity.
Qed.

(** Removing every occurrence of the text of an entry for [a] leaves a
    section of entries again; the entries for [a] that remain begin
    with one of the other texts. *)
Lemma replace_flat (a T : str) :
  single_line a = true -> no_hash T = true ->
  forall (es : list (str * str)) (pre : str) (Ts : list str),
    no_hash pre = true -> Forall entry_plain es -> covered a (T :: Ts) es ->
    exists pre' es',
      replace (entry_header a ++ T) [] (pre ++ flat es) = pre' ++ flat es' /\
      no_hash pre' = true /\ Forall entry_plain es' /\ covered a Ts es'.
Proof.
  intros Ha HT. induction es as [|[n b] es IH]; intros pre Ts Hp Hok Hcov.
  - exists pre, []. split; [|repeat split; [exact Hp | constructor | constructor]].
    cbn [flat map concat]. rewrite app_nil_r.
    apply replace_absent; [apply entry_header_text_nonempty|].
    rewrite <- (app_nil_r pre).
    rewrite (@clear_occurs (entry_header a ++ T) pre []).
    + rewrite occurs_nil, entry_header_shape. reflexivity.
    + rewrite entry_header_shape. cbn [app].
      apply clear_before_no_hash. exact Hp.
  - inversion Hok as [|e0 es0 [Hn [Hsl Hb]] Hok']; subst.
    inversion Hcov as [|e1 es1 Hc Hcov']; subst.
    cbn [fst snd] in *.
    rewrite flat_cons.
    rewrite replace_clear
      by (rewrite entry_header_shape; cbn [app];
          apply clear_before_no_hash; exact Hp).
    destruct (startswith (entry_header a ++ T) (render_entry (n, b) ++ flat es))
      eqn:E.
    + destruct (entry_match a T n b es Ha Hsl HT E) as [-> [r ->]].
      rewrite render_entry_split.
      rewrite replace_head by apply entry_header_text_nonempty.
      cbn [app].
      rewrite no_hash_app in Hb. apply andb_true_iff in Hb as [_ Hr].
      destruct (IH r Ts Hr Hok' Hcov') as (pre' & es' & E1 & E2 & E3 & E4).
      exists (pre ++ pre'), es'. rewrite E1, app_assoc.
      split; [reflexivity|]. split; [|split; assumption].
      rewrite no_hash_app, Hp, E2. reflexivity.
    + rewrite replace_clear
        by (apply clear_before_entry_text; assumption).
      assert (Hnil : no_hash [] = true) by reflexivity.
      destruct (IH [] Ts Hnil Hok' Hcov') as (pre' & es' & E1 & E2 & E3 & E4).
      cbn [app] in E1. rewrite E1.
      exists pre, ((n, b ++ pre') :: es').
      split; [|split; [exact Hp|split]].
      * rewrite flat_cons. unfold render_entry. cbn [fst snd].
        norm_app. reflexivity.
      * constructor; [|exact E3]. repeat split; cbn [fst snd]; try assumption.
        rewrite no_hash_app, Hb, E2. reflexivity.
      * constructor; [|exact E4]. cbn [fst snd]. intros Hna. subst n.
        destruct (Hc eq_refl) as (T' & r & [HT'|HT'] & Hbr).
        -- subst T' b. rewrite entry_match_intro in E. discriminate E.
        -- exists T', (r ++ pre'). split; [exact HT'|].
           rewrite Hbr, <- app_assoc. reflexivity.
Qed.

Lemma covered_weaken (a T : str) (Ts : list str) (es : list (str * str)) :
  covered a Ts es -> covered a (T :: Ts) es.
Proof.
  unfold covered. intros H. eapply Forall_impl; [|exact H].
  intros e He Hf. destruct (He Hf) as (T' & r & Hin & Hs).
  exists T', r. split; [right; exact Hin | exact Hs].
Qed.

(** The loop of [mark_delivered] that removes the entries. *)
Lemma fold_replace_flat (a : str) :
  single_line a = true ->
  forall (Ts : list str) (pre : str) (es : list (str * str)),
    Forall (fun T => no_hash T = true) Ts ->
    no_hash pre = true -> Forall entry_plain es -> covered a Ts es ->
    exists pre' es',
      fold_left (fun pc notif => replace notif [] pc)
        (map (fun T : str => entry_header a ++ T) Ts) (pre ++ flat es)
      = pre' ++ flat es' /\
      no_hash pre' = true /\ Forall entry_plain es' /\ covered a [] es'.
Proof.
  intros Ha. induction Ts as [|T Ts IH]; intros pre es HTs Hp Hok Hcov.
  - exists pre, es. repeat split; assumption.
  - inversion HTs as [|T0 Ts0 HT HTs']; subst.
    cbn [map fold_left].
    destruct (@replace_flat a T Ha HT es pre Ts Hp Hok Hcov)
      as (pre1 & es1 & E1 & E2 & E3 & E4).
    rewrite E1. apply (IH pre1 es1 HTs' E2 E3 E4).
Qed.

(** ** [re.findall] over the entries *)

(** An entry as [add_notification] writes it: its text ends the line. *)
Definition entry_wf (e : str * str) : Prop :=
  entry_plain e /\ exists b0, snd e = b0 ++ [nl].

(** The texts that [mark_delivered] finds for [a]: the text of each of
    its entries up to the newline before the next header, or up to the
    end of the section. *)
Fixpoint cuts (a : str) (es : list (str * str)) : list str :=
  match es with
  | [] => []
  | e :: es' =>
      (if str_eqb (fst e) a
       then [match es' with [] => snd e | _ :: _ => removelast (snd e) end]
       else [])
      ++ cuts a es'
  end.

Lemma match_entry_none (a s : str) :
  startswith (entry_header a) s = false -> match_entry a s = None.
Proof.
  intros H. unfold match_entry. cbv zeta.
  change (lit "### @" ++ a ++ [nl]) with (entry_header a). rewrite H.
  reflexivity.
Qed.

Lemma match_entry_some (a T rest : str) :
  clear_of [nl :: lit "### @"; nl :: lit "## "] T rest ->
  rest = [] \/
  existsb (fun p => startswith p rest) [nl :: lit "### @"; nl :: lit "## "]
  = true ->
  match_entry a (entry_header a ++ T ++ rest)
  = Some ((entry_header a, T), length (entry_header a) + length T).
Proof.
  intros Hc Hr. unfold match_entry. cbv zeta.
  change (lit "### @" ++ a ++ [nl]) with (entry_header a).
  rewrite startswith_app, skipn_app, skipn_all, Nat.sub_diag.
  cbn [skipn app]. rewrite (@lazy_until_intro _ T rest Hc Hr). reflexivity.
Qed.

Lemma findall_entry (a T rest : str) :
  clear_of [nl :: lit "### @"; nl :: lit "## "] T rest ->
  rest = [] \/
  existsb (fun p => startswith p rest) [nl :: lit "### @"; nl :: lit "## "]
  = true ->
  findall (match_entry a) 0 (entry_header a ++ T ++ rest)
  = (entry_header a, T) :: findall (match_entry a) 0 rest.
Proof.
  intros Hc Hr. pose proof (@match_entry_some a T rest Hc Hr) as M.
  assert (E : entry_header a ++ T ++ rest
              = "#"%char :: (tl (entry_header a) ++ T) ++ rest)
    by (rewrite entry_header_shape; cbn [tl]; norm_app; reflexivity).
  rewrite E in *. apply findall_match. rewrite M. f_equal. f_equal.
  rewrite entry_header_shape. cbn [tl length app].
  repeat (rewrite length_app; cbn [length]). lia.
Qed.

Lemma findall_clear (a x rest : str) :
  clear_before (entry_header a) x rest ->
  findall (match_entry a) 0 (x ++ rest) = findall (match_entry a) 0 rest.
Proof.
  induction x as [|c x IH]; [reflexivity|].
  intros [H1 H2]. cbn [app] in *.
  rewrite findall_miss by (apply match_entry_none; exact H1).
  apply IH. exact H2.
Qed.

Lemma findall_absent (a s : str) :
  occurs (entry_header a) s = false -> findall (match_entry a) 0 s = [].
Proof.
  intros H. rewrite <- (app_nil_r s) in *.
  rewrite findall_clear by (apply occurs_false_clear; exact H).
  reflexivity.
Qed.

Lemma startswith_cons_eq (d : ascii) (p : str) (c : ascii) (s : str) :
  startswith (d :: p) (c :: s) = Ascii.eqb d c && startswith p s.
Proof. reflexivity. Qed.

Lemma startswith_hash_no_hash (q T rest : str) :
  no_hash T = true -> rest = [] \/ (exists z, rest = nl :: z) ->
  startswith ("#"%char :: q) (T ++ rest) = false.
Proof.
  intros HT Hr. destruct T as [|d T].
  - destruct Hr as [-> | [z ->]]; reflexivity.
  - rewrite no_hash_cons in HT. apply andb_true_iff in HT as [Hd _].
    cbn [app]. apply startswith_head_neq. apply eqb_false_neq.
    destruct (Ascii.eqb d "#"); [discriminate | reflexivity].
Qed.

Lemma clear_of_stops_no_hash (T rest : str) :
  no_hash T = true -> rest = [] \/ (exists z, rest = nl :: z) ->
  clear_of [nl :: lit "### @"; nl :: lit "## "] T rest.
Proof.
  intros HT Hr. induction T as [|c T IH]; [exact I|].
  rewrite no_hash_cons in HT. apply andb_true_iff in HT as [Hc HT].
  split; [|apply IH; exact HT].
  cbn [existsb app].
  change (nl :: lit "### @") with (nl :: "#"%char :: lit "## @").
  change (nl :: lit "## ") with (nl :: "#"%char :: lit "# ").
  rewrite !startswith_cons_eq.
  rewrite !(startswith_hash_no_hash _ T HT Hr).
  rewrite !andb_false_r. reflexivity.
Qed.

Lemma entry_mismatch (a n b : str) (es : list (str * str)) :
  single_line a = true -> single_line n = true -> n <> a ->
  startswith (entry_header a) (render_entry (n, b) ++ flat es) = false.
Proof.
  intros Ha Hn Hne.
  destruct (startswith (entry_header a) (render_entry (n, b) ++ flat es))
    eqn:E; [|reflexivity].
  rewrite <- (app_nil_r (entry_header a)) in E.
  destruct (entry_match a [] n b es Ha Hn eq_refl E) as [H _]. contradiction.
Qed.

Lemma clear_before_other_entry (a n b : str) (es : list (str * str)) :
  single_line a = true -> entry_plain (n, b) -> n <> a ->
  clear_before (entry_header a) (render_entry (n, b)) (flat es).
Proof.
  intros Ha (Hn & Hsl & Hb) Hne. cbn [fst snd] in *.
  rewrite <- (app_nil_r (entry_header a)).
  apply clear_before_entry_text; try assumption.
  rewrite app_nil_r. apply entry_mismatch; assumption.
Qed.

Lemma findall_flat (a : str) :
  single_line a = true ->
  forall (es : list (str * str)) (pre : str),
    no_hash pre = true -> Forall entry_wf es ->
    findall (match_entry a) 0 (pre ++ flat es)
    = map (fun T => (entry_header a, T)) (cuts a es).
Proof.
  intros Ha. induction es as [|[n b] es IH]; intros pre Hp Hwf.
  - cbn [flat map concat cuts]. apply findall_absent.
    rewrite (@clear_occurs (entry_header a) pre []).
    + rewrite occurs_nil, entry_header_shape. reflexivity.
    + rewrite entry_header_shape. cbn [app].
      apply clear_before_no_hash. exact Hp.
  - inversion Hwf as [|e0 es0 [Hok [b0 Hb0]] Hwf']; subst.
    cbn [fst snd] in *. subst b.
    rewrite findall_clear
      by (rewrite entry_header_shape; cbn [app];
          apply clear_before_no_hash; exact Hp).
    rewrite flat_cons. cbn [cuts fst snd].
    destruct (str_eqb n a) eqn:En.
    + apply str_eqb_eq in En. subst n.
      destruct Hok as (_ & _ & Hb). cbn [snd] in Hb.
      rewrite no_hash_app in Hb. apply andb_true_iff in Hb as [Hb0 _].
      destruct es as [|e' es'].
      * rewrite <- (app_nil_r (b0 ++ [nl])) at 1.
        rewrite render_entry_split, <- app_assoc.
        rewrite findall_entry; [reflexivity | | left; reflexivity].
        apply clear_of_stops_no_hash; [|left; reflexivity].
        rewrite no_hash_app, Hb0. reflexivity.
      * rewrite removelast_last.
        rewrite render_entry_split, <- app_assoc.
        assert (R : exists z, [nl] ++ flat (e' :: es') = nl :: z)
          by (eexists; reflexivity).
        rewrite findall_entry.
        -- cbn [app map]. f_equal. apply (IH [nl] eq_refl Hwf').
        -- apply clear_of_stops_no_hash; [exact Hb0 | right; exact R].
        -- right. destruct e' as [n' b']. rewrite flat_cons.
           rewrite render_entry_shape. reflexivity.
    + apply str_eqb_neq in En. cbn [app].
      rewrite findall_clear
        by (apply clear_before_other_entry; assumption).
      apply (IH [] eq_refl Hwf').
Qed.

Lemma covered_incl (a : str) (Ts Ts' : list str) (es : list (str * str)) :
  incl Ts Ts' -> covered a Ts es -> covered a Ts' es.
Proof.
  unfold covered. intros Hi H. eapply Forall_impl; [|exact H].
  intros e He Hf. destruct (He Hf) as (T & r & Hin & Hs).
  exists T, r. split; [apply Hi; exact Hin | exact Hs].
Qed.

Lemma cuts_covered (a : str) (es : list (str * str)) :
  Forall entry_wf es ->
  covered a (cuts a es) es /\ Forall (fun T => no_hash T = true) (cuts a es).
Proof.
  induction 1 as [|[n b] es [(Hn & Hsl & Hb) [b0 Hb0]] Hwf [IH1 IH2]].
  - split; constructor.
  - cbn [fst snd] in *. subst b. cbn [cuts fst snd].
    rewrite no_hash_app in Hb. apply andb_true_iff in Hb as [Hb0 _].
    split.
    + constructor.
      * cbn [fst snd]. intros ->. rewrite str_eqb_refl.
        destruct es as [|e' es'].
        -- exists (b0 ++ [nl]), []. split; [left; reflexivity|].
           rewrite app_nil_r. reflexivity.
        -- exists b0, [nl]. split; [|reflexivity].
           left. apply removelast_last.
      * apply (@covered_incl a (cuts a es)); [|exact IH1].
        apply incl_appr, incl_refl.
    + apply Forall_app. split; [|exact IH2].
      destruct (str_eqb n a); [|constructor].
      constructor; [|constructor].
      destruct es; [|rewrite removelast_last; exact Hb0].
      rewrite no_hash_app, Hb0. reflexivity.
Qed.

Lemma entry_wf_ok (es : list (str * str)) :
  Forall entry_wf es -> Forall entry_plain es.
Proof. apply Forall_impl. intros e [H _]. exact H. Qed.

(** ** A section without entries for the agent *)

Lemma flat_clear_header (a : str) (es : list (str * str)) :
  single_line a = true -> Forall entry_plain es -> covered a [] es ->
  clear_before (entry_header a) (flat es) [].
Proof.
  intros Ha Hok Hcov. induction es as [|[n b] es IH]; [exact I|].
  inversion Hok as [|e0 es0 He Hok']; subst.
  inversion Hcov as [|e1 es1 Hc Hcov']; subst.
  rewrite flat_cons. apply clear_before_app. split; [|apply IH; assumption].
  rewrite app_nil_r. apply clear_before_other_entry; try assumption.
  intros ->. destruct (Hc eq_refl) as (T & r & [] & _).
Qed.

Lemma flat_no_header (a pre : str) (es : list (str * str)) :
  single_line a = true -> no_hash pre = true -> Forall entry_plain es ->
  covered a [] es ->
  occurs (entry_header a) (pre ++ flat es) = false.
Proof.
  intros Ha Hp Hok Hcov.
  rewrite (@clear_occurs (entry_header a) pre (flat es))
    by (rewrite entry_header_shape; cbn [app];
        apply clear_before_no_hash; exact Hp).
  rewrite <- (app_nil_r (flat es)).
  rewrite (@clear_occurs (entry_header a) (flat es) [])
    by (apply flat_clear_header; assumption).
  rewrite occurs_nil, entry_header_shape. reflexivity.
Qed.

Lemma flat_clear_delivered (pre : str) (es : list (str * str)) (rest : str) :
  no_hash pre = true -> Forall entry_plain es ->
  clear_before delivered_header (pre ++ flat es) rest.
Proof.
  intros Hp Hok. apply clear_before_app. split.
  - apply (@clear_before_no_hash (lit "# Delivered") pre). exact Hp.
  - clear pre Hp. induction es as [|[n b] es IH]; [exact I|].
    inversion Hok as [|e0 es0 (Hn & _ & Hb) Hok']; subst. cbn [fst snd] in *.
    rewrite flat_cons. apply clear_before_app. split; [|apply IH; exact Hok'].
    apply (@clear_before_render (lit "# Delivered") n b (flat es ++ rest));
      try assumption; rewrite render_entry_shape; reflexivity.
Qed.

(** ** [mark_delivered] *)

(** The text that heads an entry of the agent, [### @agent] and a line
    break, occurs in the Pending section of the ledger.  The place does
    not matter: the search of [mark_delivered] is not tied to the start
    of a line, so the text inside a message counts as well. *)
Definition has_pending_entry (agent : str) (w : World) : bool :=
  match notifications_file w with
  | Some content =>
      match pending_section content with
      | Some pending => occurs (entry_header agent) pending
      | None => false
      end
  | None => false
  end.

(** The loop of [mark_delivered] that removes the entries found *)
Definition removed (agent_notifs : list str) (pending_content : str) : str :=
  fold_left (fun pc notif => replace notif [] pc) agent_notifs pending_content.

Lemma stamp_delivered_total (ns : list str) (w : World) :
  exists l, stamp_delivered ns w = (Ok l, advance (length ns) w).
Proof.
  revert w; induction ns as [|n ns IH]; intros w.
  - exists []. unfold advance. destruct w; reflexivity.
  - cbn [stamp_delivered]. unfold bind.
    change (now w) with (Ok (clock w (ticks w)), snd (now w)).
    cbv iota beta.
    destruct (IH (snd (now w))) as [l ->].
    eexists. unfold ret. rewrite advance_succ. reflexivity.
Qed.

Lemma mark_delivered_noop (agent : str) (w : World) :
  regex_literal agent = true -> has_pending_entry agent w = false ->
  mark_delivered agent w = (Ok tt, w).
Proof.
  unfold has_pending_entry, mark_delivered. intros Hre H.
  destruct (notifications_file w) as [content|]; [|reflexivity].
  destruct (pending_section content) as [pending|]; [|reflexivity].
  rewrite Hre. cbv zeta. rewrite (findall_absent _ _ H). reflexivity.
Qed.

Lemma mark_delivered_found (agent : str) (w : World) (content pending : str) :
  notifications_file w = Some content ->
  pending_section content = Some pending ->
  regex_literal agent = true ->
  findall (match_entry agent) 0 pending <> [] ->
  exists X w',
    mark_delivered agent w = (Ok tt, w') /\
    notifications_file w' =
    Some (pending_header ++
          removed (map (fun m => fst m ++ snd m)
                     (findall (match_entry agent) 0 pending)) pending ++
          delivered_header ++ X).
Proof.
  intros Hc Hp Hre Hne. unfold mark_delivered. rewrite Hc, Hp, Hre. cbv zeta.
  destruct (findall (match_entry agent) 0 pending) as [|m ms]; [congruence|].
  cbn [map]. unfold bind.
  match goal with
  | |- context [stamp_delivered ?ns w] =>
      destruct (stamp_delivered_total ns w) as [l ->]
  end.
  eexists. eexists. split; [reflexivity|].
  cbn [notifications_file set_notifications_file]. reflexivity.
Qed.

Lemma split_first_head (sep s : str) :
  split_first sep (sep ++ s) = Some ([], s).
Proof. apply (@split_first_intro sep [] s). exact I. Qed.

(** On a Pending section made of entries whose texts hold no [#],
    [mark_delivered] leaves no header line for the agent. *)
Lemma mark_delivered_clears (agent : str) (w : World) (content pre : str)
  (es : list (str * str)) :
  regex_literal agent = true -> single_line agent = true ->
  notifications_file w = Some content ->
  pending_section content = Some (pre ++ flat es) ->
  no_hash pre = true -> Forall entry_wf es ->
  fst (mark_delivered agent w) = Ok tt /\
  has_pending_entry agent (snd (mark_delivered agent w)) = false.
Proof.
  intros Hre Ha Hc Hp Hpre Hwf.
  destruct (cuts_covered agent Hwf) as [Hcov HTs].
  pose proof (entry_wf_ok Hwf) as Hok.
  pose proof (@findall_flat agent Ha es pre Hpre Hwf) as Hfind.
  destruct (cuts agent es) as [|T Ts] eqn:Ec.
  - assert (Hn : has_pending_entry agent w = false).
    { unfold has_pending_entry. rewrite Hc, Hp.
      apply flat_no_header; assumption. }
    rewrite (mark_delivered_noop agent w Hre Hn). split; [reflexivity|exact Hn].
  - assert (Hne : findall (match_entry agent) 0 (pre ++ flat es) <> [])
      by (rewrite Hfind; discriminate).
    destruct (mark_delivered_found agent w Hc Hp Hre Hne)
      as (X & w' & -> & Hw').
    split; [reflexivity|]. cbn [snd].
    unfold has_pending_entry. rewrite Hw'. rewrite Hfind, map_map.
    cbn [fst snd]. unfold removed.
    destruct (@fold_replace_flat agent Ha (T :: Ts) pre es HTs Hpre Hok Hcov)
      as (pre' & es' & -> & E2 & E3 & E4).
    unfold pending_section. rewrite split_first_head.
    rewrite split_first_intro by (apply flat_clear_delivered; assumption).
    apply flat_no_header; assumption.
Qed.

(** A check of [entry_wf] *)
Lemma entry_wf_check (n b : str) :
  no_hash n && single_line n && no_hash b
  && str_eqb (removelast b ++ [nl]) b = true ->
  entry_wf (n, b).
Proof.
  intros H. apply andb_true_iff in H as [H H4].
  apply andb_true_iff in H as [H H3]. apply andb_true_iff in H as [H1 H2].
  split; [repeat split; assumption|].
  exists (removelast b). symmetry. apply str_eqb_eq. exact H4.
Qed.

(** The ledger a [NotificationManager] creates, with two notifications
    for carol; the message of the second one holds a header line for
    bob, cut in two by a header line for bob. *)
Definition ledger_spliced : World :=
  after (add_notification (lit "carol") (lit "alice")
           (lit "### @bob### @bob" ++ nl :: lit "foo") None None)
    (after (add_notification (lit "carol") (lit "alice") (lit "old") None None)
       (after _ensure_file_exists blank_board)).

(** The same ledger with notifications for bob and carol *)
Definition ledger_two_agents : World :=
  after (add_notification (lit "bob") (lit "alice") (lit "second") None None)
    (after (add_notification (lit "carol") (lit "alice") (lit "hello")
              (Some (lit "task-001")) None)
       (after (add_notification (lit "bob") (lit "alice") (lit "first")
                 None None)
          (after _ensure_file_exists blank_board))).

(** ** Texts without a carriage return *)

(** Text mode returns such a text as it is. *)
Lemma text_mode_no_cr (s : str) : no_cr s = true -> text_mode s = s.
Proof.
  induction s as [|c s IH]; [reflexivity|].
  cbn [no_cr forallb text_mode]. intros H.
  apply andb_true_iff in H as [Hc Hs]. apply negb_true_iff in Hc.
  rewrite Hc. f_equal. apply IH. exact Hs.
Qed.

Lemma no_cr_app (a b : str) : no_cr (a ++ b) = no_cr a && no_cr b.
Proof. apply forallb_app. Qed.

Lemma no_cr_join (sep : str) (parts : list str) :
  no_cr sep = true -> forallb no_cr parts = true ->
  no_cr (join sep parts) = true.
Proof.
  intros Hsep. induction parts as [|p ps IH]; [reflexivity|].
  cbn [forallb]. intros H. apply andb_true_iff in H as [Hp Hps].
  destruct ps as [|q ps]; [exact Hp|].
  change (join sep (p :: q :: ps)) with (p ++ sep ++ join sep (q :: ps)).
  rewrite !no_cr_app, Hp, Hsep, (IH Hps). reflexivity.
Qed.

Lemma no_cr_flat_map (A : Type) (f : A -> str) (l : list A) :
  (forall x, In x l -> no_cr (f x) = true) -> no_cr (flat_map f l) = true.
Proof.
  induction l as [|x l IH]; intros H; [reflexivity|].
  cbn [flat_map]. rewrite no_cr_app, (H x (or_introl eq_refl)).
  apply IH. intros y Hy. apply H. right. exact Hy.
Qed.

(** [json.dumps] writes no carriage return: it escapes the character. *)
Lemma escape_char_no_cr (c : ascii) : no_cr (Json.escape_char c) = true.
Proof. destruct c as [[] [] [] [] [] [] [] []]; reflexivity. Qed.

Lemma dumps_str_no_cr (s : str) : no_cr (Json.dumps_str s) = true.
Proof.
  unfold Json.dumps_str.
  change (Json.quote :: flat_map Json.escape_char s ++ [Json.quote])
    with ([Json.quote] ++ flat_map Json.escape_char s ++ [Json.quote]).
  rewrite !no_cr_app.
  rewrite (@no_cr_flat_map _ Json.escape_char s
             (fun c _ => escape_char_no_cr c)).
  reflexivity.
Qed.

Lemma dumps_no_cr (l : list str) : no_cr (Json.dumps l) = true.
Proof.
  unfold Json.dumps. rewrite !no_cr_app.
  rewrite no_cr_join; [reflexivity | reflexivity |].
  induction l as [|s l IH]; [reflexivity|].
  cbn [map forallb]. rewrite dumps_str_no_cr. exact IH.
Qed.

Lemma optional_entry_no_cr (key : string) (o : option str) :
  no_cr (lit key) = true -> no_cr_opt o = true ->
  forallb no_cr (map fm_line (optional_entry key o)) = true.
Proof.
  intros Hk Ho. destruct o as [[|c s]|]; try reflexivity.
  cbn [optional_entry map forallb]. unfold fm_line. cbn [fst snd].
  cbn [no_cr_opt] in Ho. rewrite !no_cr_app, Hk, Ho. reflexivity.
Qed.

Lemma comment_lines_no_cr (c : Comment) :
  no_cr_comment c = true -> forallb no_cr (comment_lines c) = true.
Proof.
  unfold no_cr_comment. intros H.
  apply andb_true_iff in H as [H Hm]. apply andb_true_iff in H as [Ht Ha].
  unfold comment_lines. cbn [forallb]. rewrite !no_cr_app, Ht, Ha, Hm.
  reflexivity.
Qed.

Lemma forallb_flat_map (A B : Type) (f : B -> bool) (g : A -> list B)
  (l : list A) :
  (forall x, In x l -> forallb f (g x) = true) ->
  forallb f (flat_map g l) = true.
Proof.
  induction l as [|x l IH]; intros H; [reflexivity|].
  cbn [flat_map]. rewrite forallb_app, (H x (or_introl eq_refl)).
  apply IH. intros y Hy. apply H. right. exact Hy.
Qed.

(** The text [to_markdown] writes holds no carriage return when the
    texts of the task hold none. *)
Lemma to_markdown_no_cr (t : Task) :
  no_cr_task t = true -> no_cr (to_markdown t) = true.
Proof.
  unfold no_cr_task. intros H.
  repeat (apply andb_true_iff in H as [H ?]).
  assert (F : forallb no_cr (map fm_line (frontmatter_of t)) = true).
  { unfold frontmatter_of. rewrite !map_app, !forallb_app.
    rewrite !optional_entry_no_cr by (assumption || reflexivity).
    cbn [map forallb]. unfold fm_line. cbn [fst snd].
    rewrite !no_cr_app, !dumps_no_cr.
    repeat match goal with
           | E : no_cr _ = true |- _ => rewrite E; clear E
           end.
    reflexivity. }
  assert (B : forallb no_cr
                [ []; lit "# " ++ title t; []; lit "## Description";
                  description t; [] ] = true).
  { cbn [forallb]. rewrite no_cr_app.
    repeat match goal with
           | E : no_cr _ = true |- _ => rewrite E; clear E
           end.
    reflexivity. }
  unfold to_markdown. cbv zeta. apply no_cr_join; [reflexivity|].
  destruct (thread t) as [|c l] eqn:E.
  - rewrite !forallb_app.
    apply andb_true_iff; split; [|exact B].
    apply andb_true_iff; split; [reflexivity|].
    apply andb_true_iff; split; [exact F | reflexivity].
  - rewrite !forallb_app.
    apply andb_true_iff; split.
    { apply andb_true_iff; split; [reflexivity|].
      apply andb_true_iff; split; [exact F | reflexivity]. }
    apply andb_true_iff; split; [exact B|].
    apply andb_true_iff; split; [reflexivity|].
    apply forallb_flat_map. intros x Hx. apply comment_lines_no_cr.
    match goal with
    | G : forallb no_cr_comment _ = true |- _ =>
        rewrite forallb_forall in G; apply G; exact Hx
    end.
Qed.

(** A file that holds what [to_markdown] wrote is read as written. *)
Lemma text_mode_to_markdown (t : Task) :
  no_cr_task t = true -> text_mode (to_markdown t) = to_markdown t.
Proof. intros H. apply text_mode_no_cr. apply to_markdown_no_cr. exact H. Qed.

(** ** The number of a task file *)

(** What the generator reads off a file name: [int(filename[5:8])] for
    a name that starts with [task-] and ends with [.md], nothing for
    any other name and where [int] raises. *)
Definition file_number (filename : str) : option Z :=
  if startswith (lit "task-") filename && endswith (lit ".md") filename
  then py_int (slice 5 8 filename)
  else None.

Lemma max_in_listing_cons (m : Z) (f c : str) (l : listing) :
  max_in_listing m ((f, c) :: l)
  = max_in_listing
      (match file_number f with Some n => Z.max m n | None => m end) l.
Proof.
  cbn [max_in_listing]. unfold file_number.
  destruct (startswith (lit "task-") f && endswith (lit ".md") f);
    [|reflexivity].
  destruct (py_int (slice 5 8 f)); reflexivity.
Qed.

Lemma max_in_listing_upper (M : Z) (l : listing) (m : Z) :
  (forall f n, In f (map fst l) -> file_number f = Some n -> (n <= M)%Z) ->
  (m <= M)%Z -> (max_in_listing m l <= M)%Z.
Proof.
  revert m; induction l as [|[f c] l IH]; intros m H Hm; [exact Hm|].
  rewrite max_in_listing_cons. apply IH.
  - intros f' n Hf'. apply H. right. exact Hf'.
  - destruct (file_number f) as [n|] eqn:E; [|exact Hm].
    pose proof (H f n (or_introl eq_refl) E). lia.
Qed.

Lemma max_in_listing_reach (l : listing) (m : Z) (f : str) (n : Z) :
  In f (map fst l) -> file_number f = Some n -> (n <= max_in_listing m l)%Z.
Proof.
  revert m; induction l as [|[f' c] l IH]; intros m Hf Hn; [destruct Hf|].
  rewrite max_in_listing_cons. destruct Hf as [E | Hf].
  - cbn [fst] in E. subst f'. rewrite Hn.
    pose proof (max_in_listing_ge l (Z.max m n)). lia.
  - apply IH; assumption.
Qed.

Lemma max_in_statuses_upper (M : Z) (sts : list str) (w : World) (m : Z) :
  (forall s l f n, In s sts -> listdir s w = Some l -> In f (map fst l) ->
                   file_number f = Some n -> (n <= M)%Z) ->
  (m <= M)%Z -> (max_in_statuses m sts w <= M)%Z.
Proof.
  revert m; induction sts as [|s sts IH]; intros m H Hm; [exact Hm|].
  cbn [max_in_statuses].
  assert (H' : forall s0 l f n, In s0 sts -> listdir s0 w = Some l ->
                 In f (map fst l) -> file_number f = Some n -> (n <= M)%Z)
    by (intros s0 l f n Hs; apply H; right; exact Hs).
  destruct (listdir s w) as [l|] eqn:E; [|apply IH; assumption].
  apply IH; [exact H'|].
  apply max_in_listing_upper; [|exact Hm].
  intros f n Hf Hn. apply (H s l f n); [left; reflexivity | | |]; assumption.
Qed.

Lemma max_in_statuses_reach (sts : list str) (w : World) (m : Z)
  (s : str) (l : listing) (f : str) (n : Z) :
  In s sts -> listdir s w = Some l -> In f (map fst l) ->
  file_number f = Some n -> (n <= max_in_statuses m sts w)%Z.
Proof.
  revert m; induction sts as [|s0 sts IH]; intros m Hs Hl Hf Hn;
    [destruct Hs|].
  cbn [max_in_statuses]. destruct Hs as [-> | Hs].
  - rewrite Hl.
    pose proof (@max_in_listing_reach l m f n Hf Hn).
    pose proof (max_in_statuses_ge sts w (max_in_listing m l)). lia.
  - destruct (listdir s0 w); apply IH; assumption.
Qed.

(** The generator returns the successor of the largest number that a
    task file of the status directories carries, of 0 when none
    carries a positive one. *)
Lemma generate_task_id_number (w : World) (M : Z) :
  (0 <= M)%Z ->
  (forall s l f n, In s statuses -> listdir s w = Some l ->
                   In f (map fst l) -> file_number f = Some n -> (n <= M)%Z) ->
  (M = 0%Z \/
   exists s l f, In s statuses /\ listdir s w = Some l /\
                 In f (map fst l) /\ file_number f = Some M) ->
  _generate_task_id w = task_name (M + 1).
Proof.
  intros H0 Hup Hhit. unfold _generate_task_id.
  assert (E : max_in_statuses 0 statuses w = M); [|rewrite E; reflexivity].
  pose proof (@max_in_statuses_upper M statuses w 0%Z Hup H0) as U.
  pose proof (max_in_statuses_ge statuses w 0) as L.
  destruct Hhit as [-> | (s & l & f & Hs & Hl & Hf & Hn)]; [lia|].
  pose proof (@max_in_statuses_reach statuses w 0%Z s l f M Hs Hl Hf Hn). lia.
Qed.

(** ** Runs in which every move relocates *)

(** A call that the workspace follows as the code performs it and that
    loses no record.  A move names its task by an id without path
    separator; when a status directory holds the record, the record
    holds no carriage return (it is read as it was written), it decodes,
    and the directory is another one than the status named. *)
Definition admitted (o : op) (w : World) : Prop :=
  match o with
  | Create _ _ _ _ => True
  | Move i s =>
      no_sep i = true /\
      forall old c,
        _find_task_file i w = Some old -> read old (md i) w = Some c ->
        old <> s /\ no_cr c = true /\ returned (from_markdown c) = true
  end.

Fixpoint relocates (ops : list op) (w : World) : Prop :=
  match ops with
  | [] => True
  | o :: ops' => admitted o w /\ relocates ops' (snd (exec o w))
  end.

Lemma relocates_relocating (ops : list op) (w : World) :
  relocates ops w -> relocating ops w.
Proof.
  revert w; induction ops as [|o ops IH]; intros w; [exact (fun H => H)|].
  cbn [relocates relocating]. intros [Ho Hr]. split; [|apply IH; exact Hr].
  destruct o as [ti d p tg | i s]; [exact I|].
  destruct Ho as [_ Ho]. intros Hf.
  destruct (find_task_file_read _ _ Hf) as [c Hc].
  destruct (Ho s c Hf Hc) as (Hne & _ & _). apply Hne. reflexivity.
Qed.

(** The same property, decided along the run *)
Definition admittedb (o : op) (w : World) : bool :=
  match o with
  | Create _ _ _ _ => true
  | Move i s =>
      no_sep i &&
      match _find_task_file i w with
      | Some old =>
          negb (str_eqb old s) &&
          match read old (md i) w with
          | Some c => no_cr c && returned (from_markdown c)
          | None => true
          end
      | None => true
      end
  end.

Fixpoint relocatesb (ops : list op) (w : World) : bool :=
  match ops with
  | [] => true
  | o :: ops' => admittedb o w && relocatesb ops' (snd (exec o w))
  end.

Lemma relocatesb_sound (ops : list op) (w : World) :
  relocatesb ops w = true -> relocates ops w.
Proof.
  revert w; induction ops as [|o ops IH]; intros w H; [exact I|].
  cbn [relocatesb] in H.
  apply andb_true_iff in H as [Ho Hr]. split; [|apply IH; exact Hr].
  destruct o as [ti d p tg | i s]; [exact I|].
  cbn [admittedb] in Ho.
  apply andb_true_iff in Ho as [Hi Ho]. split; [exact Hi|].
  intros old c Hf Hc. rewrite Hf in Ho.
  apply andb_true_iff in Ho as [Hne Hd]. rewrite Hc in Hd.
  apply andb_true_iff in Hd as [Hn Hd].
  split; [|split; [exact Hn | exact Hd]].
  apply negb_true_iff in Hne. apply str_eqb_neq. exact Hne.
Qed.

(** ** Where a pattern can begin *)

(** A pattern cannot reach across a character it does not hold. *)
Lemma startswith_stop (c : ascii) (p a r : str) :
  ~ In c p -> startswith p (a ++ c :: r) = true -> startswith p a = true.
Proof.
  revert a; induction p as [|d p IH]; intros a Hc H; [reflexivity|].
  destruct a as [|e a]; cbn [app startswith] in *.
  - apply andb_true_iff in H as [E _]. apply Ascii.eqb_eq in E.
    exfalso. apply Hc. left. exact E.
  - apply andb_true_iff in H as [E H]. rewrite E. cbn [andb].
    apply IH; [|exact H]. intros Hin. apply Hc. right. exact Hin.
Qed.

Lemma startswith_app_mono (p a r : str) :
  startswith p a = true -> startswith p (a ++ r) = true.
Proof.
  intros H. apply startswith_iff in H as [x ->].
  rewrite <- app_assoc. apply startswith_app.
Qed.

Lemma clear_before_stop (c : ascii) (p x r : str) :
  occurs p x = false -> ~ In c p -> clear_before p x (c :: r).
Proof.
  intros H Hc. induction x as [|d x IH]; [exact I|].
  rewrite occurs_unfold in H. apply orb_false_iff in H as [H1 H2].
  split; [|apply IH; exact H2].
  destruct (startswith p ((d :: x) ++ c :: r)) eqn:E; [|reflexivity].
  apply (@startswith_stop c p (d :: x) r Hc) in E. congruence.
Qed.

Lemma startswith_snoc (c : ascii) (p y : str) :
  startswith p (y ++ [c]) = true -> startswith p y = true \/ p = y ++ [c].
Proof.
  revert y; induction p as [|d p IH]; intros y H; [left; reflexivity|].
  destruct y as [|e y]; cbn [app startswith] in *.
  - apply andb_true_iff in H as [E H]. apply Ascii.eqb_eq in E. subst d.
    destruct p; [right; reflexivity | discriminate H].
  - apply andb_true_iff in H as [E H]. rewrite E. cbn [andb].
    apply Ascii.eqb_eq in E. subst e.
    destruct (IH y H) as [K | ->]; [left; exact K | right; reflexivity].
Qed.

(** A character that is not the last one of the pattern can be added
    at the end. *)
Lemma occurs_snoc (c : ascii) (p x : str) :
  occurs p x = false -> (forall y, p <> y ++ [c]) ->
  occurs p (x ++ [c]) = false.
Proof.
  intros H Hp. induction x as [|d x IH].
  - cbn [app]. rewrite occurs_unfold. rewrite occurs_nil in H.
    rewrite occurs_nil, H, orb_false_r.
    destruct (startswith p [c]) eqn:E; [|reflexivity].
    destruct (@startswith_snoc c p [] E) as [K | K]; [congruence|].
    exfalso. apply (Hp [] K).
  - cbn [app]. rewrite occurs_unfold in *.
    apply orb_false_iff in H as [H1 H2]. rewrite (IH H2), orb_false_r.
    destruct (startswith p (d :: x ++ [c])) eqn:E; [|reflexivity].
    destruct (@startswith_snoc c p (d :: x) E) as [K | K]; [congruence|].
    exfalso. apply (Hp (d :: x) K).
Qed.

Lemma clear_before_stop2 (c1 c2 : ascii) (p x r : str) :
  occurs p x = false -> (forall y, p <> y ++ [c1]) -> ~ In c2 p ->
  clear_before p x (c1 :: c2 :: r).
Proof.
  intros H H1 H2.
  pose proof (@clear_before_stop c2 p (x ++ [c1]) r
                (@occurs_snoc c1 p x H H1) H2) as K.
  apply clear_before_app in K as [K _]. exact K.
Qed.

Lemma occurs_false_prefix (p a b : str) :
  occurs p (a ++ b) = false -> occurs p a = false.
Proof.
  intros H. destruct (occurs p a) eqn:E; [|reflexivity].
  apply occurs_split in E as (x & y & E). apply split_first_spec in E.
  subst a. rewrite <- !app_assoc, occurs_intro in H. discriminate H.
Qed.

(** ** The text [## Delivered] in what [_notify_subscribers] writes *)

Lemma delivered_header_stops :
  ~ In nl delivered_header /\ ~ In ")"%char delivered_header /\
  ~ In "."%char delivered_header /\ ~ In "/"%char delivered_header /\
  ~ In "("%char delivered_header /\
  forall y, delivered_header <> y ++ [" "%char].
Proof.
  assert (K : forall c, existsb (Ascii.eqb c) delivered_header = false ->
                        ~ In c delivered_header).
  { intros c E Hin.
    assert (X : existsb (Ascii.eqb c) delivered_header = true)
      by (apply existsb_exists; exists c; split;
          [exact Hin | apply Ascii.eqb_refl]).
    congruence. }
  do 5 (split; [apply K; reflexivity|]).
  intros y H. apply (f_equal (@rev ascii)) in H.
  rewrite rev_app_distr in H. discriminate H.
Qed.

Ltac walk_delivered :=
  repeat first
    [ exact I
    | match goal with
      | |- clear_before ?p (lit ""%string ++ ?x) ?r =>
          change (clear_before p x r)
      | |- clear_before ?p ([] ++ ?x) ?r =>
          change (clear_before p x r)
      end
    | apply clear_before_app; split;
      [ solve [ apply clear_before_stop;
                [assumption | apply delivered_header_stops]
              | apply clear_before_stop2;
                [assumption | apply delivered_header_stops
                | apply delivered_header_stops]
              | apply clear_before_no_hash; assumption ] | ]
    | split; [reflexivity | ] ].

(** An entry holds the text only where a text pasted into it does. *)
Lemma render_notif_quiet (a commenter message : str) (task : Task)
  (d : datetime) (rest : str) :
  occurs delivered_header a = false ->
  occurs delivered_header commenter = false ->
  occurs delivered_header (firstn 100 message) = false ->
  occurs delivered_header (id task) = false ->
  occurs delivered_header (status task) = false ->
  clear_before delivered_header
    (render_notif a commenter message task (firstn 16 (isoformat d))) rest.
Proof.
  intros Ha Hc Hm Hi Hs.
  pose proof (time_no_hash d 16) as Ht.
  unfold render_notif.
  change delivered_header with ("#"%char :: lit "# Delivered") in *.
  destruct (100 <? length message); walk_delivered.
Qed.

(** ** A pattern of one line in a text after [str.replace]

    The insertion [content.replace(old, old + notif)] keeps every
    occurrence of [old] and puts [notif] behind it.  When [notif] opens
    with a line break, a pattern without line break begins in the new
    text only where it began in the old one or inside [notif]. *)

Lemma startswith_replace (old notif p s : str) :
  old <> [] -> startswith [nl] notif = true -> ~ In nl p ->
  startswith p (replace old (old ++ notif) s) = true -> startswith p s = true.
Proof.
  intros Ho Hn. unfold replace. revert p.
  induction s as [|c s IH]; intros p Hp H.
  - rewrite replace_from_unfold in H.
    destruct old as [|d old']; [congruence | exact H].
  - rewrite replace_from_unfold in H.
    destruct (startswith old (c :: s)) eqn:E.
    + destruct old as [|d old'] eqn:Eo; [congruence|]. rewrite <- Eo in *.
      apply startswith_iff in Hn as [n ->].
      rewrite <- app_assoc in H. cbn [app] in H.
      apply (@startswith_stop nl p old _ Hp) in H.
      apply startswith_iff in E as [rest ->].
      apply startswith_app_mono. exact H.
    + destruct p as [|e p]; [reflexivity|].
      cbn [startswith] in *. apply andb_true_iff in H as [H1 H2].
      rewrite H1. cbn [andb]. apply IH; [|exact H2].
      intros Hin. apply Hp. right. exact Hin.
Qed.

Lemma replace_quiet (old notif p : str) :
  old <> [] -> startswith [nl] notif = true -> ~ In nl p ->
  (forall r, clear_before p old (nl :: r)) ->
  (forall r, clear_before p notif r) ->
  forall (k : nat) (s : str),
    length s <= k -> occurs p s = false ->
    occurs p (replace old (old ++ notif) s) = false.
Proof.
  intros Ho Hn Hp Hold Hnotif. unfold replace.
  induction k as [|k IH]; intros s Hk H.
  - destruct s; [|cbn [length] in Hk; lia].
    rewrite replace_from_unfold.
    destruct old as [|d old']; [congruence | exact H].
  - destruct s as [|c s].
    { rewrite replace_from_unfold.
      destruct old as [|d old']; [congruence | exact H]. }
    rewrite replace_from_unfold.
    destruct (startswith old (c :: s)) eqn:E.
    + destruct old as [|d old'] eqn:Eo; [congruence|].
      apply startswith_iff in E as [rest E]. cbn [app] in E.
      injection E as -> ->.
      rewrite replace_from_skip. rewrite <- Eo in *.
      rewrite <- app_assoc.
      assert (Hrest : occurs p rest = false).
      { apply (@occurs_false_suffix p (d :: old') rest). exact H. }
      assert (Hlen : length rest <= k).
      { cbn [length] in Hk. rewrite length_app in Hk. lia. }
      pose proof (IH rest Hlen Hrest) as K.
      rewrite clear_occurs.
      * rewrite clear_occurs; [exact K | apply Hnotif].
      * pose proof Hn as Hn'. apply startswith_iff in Hn' as [n ->].
        cbn [app]. apply Hold.
    + rewrite occurs_unfold in H. apply orb_false_iff in H as [H1 H2].
      cbn [length] in Hk.
      rewrite occurs_unfold, (IH s ltac:(lia) H2), orb_false_r.
      destruct (startswith p (c :: replace_from old (old ++ notif) 0 s))
        eqn:F; [|reflexivity].
      destruct p as [|e p]; [discriminate H1|].
      cbn [startswith] in F, H1. apply andb_true_iff in F as [F1 F2].
      rewrite F1 in H1. cbn [andb] in H1.
      assert (Hp' : ~ In nl p) by (intros Hin; apply Hp; right; exact Hin).
      pose proof (@startswith_replace old notif p s Ho Hn Hp' F2). congruence.
Qed.

(** ** The ledger that is created without a Delivered section *)

Lemma render_notif_opens (a commenter message : str) (task : Task)
  (time : str) :
  startswith [nl] (render_notif a commenter message task time) = true.
Proof. reflexivity. Qed.

Lemma pending_header_quiet (r : str) :
  clear_before delivered_header pending_header (nl :: r).
Proof.
  unfold pending_header, delivered_header.
  repeat (split; [reflexivity|]). exact I.
Qed.

(** The fan-out writes the text [## Delivered] only with a text that is
    pasted into an entry. *)
Lemma insert_notifs_quiet (l : list str) (commenter message : str)
  (task : Task) :
  occurs delivered_header commenter = false ->
  occurs delivered_header (firstn 100 message) = false ->
  occurs delivered_header (id task) = false ->
  occurs delivered_header (status task) = false ->
  Forall (fun a => occurs delivered_header a = false) l ->
  forall (content : str) (w : World),
    occurs delivered_header content = false ->
    exists content',
      insert_notifs l commenter message task content w
      = (Ok content', advance (length l) w) /\
      occurs delivered_header content' = false.
Proof.
  intros Hc Hm Hi Hs Hl.
  induction Hl as [|a l Ha Hl IH]; intros content w H.
  - exists content. split; [|exact H]. unfold advance. destruct w; reflexivity.
  - cbn [insert_notifs]. unfold bind.
    change (now w) with (Ok (clock w (ticks w)), snd (now w)).
    cbv iota beta.
    set (notif := render_notif a commenter message task
                    (firstn 16 (isoformat (clock w (ticks w))))).
    assert (K : occurs delivered_header
                  (replace pending_header (pending_header ++ notif) content)
                = false).
    { apply (@replace_quiet pending_header notif delivered_header
               pending_header_nonempty
               (render_notif_opens _ _ _ _ _)
               (proj1 delivered_header_stops)
               pending_header_quiet
               (fun r => @render_notif_quiet a commenter message task
                           (clock w (ticks w)) r Ha Hc Hm Hi Hs)
               (length content) content (le_n _) H). }
    destruct (IH _ (snd (now w)) K) as (content' & E & Q).
    exists content'. rewrite E, advance_succ. split; [reflexivity | exact Q].
Qed.

(** The text behind a Pending header does not matter for where the
    header is found when that text is the Delivered section of a
    ledger just created. *)
Lemma startswith_fresh_tail (s : str) :
  startswith pending_header (s ++ delivered_header ++ [nl; nl])
  = startswith pending_header s.
Proof.
  unfold pending_header, delivered_header, lit.
  cbn [list_ascii_of_string app].
  do 12 (destruct s as [|? s];
         [reflexivity | cbn [app startswith]; f_equal]).
Qed.

Lemma replace_fresh_tail (new : str) (k : nat) :
  forall s : str,
    length s <= k ->
    replace pending_header new (s ++ delivered_header ++ [nl; nl])
    = replace pending_header new s ++ delivered_header ++ [nl; nl].
Proof.
  set (tail := delivered_header ++ [nl; nl]).
  assert (T : replace pending_header new tail = tail)
    by (apply replace_absent; [discriminate | reflexivity]).
  induction k as [|k IH]; intros s Hk.
  - destruct s; [exact T | cbn [length] in Hk; lia].
  - destruct s as [|c s]; [exact T|].
    unfold replace.
    rewrite (replace_from_unfold pending_header new 0 ((c :: s) ++ tail)).
    rewrite (replace_from_unfold pending_header new 0 (c :: s)).
    cbn [app]. change (c :: s ++ tail) with ((c :: s) ++ tail).
    unfold tail at 1. rewrite startswith_fresh_tail.
    destruct (startswith pending_header (c :: s)) eqn:E.
    + apply startswith_iff in E as [rest E].
      pose (X := lit "# Pending" ++ [nl; nl]).
      change pending_header with ("#"%char :: X) in *.
      clearbody X.
      cbn [app] in E. injection E as -> ->.
      cbv iota. rewrite <- !app_assoc.
      rewrite !replace_from_skip. f_equal.
      apply IH. cbn [length] in Hk. rewrite length_app in Hk. lia.
    + cbn [app]. f_equal. apply IH. cbn [length] in Hk. lia.
Qed.

Lemma insert_notifs_fresh_tail (l : list str) (commenter message : str)
  (task : Task) :
  forall (content : str) (w : World) (c' : str),
    insert_notifs l commenter message task content w
    = (Ok c', advance (length l) w) ->
    insert_notifs l commenter message task
      (content ++ delivered_header ++ [nl; nl]) w
    = (Ok (c' ++ delivered_header ++ [nl; nl]), advance (length l) w).
Proof.
  induction l as [|a l IH]; intros content w c' H.
  - cbn [insert_notifs] in *. unfold ret in *. injection H as <- _.
    unfold advance. destruct w; reflexivity.
  - cbn [insert_notifs] in *. unfold bind in *.
    change (now w) with (Ok (clock w (ticks w)), snd (now w)) in *.
    cbv iota beta in *.
    rewrite (@replace_fresh_tail _ (length content) content (le_n _)).
    change (length (a :: l)) with (S (length l)) in *.
    rewrite <- advance_succ in *. apply IH. exact H.
Qed.

(** The entry of the addressee notified last stands directly behind the
    first Pending header. *)
Lemma insert_notifs_head (l : list str) (commenter message : str)
  (task : Task) (A : str) :
  (forall r, clear_before pending_header A (pending_header ++ r)) ->
  l <> [] ->
  forall (B : str) (w : World),
  exists rest,
    insert_notifs l commenter message task (A ++ pending_header ++ B) w
    = (Ok (A ++ pending_header ++
           render_notif (last l []) commenter message task
             (firstn 16 (isoformat (clock w (length l - 1 + ticks w)))) ++
           rest),
       advance (length l) w).
Proof.
  intros HA. induction l as [|a l IH]; intros Hne B w; [congruence|].
  cbn [insert_notifs]. unfold bind.
  change (now w) with (Ok (clock w (ticks w)), snd (now w)).
  cbv iota beta.
  rewrite (@replace_first pending_header _ A B pending_header_nonempty (HA B)).
  rewrite <- (app_assoc pending_header).
  destruct l as [|b l].
  - cbn [insert_notifs last length]. unfold ret.
    eexists. reflexivity.
  - match goal with
    | |- context [insert_notifs (b :: l) commenter message task
                    (A ++ pending_header ++ ?B') _] =>
        destruct (IH ltac:(discriminate) B' (snd (now w))) as [rest E]
    end.
    exists rest. rewrite E, advance_succ.
    change (clock (snd (now w))) with (clock w).
    change (ticks (snd (now w))) with (S (ticks w)).
    change (last (a :: b :: l) []) with (last (b :: l) ([] : str)).
    replace (length (a :: b :: l) - 1 + ticks w)
      with (length (b :: l) - 1 + S (ticks w)) by (cbn [length]; lia).
    reflexivity.
Qed.

(* ================================================================== *)
(** * Part III.  The claims                                            *)
(* ================================================================== *)

(** ** C1: the record codec *)

(** The optional links are absent or non-empty. *)
Definition links_written (t : Task) : Prop :=
  written_opt (prd t) = prd t /\ written_opt (plan t) = plan t /\
  written_opt (pr t) = pr t.

(** A task in the form the codec preserves: the scalar frontmatter
    fields are single lines without surrounding whitespace and without a
    leading bracket; links are absent or non-empty; title, description
    and comments carry no markup that the body parser reads as its own
    (see [body_ok] and [comment_ok]); no text that is written as it is
    holds a carriage return. *)
Definition normal_form (t : Task) : Prop :=
  clean_task t /\ links_written t /\ body_ok t /\ no_cr_task t = true.

(** C1, as stated, fails: a description that ends in a newline comes
    back without it, because [from_markdown] strips the description. *)
Lemma codec_round_trip_counterexample :
  from_markdown (to_markdown sample_task_newline) <> Ok sample_task_newline.
Proof. vm_compute. intros H. discriminate H. Qed.

(** The sample record with a description of two lines that a carriage
    return and a line feed separate *)
Definition sample_task_cr : Task :=
  with_description sample_task (lit "Implement" ++ [cr; nl] ++ lit "OAuth").

(** Why the normal form leaves the carriage return out: the record is
    decoded from the file, which is read in text mode, and the two
    characters between the lines come back as one. *)
Lemma carriage_return_not_preserved :
  clean_task sample_task_cr /\ links_written sample_task_cr /\
  body_ok sample_task_cr /\
  from_markdown (text_mode (to_markdown sample_task_cr)) <> Ok sample_task_cr.
Proof.
  unfold clean_task, clean, clean_opt, links_written, body_ok.
  repeat split; try (vm_compute; reflexivity).
  - repeat constructor; vm_compute; congruence.
  - vm_compute. intros H. discriminate H.
Qed.

(** C1 (amended).  For every task in normal form, decoding the file
    that holds the encoded task returns the task itself, field for
    field: description, thread (timestamp, agent and message of every
    comment), the list fields and the optional links.  The file is read
    in text mode, as [from_markdown] opens it. *)
Theorem codec_round_trip (t : Task) :
  normal_form t -> from_markdown (text_mode (to_markdown t)) = Ok t.
Proof.
  intros (Hc & (L1 & L2 & L3) & Hb & Hr).
  rewrite (text_mode_to_markdown _ Hr).
  rewrite from_markdown_to_markdown by assumption.
  rewrite parse_description_body, parse_thread_body by assumption.
  rewrite L1, L2, L3. destruct t; reflexivity.
Qed.

Lemma codec_round_trip_witness :
  normal_form sample_task /\
  from_markdown (text_mode (to_markdown sample_task)) = Ok sample_task.
Proof.
  assert (H : normal_form sample_task).
  { unfold normal_form, clean_task, clean, clean_opt, links_written, body_ok.
    repeat split; try (vm_compute; reflexivity).
    repeat constructor; vm_compute; congruence. }
  split; [exact H | apply (codec_round_trip H)].
Defined.

(** ** C2: id generation *)

(** C2, as stated, fails: once the file of the highest-numbered task is
    deleted, the generator returns that task's id again. *)
Lemma id_reuse_counterexample :
  let third := create_task (lit "Third") (lit "c") (lit "P2") [] in
  let w2 := after (create_task (lit "Second") (lit "b") (lit "P2") [])
              (after (create_task (lit "First") (lit "a") (lit "P2") [])
                 blank_board) in
  let deleted := after (remove_file (lit "inbox") (lit "task-003.md"))
                   board_three_tasks in
  created_id (fst (third w2)) = Some (lit "task-003") /\
  created_id (fst (create_task (lit "Fourth") (lit "d") (lit "P2") [] deleted))
  = Some (lit "task-003").
Proof. vm_compute. split; reflexivity. Qed.

(** C2 (amended).  The generator returns [task-(M+1)], zero-padded to
    three digits, where [M] is the largest number that a task file of
    the status directories carries, and 0 when none carries a positive
    one; the number of a file is what [file_number] reads off its name,
    other files do not count.  Starting from empty status directories,
    the creations of any run of [create_task] calls and of [move_task]
    calls that relocate return [task-001], [task-002], ... in this
    order, up to [task-999]. *)
Theorem id_generation :
  (forall (w : World) (M : Z),
      (0 <= M)%Z ->
      (forall s l f n, In s statuses -> listdir s w = Some l ->
                       In f (map fst l) -> file_number f = Some n ->
                       (n <= M)%Z) ->
      (M = 0%Z \/
       exists s l f, In s statuses /\ listdir s w = Some l /\
                     In f (map fst l) /\ file_number f = Some M) ->
      _generate_task_id w = lit "task-" ++ zfill 3 (Z.to_nat (M + 1))) /\
  (forall (w : World) (ops : list op),
      blank w -> relocates ops w -> creations ops <= 999 ->
      fst (run ops w) =
      map (fun n => Ok (task_name (Z.of_nat n))) (seq 1 (creations ops))).
Proof.
  split.
  - intros w M. apply generate_task_id_number.
  - intros w ops Hb Hr Hc.
    apply (@run_ids ops 0 w (blank_inv Hb) (relocates_relocating _ _ Hr) Hc).
Qed.

Definition sample_run : list op :=
  [ Create (lit "First") (lit "a") (lit "P2") [];
    Move (lit "task-001") (lit "in-planning");
    Create (lit "Second") (lit "b") (lit "P1") [lit "web"];
    Move (lit "task-002") (lit "blocked");
    Move (lit "task-001") (lit "deployed");
    Create (lit "Third") (lit "c") (lit "P2") [] ].

(** The board of three tasks with a file in the inbox that is no task
    file *)
Definition board_with_notes : World :=
  after (write_file (lit "inbox") (lit "notes-900.md") (lit "later"))
    board_three_tasks.

Lemma id_generation_witness :
  _generate_task_id board_with_notes = lit "task-004" /\
  fst (run sample_run blank_board)
  = [Ok (lit "task-001"); Ok (lit "task-002"); Ok (lit "task-003")].
Proof.
  destruct id_generation as [A B]. split.
  - apply (A board_with_notes 3%Z).
    + lia.
    + intros s l f n Hs Hl Hf Hn.
      repeat (destruct Hs as [<- | Hs];
              [vm_compute in Hl; injection Hl as <-;
               repeat (destruct Hf as [<- | Hf];
                       [vm_compute in Hn;
                        first [discriminate Hn | injection Hn as <-; lia]|]);
               destruct Hf|]).
      destruct Hs.
    + right. exists (lit "inbox"). eexists. exists (lit "task-003.md").
      split; [left; reflexivity|].
      split; [vm_compute; reflexivity|].
      split; [vm_compute; tauto | vm_compute; reflexivity].
  - apply (B blank_board sample_run).
    + intros s Hs.
      repeat (destruct Hs as [<- | Hs]; [reflexivity|]). destruct Hs.
    + apply relocatesb_sound. vm_compute. reflexivity.
    + vm_compute. lia.
Defined.

(** ** C4: the errors of [move_task] *)



(** ** Claims settled by running the operations *)

(** C3.  Moving a task to the status it already has writes the record
    to its own path and then removes that path: [move_task] returns, and
    the record is gone from every status directory, so [find_task] finds
    nothing. *)
Theorem move_task_same_status_loses_record :
  let w := board_one_task in
  let r := move_task (lit "task-001") (lit "inbox") w in
  file_exists (lit "inbox") (md (lit "task-001")) w = true /\
  returned (fst r) = true /\
  find_task (lit "task-001") (snd r) = (Ok None, snd r) /\
  forallb (fun s => negb (file_exists s (md (lit "task-001")) (snd r)))
    statuses = true.
Proof. vm_compute. repeat split. Qed.

(** C8.  [to_markdown] is not a field of [Task], yet [hasattr] holds for
    it: [update_task] does not ignore the name, it raises [TypeError]
    and leaves the record's file empty. *)
Theorem update_task_method_name_destroys_record :
  let w := board_one_task in
  let r := update_task (lit "task-001") [(lit "to_markdown", VStr (lit "x"))] w in
  field_of_name (lit "to_markdown") = None /\
  fst r = Raise TypeError /\
  read (lit "inbox") (md (lit "task-001")) (snd r) = Some [] /\
  read (lit "inbox") (md (lit "task-001")) w <> Some [].
Proof. vm_compute. repeat split. discriminate. Qed.

(** ** C10: the ledger that [_notify_subscribers] creates *)

Lemma literal_prefix_clear :
  forall rest,
    clear_before pending_header (lit "# Notifications" ++ [nl; nl]) rest.
Proof.
  intros rest. unfold pending_header. repeat (split; [reflexivity|]). exact I.
Qed.

Lemma fresh_prefix_clear_delivered :
  forall rest,
    clear_before delivered_header
      (lit "# Notifications" ++ [nl; nl] ++ pending_header) rest.
Proof.
  intros rest. unfold pending_header, delivered_header.
  repeat (split; [reflexivity|]). exact I.
Qed.

(** A text that does not hold [## Delivered] *)
Definition quiet (x : str) : Prop := occurs delivered_header x = false.

(** The fan-out reads the clock and nothing else of the workspace. *)
Lemma insert_notifs_ledger (l : list str) (commenter message : str)
  (task : Task) (n : option str) :
  forall (content : str) (w : World),
    insert_notifs l commenter message task content
      (set_notifications_file w n)
    = (fst (insert_notifs l commenter message task content w),
       set_notifications_file
         (snd (insert_notifs l commenter message task content w)) n).
Proof.
  induction l as [|a l IH]; intros content w; [reflexivity|].
  cbn [insert_notifs]. unfold bind.
  change (now (set_notifications_file w n))
    with (Ok (clock w (ticks w)), set_notifications_file (snd (now w)) n).
  change (now w) with (Ok (clock w (ticks w)), snd (now w)).
  cbv iota beta. apply IH.
Qed.

Lemma notify_subscribers_unfold (task : Task) (commenter message : str)
  (w : World) :
  to_notify_of task commenter <> [] ->
  _notify_subscribers task commenter message w
  = (content' <- insert_notifs (to_notify_of task commenter) commenter
                   message task
                   (match notifications_file w with
                    | Some c => c
                    | None => lit "# Notifications" ++ [nl; nl] ++ pending_header
                    end) ;;
     fun w' => (Ok tt, set_notifications_file w' (Some content'))) w.
Proof.
  intros H. unfold _notify_subscribers. fold (to_notify_of task commenter).
  destruct (to_notify_of task commenter); [congruence | reflexivity].
Qed.

(** The board with one task whose subscribers are alice, bob and carol,
    before any [NotificationManager] was built: no ledger yet. *)
Definition board_unledgered : World :=
  after (update_task (lit "task-001")
           [(lit "subscribers", VList [lit "alice"; lit "bob"; lit "carol"])])
    board_one_task.

(** C10, as stated, fails: a comment that quotes the Delivered header
    puts the text [## Delivered] into the ledger that the fan-out
    creates, and [get_notifications] then finds what stands in front of
    it, here the opening of carol's entry. *)
Lemma fresh_ledger_quoted_header_counterexample :
  let w := board_unledgered in
  let r := add_comment (lit "task-001") (lit "alice")
             (lit "moved it under ## Delivered today") w in
  notifications_file w = None /\
  returned (fst r) = true /\
  get_notifications (lit "carol") (snd r)
  = Ok [mkNotification (Some (lit "alice")) (Some (lit "task-001"))
          (Some (lit "moved it under")) None None] /\
  get_notifications (lit "carol") (snd r) <> Ok [].
Proof. vm_compute. repeat split. discriminate. Qed.

(** C10 (amended).  When the ledger file is absent and a comment has
    somebody to notify, [_notify_subscribers] creates the file with the
    Pending header, directly behind it the entry of the subscriber
    notified last, and no Delivered section.  When none of the texts
    pasted into the entries (the names of the subscribers notified and
    of the commenter, the first 100 characters of the message, the id
    and the status of the task) holds [## Delivered], the file does not
    hold it either, [get_notifications] returns the empty list for every
    agent, and [mark_delivered] leaves the workspace as it is; a
    [NotificationManager] built afterwards finds the file and does not
    add the section.  With a Delivered section at its end the file is
    the one the same call writes into a ledger that a
    [NotificationManager] created. *)
Theorem fresh_ledger_hides_pending (w : World) (task : Task)
  (commenter message : str) :
  notifications_file w = None ->
  to_notify_of task commenter <> [] ->
  let r := _notify_subscribers task commenter message w in
  let others := to_notify_of task commenter in
  exists content rest,
    fst r = Ok tt /\
    notifications_file (snd r) = Some content /\
    content =
      lit "# Notifications" ++ [nl; nl] ++ pending_header ++
      render_notif (last others []) commenter message task
        (firstn 16 (isoformat (clock w (length others - 1 + ticks w)))) ++
      rest /\
    (quiet commenter -> quiet (firstn 100 message) -> quiet (id task) ->
     quiet (status task) -> Forall quiet others ->
     quiet content /\
     (forall agent, get_notifications agent (snd r) = Ok []) /\
     (forall agent, mark_delivered agent (snd r) = (Ok tt, snd r))) /\
    _ensure_file_exists (snd r) = (Ok tt, snd r) /\
    notifications_file
      (snd (_notify_subscribers task commenter message
              (after _ensure_file_exists w)))
    = Some (content ++ delivered_header ++ [nl; nl]).
Proof.
  intros Hnone Hne. cbv zeta.
  set (others := to_notify_of task commenter) in *.
  set (A := lit "# Notifications" ++ [nl; nl]).
  destruct (@insert_notifs_head others commenter message task A
              literal_prefix_clear Hne [] w) as [rest E].
  rewrite app_nil_r in E.
  set (content := A ++ pending_header ++
                  render_notif (last others []) commenter message task
                    (firstn 16
                       (isoformat (clock w (length others - 1 + ticks w)))) ++
                  rest) in *.
  assert (Er : _notify_subscribers task commenter message w
               = (Ok tt,
                  set_notifications_file (advance (length others) w)
                    (Some content))).
  { rewrite (@notify_subscribers_unfold task commenter message _ Hne).
    fold others.
    rewrite Hnone. unfold bind.
    change (lit "# Notifications" ++ [nl; nl] ++ pending_header)
      with (A ++ pending_header).
    rewrite E. reflexivity. }
  exists content, rest. rewrite Er. cbn [fst snd].
  split; [reflexivity|]. split; [reflexivity|].
  split; [subst content A; rewrite <- !app_assoc; reflexivity|].
  split; [|split; [reflexivity|]].
  - intros Hc Hm Hi Hs Ho.
    destruct (@insert_notifs_quiet others commenter message task Hc Hm Hi Hs
                Ho (A ++ pending_header) w eq_refl) as (c' & E' & Q).
    rewrite E in E'. injection E' as <-.
    assert (P : pending_section content = None).
    { unfold pending_section. unfold content.
      rewrite split_first_intro by apply literal_prefix_clear.
      unfold quiet in Q. unfold content in Q.
      rewrite (app_assoc A pending_header) in Q.
      apply occurs_false_suffix in Q. unfold occurs in Q.
      destruct (split_first delivered_header _) as [[x y]|];
        [discriminate Q | reflexivity]. }
    split; [exact Q|]. split.
    + intros agent. unfold get_notifications, set_notifications_file.
      cbn [notifications_file]. rewrite P. reflexivity.
    + intros agent. unfold mark_delivered, set_notifications_file.
      cbn [notifications_file]. rewrite P. reflexivity.
  - unfold after, _ensure_file_exists. rewrite Hnone. cbn [snd].
    rewrite (@notify_subscribers_unfold task commenter message _ Hne).
    fold others.
    change (notifications_file
              (set_notifications_file w (Some fresh_ledger)))
      with (Some fresh_ledger).
    unfold bind. rewrite insert_notifs_ledger.
    change fresh_ledger
      with ((A ++ pending_header) ++ delivered_header ++ [nl; nl]).
    rewrite (@insert_notifs_fresh_tail others commenter message task
               (A ++ pending_header) w content E).
    reflexivity.
Qed.

Lemma fresh_ledger_hides_pending_witness :
  let w := board_one_task in
  let t := with_subscribers sample_task [lit "alice"; lit "bob"; lit "carol"] in
  let r := _notify_subscribers t (lit "alice") (lit "Fixes #42") w in
  notifications_file w = None /\
  occurs (lit "### @bob" ++ [nl]) (ledger_text (snd r)) = true /\
  get_notifications (lit "bob") (snd r) = Ok [] /\
  get_notifications (lit "bob")
    (set_notifications_file (snd r)
       (Some (ledger_text (snd r) ++ delivered_header ++ [nl; nl])))
  = Ok [mkNotification (Some (lit "alice")) (Some (lit "task-007"))
          (Some (lit "Fixes #42")) (Some (lit "2026-02-02T14:30"))
          (Some (lit "workspace/tasks/in-progress/task-007.md"))].
Proof.
  intros w t r. split; [reflexivity|].
  destruct (@fresh_ledger_hides_pending w t (lit "alice") (lit "Fixes #42"))
    as (content & rest & _ & H2 & _ & H4 & _ & _).
  - reflexivity.
  - discriminate.
  - destruct H4 as (_ & G & _); try reflexivity.
    + repeat constructor.
    + split; [vm_compute; reflexivity|].
      split; [apply G | vm_compute; reflexivity].
Defined.

(** ** C5: fan-out of a comment *)

(** C5.  A comment that quotes the Pending header, on a task with the
    subscribers alice, bob and carol and a ledger without entries: the
    entry written for bob holds the header once more, and the insertion
    for carol, which replaces every occurrence of the header, puts
    carol's entry into the ledger twice, the second time into the
    middle of bob's entry.  Carol then has two notifications for one
    comment, and bob's notification has lost its time and its link. *)
Theorem comment_quoting_pending_header_doubles_entry :
  let w := board_subscribed in
  let r := add_comment (lit "task-001") (lit "alice") quoting_comment w in
  let entry time link :=
    mkNotification (Some (lit "alice")) (Some (lit "task-001"))
      (Some (lit "see ## Pending")) time link in
  let whole := entry (Some (lit "2026-02-02T14:30"))
                 (Some (lit "workspace/tasks/inbox/task-001.md")) in
  returned (fst r) = true /\
  subscribers (task_of (fst r)) = [lit "alice"; lit "bob"; lit "carol"] /\
  ledger_text w = fresh_ledger /\
  count (lit "### @carol" ++ [nl]) (ledger_text (snd r)) = 2 /\
  get_notifications (lit "carol") (snd r) = Ok [whole; whole] /\
  get_notifications (lit "bob") (snd r) = Ok [entry None None] /\
  get_notifications (lit "alice") (snd r) = Ok [].
Proof. vm_compute. repeat split. Qed.

(** X21.  What the fan-out writes when no text pasted into the ledger
    holds the character [#].  Let [add_comment] return, let the ledger
    be absent or hold the Pending
    header exactly once, and let the commenter's name, the message, the
    subscribers' names and the task's id and status hold no [#] and no
    carriage return, the subscribers being pairwise distinct.  After
    [add_comment] the ledger is the old one with the rendered entries
    inserted behind the Pending header, one entry per addressee; the
    addressees are the subscribers other than the commenter, each once;
    each entry's message line is the first 100 characters of the
    message, followed by an ellipsis when the message is longer. *)
Theorem comment_fan_out (w : World) (task_id agent message : str)
  (t : Task) (w' : World) (A B : str) :
  add_comment task_id agent message w = (Ok t, w') ->
  ledger_shape (notifications_file w) A B ->
  texts_no_hash agent message t ->
  Forall (fun a => no_hash a = true) (subscribers t) ->
  no_cr agent = true -> no_cr message = true -> no_cr (id t) = true ->
  no_cr (status t) = true -> forallb no_cr (subscribers t) = true ->
  NoDup (subscribers t) ->
  let others := to_notify_of t agent in
  notifications_file w' =
    match others with
    | [] => notifications_file w
    | _ :: _ =>
        Some (A ++ pending_header ++
              concat (rev (notifs others agent message t (clock w)
                             (3 + ticks w)))
              ++ B)
    end /\
  NoDup others /\
  (forall a, In a others <-> In a (subscribers t) /\ a <> agent) /\
  (forall a time, exists x y,
      render_notif a agent message t time =
      x ++ lit "Message: " ++ firstn 100 message ++
      (if 100 <? length message then lit "..." else []) ++ [nl] ++ y).
Proof.
  intros Hadd Hs Ht Hsub _ _ _ _ _ Hnd others.
  apply add_comment_inv in Hadd
    as (s & c & t0 & l & Hf & Hr & Hd & Hl & Et & Ew).
  set (cw := commented_world w s task_id agent t l) in *.
  assert (Hothers : Forall (fun a => no_hash a = true) others).
  { rewrite Forall_forall in *. intros a Ha. apply Hsub.
    unfold others, to_notify_of in Ha. apply filter_In in Ha as [Ha _].
    exact Ha. }
  split; [|split; [|split]].
  - destruct others as [|a0 l0] eqn:E.
    + rewrite Ew, (notify_subscribers_none t agent message cw E). reflexivity.
    + rewrite <- E in *.
      assert (Hne : to_notify_of t agent <> [])
        by (fold others; rewrite E; discriminate).
      rewrite Ew.
      rewrite (@notify_subscribers_spec t agent message cw A B Hne Ht Hothers Hs).
      reflexivity.
  - apply NoDup_filter. exact Hnd.
  - intros a. unfold others, to_notify_of. rewrite filter_In.
    rewrite negb_true_iff, str_eqb_neq. tauto.
  - intros a time. unfold render_notif.
    exists ([nl] ++ lit "### @" ++ a ++ [nl] ++ lit "From: " ++ agent ++
            lit " (" ++ id t ++ lit ")" ++ [nl]).
    eexists. rewrite <- !app_assoc. reflexivity.
Qed.

Lemma comment_fan_out_witness :
  let w := board_subscribed in
  let r := add_comment (lit "task-001") (lit "alice") (lit "Started work") w in
  add_comment (lit "task-001") (lit "alice") (lit "Started work") w
    = (Ok (task_of (fst r)), snd r) /\
  to_notify_of (task_of (fst r)) (lit "alice") = [lit "bob"; lit "carol"] /\
  notifications_file (snd r) =
    Some ((lit "# Notifications" ++ [nl; nl]) ++ pending_header ++
          concat (rev (notifs [lit "bob"; lit "carol"] (lit "alice")
                         (lit "Started work") (task_of (fst r)) (clock w)
                         (3 + ticks w)))
          ++ delivered_header ++ [nl; nl]).
Proof.
  intros w r.
  assert (E : add_comment (lit "task-001") (lit "alice") (lit "Started work") w
              = (Ok (task_of (fst r)), snd r)) by (vm_compute; reflexivity).
  split; [exact E|]. split; [vm_compute; reflexivity|].
  destruct (@comment_fan_out w (lit "task-001") (lit "alice")
              (lit "Started work") (task_of (fst r)) (snd r)
              (lit "# Notifications" ++ [nl; nl]) (delivered_header ++ [nl; nl])
              E) as (H & _).
  - split; vm_compute; reflexivity.
  - repeat split.
  - repeat constructor.
  - reflexivity.
  - reflexivity.
  - vm_compute. reflexivity.
  - vm_compute. reflexivity.
  - vm_compute. reflexivity.
  - repeat constructor; vm_compute; intuition discriminate.
  - exact H.
Defined.

(** ** C6: auto-subscription *)

(** The board with one task that [update_task] assigned to bob *)
Definition board_assigned : World :=
  after (update_task (lit "task-001") [(lit "assigned", VList [lit "bob"])])
    board_one_task.

(** C6, as stated, fails: [assign_task] subscribes the agent only when
    it adds the agent to [assigned].  For an agent that [update_task]
    has assigned already, it returns with the agent assigned and not
    subscribed, and this is what it stores. *)
Lemma auto_subscribe_counterexample :
  let w := board_assigned in
  let r := assign_task (lit "task-001") (lit "bob") w in
  returned (fst r) = true /\
  assigned (task_of (fst r)) = [lit "bob"] /\
  subscribers (task_of (fst r)) = [] /\
  match stored (lit "task-001") (snd r) with
  | Ok (Some t) => assigned t = [lit "bob"] /\ subscribers t = []
  | _ => False
  end.
Proof. vm_compute. repeat split. Qed.

(** C6 (amended).  After [add_comment] returns, the commenter is in the
    subscribers of the task returned, and the stored record has the
    same lists.  After [assign_task] returns, the agent is in [assigned]
    of the task returned and the stored record has the same lists; the
    agent is in its subscribers exactly when it was subscribed before
    or was not yet assigned.  A record whose assigned agents are all
    subscribed stays so under any sequence of the two operations, its
    subscribers only grow, and the agent of every call on it that
    returned is among them. *)
Theorem auto_subscribe :
  (forall (i a m : str) (w : World) (t : Task) (w' : World),
      add_comment i a m w = (Ok t, w') ->
      In a (subscribers t) /\
      exists t', stored i w' = Ok (Some t') /\
                 assigned t' = assigned t /\ subscribers t' = subscribers t) /\
  (forall (i a : str) (w : World) (t : Task) (w' : World),
      assign_task i a w = (Ok t, w') ->
      In a (assigned t) /\
      (exists t', stored i w' = Ok (Some t') /\
                  assigned t' = assigned t /\ subscribers t' = subscribers t) /\
      (exists t0, stored i w = Ok (Some t0) /\
                  (In a (subscribers t) <->
                   In a (subscribers t0) \/ ~ In a (assigned t0)))) /\
  (forall (cs : list call) (w : World) (i : str) (t0 : Task),
      stored i w = Ok (Some t0) -> incl (assigned t0) (subscribers t0) ->
      exists t,
        stored i (perform_all cs w) = Ok (Some t) /\
        incl (assigned t) (subscribers t) /\
        incl (subscribers t0) (subscribers t) /\
        incl (actors i cs w) (subscribers t)).
Proof.
  split; [|split].
  - intros i a m w t w' H.
    destruct (@perform_stored (AddComment i a m) w t w' H)
      as (t0 & t' & Hs0 & Ht & Hs' & Ha & Hb & _).
    cbn [target written] in *. split.
    + rewrite Ht.
      destruct (commented_lists t0 a m (clock w) (ticks w)) as [_ ->].
      destruct (mem a (subscribers t0)) eqn:E.
      * apply mem_In; exact E.
      * apply in_or_app; right; left; reflexivity.
    + exists t'. repeat split; assumption.
  - intros i a w t w' H.
    destruct (@perform_stored (AssignTask i a) w t w' H)
      as (t0 & t' & Hs0 & Ht & Hs' & Ha & Hb & _).
    cbn [target written] in *.
    destruct (assigned_task_lists t0 a (clock w) (ticks w)) as [La Ls].
    rewrite <- Ht in La, Ls. split; [|split].
    + rewrite La. destruct (mem a (assigned t0)) eqn:E.
      * apply mem_In; exact E.
      * apply in_or_app; right; left; reflexivity.
    + exists t'. repeat split; assumption.
    + exists t0. split; [exact Hs0|]. rewrite Ls.
      destruct (mem a (assigned t0)) eqn:E.
      * apply mem_In in E. split; [tauto|]. intros [H1|H1]; tauto.
      * apply mem_false in E. split; [intros _; right; exact E|].
        intros _. destruct (mem a (subscribers t0)) eqn:F.
        -- apply mem_In; exact F.
        -- apply in_or_app; right; left; reflexivity.
  - intros cs w i t0. apply perform_all_inv.
Qed.

Definition sample_calls : list call :=
  [ AddComment (lit "task-001") (lit "alice") (lit "On it");
    AssignTask (lit "task-001") (lit "bob");
    AddComment (lit "task-002") (lit "carol") (lit "no such task");
    AssignTask (lit "task-001") (lit "alice") ].

Lemma auto_subscribe_witness :
  exists t,
    stored (lit "task-001") (perform_all sample_calls board_one_task)
    = Ok (Some t) /\
    incl (assigned t) (subscribers t) /\
    incl [lit "alice"; lit "bob"; lit "alice"] (subscribers t).
Proof.
  destruct auto_subscribe as (_ & _ & C).
  pose (t0 := mkTask (lit "task-001") (lit "Add login")
                (lit "Implement OAuth") (lit "inbox") (lit "P2") [] [] []
                (lit "2026-02-02T14:30:00") (lit "2026-02-02T14:30:01")
                None None None []).
  assert (H1 : stored (lit "task-001") board_one_task = Ok (Some t0))
    by (vm_compute; reflexivity).
  assert (H2 : incl (assigned t0) (subscribers t0)) by (intros x []).
  destruct (C sample_calls board_one_task (lit "task-001") t0 H1 H2)
    as (t & Hs & Hi & _ & Ha).
  exists t. split; [exact Hs|]. split; [exact Hi|].
  assert (E : actors (lit "task-001") sample_calls board_one_task
              = [lit "alice"; lit "bob"; lit "alice"])
    by (vm_compute; reflexivity).
  rewrite E in Ha. exact Ha.
Defined.

(** ** C9: the fallback chain of [find_work] *)

(** The order of two file names: by code point, a proper prefix first. *)
Fixpoint str_leb (a b : str) : bool :=
  match a, b with
  | [], _ => true
  | _ :: _, [] => false
  | x :: a', y :: b' =>
      (nat_of_ascii x <? nat_of_ascii y)
      || (Ascii.eqb x y && str_leb a' b')
  end.

Fixpoint insert_by_name (fc : str * str) (l : listing) : listing :=
  match l with
  | [] => [fc]
  | fc' :: l' =>
      if str_leb (fst fc) (fst fc') then fc :: l
      else fc' :: insert_by_name fc l'
  end.

(** The directories with their files in the order of the file names. *)
Definition by_filename (w : World) : World :=
  mkWorld
    (map (fun sl => (fst sl, fold_right insert_by_name [] (snd sl))) (tasks w))
    (activity_log w) (notifications_file w) (clock w) (ticks w).

(** Two tasks assigned to the engineer and moved to [in-progress], the
    second one first: the directory lists [task-002.md] before
    [task-001.md]. *)
Definition board_unsorted : World :=
  after (move_task (lit "task-001") (lit "in-progress"))
    (after (move_task (lit "task-002") (lit "in-progress"))
       (after (assign_task (lit "task-002") (lit "engineer"))
          (after (assign_task (lit "task-001") (lit "engineer"))
             (after (create_task (lit "Second") (lit "b") (lit "P2") [])
                (after (create_task (lit "First") (lit "a") (lit "P2") [])
                   blank_board))))).

(** A check that every [.md] file of the status directories decodes *)
Definition decodable_check (w : World) : bool :=
  forallb
    (fun s =>
       match listdir s w with
       | Some l =>
           forallb
             (fun fc => negb (is_md (fst fc)) || returned (from_markdown (snd fc)))
             l
       | None => true
       end)
    statuses.

Lemma decodable_check_sound (w : World) :
  decodable_check w = true -> decodable w.
Proof.
  intros H s l f c Hs Hl Hin Hmd. unfold decodable_check in H.
  rewrite forallb_forall in H. specialize (H s Hs). rewrite Hl in H.
  rewrite forallb_forall in H. specialize (H (f, c) Hin).
  cbn [fst snd] in H. rewrite Hmd in H. cbn [negb orb] in H.
  destruct (from_markdown c) as [t|e]; [eauto | discriminate].
Qed.

(** C9, as stated, fails: the files of a directory are scanned in the
    order in which the directory lists them, and nothing sorts them.
    On a board whose [in-progress] directory lists [task-002.md] before
    [task-001.md], both assigned to the engineer, [find_work] returns
    [task-002]; the first in filename order is [task-001]. *)
Lemma find_work_filename_order_counterexample :
  let w := board_unsorted in
  option_map (map fst) (listdir (lit "in-progress") w)
  = Some [lit "task-002.md"; lit "task-001.md"] /\
  str_leb (lit "task-001.md") (lit "task-002.md") = true /\
  map (fun r => (id (snd r), assigned (snd r))) (scan_order w)
  = [ (lit "task-002", [lit "engineer"]); (lit "task-001", [lit "engineer"]) ] /\
  option_map id (find_work_chain (lit "engineer") (by_filename w))
  = Some (lit "task-001") /\
  match find_work (lit "engineer") w with
  | Ok (Some t) => id t = lit "task-002"
  | _ => False
  end.
Proof. vm_compute. repeat split. Qed.

(** C9 (amended).  When every [.md] file of the status directories
    decodes, [find_work] returns the result of the fallback chain over
    the records in scan order, the statuses in the order of the fixed
    list and the files of a status in the order in which its directory
    lists them: the first record whose [assigned] holds the role;
    otherwise the first record whose text holds [@role]; otherwise the
    first record without assignee in the directory that the table
    (which is the dict of the source) gives for the role; otherwise
    none.  Where the directories list their files in the order of the
    names, this is the chain of the claim. *)
Theorem find_work_fallback_chain (role : str) (w : World) :
  decodable w ->
  find_work role w = Ok (find_work_chain role w) /\
  status_map role = role_status role /\
  (by_filename w = w ->
   find_work role w = Ok (find_work_chain role (by_filename w))).
Proof.
  intros Hd. split; [apply (find_work_refines role Hd)|].
  split; [apply status_map_table|].
  intros ->. apply (find_work_refines role Hd).
Qed.

Lemma find_work_fallback_chain_witness :
  decodable board_unsorted /\
  find_work (lit "engineer") board_unsorted
  = Ok (find_work_chain (lit "engineer") board_unsorted) /\
  find_work (lit "pm") board_one_task
  = Ok (find_work_chain (lit "pm") board_one_task).
Proof.
  assert (D1 : decodable board_unsorted)
    by (apply decodable_check_sound; vm_compute; reflexivity).
  assert (D2 : decodable board_one_task)
    by (apply decodable_check_sound; vm_compute; reflexivity).
  split; [exact D1|]. split.
  - apply (proj1 (find_work_fallback_chain (lit "engineer") D1)).
  - apply (proj1 (find_work_fallback_chain (lit "pm") D2)).
Defined.

(** ** C7: delivery for an agent without pending entries *)

(** The ledger a [NotificationManager] creates, with one notification:
    for carol, from alice, with a message that quotes a header line for
    bob. *)
Definition ledger_quoting : World :=
  after (add_notification (lit "carol") (lit "alice") (lit "ask ### @bob")
           None None)
    (after _ensure_file_exists blank_board).

(** The same ledger with one notification for carol whose link quotes
    the header line. *)
Definition ledger_quoting_link : World :=
  after (add_notification (lit "carol") (lit "alice") (lit "see the notes")
           None (Some (lit "notes.md ### @bob")))
    (after _ensure_file_exists blank_board).

(** C7.  Nobody has notified bob: the ledger holds one entry, carol's,
    no line of it is a header line for bob, and [get_notifications]
    returns nothing for bob.  [mark_delivered] for bob is no no-op all
    the same.  Its pattern is not tied to the start of a line and finds
    the header text at the end of carol's link; the call rewrites the
    ledger, puts the text found into the Delivered section with a
    stamp, and [get_notifications] then returns carol's notification
    with its link cut.  With the header text quoted in the message
    ([ledger_quoting]) the call for bob moves the end of carol's entry:
    her notification comes back with its message cut and without its
    time; on that ledger the search of [get_notifications], which is
    not tied to the start of a line either, reports for bob a
    notification that holds nothing but carol's time. *)
Theorem mark_delivered_takes_quoted_header :
  let w := ledger_quoting_link in
  let r := mark_delivered (lit "bob") w in
  let w2 := ledger_quoting in
  let r2 := mark_delivered (lit "bob") w2 in
  let from_alice message time link :=
    mkNotification (Some (lit "alice")) None (Some message) time link in
  let stamped := Some (lit "2026-02-02T14:30") in
  (count (nl :: lit "### @") (ledger_text w) = 1 /\
   occurs (nl :: lit "### @bob") (ledger_text w) = false /\
   get_notifications (lit "bob") w = Ok [] /\
   get_notifications (lit "carol") w
   = Ok [from_alice (lit "see the notes") stamped
           (Some (lit "notes.md ### @bob"))] /\
   fst r = Ok tt /\
   str_eqb (ledger_text (snd r)) (ledger_text w) = false /\
   count (lit "Delivered: ") (ledger_text (snd r)) = 1 /\
   get_notifications (lit "carol") (snd r)
   = Ok [from_alice (lit "see the notes") stamped (Some (lit "notes.md"))]) /\
  (count (nl :: lit "### @") (ledger_text w2) = 1 /\
   occurs (nl :: lit "### @bob") (ledger_text w2) = false /\
   get_notifications (lit "bob") w2
   = Ok [mkNotification None None None stamped None] /\
   get_notifications (lit "carol") w2
   = Ok [from_alice (lit "ask ### @bob") stamped None] /\
   fst r2 = Ok tt /\
   str_eqb (ledger_text (snd r2)) (ledger_text w2) = false /\
   count (lit "Delivered: ") (ledger_text (snd r2)) = 1 /\
   get_notifications (lit "carol") (snd r2)
   = Ok [from_alice (lit "ask") None None]).
Proof. vm_compute. repeat split. Qed.

(** The same defect on a second call.  [mark_delivered] removes the
    text of an entry wherever it occurs, and the texts around it can
    join to a new header line.  On a ledger where the message of a
    notification for carol holds [### @bob### @bob] and a line break,
    the first call for bob moves what it takes for an entry of bob and
    leaves a header line [### @bob]; the second call then moves carol's
    older notification under Delivered and stamps it once more. *)
Lemma mark_delivered_twice_duplicates :
  let w := ledger_spliced in
  let w1 := after (mark_delivered (lit "bob")) w in
  let w2 := after (mark_delivered (lit "bob")) w1 in
  returned (fst (mark_delivered (lit "bob") w)) = true /\
  returned (fst (mark_delivered (lit "bob") w1)) = true /\
  count (lit "Delivered: ") (ledger_text w1) = 1 /\
  count (lit "Delivered: ") (ledger_text w2) = 2 /\
  str_eqb (ledger_text w1) (ledger_text w2) = false.
Proof. vm_compute. repeat split. Qed.

(** ** Delivery on a ledger of plain entries *)

(** X22.  For an agent whose name holds no regex metacharacter: when
    the text [### @agent] followed by a line break occurs nowhere in
    the Pending section (or the ledger or the section is missing),
    [mark_delivered] returns and leaves the workspace as it is.  When
    the Pending section is a run of entries whose header lines are the
    only places of the character [#], each entry ending its last line,
    [mark_delivered] returns and leaves no such text for the agent, so
    that a second call in a row changes nothing. *)
Theorem mark_delivered_idempotent (agent : str) (w : World) :
  regex_literal agent = true ->
  (has_pending_entry agent w = false -> mark_delivered agent w = (Ok tt, w)) /\
  (forall (content pre : str) (es : list (str * str)),
      single_line agent = true ->
      notifications_file w = Some content ->
      pending_section content = Some (pre ++ flat es) ->
      no_hash pre = true -> Forall entry_wf es ->
      let w1 := snd (mark_delivered agent w) in
      fst (mark_delivered agent w) = Ok tt /\
      has_pending_entry agent w1 = false /\
      mark_delivered agent w1 = (Ok tt, w1)).
Proof.
  intros Hre. split; [apply mark_delivered_noop; exact Hre|].
  intros content pre es Ha Hc Hp Hpre Hwf. cbv zeta.
  destruct (@mark_delivered_clears agent w content pre es Hre Ha Hc Hp Hpre Hwf)
    as [H1 H2].
  split; [exact H1|]. split; [exact H2|].
  apply mark_delivered_noop; assumption.
Qed.

Lemma mark_delivered_idempotent_witness :
  let w := ledger_two_agents in
  let w1 := snd (mark_delivered (lit "bob") w) in
  mark_delivered (lit "dave") w = (Ok tt, w) /\
  has_pending_entry (lit "bob") w = true /\
  fst (mark_delivered (lit "bob") w) = Ok tt /\
  has_pending_entry (lit "bob") w1 = false /\
  mark_delivered (lit "bob") w1 = (Ok tt, w1).
Proof.
  cbv zeta.
  pose (body := fun (from message tail : str) =>
                  lit "From: " ++ from ++ nl :: lit "Message: " ++ message
                  ++ nl :: lit "Time: 2026-02-02T14:30" ++ nl :: nl :: tail).
  pose (es := [ (lit "bob", body (lit "alice") (lit "second") [nl; nl]);
                (lit "carol",
                 body (lit "alice (task-001)") (lit "hello") [nl; nl]);
                (lit "bob", body (lit "alice") (lit "first") [nl]) ]).
  assert (Hwf : Forall entry_wf es)
    by (repeat (constructor; [apply entry_wf_check; vm_compute; reflexivity|]);
        constructor).
  split.
  - apply (proj1 (@mark_delivered_idempotent (lit "dave")
                    ledger_two_agents eq_refl)).
    vm_compute. reflexivity.
  - split; [vm_compute; reflexivity|].
    apply (proj2 (@mark_delivered_idempotent (lit "bob")
                    ledger_two_agents eq_refl)
             (ledger_text ledger_two_agents) [nl] es).
    + reflexivity.
    + vm_compute. reflexivity.
    + vm_compute. reflexivity.
    + reflexivity.
    + exact Hwf.
Defined.

(* ================================================================== *)
(** * Part IV.  Further properties of the task store                   *)
(* ================================================================== *)

(** ** Operations on a record that does not exist *)

(** No status directory holds the file of the task. *)
Definition absent (task_id : str) (w : World) : Prop :=
  forall s, In s statuses -> file_exists s (md task_id) w = false.

Lemma absent_find (task_id : str) (w : World) :
  absent task_id w -> _find_task_file task_id w = None.
Proof. intros H. apply first_status_with_none. exact H. Qed.

(** X1.  For an id without path separator whose file no status
    directory holds, [find_task] returns [None], and [update_task]
    (called with keywords other than the names of its own parameters),
    [add_comment] and [assign_task] raise the not-found error; none of
    them changes the workspace: nothing is written, logged or
    notified. *)
Theorem missing_task_errors (task_id : str) (w : World) :
  no_sep task_id = true -> absent task_id w ->
  find_task task_id w = (Ok None, w) /\
  (forall updates,
      forallb keyword (map fst updates) = true ->
      update_task task_id updates w = (Raise (NotFound task_id), w)) /\
  (forall agent message,
      add_comment task_id agent message w = (Raise (NotFound task_id), w)) /\
  (forall agent,
      assign_task task_id agent w = (Raise (NotFound task_id), w)).
Proof.
  intros _ H. apply absent_find in H. repeat split.
  - unfold find_task. rewrite H. reflexivity.
  - intros updates _. unfold update_task. unfold_m. rewrite H. reflexivity.
  - intros agent message. apply (proj1 (add_comment_fails _ _ _ _) H).
  - intros agent. apply (proj1 (assign_task_fails _ _ _) H).
Qed.

Lemma missing_task_errors_witness :
  find_task (lit "task-999") board_one_task = (Ok None, board_one_task) /\
  update_task (lit "task-999") [(lit "title", VStr (lit "x"))] board_one_task
  = (Raise (NotFound (lit "task-999")), board_one_task) /\
  add_comment (lit "task-999") (lit "qa") (lit "hello") board_one_task
  = (Raise (NotFound (lit "task-999")), board_one_task) /\
  assign_task (lit "task-999") (lit "qa") board_one_task
  = (Raise (NotFound (lit "task-999")), board_one_task).
Proof.
  assert (H : absent (lit "task-999") board_one_task).
  { intros s Hs.
    repeat (destruct Hs as [<- | Hs]; [reflexivity|]). destruct Hs. }
  destruct (@missing_task_errors (lit "task-999") board_one_task eq_refl H)
    as (A & B & C & D).
  split; [exact A|]. split; [apply B; reflexivity|].
  split; [apply C | apply D].
Defined.

(** ** [create_task] *)

(** A character that is no whitespace and no opening bracket *)
Definition solid (c : ascii) : bool :=
  negb (isspace c) && negb (Ascii.eqb c "["%char).

Lemma solid_not_nl (c : ascii) : solid c = true -> not_nl c = true.
Proof.
  destruct c as [[] [] [] [] [] [] [] []]; try reflexivity; discriminate.
Qed.

Lemma rstrip_no_space (s : str) :
  forallb (fun c => negb (isspace c)) s = true -> rstrip s = s.
Proof.
  induction s as [|c s IH]; [reflexivity|].
  cbn [forallb]. intros H. apply andb_true_iff in H as [Hc Hs].
  rewrite rstrip_cons, (IH Hs). destruct s; [|reflexivity].
  apply negb_true_iff in Hc. rewrite Hc. reflexivity.
Qed.

Lemma solid_clean (s : str) : forallb solid s = true -> clean s.
Proof.
  intros H. split; [|split].
  - apply (forallb_impl solid _ _ solid_not_nl H).
  - apply strip_fix. split.
    + destruct s as [|c s]; [reflexivity|].
      cbn [forallb] in H. apply andb_true_iff in H as [Hc _].
      unfold solid in Hc. apply andb_true_iff in Hc as [Hc _].
      apply negb_true_iff in Hc. cbn [lstrip]. rewrite Hc. reflexivity.
    + apply rstrip_no_space.
      apply (forallb_impl solid (fun c => negb (isspace c)) s); [|exact H].
      intros c Hc. unfold solid in Hc. apply andb_true_iff in Hc as [Hc _].
      exact Hc.
  - destruct s as [|c s]; [reflexivity|].
    cbn [forallb] in H. apply andb_true_iff in H as [Hc _].
    unfold solid in Hc. apply andb_true_iff in Hc as [_ Hc].
    apply negb_true_iff in Hc. cbn [startswith lit list_ascii_of_string].
    rewrite Ascii.eqb_sym, Hc. reflexivity.
Qed.

Lemma isdigit_solid (c : ascii) : isdigit c = true -> solid c = true.
Proof.
  destruct c as [[] [] [] [] [] [] [] []]; try reflexivity; discriminate.
Qed.

Lemma task_name_clean (n : Z) : clean (task_name n).
Proof.
  apply solid_clean. unfold task_name. rewrite forallb_app.
  apply andb_true_iff. split; [reflexivity|].
  apply (forallb_impl isdigit solid _ isdigit_solid). apply zfill_digits.
Qed.

(** The record that [create_task] writes *)
Definition new_task (title description priority : str) (tags : list str)
  (w : World) : Task :=
  mkTask (_generate_task_id w) title description (lit "inbox") priority
    [] [] tags (isoformat (clock w (ticks w)))
    (isoformat (clock w (S (ticks w)))) None None None [].

Lemma create_task_found (ti d p : str) (tg : list str) (w : World)
  (l : listing) :
  lookup (lit "inbox") (tasks w) = Some l ->
  create_task ti d p tg w =
  (Ok (new_task ti d p tg w),
   mkWorld
     (put (lit "inbox")
        (put (md (_generate_task_id w)) (to_markdown (new_task ti d p tg w)) l)
        (tasks w))
     (activity_log w ++ isoformat (clock w (S (S (ticks w)))) ++ lit " | " ++
      lit "system" ++ lit " | " ++
      (lit "Created task " ++ _generate_task_id w ++ lit ": " ++ ti) ++ [nl])
     (notifications_file w) (clock w) (S (S (S (ticks w))))).
Proof.
  intros Hl. unfold create_task. unfold_m. cbn [tasks]. rewrite Hl.
  reflexivity.
Qed.

Lemma inbox_first (f : str) (w : World) :
  file_exists (lit "inbox") f w = true ->
  first_status_with f statuses w = Some (lit "inbox").
Proof.
  intros H. unfold statuses. cbn [map first_status_with]. rewrite H.
  reflexivity.
Qed.

(** X2.  [create_task] followed by [find_task]: when the inbox
    directory exists and the title, the priority and the description
    are in the form the codec preserves, [create_task] returns a task
    with the generated id, status [inbox], no assignee, no subscriber,
    no link and an empty thread; it logs one line for [system], leaves
    the ledger alone, and [find_task] on the new id returns exactly the
    task created.  The form: title and priority are single lines
    without surrounding whitespace and without a leading bracket, the
    title holds neither [## Description] nor [## Thread], the
    description has no surrounding whitespace, no line that starts
    with [## ] and no [## Thread], and none of the three holds a
    carriage return. *)
Theorem create_task_then_find (title description priority : str)
  (tags : list str) (w : World) (l : listing) :
  listdir (lit "inbox") w = Some l ->
  clean title -> clean priority ->
  occurs (lit "## Description") title = false ->
  occurs (lit "## Thread") title = false ->
  strip description = description ->
  occurs (nl :: lit "## ") description = false ->
  occurs (lit "## Thread") description = false ->
  no_cr title = true -> no_cr priority = true ->
  no_cr description = true ->
  let t := new_task title description priority tags w in
  let w' := snd (create_task title description priority tags w) in
  fst (create_task title description priority tags w) = Ok t /\
  find_task (id t) w' = (Ok (Some t), w') /\
  activity_log w' =
    activity_log w ++ isoformat (clock w (2 + ticks w)) ++
    lit " | system | Created task " ++ id t ++ lit ": " ++ title ++ [nl] /\
  notifications_file w' = notifications_file w.
Proof.
  intros Hl Ht Hp Ht1 Ht2 Hd1 Hd2 Hd3 _ _ _ t w'.
  unfold listdir in Hl.
  pose proof (create_task_found title description priority tags w Hl) as E.
  fold t in E. subst w'. rewrite E. cbn [fst snd].
  split; [reflexivity|]. split; [|split].
  - set (w1 := mkWorld _ _ _ _ _).
    assert (Hr : read (lit "inbox") (md (id t)) w1 = Some (to_markdown t)).
    { unfold read, listdir, w1. cbn [tasks].
      rewrite lookup_put_same. apply lookup_put_same. }
    assert (Hf : _find_task_file (id t) w1 = Some (lit "inbox")).
    { apply inbox_first. unfold file_exists. rewrite Hr. reflexivity. }
    rewrite (find_task_found _ _ Hf Hr).
    assert (Hc : clean_task t).
    { unfold clean_task, t, new_task. cbn.
      repeat (split; [first [ assumption | apply task_name_clean
                            | apply isoformat_clean
                            | apply solid_clean; reflexivity | exact I ]|]).
      exact I. }
    assert (Hb : body_ok t).
    { unfold body_ok, t, new_task. cbn.
      repeat (split; [assumption|]). constructor. }
    rewrite (from_markdown_to_markdown Hc).
    rewrite (parse_description_body Hb), (parse_thread_body Hb).
    reflexivity.
  - cbn [activity_log]. unfold t, new_task. cbn [id].
    norm_app. reflexivity.
  - reflexivity.
Qed.

Lemma create_task_then_find_witness :
  let t := new_task (lit "Add login") (lit "Implement OAuth") (lit "P2")
             [lit "auth"] blank_board in
  id t = lit "task-001" /\
  find_task (lit "task-001")
    (snd (create_task (lit "Add login") (lit "Implement OAuth") (lit "P2")
            [lit "auth"] blank_board))
  = (Ok (Some t),
     snd (create_task (lit "Add login") (lit "Implement OAuth") (lit "P2")
            [lit "auth"] blank_board)).
Proof.
  cbv zeta. split; [reflexivity|].
  apply (@create_task_then_find (lit "Add login") (lit "Implement OAuth")
           (lit "P2") [lit "auth"] blank_board []);
    first [ reflexivity | apply clean_literal; reflexivity ].
Defined.

(** ** The generated id is fresh *)

Lemma read_listed (s f : str) (w : World) :
  file_exists s f w = true ->
  exists l, listdir s w = Some l /\ In f (map fst l).
Proof.
  unfold file_exists, read. destruct (listdir s w) as [l|]; [|discriminate].
  destruct (lookup f l) as [c|] eqn:E; [|discriminate].
  intros _. exists l. split; [reflexivity|].
  apply lookup_Some_key. eauto.
Qed.

Lemma generated_file (w : World) :
  (0 <= max_in_statuses 0 statuses w)%Z /\
  md (_generate_task_id w)
  = file_of (S (Z.to_nat (max_in_statuses 0 statuses w))).
Proof.
  pose proof (max_in_statuses_ge statuses w 0) as H. split; [exact H|].
  unfold file_of, _generate_task_id. do 2 f_equal. lia.
Qed.

Lemma generated_file_absent (w : World) (s : str) :
  (max_in_statuses 0 statuses w < 999)%Z -> In s statuses ->
  file_exists s (md (_generate_task_id w)) w = false.
Proof.
  intros Hmax Hs. destruct (generated_file w) as [H0 E]. rewrite E.
  destruct (file_exists s _ w) eqn:F; [|reflexivity].
  destruct (read_listed _ _ _ F) as (l & Hl & Hin).
  assert (HM : S (Z.to_nat (max_in_statuses 0 statuses w)) <= 999) by lia.
  pose proof (@max_in_statuses_hit _ statuses w 0%Z s l HM Hs Hl Hin). lia.
Qed.

Lemma lookup_put_absent (A : Type) (k : str) (v : A) (l : list (str * A))
  (k' : str) (v' : A) :
  lookup k' l = Some v' -> lookup k l = None ->
  lookup k' (put k v l) = Some v'.
Proof.
  intros H1 H2. destruct (str_eqb k' k) eqn:E.
  - apply str_eqb_eq in E. subst. congruence.
  - apply str_eqb_neq in E. rewrite lookup_put_other by exact E. exact H1.
Qed.

(** X3.  [create_task] never overwrites a record: while the highest
    number among the task files is below 999, no status directory holds
    the file of the generated id, so when the inbox directory exists
    [create_task] returns and every file of every directory is still
    there with the content it had. *)
Theorem create_task_keeps_records (title description priority : str)
  (tags : list str) (w : World) (l : listing) :
  (max_in_statuses 0 statuses w < 999)%Z ->
  listdir (lit "inbox") w = Some l ->
  let r := create_task title description priority tags w in
  (forall s, In s statuses ->
             file_exists s (md (_generate_task_id w)) w = false) /\
  returned (fst r) = true /\
  file_exists (lit "inbox") (md (_generate_task_id w)) (snd r) = true /\
  (forall s f c, read s f w = Some c -> read s f (snd r) = Some c).
Proof.
  intros Hmax Hl r.
  assert (Hfresh : forall s, In s statuses ->
             file_exists s (md (_generate_task_id w)) w = false)
    by (intros s Hs; apply generated_file_absent; assumption).
  split; [exact Hfresh|].
  unfold listdir in Hl. subst r.
  rewrite (create_task_found title description priority tags w Hl).
  cbn [fst snd returned]. split; [reflexivity|]. split.
  - unfold file_exists, read, listdir. cbn [tasks].
    rewrite !lookup_put_same. reflexivity.
  - intros s f c Hr. unfold read, listdir in *. cbn [tasks].
    destruct (str_eqb s (lit "inbox")) eqn:E.
    + apply str_eqb_eq in E. subst s. rewrite Hl in Hr.
      rewrite lookup_put_same. apply lookup_put_absent; [exact Hr|].
      assert (Hi : In (lit "inbox") statuses) by (left; reflexivity).
      specialize (Hfresh _ Hi). unfold file_exists, read, listdir in Hfresh.
      rewrite Hl in Hfresh.
      destruct (lookup (md (_generate_task_id w)) l); [discriminate|reflexivity].
    + apply str_eqb_neq in E. rewrite lookup_put_other by exact E. exact Hr.
Qed.

Lemma create_task_keeps_records_witness :
  let r := create_task (lit "Fourth") (lit "d") (lit "P2") [] board_three_tasks in
  returned (fst r) = true /\
  (forall s f c, read s f board_three_tasks = Some c ->
                 read s f (snd r) = Some c).
Proof.
  cbv zeta.
  assert (H1 : (max_in_statuses 0 statuses board_three_tasks < 999)%Z)
    by (vm_compute; reflexivity).
  assert (H2 : exists l, listdir (lit "inbox") board_three_tasks = Some l)
    by (eexists; vm_compute; reflexivity).
  destruct H2 as [l H2].
  destruct (@create_task_keeps_records (lit "Fourth") (lit "d") (lit "P2") []
              board_three_tasks l H1 H2) as (_ & A & _ & B).
  split; [exact A | exact B].
Defined.

(** ** [move_task] to another status *)

(** The task [move_task] writes and returns *)
Definition moved (t0 : Task) (new_status : str) (clk : nat -> datetime)
  (k : nat) : Task :=
  with_updated (with_status t0 new_status) (isoformat (clk k)).

(** The workspace a successful [move_task] leaves *)
Definition moved_world (w : World) (old new_status task_id : str) (t0 : Task)
  (lold lnew : listing) : World :=
  mkWorld
    (put old (drop (md task_id) lold)
       (put new_status
          (put (md task_id)
             (to_markdown (moved t0 new_status (clock w) (ticks w))) lnew)
          (tasks w)))
    (activity_log w ++ isoformat (clock w (S (ticks w))) ++ lit " | " ++
     lit "system" ++ lit " | " ++
     (lit "Moved " ++ task_id ++ lit " from " ++ status t0 ++ lit " to "
      ++ new_status) ++ [nl])
    (notifications_file w) (clock w) (S (S (ticks w))).

Lemma move_task_found (i new_status : str) (w : World) (old c : str)
  (t0 : Task) (lold lnew : listing) :
  mem new_status statuses = true ->
  _find_task_file i w = Some old -> old <> new_status ->
  lookup old (tasks w) = Some lold -> lookup (md i) lold = Some c ->
  from_markdown c = Ok t0 ->
  lookup new_status (tasks w) = Some lnew ->
  move_task i new_status w =
  (Ok (moved t0 new_status (clock w) (ticks w)),
   moved_world w old new_status i t0 lold lnew).
Proof.
  intros Hs Hf Hne Ho Hc Hd Hn.
  assert (Hr : read old (md i) w = Some c)
    by (unfold read, listdir; rewrite Ho; exact Hc).
  unfold move_task. rewrite Hs. cbn [negb]. unfold_m.
  rewrite Hf, Hr, Hd. cbn [tasks]. rewrite Hn.
  unfold file_exists, read, listdir, set_tasks, set_activity_log.
  cbn [tasks activity_log notifications_file clock ticks].
  rewrite (lookup_put_other _ _ Hne), Ho, Hc.
  reflexivity.
Qed.

Lemma status_clean (s : str) : In s statuses -> clean s.
Proof.
  intros H.
  repeat (destruct H as [<- | H]; [apply clean_literal; reflexivity|]).
  destruct H.
Qed.

Lemma moved_clean (t0 : Task) (s : str) (clk : nat -> datetime) (k : nat) :
  clean_task t0 -> In s statuses -> clean_task (moved t0 s clk k).
Proof.
  intros (H1 & H2 & H3 & H4 & H5 & H6 & H7 & H8 & H9) Hs.
  unfold moved, clean_task; cbn.
  (split; [assumption|]); (split; [assumption|]);
    (split; [apply status_clean; exact Hs|]);
    (split; [assumption|]); (split; [assumption|]);
    (split; [apply isoformat_clean|]); (split; [assumption|]);
    split; assumption.
Qed.

(** X4.  [move_task] to a status other than the directory that holds
    the record: when the new status is one of the ten, its directory
    exists and the record decodes, [move_task] returns the task with
    the new status and a fresh [updated]; the file is then in the new
    directory and no longer in the old one, every other file is as it
    was, and one line is logged for [system] that names the status the
    record carried.  When no other directory held the record,
    [find_task] afterwards finds it under the new status, with the new
    status and with its id, title, priority, lists, creation time and
    links as decoded before. *)
Theorem move_task_relocates (task_id new_status : str) (w : World)
  (old c : str) (t0 : Task) (lnew : listing) :
  In new_status statuses ->
  _find_task_file task_id w = Some old -> old <> new_status ->
  read old (md task_id) w = Some c -> from_markdown c = Ok t0 ->
  listdir new_status w = Some lnew ->
  let t := moved t0 new_status (clock w) (ticks w) in
  let w' := snd (move_task task_id new_status w) in
  fst (move_task task_id new_status w) = Ok t /\
  read new_status (md task_id) w' = Some (to_markdown t) /\
  file_exists old (md task_id) w' = false /\
  (forall s f, f <> md task_id -> read s f w' = read s f w) /\
  (forall s f, s <> old -> s <> new_status -> read s f w' = read s f w) /\
  activity_log w' =
    activity_log w ++ isoformat (clock w (S (ticks w))) ++
    lit " | system | Moved " ++ task_id ++ lit " from " ++ status t0 ++
    lit " to " ++ new_status ++ [nl] /\
  ((forall s, s <> old -> file_exists s (md task_id) w = false) ->
   (forall s, file_exists s (md task_id) w' = str_eqb s new_status) /\
   exists t', find_task task_id w' = (Ok (Some t'), w') /\
              status t' = new_status /\ id t' = id t0 /\ title t' = title t0 /\
              priority t' = priority t0 /\ assigned t' = assigned t0 /\
              subscribers t' = subscribers t0 /\ tags t' = tags t0 /\
              created t' = created t0 /\ updated t' = updated t).
Proof.
  intros Hs Hf Hne Hr Hd Hn t w'.
  destruct (read_listing _ _ _ Hr) as (lold & Ho & Hc).
  unfold listdir in Hn.
  assert (Hm : mem new_status statuses = true) by (apply mem_In; exact Hs).
  pose proof (@move_task_found task_id new_status w old c t0 lold lnew
                Hm Hf Hne Ho Hc Hd Hn) as E.
  subst w'. rewrite E. cbn [fst snd]. fold t.
  assert (Hne' : new_status <> old) by congruence.
  assert (Rnew : forall f,
             read new_status f (moved_world w old new_status task_id t0 lold lnew)
             = lookup f (put (md task_id) (to_markdown t) lnew)).
  { intros f. unfold read, listdir, moved_world. cbn [tasks].
    rewrite (lookup_put_other _ _ Hne'), lookup_put_same. reflexivity. }
  assert (Rold : forall f,
             read old f (moved_world w old new_status task_id t0 lold lnew)
             = lookup f (drop (md task_id) lold)).
  { intros f. unfold read, listdir, moved_world. cbn [tasks].
    rewrite lookup_put_same. reflexivity. }
  assert (Rother : forall s f, s <> old -> s <> new_status ->
             read s f (moved_world w old new_status task_id t0 lold lnew)
             = read s f w).
  { intros s f H1 H2. unfold read, listdir, moved_world. cbn [tasks].
    rewrite (lookup_put_other _ _ H1), (lookup_put_other _ _ H2).
    reflexivity. }
  split; [reflexivity|]. split; [|split; [|split; [|split; [|split]]]].
  - rewrite Rnew. apply lookup_put_same.
  - unfold file_exists. rewrite Rold, lookup_drop_same. reflexivity.
  - intros s f Hfne.
    destruct (str_eqb s old) eqn:E1; [apply str_eqb_eq in E1; subst s|].
    + rewrite Rold, (lookup_drop_other _ Hfne). unfold read, listdir.
      rewrite Ho. reflexivity.
    + apply str_eqb_neq in E1.
      destruct (str_eqb s new_status) eqn:E2;
        [apply str_eqb_eq in E2; subst s|].
      * rewrite Rnew, (lookup_put_other _ _ Hfne). unfold read, listdir.
        rewrite Hn. reflexivity.
      * apply str_eqb_neq in E2. apply Rother; assumption.
  - exact Rother.
  - unfold moved_world. cbn [activity_log]. norm_app. reflexivity.
  - intros Huniq.
    assert (Hex : forall s,
               file_exists s (md task_id)
                 (moved_world w old new_status task_id t0 lold lnew)
               = str_eqb s new_status).
    { intros s. unfold file_exists.
      destruct (str_eqb s new_status) eqn:E2.
      - apply str_eqb_eq in E2. subst s. rewrite Rnew, lookup_put_same.
        reflexivity.
      - apply str_eqb_neq in E2.
        destruct (str_eqb s old) eqn:E1.
        + apply str_eqb_eq in E1. subst s. rewrite Rold, lookup_drop_same.
          reflexivity.
        + apply str_eqb_neq in E1. rewrite (Rother _ _ E1 E2).
          specialize (Huniq s E1). unfold file_exists in Huniq. exact Huniq. }
    split; [exact Hex|].
    set (w1 := moved_world w old new_status task_id t0 lold lnew) in *.
    assert (Hf1 : _find_task_file task_id w1 = Some new_status).
    { unfold _find_task_file.
      assert (G : forall sts, In new_status sts ->
                    first_status_with (md task_id) sts w1 = Some new_status).
      { induction sts as [|s sts IH]; [intros []|].
        intros Hin. cbn [first_status_with]. rewrite Hex.
        destruct (str_eqb s new_status) eqn:E2.
        - apply str_eqb_eq in E2. congruence.
        - apply str_eqb_neq in E2. destruct Hin as [Hin|Hin]; [congruence|].
          apply IH. exact Hin. }
      apply G. exact Hs. }
    assert (Hr1 : read new_status (md task_id) w1 = Some (to_markdown t))
      by (unfold w1; rewrite Rnew; apply lookup_put_same).
    assert (Hcl : clean_task t)
      by (apply moved_clean; [apply (from_markdown_clean _ Hd) | exact Hs]).
    eexists. split.
    + rewrite (find_task_found _ _ Hf1 Hr1).
      rewrite (from_markdown_to_markdown Hcl). reflexivity.
    + cbn. repeat split.
Qed.

Lemma move_task_relocates_witness :
  let w' := snd (move_task (lit "task-001") (lit "in-progress") board_one_task) in
  file_exists (lit "in-progress") (md (lit "task-001")) w' = true /\
  file_exists (lit "inbox") (md (lit "task-001")) w' = false /\
  exists t', find_task (lit "task-001") w' = (Ok (Some t'), w') /\
             status t' = lit "in-progress".
Proof.
  cbv zeta.
  pose (c := match read (lit "inbox") (md (lit "task-001")) board_one_task with
             | Some c => c
             | None => []
             end).
  assert (Hr : read (lit "inbox") (md (lit "task-001")) board_one_task = Some c)
    by (vm_compute; reflexivity).
  assert (Hd : from_markdown c = Ok (task_of (from_markdown c)))
    by (vm_compute; reflexivity).
  assert (Hs : In (lit "in-progress") statuses)
    by (do 4 right; left; reflexivity).
  assert (Hf : _find_task_file (lit "task-001") board_one_task
               = Some (lit "inbox")) by reflexivity.
  assert (Hne : lit "inbox" <> lit "in-progress") by discriminate.
  assert (Hn : listdir (lit "in-progress") board_one_task = Some [])
    by reflexivity.
  destruct (@move_task_relocates (lit "task-001") (lit "in-progress")
              board_one_task (lit "inbox") c (task_of (from_markdown c)) []
              Hs Hf Hne Hr Hd Hn) as (_ & _ & _ & _ & _ & _ & U).
  assert (Hu : forall s, s <> lit "inbox" ->
                 file_exists s (md (lit "task-001")) board_one_task = false).
  { intros s Hs'. unfold file_exists, read, listdir.
    change (tasks board_one_task)
      with (put (lit "inbox")
              (put (md (_generate_task_id blank_board))
                 (to_markdown
                    (new_task (lit "Add login") (lit "Implement OAuth")
                       (lit "P2") [] blank_board)) [])
              (tasks blank_board)).
    rewrite (lookup_put_other _ _ Hs').
    assert (G : forall sts, match lookup s (map (fun x => (x, @nil (str * str))) sts) with
                            | Some l => lookup (md (lit "task-001")) l
                            | None => None
                            end = None).
    { induction sts as [|x sts IH]; [reflexivity|].
      cbn [map lookup]. destruct (str_eqb x s); [reflexivity | exact IH]. }
    unfold blank_board. cbn [tasks]. rewrite G. reflexivity. }
  destruct (U Hu) as (Hex & t' & Hfind & Hst & _).
  split; [rewrite Hex; reflexivity|]. split; [rewrite Hex; reflexivity|].
  exists t'. split; [exact Hfind | exact Hst].
Defined.

(** ** [update_task] on fields and on unknown names *)

(** A keyword that is no attribute of a [Task]: no field, none of its
    two methods, and no name of the form [__...]. *)
Definition no_attribute (key : str) : Prop :=
  field_of_name key = None /\ key <> lit "to_markdown" /\
  key <> lit "from_markdown" /\ startswith (lit "__") key = false.

Lemma field_of_name_field (f : field) : field_of_name (field_name f) = Some f.
Proof. destruct f; reflexivity. Qed.

Lemma update_task_found (i : str) (updates : list (str * pyval)) (w : World)
  (s c : str) (t0 t1 : Task) (l : listing) :
  _find_task_file i w = Some s -> lookup s (tasks w) = Some l ->
  lookup (md i) l = Some c -> from_markdown c = Ok t0 ->
  apply_updates (t0, false) updates = Ok (t1, false) ->
  update_task i updates w =
  (Ok (with_updated t1 (isoformat (clock w (ticks w)))),
   mkWorld
     (put s (put (md i)
               (to_markdown (with_updated t1 (isoformat (clock w (ticks w)))))
               l) (tasks w))
     (activity_log w) (notifications_file w) (clock w) (S (ticks w))).
Proof.
  intros Hf Hl Hc Hd Hu.
  assert (Hr : read s (md i) w = Some c)
    by (unfold read, listdir; rewrite Hl; exact Hc).
  unfold update_task. unfold_m. rewrite Hf, Hr, Hd, Hu.
  cbn [fst snd tasks]. rewrite Hl. reflexivity.
Qed.

(** X5.  [update_task] on an existing record.  A keyword that is no
    attribute of the task (and none of the names [task_id] and [self],
    which a call cannot pass) is ignored; a keyword that names a field
    sets that field and no other, for a value of the type the field
    declares.  When the keywords set fields only, the call returns the
    task with these fields set and [updated] refreshed, and writes it
    to the file it was read from: the record stays in its directory
    even when the keyword [status] is among them, every other file is
    as it was, and neither the activity log nor the ledger is touched.
    [find_task] afterwards returns the frontmatter fields and lists as
    written, provided the scalar ones are single lines without
    surrounding whitespace and without a leading bracket, and no text
    of the task holds a carriage return. *)
Theorem update_task_frame :
  (forall (t : Task) (hidden : bool) (key : str) (v : pyval),
      keyword key = true -> no_attribute key ->
      apply_update (t, hidden) (key, v) = Ok (t, hidden)) /\
  (forall (t : Task) (hidden : bool) (f : field) (v : pyval) (t' : Task),
      setattr t f v = Ok t' ->
      apply_update (t, hidden) (field_name f, v) = Ok (t', hidden)) /\
  (forall (task_id : str) (updates : list (str * pyval)) (w : World)
          (s c : str) (t0 t1 : Task),
      forallb keyword (map fst updates) = true ->
      _find_task_file task_id w = Some s ->
      read s (md task_id) w = Some c -> from_markdown c = Ok t0 ->
      apply_updates (t0, false) updates = Ok (t1, false) ->
      let t := with_updated t1 (isoformat (clock w (ticks w))) in
      let w' := snd (update_task task_id updates w) in
      fst (update_task task_id updates w) = Ok t /\
      read s (md task_id) w' = Some (to_markdown t) /\
      (forall j, _find_task_file j w' = _find_task_file j w) /\
      (forall s' f, f <> md task_id -> read s' f w' = read s' f w) /\
      (forall s' f, s' <> s -> read s' f w' = read s' f w) /\
      activity_log w' = activity_log w /\
      notifications_file w' = notifications_file w /\
      (clean_task t -> no_cr_task t = true ->
       exists t', find_task task_id w' = (Ok (Some t'), w') /\
                  id t' = id t /\ title t' = title t /\
                  status t' = status t /\ priority t' = priority t /\
                  assigned t' = assigned t /\
                  subscribers t' = subscribers t /\ tags t' = tags t /\
                  created t' = created t /\ updated t' = updated t)).
Proof.
  split; [|split].
  - intros t hidden key v _ (H1 & H2 & H3 & H4). unfold apply_update.
    rewrite H1.
    destruct (str_eqb key (lit "to_markdown")) eqn:E1;
      [apply str_eqb_eq in E1; contradiction|].
    destruct (str_eqb key (lit "from_markdown")) eqn:E2;
      [apply str_eqb_eq in E2; contradiction|].
    rewrite H4. reflexivity.
  - intros t hidden f v t' H. unfold apply_update.
    rewrite field_of_name_field, H. reflexivity.
  - intros i updates w s c t0 t1 _ Hf Hr Hd Hu t w'.
    destruct (read_listing _ _ _ Hr) as (l & Hl & Hc).
    pose proof (@update_task_found i updates w s c t0 t1 l Hf Hl Hc Hd Hu) as E.
    fold t in E. subst w'. rewrite E. cbn [fst snd].
    set (w1 := mkWorld _ _ _ _ _).
    assert (Hw : tasks w1 = put s (put (md i) (to_markdown t) l) (tasks w))
      by reflexivity.
    split; [reflexivity|].
    split; [apply (@written_read_same w w1 i s (to_markdown t) l Hw)|].
    split; [intros j;
            apply (@written_find_file w w1 i s (to_markdown t) l Hf Hl Hw j)|].
    split; [intros s' f Hne;
            apply (@written_read_other w w1 i s (to_markdown t) l Hl Hw s' f
                     Hne)|].
    split; [intros s' f Hne;
            apply (@written_read_elsewhere w w1 i s (to_markdown t) l Hw s' f
                     Hne)|].
    split; [reflexivity|]. split; [reflexivity|].
    intros Hcl _. eexists. split.
    + assert (Hf1 : _find_task_file i w1 = Some s)
        by (rewrite (@written_find_file w w1 i s (to_markdown t) l Hf Hl Hw);
            exact Hf).
      rewrite (find_task_found _ _ Hf1
                 (@written_read_same w w1 i s (to_markdown t) l Hw)).
      rewrite (from_markdown_to_markdown Hcl). reflexivity.
    + cbn. repeat split.
Qed.

Definition sample_updates : list (str * pyval) :=
  [ (lit "title", VStr (lit "Add SSO login"));
    (lit "status", VStr (lit "deployed"));
    (lit "colour", VStr (lit "red")) ].

Lemma update_task_frame_witness :
  let w' := snd (update_task (lit "task-001") sample_updates board_one_task) in
  _find_task_file (lit "task-001") w' = Some (lit "inbox") /\
  exists t', find_task (lit "task-001") w' = (Ok (Some t'), w') /\
             title t' = lit "Add SSO login" /\ status t' = lit "deployed".
Proof.
  cbv zeta. destruct update_task_frame as (_ & _ & F).
  pose (c := match read (lit "inbox") (md (lit "task-001")) board_one_task with
             | Some c => c
             | None => []
             end).
  pose (t0 := task_of (from_markdown c)).
  pose (t1 := with_status (with_title t0 (lit "Add SSO login")) (lit "deployed")).
  assert (Hf : _find_task_file (lit "task-001") board_one_task
               = Some (lit "inbox")) by reflexivity.
  assert (Hr : read (lit "inbox") (md (lit "task-001")) board_one_task = Some c)
    by (vm_compute; reflexivity).
  assert (Hd : from_markdown c = Ok t0) by (vm_compute; reflexivity).
  assert (Hu : apply_updates (t0, false) sample_updates = Ok (t1, false))
    by (vm_compute; reflexivity).
  destruct (F (lit "task-001") sample_updates board_one_task (lit "inbox") c
              t0 t1 eq_refl Hf Hr Hd Hu) as (_ & _ & G & _ & _ & _ & _ & H).
  split; [rewrite G; exact Hf|].
  assert (Hc : clean_task
                 (with_updated t1
                    (isoformat (clock board_one_task (ticks board_one_task))))).
  { unfold clean_task. cbn.
    repeat (split; [first [apply clean_literal; reflexivity | exact I]|]).
    exact I. }
  assert (Hn : no_cr_task
                 (with_updated t1
                    (isoformat (clock board_one_task (ticks board_one_task))))
               = true) by (vm_compute; reflexivity).
  destruct (H Hc Hn) as (t' & H1 & _ & H2 & H3 & _).
  exists t'. split; [exact H1|]. split; [exact H2 | exact H3].
Defined.

(** ** [add_comment] *)

Lemma notify_subscribers_log (task : Task) (commenter message : str)
  (w : World) :
  activity_log (snd (_notify_subscribers task commenter message w))
  = activity_log w.
Proof.
  unfold _notify_subscribers.
  destruct (filter _ (subscribers task)) as [|a0 l0]; [reflexivity|].
  unfold bind.
  match goal with
  | |- context [insert_notifs ?l commenter message task ?c w] =>
      destruct (insert_notifs_total l commenter message task c w) as [c' ->]
  end.
  reflexivity.
Qed.

(** X6.  A successful [add_comment] returns the stored task with one
    comment appended to its thread (the first sixteen characters of
    the current time, the agent and the message as given), the agent
    subscribed and [updated] refreshed, every other field as decoded;
    it logs one line for the agent.  [find_task] afterwards returns the
    same description and the same thread, the new comment last, when
    the body carries them unchanged ([body_ok]: the title holds neither
    [## Description] nor [## Thread]; the description has no
    surrounding whitespace, no line that starts with [## ] and no
    [## Thread]; every comment, the new one included, has a non-empty
    timestamp of digits, [-], [:] and [T], a non-empty one-line agent
    and a message without surrounding whitespace and without a line
    that starts with [### ]) and no text of the task holds a carriage
    return. *)
Theorem add_comment_appends (task_id agent message : str) (w : World)
  (t : Task) (w' : World) :
  add_comment task_id agent message w = (Ok t, w') ->
  exists t0,
    find_task task_id w = (Ok (Some t0), w) /\
    thread t =
      thread t0 ++
      [mkComment (firstn 16 (isoformat (clock w (ticks w)))) agent message] /\
    updated t = isoformat (clock w (S (ticks w))) /\
    id t = id t0 /\ title t = title t0 /\ description t = description t0 /\
    status t = status t0 /\ priority t = priority t0 /\
    assigned t = assigned t0 /\ tags t = tags t0 /\
    created t = created t0 /\ prd t = prd t0 /\ plan t = plan t0 /\
    pr t = pr t0 /\
    activity_log w' =
      activity_log w ++ isoformat (clock w (2 + ticks w)) ++ lit " | " ++
      agent ++ lit " | Commented on " ++ task_id ++ [nl] /\
    (body_ok t -> no_cr_task t = true ->
     exists t', find_task task_id w' = (Ok (Some t'), w') /\
                thread t' = thread t /\ description t' = description t).
Proof.
  intros H.
  apply add_comment_inv in H
    as (s & c & t0 & l & Hf & Hr & Hd & Hl & Ht & Hw).
  exists t0.
  split; [rewrite (find_task_found _ _ Hf Hr), Hd; reflexivity|].
  assert (Hfields :
            thread t =
              thread t0 ++
              [mkComment (firstn 16 (isoformat (clock w (ticks w)))) agent
                 message] /\
            updated t = isoformat (clock w (S (ticks w))) /\
            id t = id t0 /\ title t = title t0 /\
            description t = description t0 /\
            status t = status t0 /\ priority t = priority t0 /\
            assigned t = assigned t0 /\ tags t = tags t0 /\
            created t = created t0 /\ prd t = prd t0 /\ plan t = plan t0 /\
            pr t = pr t0).
  { rewrite Ht. unfold commented. cbv zeta.
    cbn [subscribers with_thread].
    destruct (mem agent (subscribers t0)); cbn; repeat split. }
  destruct Hfields as (F1 & F2 & F3 & F4 & F5 & F6 & F7 & F8 & F9 & F10 & F11
                       & F12 & F13).
  repeat (split; [assumption|]).
  split.
  - rewrite Hw, notify_subscribers_log. unfold commented_world.
    cbn [activity_log]. norm_app. reflexivity.
  - intros Hb _.
    assert (Hcl : clean_task t).
    { rewrite Ht. apply commented_clean. apply (from_markdown_clean _ Hd). }
    assert (Htasks : tasks w' = put s (put (md task_id) (to_markdown t) l) (tasks w)).
    { rewrite Hw.
      destruct (notify_subscribers_total t agent message
                  (commented_world w s task_id agent t l)) as [_ ->].
      reflexivity. }
    assert (Hf1 : _find_task_file task_id w' = Some s).
    { rewrite (@written_find_file w w' task_id s (to_markdown t) l Hf Hl Htasks).
      exact Hf. }
    eexists. split.
    + rewrite (find_task_found _ _ Hf1
                 (@written_read_same w w' task_id s (to_markdown t) l Htasks)).
      rewrite (from_markdown_to_markdown Hcl). reflexivity.
    + cbn [thread description]. split.
      * apply parse_thread_body. exact Hb.
      * apply parse_description_body. exact Hb.
Qed.

Lemma add_comment_appends_witness :
  let r := add_comment (lit "task-001") (lit "qa") (lit "Looks good")
             board_one_task in
  exists t0 t',
    find_task (lit "task-001") board_one_task = (Ok (Some t0), board_one_task) /\
    thread (task_of (fst r)) =
      thread t0 ++ [mkComment (lit "2026-02-02T14:30") (lit "qa")
                      (lit "Looks good")] /\
    find_task (lit "task-001") (snd r) = (Ok (Some t'), snd r) /\
    thread t' = [mkComment (lit "2026-02-02T14:30") (lit "qa")
                   (lit "Looks good")].
Proof.
  cbv zeta.
  set (r := add_comment (lit "task-001") (lit "qa") (lit "Looks good")
              board_one_task).
  assert (E : add_comment (lit "task-001") (lit "qa") (lit "Looks good")
                board_one_task = (Ok (task_of (fst r)), snd r))
    by (vm_compute; reflexivity).
  destruct (add_comment_appends _ _ _ _ E)
    as (t0 & H1 & H2 & _ & _ & _ & _ & _ & _ & _ & _ & _ & _ & _ & _ & _ & H3).
  destruct H3 as (t' & H4 & H5 & _).
  - unfold body_ok. repeat split; try (vm_compute; reflexivity).
    vm_compute. repeat constructor; congruence.
  - vm_compute. reflexivity.
  - exists t0, t'. split; [exact H1|]. split; [rewrite H2; reflexivity|].
    split; [exact H4|]. rewrite H5. vm_compute. reflexivity.
Defined.

(** ** What no operation of the task manager does *)

(** The calls that write to the store *)
Inductive request :=
| ReqCreate (title description priority : str) (tags : list str)
| ReqMove (task_id new_status : str)
| ReqUpdate (task_id : str) (updates : list (str * pyval))
| ReqComment (task_id agent message : str)
| ReqAssign (task_id agent : str).

(** The workspace a call leaves, whether it returns or raises. *)
Definition serve (r : request) (w : World) : World :=
  match r with
  | ReqCreate ti d p tg => snd (create_task ti d p tg w)
  | ReqMove i s => snd (move_task i s w)
  | ReqUpdate i u => snd (update_task i u w)
  | ReqComment i a m => snd (add_comment i a m w)
  | ReqAssign i a => snd (assign_task i a w)
  end.

Definition serve_all (rs : list request) (w : World) : World :=
  fold_left (fun w r => serve r w) rs w.

(** The log grows at its end, and the directories stay the same. *)
Definition extends (w w' : World) : Prop :=
  (exists x, activity_log w' = activity_log w ++ x) /\
  map fst (tasks w') = map fst (tasks w).

Lemma extends_refl (w : World) : extends w w.
Proof. split; [exists []; rewrite app_nil_r|]; reflexivity. Qed.

Lemma extends_trans (w1 w2 w3 : World) :
  extends w1 w2 -> extends w2 w3 -> extends w1 w3.
Proof.
  intros [[x Hx] Hk] [[y Hy] Hk']. split.
  - exists (x ++ y). rewrite Hy, Hx, app_assoc. reflexivity.
  - congruence.
Qed.

Lemma put_keys (A : Type) (k : str) (v v0 : A) (l : list (str * A)) :
  lookup k l = Some v0 -> map fst (put k v l) = map fst l.
Proof.
  induction l as [|[k' v'] l IH]; cbn [lookup put]; [discriminate|].
  destruct (str_eqb k' k) eqn:E; [reflexivity|].
  intros H. cbn [map fst]. rewrite (IH H). reflexivity.
Qed.

Ltac extends_done :=
  split;
  [ cbn [activity_log tasks set_tasks set_activity_log];
    first [ eexists; reflexivity
          | exists []; rewrite app_nil_r; reflexivity ]
  | cbn [activity_log tasks set_tasks set_activity_log];
    repeat (erewrite put_keys by eassumption); reflexivity ].

Ltac split_matches :=
  repeat match goal with
         | |- context [match ?x with _ => _ end] =>
             let E := fresh "E" in destruct x eqn:E
         end.

Lemma create_task_extends (ti d p : str) (tg : list str) (w : World) :
  extends w (snd (create_task ti d p tg w)).
Proof.
  unfold create_task. unfold_m. cbn [tasks].
  destruct (lookup (lit "inbox") (tasks w)) as [l|] eqn:E;
    cbn [snd]; unfold set_tasks, set_activity_log; extends_done.
Qed.

Lemma update_task_extends (i : str) (u : list (str * pyval)) (w : World) :
  extends w (snd (update_task i u w)).
Proof.
  unfold update_task. unfold_m.
  destruct (_find_task_file i w) as [s|]; [|apply extends_refl].
  destruct (read s (md i) w) as [c|]; [|apply extends_refl].
  destruct (from_markdown c) as [t0|e]; [|apply extends_refl].
  destruct (apply_updates (t0, false) u) as [[t1 h]|e]; [|apply extends_refl].
  cbn [fst snd tasks].
  destruct h; unfold raise, ret, bind; cbn [tasks];
    destruct (lookup s (tasks w)) as [l|] eqn:E;
    cbn [snd]; unfold set_tasks; extends_done.
Qed.

Lemma move_task_extends (i s : str) (w : World) :
  extends w (snd (move_task i s w)).
Proof.
  unfold move_task.
  destruct (mem s statuses); cbn [negb]; [|apply extends_refl].
  unfold_m.
  destruct (_find_task_file i w) as [old|]; [|apply extends_refl].
  destruct (read old (md i) w) as [c|]; [|apply extends_refl].
  destruct (from_markdown c) as [t0|e]; [|apply extends_refl].
  cbn [tasks].
  destruct (lookup s (tasks w)) as [lnew|] eqn:En; [|cbn [snd]; extends_done].
  unfold file_exists, read, listdir, set_tasks, set_activity_log.
  cbn [tasks activity_log notifications_file clock ticks].
  match goal with
  | |- context [lookup old ?T] => destruct (lookup old T) as [lold|] eqn:Eo
  end; [|cbn [snd]; extends_done].
  destruct (lookup (md i) lold) as [c'|]; cbn [snd]; extends_done.
Qed.

Lemma add_comment_extends (i a m : str) (w : World) :
  extends w (snd (add_comment i a m w)).
Proof.
  destruct (add_comment_fails i a m w) as [F1 F2].
  destruct (_find_task_file i w) as [s|] eqn:Hf;
    [|rewrite F1 by reflexivity; apply extends_refl].
  destruct (find_task_file_read _ _ Hf) as [c Hr].
  destruct (from_markdown c) as [t0|e0] eqn:Hd;
    [|rewrite (F2 s c e0 eq_refl Hr Hd); apply extends_refl].
  destruct (add_comment_found i a m w Hf Hr Hd) as (l & Hl & E).
  rewrite E. cbv zeta. cbn [snd]. split.
  - rewrite notify_subscribers_log. unfold commented_world.
    cbn [activity_log]. eexists. reflexivity.
  - match goal with
    | |- context [_notify_subscribers ?t a m ?w0] =>
        destruct (notify_subscribers_total t a m w0) as [_ ->]
    end.
    unfold commented_world. cbn [tasks].
    erewrite put_keys by exact Hl. reflexivity.
Qed.

Lemma assign_task_extends (i a : str) (w : World) :
  extends w (snd (assign_task i a w)).
Proof.
  destruct (assign_task_fails i a w) as [F1 F2].
  destruct (_find_task_file i w) as [s|] eqn:Hf;
    [|rewrite F1 by reflexivity; apply extends_refl].
  destruct (find_task_file_read _ _ Hf) as [c Hr].
  destruct (from_markdown c) as [t0|e0] eqn:Hd;
    [|rewrite (F2 s c e0 eq_refl Hr Hd); apply extends_refl].
  destruct (assign_task_found i a w Hf Hr Hd) as (l & Hl & E).
  rewrite E. cbv zeta. cbn [snd]. unfold assigned_world. split.
  - cbn [activity_log]. exists []. rewrite app_nil_r. reflexivity.
  - cbn [tasks]. erewrite put_keys by exact Hl. reflexivity.
Qed.

Lemma serve_extends (r : request) (w : World) : extends w (serve r w).
Proof.
  destruct r; cbn [serve];
    [ apply create_task_extends | apply move_task_extends
    | apply update_task_extends | apply add_comment_extends
    | apply assign_task_extends ].
Qed.

(** X7.  Whatever calls of [create_task], [move_task], [update_task],
    [add_comment] and [assign_task] are made, with whatever arguments
    and whether they return or raise: the activity log afterwards is
    the old log with text appended (nothing logged is ever changed or
    removed), and the tasks directory has the same subdirectories in
    the same order (none is created, none removed). *)
Theorem store_only_appends (rs : list request) (w : World) :
  (exists x, activity_log (serve_all rs w) = activity_log w ++ x) /\
  map fst (tasks (serve_all rs w)) = map fst (tasks w).
Proof.
  change (extends w (serve_all rs w)).
  revert w; induction rs as [|r rs IH]; intros w; [apply extends_refl|].
  cbn [serve_all fold_left].
  apply (extends_trans (serve_extends r w)). apply IH.
Qed.

(** ** [list_tasks], [find_mentions] and [find_work] *)

Lemma tasks_in_listing_records (l : listing) :
  listing_decodable l -> tasks_in_listing l = Ok (map snd (records l)).
Proof.
  induction l as [|[f c] l IH]; intros H; [reflexivity|].
  specialize (IH (listing_decodable_tail H)).
  cbn [tasks_in_listing]. unfold records. cbn [flat_map fst snd].
  destruct (is_md f) eqn:E; [|exact IH].
  destruct (H f c (or_introl eq_refl) E) as [t Ht]. rewrite Ht.
  cbn [bind_res app map snd]. fold (records l). rewrite IH. reflexivity.
Qed.

Lemma tasks_in_records (sts : list str) (w : World) :
  (forall s l, In s sts -> listdir s w = Some l -> listing_decodable l) ->
  tasks_in sts w
  = Ok (map snd
          (flat_map (fun s => match listdir s w with
                              | Some l => records l
                              | None => []
                              end) sts)).
Proof.
  induction sts as [|s sts IH]; intros H; [reflexivity|].
  assert (H' : forall s0 l, In s0 sts -> listdir s0 w = Some l ->
                            listing_decodable l)
    by (intros s0 l Hs; apply H; right; exact Hs).
  specialize (IH H'). cbn [tasks_in flat_map].
  destruct (listdir s w) as [l|] eqn:E; [|exact IH].
  rewrite (tasks_in_listing_records (H s l (or_introl eq_refl) E)), IH.
  cbn [bind_res]. rewrite map_app. reflexivity.
Qed.

(** A file that does not decode makes the loop over its directory
    raise. *)
Lemma tasks_in_listing_raises (l : listing) (f c : str) (e : error) :
  In (f, c) l -> is_md f = true -> from_markdown c = Raise e ->
  exists e', tasks_in_listing l = Raise e'.
Proof.
  induction l as [|[f0 c0] l IH]; intros Hin Hmd Hd; [destruct Hin|].
  cbn [tasks_in_listing]. destruct Hin as [Hin | Hin].
  - injection Hin as -> ->. rewrite Hmd, Hd. eexists. reflexivity.
  - destruct (IH Hin Hmd Hd) as [e' He'].
    destruct (is_md f0); [|eauto].
    destruct (from_markdown c0); [|eexists; reflexivity].
    cbn [bind_res]. rewrite He'. eexists. reflexivity.
Qed.

Lemma tasks_in_raises (sts : list str) (w : World) (s : str) (l : listing)
  (f c : str) (e : error) :
  In s sts -> listdir s w = Some l ->
  In (f, c) l -> is_md f = true -> from_markdown c = Raise e ->
  exists e', tasks_in sts w = Raise e'.
Proof.
  induction sts as [|s0 sts IH]; intros Hs Hl Hin Hmd Hd; [destruct Hs|].
  cbn [tasks_in]. destruct Hs as [-> | Hs].
  - rewrite Hl.
    destruct (@tasks_in_listing_raises l f c e Hin Hmd Hd) as [e' ->].
    eexists. reflexivity.
  - destruct (IH Hs Hl Hin Hmd Hd) as [e' He'].
    destruct (listdir s0 w); [|eauto].
    destruct (tasks_in_listing l0); [|eexists; reflexivity].
    cbn [bind_res]. rewrite He'. eexists. reflexivity.
Qed.

Lemma list_tasks_all (w : World) :
  decodable w -> list_tasks None w = Ok (map snd (scan_order w)).
Proof.
  intros Hd. cbn [list_tasks]. apply tasks_in_records. intros s l Hs Hl.
  apply (decodable_listing Hd Hs Hl).
Qed.

(** X8.  [list_tasks] without a status, or with the empty string as
    status, returns the records of all status directories in scan
    order when every [.md] file decodes; called with a non-empty status
    it returns the records of that directory, and the empty list when
    the status names a directory that does not exist (a name without
    path separator, none of the two dot names); it does not check that
    the status is one of the ten.  A single [.md] file of a status
    directory whose text has no frontmatter block makes the listing of
    all tasks raise. *)
Theorem list_tasks_scan (w : World) :
  (decodable w ->
   list_tasks None w = Ok (map snd (scan_order w)) /\
   list_tasks (Some []) w = Ok (map snd (scan_order w))) /\
  (forall (s : str) (l : listing),
      s <> [] -> listdir s w = Some l -> listing_decodable l ->
      list_tasks (Some s) w = Ok (map snd (records l))) /\
  (forall s : str,
      s <> [] -> dir_name s = true -> listdir s w = None ->
      list_tasks (Some s) w = Ok []) /\
  (forall (s : str) (l : listing) (f c : str),
      In s statuses -> listdir s w = Some l -> In (f, c) l ->
      is_md f = true -> from_markdown c = Raise MalformedRecord ->
      exists e', list_tasks None w = Raise e').
Proof.
  split; [|split; [|split]].
  - intros Hd.
    assert (E : tasks_in statuses w = Ok (map snd (scan_order w))).
    { apply tasks_in_records. intros s l Hs Hl.
      apply (decodable_listing Hd Hs Hl). }
    split; exact E.
  - intros s l Hne Hl Hd. destruct s as [|c s]; [congruence|].
    cbn [list_tasks tasks_in]. rewrite Hl.
    rewrite (tasks_in_listing_records Hd). cbn [bind_res].
    rewrite app_nil_r. reflexivity.
  - intros s Hne _ Hl. destruct s as [|c s]; [congruence|].
    cbn [list_tasks tasks_in]. rewrite Hl. reflexivity.
  - intros s l f c Hs Hl Hin Hmd Hd. cbn [list_tasks].
    apply (@tasks_in_raises statuses w s l f c MalformedRecord Hs Hl Hin Hmd
             Hd).
Qed.

(** The board with one task and, in the inbox, a file of notes that is
    no record *)
Definition board_with_memo : World :=
  after (write_file (lit "inbox") (lit "memo.md") (lit "# To do"))
    board_one_task.

Lemma list_tasks_scan_witness :
  list_tasks None board_three_tasks = Ok (map snd (scan_order board_three_tasks)) /\
  list_tasks (Some (lit "inbox")) board_one_task
  = Ok [new_task (lit "Add login") (lit "Implement OAuth") (lit "P2") []
          blank_board] /\
  list_tasks (Some (lit "archive")) board_one_task = Ok [] /\
  list_tasks None board_with_memo = Raise MalformedRecord.
Proof.
  destruct (list_tasks_scan board_three_tasks) as (A & _).
  destruct (list_tasks_scan board_one_task) as (_ & B & C & _).
  destruct (list_tasks_scan board_with_memo) as (_ & _ & _ & D).
  split; [|split; [|split]].
  - apply A. apply decodable_check_sound. vm_compute. reflexivity.
  - assert (Hl : exists l, listdir (lit "inbox") board_one_task = Some l)
      by (eexists; vm_compute; reflexivity).
    destruct Hl as [l Hl].
    rewrite (B (lit "inbox") l); [| discriminate | exact Hl |].
    + vm_compute in Hl. injection Hl as <-. vm_compute. reflexivity.
    + vm_compute in Hl. injection Hl as <-. intros f c [E|[]] _.
      injection E as <- <-. eexists. vm_compute. reflexivity.
  - apply C; [discriminate | reflexivity | reflexivity].
  - assert (Hl : exists l, listdir (lit "inbox") board_with_memo = Some l
                           /\ In (lit "memo.md", lit "# To do") l).
    { eexists. split; [vm_compute; reflexivity|]. right. left. reflexivity. }
    destruct Hl as (l & Hl & Hin).
    destruct (D (lit "inbox") l (lit "memo.md") (lit "# To do")
                (or_introl eq_refl) Hl Hin eq_refl eq_refl) as [e' He].
    rewrite He. vm_compute in He. symmetry. exact He.
Defined.

Lemma find_In (A : Type) (p : A -> bool) (l : list A) (x : A) :
  find p l = Some x -> In x l /\ p x = true.
Proof. apply find_some. Qed.

Lemma records_in_scan (w : World) (s : str) (l : listing) (r : str * Task) :
  In s statuses -> listdir s w = Some l -> In r (records l) ->
  In r (scan_order w).
Proof.
  intros Hs Hl Hr. unfold scan_order. apply in_flat_map.
  exists s. split; [exact Hs|]. rewrite Hl. exact Hr.
Qed.

(** X9.  When every [.md] file decodes, the task that [find_work]
    returns is one of the tasks that [list_tasks] lists, and it is
    assigned to the role, or its text mentions the role, or it has no
    assignee; on a board without records [find_work] returns nothing. *)
Theorem find_work_among_tasks (role : str) (w : World) :
  decodable w ->
  (forall t, find_work role w = Ok (Some t) ->
     exists all c,
       list_tasks None w = Ok all /\ In t all /\ In (c, t) (scan_order w) /\
       (mem role (assigned t) = true \/ occurs (lit "@" ++ role) c = true \/
        assigned t = [])) /\
  (scan_order w = [] -> find_work role w = Ok None).
Proof.
  intros Hd. pose proof (find_work_refines role Hd) as E.
  pose proof (list_tasks_all Hd) as L1.
  split.
  - intros t Ht. rewrite E in Ht. injection Ht as Ht.
    assert (G : exists c, In (c, t) (scan_order w) /\
                  (mem role (assigned t) = true \/
                   occurs (lit "@" ++ role) c = true \/ assigned t = [])).
    { unfold find_work_chain in Ht.
      destruct (find (is_assigned_to role) (scan_order w)) as [[c t']|] eqn:F1.
      - injection Ht as <-. apply find_In in F1 as [I1 P1].
        exists c. split; [exact I1|]. left. exact P1.
      - destruct (find (mentions role) (scan_order w)) as [[c t']|] eqn:F2.
        + injection Ht as <-. apply find_In in F2 as [I2 P2].
          exists c. split; [exact I2|]. right; left. exact P2.
        + destruct (role_status role) as [st|] eqn:R; [|discriminate].
          destruct (listdir st w) as [l|] eqn:Hl; [|discriminate].
          destruct (find unassigned (records l)) as [[c t']|] eqn:F3;
            [|discriminate].
          injection Ht as <-. apply find_In in F3 as [I3 P3].
          exists c. split.
          * destruct (role_status_valid _ R) as [_ Hs].
            apply (@records_in_scan w st l (c, t') Hs Hl I3).
          * right; right. unfold unassigned in P3. cbn [snd] in P3.
            destruct (assigned t'); [reflexivity | discriminate]. }
    destruct G as (c & Hin & Hwhy).
    exists (map snd (scan_order w)), c.
    split; [exact L1|]. split; [|split; [exact Hin | exact Hwhy]].
    apply (in_map snd _ _ Hin).
  - intros Hempty. rewrite E. unfold find_work_chain. rewrite Hempty.
    cbn [find].
    destruct (role_status role) as [st|] eqn:R; [|reflexivity].
    destruct (listdir st w) as [l|] eqn:Hl; [|reflexivity].
    destruct (records l) as [|r rs] eqn:Hr; [reflexivity|].
    destruct (role_status_valid _ R) as [_ Hs].
    assert (Hin : In r (scan_order w))
      by (apply (@records_in_scan w st l r Hs Hl); rewrite Hr; left; reflexivity).
    rewrite Hempty in Hin. destruct Hin.
Qed.

Lemma find_work_among_tasks_witness :
  find_work (lit "qa") blank_board = Ok None /\
  exists t all,
    find_work (lit "pm") board_three_tasks = Ok (Some t) /\
    list_tasks None board_three_tasks = Ok all /\ In t all.
Proof.
  assert (D0 : decodable blank_board)
    by (apply decodable_check_sound; vm_compute; reflexivity).
  assert (D3 : decodable board_three_tasks)
    by (apply decodable_check_sound; vm_compute; reflexivity).
  split.
  - apply (proj2 (find_work_among_tasks (lit "qa") D0)). reflexivity.
  - destruct (find_work (lit "pm") board_three_tasks) as [[t|]|e] eqn:E;
      [ | vm_compute in E; discriminate E | vm_compute in E; discriminate E ].
    destruct (proj1 (find_work_among_tasks (lit "pm") D3) t E)
      as (all & c & H1 & H2 & _).
    exists t, all. split; [reflexivity|]. split; [exact H1 | exact H2].
Defined.

(** ** [find_mentions] *)

Lemma occurs_prefix (p x s : str) :
  occurs (p ++ x) s = true -> occurs p s = true.
Proof.
  intros H. apply occurs_split in H as (a & b & H).
  apply split_first_spec in H. subst s. rewrite <- app_assoc.
  apply occurs_intro.
Qed.

(** X10.  When every [.md] file decodes, [find_mentions] returns, in
    scan order, the tasks whose file text holds [@] followed by the
    agent's name, anywhere and followed by anything: whatever mentions
    an agent whose name begins with the name asked for is returned as
    well, and every task returned is one that [list_tasks] lists. *)
Theorem find_mentions_by_text (agent : str) (w : World) :
  decodable w ->
  find_mentions agent w
  = Ok (map snd
          (filter (fun r => occurs (lit "@" ++ agent) (fst r)) (scan_order w))) /\
  (forall (longer : str) (t : Task) (found : list Task),
      find_mentions (agent ++ longer) w = Ok found -> In t found ->
      exists found', find_mentions agent w = Ok found' /\ In t found') /\
  (forall (t : Task) (found : list Task),
      find_mentions agent w = Ok found -> In t found ->
      exists all, list_tasks None w = Ok all /\ In t all).
Proof.
  intros Hd.
  assert (M : forall a,
             find_mentions a w
             = Ok (map snd (filter (mentions a) (scan_order w)))).
  { intros a. unfold find_mentions. apply mentions_in_records.
    intros s l Hs Hl. apply (decodable_listing Hd Hs Hl). }
  split; [apply M|]. split.
  - intros longer t found Hf Hin. rewrite M in Hf. injection Hf as <-.
    exists (map snd (filter (mentions agent) (scan_order w))).
    split; [apply M|].
    apply in_map_iff in Hin as (r & <- & Hr).
    apply filter_In in Hr as [Hr1 Hr2].
    apply in_map. apply filter_In. split; [exact Hr1|].
    unfold mentions in *. rewrite app_assoc in Hr2.
    apply (occurs_prefix _ _ _ Hr2).
  - intros t found Hf Hin. rewrite M in Hf. injection Hf as <-.
    exists (map snd (scan_order w)). split; [exact (list_tasks_all Hd)|].
    apply in_map_iff in Hin as (r & <- & Hr).
    apply filter_In in Hr as [Hr1 _]. apply in_map. exact Hr1.
Qed.

(** A board of two tasks; the description of the second one mentions
    the agent [pm-lead]. *)
Definition board_mentioning : World :=
  after (create_task (lit "Plan the release")
           (lit "ask @pm-lead about the date") (lit "P1") [])
    board_one_task.

Lemma find_mentions_by_text_witness :
  let mentioned :=
    new_task (lit "Plan the release") (lit "ask @pm-lead about the date")
      (lit "P1") [] board_one_task in
  find_mentions (lit "pm") board_mentioning = Ok [mentioned] /\
  find_mentions (lit "pm-lead") board_mentioning = Ok [mentioned] /\
  find_mentions (lit "qa") board_mentioning = Ok [] /\
  (exists found, find_mentions (lit "pm") board_mentioning = Ok found /\
                 In mentioned found) /\
  (exists all, list_tasks None board_mentioning = Ok all /\
               In mentioned all /\ length all = 2).
Proof.
  cbv zeta.
  assert (D : decodable board_mentioning)
    by (apply decodable_check_sound; vm_compute; reflexivity).
  destruct (find_mentions_by_text (lit "pm") D) as (A & B & C).
  destruct (find_mentions_by_text (lit "pm-lead") D) as (A' & _).
  destruct (find_mentions_by_text (lit "qa") D) as (A'' & _).
  assert (E : find_mentions (lit "pm") board_mentioning
              = Ok [new_task (lit "Plan the release")
                      (lit "ask @pm-lead about the date") (lit "P1") []
                      board_one_task])
    by (rewrite A; vm_compute; reflexivity).
  assert (E' : find_mentions (lit "pm" ++ lit "-lead") board_mentioning
               = Ok [new_task (lit "Plan the release")
                       (lit "ask @pm-lead about the date") (lit "P1") []
                       board_one_task])
    by (change (lit "pm" ++ lit "-lead") with (lit "pm-lead");
        rewrite A'; vm_compute; reflexivity).
  split; [exact E|]. split; [exact E'|].
  split; [rewrite A''; vm_compute; reflexivity|].
  split.
  - apply (B (lit "-lead") _ _ E'). left. reflexivity.
  - destruct (C _ _ E (or_introl eq_refl)) as (all & Hall & Hin).
    exists all. split; [exact Hall|]. split; [exact Hin|].
    vm_compute in Hall. injection Hall as <-. reflexivity.
Defined.

(** * Part V. The activity log and the standup *)

(** ** Lines of the log *)

(** A text made of whole lines: it is empty or ends with a line break. *)
Definition whole_lines (s : str) : Prop := s = [] \/ exists l, s = l ++ [nl].

Lemma whole_lines_cons (c : ascii) (s : str) :
  whole_lines (c :: s) -> (c = nl /\ s = []) \/ exists l, s = l ++ [nl].
Proof.
  intros [H | [l H]]; [discriminate|].
  destruct l as [|d l]; cbn [app] in H; injection H as -> ->.
  - left. split; reflexivity.
  - right. exists l. reflexivity.
Qed.

Lemma whole_lines_snoc (s : str) : whole_lines (s ++ [nl]).
Proof. right. exists s. reflexivity. Qed.

Lemma whole_lines_app (s x : str) : whole_lines (s ++ x ++ [nl]).
Proof. right. exists (s ++ x). rewrite app_assoc. reflexivity. Qed.

Lemma readlines_nonempty (c : ascii) (s : str) : readlines (c :: s) <> [].
Proof.
  cbn [readlines]. destruct (Ascii.eqb c nl); [discriminate|].
  destruct (readlines s); discriminate.
Qed.

Lemma readlines_concat (s : str) : concat (readlines s) = s.
Proof.
  induction s as [|c s IH]; [reflexivity|]. cbn [readlines].
  destruct (Ascii.eqb c nl) eqn:E.
  - apply Ascii.eqb_eq in E. subst c. cbn [concat app]. rewrite IH. reflexivity.
  - destruct (readlines s) as [|l ls]; cbn [concat app] in *; rewrite <- IH;
      reflexivity.
Qed.

Lemma readlines_app (a b : str) :
  whole_lines a -> readlines (a ++ b) = readlines a ++ readlines b.
Proof.
  induction a as [|c a IH]; intros H; [reflexivity|].
  apply whole_lines_cons in H as [[-> ->] | [l Hl]].
  - reflexivity.
  - assert (Ha : whole_lines a) by (right; exists l; exact Hl).
    specialize (IH Ha). cbn [app readlines]. rewrite IH.
    destruct (Ascii.eqb c nl); [reflexivity|].
    destruct a as [|d a]; [destruct l; discriminate Hl|].
    pose proof (@readlines_nonempty d a) as N.
    destruct (readlines (d :: a)) as [|x xs]; [congruence | reflexivity].
Qed.

Lemma readlines_single (s : str) :
  single_line s = true -> readlines (s ++ [nl]) = [s ++ [nl]].
Proof.
  induction s as [|c s IH]; intros H; [reflexivity|].
  cbn [single_line forallb] in H. apply andb_true_iff in H as [Hc Hs].
  cbn [app readlines]. rewrite (IH Hs).
  unfold not_nl in Hc. apply negb_true_iff in Hc. rewrite Hc. reflexivity.
Qed.

(** ** [lines[-n:]] *)

Lemma last_n_one (A : Type) (l : list A) (x : A) : last_n 1 (l ++ [x]) = [x].
Proof.
  unfold last_n. cbn [Z.ltb Z.compare]. rewrite length_app. cbn [length].
  replace (length l + 1 - Z.to_nat 1) with (length l) by lia.
  rewrite skipn_app, skipn_all, Nat.sub_diag. reflexivity.
Qed.

Lemma last_n_snoc (A : Type) (n : Z) (l : list A) (x : A) :
  (0 < n)%Z -> last_n (n + 1) (l ++ [x]) = last_n n l ++ [x].
Proof.
  intros Hn. unfold last_n.
  destruct (Z.ltb_spec 0 n) as [_|]; [|lia].
  destruct (Z.ltb_spec 0 (n + 1)) as [_|]; [|lia].
  rewrite length_app. cbn [length].
  replace (length l + 1 - Z.to_nat (n + 1)) with (length l - Z.to_nat n) by lia.
  rewrite skipn_app.
  replace (length l - Z.to_nat n - length l) with 0 by lia. reflexivity.
Qed.

Lemma last_n_suffix (A : Type) (n : Z) (l : list A) :
  exists older, l = older ++ last_n n l.
Proof.
  unfold last_n. destruct (0 <? n)%Z; eexists; symmetry; apply firstn_skipn.
Qed.

Lemma last_n_length (A : Type) (n : Z) (l : list A) :
  (0 < n)%Z -> length (last_n n l) = Nat.min (Z.to_nat n) (length l).
Proof.
  intros Hn. unfold last_n. destruct (Z.ltb_spec 0 n) as [_|]; [|lia].
  rewrite length_skipn. lia.
Qed.

(** ** [ActivityLogger.log] and the readers *)

(** The line that [log] and [log_activity] write *)
Definition log_line (stamp agent message : str) : str :=
  stamp ++ lit " | " ++ agent ++ lit " | " ++ message ++ [nl].

Lemma log_line_single (d : datetime) (agent message : str) :
  single_line agent = true -> single_line message = true ->
  single_line (isoformat d ++ lit " | " ++ agent ++ lit " | " ++ message) = true.
Proof.
  intros Ha Hm. destruct (isoformat_clean d) as [Hd _].
  rewrite !single_line_app, Hd, Ha, Hm. reflexivity.
Qed.

Lemma log_lines (agent message : str) (w : World) :
  single_line agent = true -> single_line message = true ->
  whole_lines (activity_log w) ->
  readlines (activity_log (snd (log agent message w)))
  = readlines (activity_log w)
    ++ [log_line (isoformat (clock w (ticks w))) agent message].
Proof.
  intros Ha Hm Hw. unfold log, now, bind, set_activity_log.
  cbn [snd fst activity_log clock ticks].
  rewrite (@readlines_app (activity_log w) _ Hw). f_equal.
  pose proof (@readlines_single _ (@log_line_single (clock w (ticks w)) agent message Ha Hm)) as R.
  unfold log_line. revert R. norm_app. intros R. exact R.
Qed.

(** X11.  [ActivityLogger.log] and [TaskManager.log_activity] write the
    same text.  When the log is made of whole lines and neither the
    agent nor the message holds a line break or a carriage return, the
    call adds one line behind the lines of the log, the log is again
    made of whole lines, [recent(1)] and [by_agent(agent, 1)] return
    this line, and for a positive [n], [recent(n + 1)] returns what
    [recent(n)] returned before, followed by it. *)
Theorem log_then_recent (agent message : str) (w : World) :
  single_line agent = true -> single_line message = true ->
  no_cr agent = true -> no_cr message = true ->
  whole_lines (activity_log w) ->
  let line := log_line (isoformat (clock w (ticks w))) agent message in
  let w' := snd (log agent message w) in
  log_activity agent message w = log agent message w /\
  readlines (activity_log w') = readlines (activity_log w) ++ [line] /\
  whole_lines (activity_log w') /\
  recent 1 w' = [line] /\
  by_agent agent 1 w' = [line] /\
  (forall n, (0 < n)%Z -> recent (n + 1) w' = recent n w ++ [line]).
Proof.
  intros Ha Hm _ _ Hw line w'.
  pose proof (@log_lines agent message w Ha Hm Hw) as L. fold line w' in L.
  split; [reflexivity|]. split; [exact L|]. split; [|split; [|split]].
  - subst w'. unfold log, now, bind, set_activity_log.
    cbn [snd fst activity_log]. right.
    eexists (activity_log w ++ isoformat _ ++ lit " | " ++ agent ++ lit " | "
             ++ message).
    norm_app. reflexivity.
  - unfold recent. rewrite L. apply last_n_one.
  - unfold by_agent. rewrite L, filter_app. cbn [filter].
    assert (E : occurs (lit " | " ++ agent ++ lit " | ") line = true).
    { subst line. unfold log_line.
      replace (isoformat (clock w (ticks w)) ++ lit " | " ++ agent ++ lit " | "
               ++ message ++ [nl])
        with (isoformat (clock w (ticks w)) ++
              (lit " | " ++ agent ++ lit " | ") ++ message ++ [nl])
        by (norm_app; reflexivity).
      apply occurs_intro. }
    rewrite E. apply last_n_one.
  - intros n Hn. unfold recent. rewrite L. apply (@last_n_snoc str n _ line Hn).
Qed.

Lemma log_then_recent_witness :
  let w := snd (log (lit "pm") (lit "Planned the sprint") blank_board) in
  let w' := snd (log (lit "qa") (lit "Ran the suite") w) in
  recent 1 w' = [lit "2026-02-02T14:30:01 | qa | Ran the suite" ++ [nl]] /\
  recent 2 w'
  = [lit "2026-02-02T14:30:00 | pm | Planned the sprint" ++ [nl];
     lit "2026-02-02T14:30:01 | qa | Ran the suite" ++ [nl]] /\
  by_agent (lit "qa") 1 w'
  = [lit "2026-02-02T14:30:01 | qa | Ran the suite" ++ [nl]].
Proof.
  cbv zeta.
  set (w := snd (log (lit "pm") (lit "Planned the sprint") blank_board)).
  assert (H3 : whole_lines (activity_log w)).
  { destruct (@log_then_recent (lit "pm") (lit "Planned the sprint")
                blank_board eq_refl eq_refl eq_refl eq_refl
                (or_introl eq_refl)) as (_ & _ & H & _).
    exact H. }
  destruct (@log_then_recent (lit "qa") (lit "Ran the suite") w
              eq_refl eq_refl eq_refl eq_refl H3) as (_ & _ & _ & R & B & N).
  split; [rewrite R; vm_compute; reflexivity|].
  split; [|rewrite B; vm_compute; reflexivity].
  change 2%Z with (1 + 1)%Z. rewrite (N 1%Z eq_refl).
  vm_compute. reflexivity.
Defined.

(** X12.  [readlines] loses no text.  For a positive [n], [recent(n)]
    returns the last [n] lines, all of them when there are fewer;
    [recent(0)] returns every line, not none; [by_agent] returns, in
    log order, lines of the log that hold the agent's name between two
    separators, at most [n] of them for a positive [n]. *)
Theorem recent_window (n : Z) (agent : str) (w : World) :
  let lines := readlines (activity_log w) in
  concat lines = activity_log w /\
  ((0 < n)%Z ->
   length (recent n w) = Nat.min (Z.to_nat n) (length lines) /\
   length (by_agent agent n w) <= Z.to_nat n) /\
  (exists older, lines = older ++ recent n w) /\
  recent 0 w = lines /\
  (forall line, In line (by_agent agent n w) ->
     In line lines /\ occurs (lit " | " ++ agent ++ lit " | ") line = true).
Proof.
  intros lines. split; [apply readlines_concat|].
  split; [|split; [|split]].
  - intros Hn. split; [apply (@last_n_length str n _ Hn)|].
    unfold by_agent. rewrite (@last_n_length str n _ Hn). lia.
  - apply last_n_suffix.
  - reflexivity.
  - intros line Hin. unfold by_agent in Hin.
    destruct (last_n_suffix n
                (filter (fun line => occurs (lit " | " ++ agent ++ lit " | ") line)
                   (readlines (activity_log w)))) as [older E].
    assert (Hin' : In line
                     (filter (fun line =>
                                occurs (lit " | " ++ agent ++ lit " | ") line)
                        (readlines (activity_log w))))
      by (rewrite E; apply in_or_app; right; exact Hin).
    apply filter_In in Hin'. exact Hin'.
Qed.

Lemma recent_window_witness :
  length (recent 2 board_three_tasks) = 2 /\
  length (recent 0 board_three_tasks) = 3.
Proof.
  destruct (recent_window 2 (lit "pm") board_three_tasks) as (_ & A & _ & B & _).
  split.
  - rewrite (proj1 (A ltac:(lia))). vm_compute. reflexivity.
  - destruct (recent_window 0 (lit "pm") board_three_tasks) as (_ & _ & _ & C & _).
    rewrite C. vm_compute. reflexivity.
Defined.

(** ** [ActivityLogger.search] *)

Lemma lower_char_idem (c : ascii) : lower_char (lower_char c) = lower_char c.
Proof.
  destruct c as [[] [] [] [] [] [] [] []]; reflexivity.
Qed.

Lemma lower_idem (s : str) : lower (lower s) = lower s.
Proof.
  unfold lower. rewrite map_map. apply map_ext. apply lower_char_idem.
Qed.

Lemma occurs_map (f : ascii -> ascii) (p s : str) :
  occurs p s = true -> occurs (map f p) (map f s) = true.
Proof.
  intros H. apply occurs_split in H as (a & b & H).
  apply split_first_spec in H. subst s. rewrite !map_app.
  apply occurs_intro.
Qed.

Lemma occurs_empty (s : str) : occurs [] s = true.
Proof. unfold occurs. destruct s; reflexivity. Qed.

(** X13.  On a log and for a query of characters below code point 256
    (Latin-1, the texts of this embedding), where [str.lower] works
    character by character: [search] ignores case, the query in lower
    case finds the same lines, and a line of the log that holds a text
    equal to the query up to case is found.  The empty query finds
    every line, and nothing is found that is no line of the log. *)
Theorem search_ignores_case (query : str) (w : World) :
  search (lower query) w = search query w /\
  (forall line text : str,
      In line (readlines (activity_log w)) ->
      lower text = lower query -> occurs text line = true ->
      In line (search query w)) /\
  search [] w = readlines (activity_log w) /\
  (forall line, In line (search query w) ->
     In line (readlines (activity_log w))).
Proof.
  split; [|split; [|split]].
  - unfold search. rewrite lower_idem. reflexivity.
  - intros line text Hin He Ho. unfold search. apply filter_In.
    split; [exact Hin|]. rewrite <- He. apply (@occurs_map lower_char text line Ho).
  - unfold search. cbn [lower map].
    induction (readlines (activity_log w)) as [|l ls IH]; [reflexivity|].
    cbn [filter]. rewrite occurs_empty, IH. reflexivity.
  - intros line Hin. unfold search in Hin. apply filter_In in Hin as [H _].
    exact H.
Qed.

Lemma search_ignores_case_witness :
  In (lit "2026-02-02T14:30:00 | qa | Ran the Suite" ++ [nl])
    (search (lit "SUITE")
       (snd (log (lit "qa") (lit "Ran the Suite") blank_board))).
Proof.
  destruct (search_ignores_case (lit "SUITE")
              (snd (log (lit "qa") (lit "Ran the Suite") blank_board)))
    as (_ & F & _).
  apply (F _ (lit "Suite")).
  - vm_compute. left. reflexivity.
  - reflexivity.
  - reflexivity.
Defined.

(** ** The sections of the standup *)

(** The tests of the four selections *)
Definition is_completed (date : str) (t : Task) : bool :=
  str_eqb (status t) (lit "deployed") && str_eqb (firstn 10 (updated t)) date.

Definition is_in_progress (t : Task) : bool :=
  mem (status t)
    [lit "in-progress"; lit "in-qa"; lit "in-discovery"; lit "in-planning"].

Definition is_blocked (t : Task) : bool := str_eqb (status t) (lit "blocked").

Definition is_needs_review (t : Task) : bool :=
  str_eqb (status t) (lit "ready-to-deploy").

Definition sections_of (date : str) (t : Task) : nat :=
  (if is_completed date t then 1 else 0) + (if is_in_progress t then 1 else 0)
  + (if is_blocked t then 1 else 0) + (if is_needs_review t then 1 else 0).

Lemma sections_of_le (date : str) (t : Task) : sections_of date t <= 1.
Proof.
  unfold sections_of, is_completed, is_in_progress, is_blocked,
    is_needs_review.
  destruct (str_eqb (status t) (lit "deployed")) eqn:E1.
  { apply str_eqb_eq in E1. rewrite E1.
    destruct (str_eqb (firstn 10 (updated t)) date); cbn; lia. }
  destruct (str_eqb (status t) (lit "blocked")) eqn:E2.
  { apply str_eqb_eq in E2. rewrite E2. cbn. lia. }
  destruct (str_eqb (status t) (lit "ready-to-deploy")) eqn:E3.
  { apply str_eqb_eq in E3. rewrite E3. cbn. lia. }
  cbn [andb]. destruct (mem (status t) _); cbn; lia.
Qed.

Lemma sections_length (date : str) (tasks : list Task) :
  length (_completed_today tasks date) + length (_in_progress tasks)
  + length (_blocked tasks) + length (_needs_review tasks)
  = list_sum (map (sections_of date) tasks).
Proof.
  unfold _completed_today, _in_progress, _blocked, _needs_review.
  induction tasks as [|t ts IH]; [reflexivity|].
  cbn [map]. change (list_sum (sections_of date t :: map (sections_of date) ts))
    with (sections_of date t + list_sum (map (sections_of date) ts)).
  rewrite <- IH. cbn [filter].
  unfold sections_of, is_completed, is_in_progress, is_blocked,
    is_needs_review.
  destruct (str_eqb (status t) (lit "deployed")
            && str_eqb (firstn 10 (updated t)) date);
    destruct (mem (status t) _);
    destruct (str_eqb (status t) (lit "blocked"));
    destruct (str_eqb (status t) (lit "ready-to-deploy"));
    cbn [length]; lia.
Qed.

Lemma list_sum_le (A : Type) (f : A -> nat) (l : list A) :
  (forall x, f x <= 1) -> list_sum (map f l) <= length l.
Proof.
  intros H. induction l as [|x l IH]; [apply Nat.le_refl|].
  cbn [map length].
  change (list_sum (f x :: map f l)) with (f x + list_sum (map f l)).
  specialize (H x). lia.
Qed.

(** X14.  The four selections of the standup report are disjoint: a
    task of the list is reported in at most one of them, so that the
    four lists together are no longer than the list of tasks.  A task
    whose status is [inbox], [ready-to-build] or [ready-for-testing],
    or one that was deployed on another day, is reported in none. *)
Theorem standup_sections_disjoint (tasks : list Task) (date : str) :
  length (_completed_today tasks date) + length (_in_progress tasks)
  + length (_blocked tasks) + length (_needs_review tasks) <= length tasks /\
  (forall t,
      (In t (_completed_today tasks date) ->
       ~ In t (_in_progress tasks) /\ ~ In t (_blocked tasks) /\
       ~ In t (_needs_review tasks)) /\
      (In t (_in_progress tasks) ->
       ~ In t (_blocked tasks) /\ ~ In t (_needs_review tasks)) /\
      (In t (_blocked tasks) -> ~ In t (_needs_review tasks)) /\
      (In (status t)
          [lit "inbox"; lit "ready-to-build"; lit "ready-for-testing"] \/
       (status t = lit "deployed" /\ firstn 10 (updated t) <> date) ->
       ~ In t (_completed_today tasks date) /\ ~ In t (_in_progress tasks) /\
       ~ In t (_blocked tasks) /\ ~ In t (_needs_review tasks))).
Proof.
  split.
  - rewrite sections_length. apply list_sum_le. apply sections_of_le.
  - intros t.
    assert (C : In t (_completed_today tasks date) ->
                status t = lit "deployed" /\ firstn 10 (updated t) = date).
    { intros H. apply filter_In in H as [_ H].
      apply andb_true_iff in H as [H1 H2].
      apply str_eqb_eq in H1, H2. split; assumption. }
    assert (P : In t (_in_progress tasks) ->
                In (status t)
                  [lit "in-progress"; lit "in-qa"; lit "in-discovery";
                   lit "in-planning"]).
    { intros H. apply filter_In in H as [_ H]. apply (proj1 (mem_In _ _) H). }
    assert (B : In t (_blocked tasks) -> status t = lit "blocked").
    { intros H. apply filter_In in H as [_ H]. apply str_eqb_eq in H. exact H. }
    assert (R : In t (_needs_review tasks) -> status t = lit "ready-to-deploy").
    { intros H. apply filter_In in H as [_ H]. apply str_eqb_eq in H. exact H. }
    split; [|split; [|split]].
    + intros H. destruct (C H) as [E _].
      split; [|split]; intros H'.
      * apply P in H'. rewrite E in H'.
        repeat (destruct H' as [H' | H']; [discriminate H'|]). destruct H'.
      * apply B in H'. rewrite E in H'. discriminate H'.
      * apply R in H'. rewrite E in H'. discriminate H'.
    + intros H. apply P in H. split; intros H'.
      * apply B in H'. rewrite H' in H.
        repeat (destruct H as [H | H]; [discriminate H|]). destruct H.
      * apply R in H'. rewrite H' in H.
        repeat (destruct H as [H | H]; [discriminate H|]). destruct H.
    + intros H H'. apply B in H. apply R in H'. rewrite H in H'.
      discriminate H'.
    + intros [H | [H1 H2]].
      * split; [|split; [|split]]; intros H'.
        -- apply C in H' as [E _]. rewrite E in H.
           repeat (destruct H as [H | H]; [discriminate H|]). destruct H.
        -- apply P in H'.
           repeat (destruct H as [H | H];
                   [rewrite <- H in H';
                    repeat (destruct H' as [H' | H']; [discriminate H'|]);
                    destruct H'|]).
           destruct H.
        -- apply B in H'. rewrite H' in H.
           repeat (destruct H as [H | H]; [discriminate H|]). destruct H.
        -- apply R in H'. rewrite H' in H.
           repeat (destruct H as [H | H]; [discriminate H|]). destruct H.
      * split; [|split; [|split]]; intros H'.
        -- apply C in H' as [_ E]. contradiction.
        -- apply P in H'. rewrite H1 in H'.
           repeat (destruct H' as [H' | H']; [discriminate H'|]). destruct H'.
        -- apply B in H'. rewrite H1 in H'. discriminate H'.
        -- apply R in H'. rewrite H1 in H'. discriminate H'.
Qed.

Lemma standup_sections_disjoint_witness :
  ~ In (with_status sample_task (lit "inbox"))
      (_in_progress [sample_task; with_status sample_task (lit "inbox")]).
Proof.
  destruct (standup_sections_disjoint
              [sample_task; with_status sample_task (lit "inbox")]
              (lit "2026-02-02")) as [_ H].
  destruct (H (with_status sample_task (lit "inbox"))) as (_ & _ & _ & N).
  apply N. left. left. reflexivity.
Defined.

(** ** [_key_activities] over a line that [log_activity] wrote *)







Lemma isoformat_head (d : datetime) :
  exists c r, isoformat d = c :: r /\ isspace c = false.
Proof.
  destruct (isoformat_clean d) as (_ & Hs & _).
  apply strip_fix in Hs as [Hl _].
  destruct (isoformat d) as [|c r] eqn:E.
  - exfalso. unfold isoformat in E. apply app_eq_nil in E as [E _].
    apply (zfill_nonempty _ _ E).
  - exists c, r. split; [reflexivity|]. apply (lstrip_fix_head Hl).
Qed.






(** * Part VI. Further properties of the notification ledger *)

(** ** The searches of [get_notifications] *)

Lemma span_stop (f : ascii -> bool) (x : str) (c : ascii) (r : str) :
  forallb f x = true -> f c = false -> span f (x ++ c :: r) = (x, c :: r).
Proof.
  intros Hx Hc. induction x as [|d x IH]; cbn [app span].
  - rewrite Hc. reflexivity.
  - cbn [forallb] in Hx. apply andb_true_iff in Hx as [Hd Hx].
    rewrite Hd, (IH Hx). reflexivity.
Qed.

Lemma search_field_clear (label : str) (f : ascii -> bool) (a rest : str) :
  clear_before label a rest ->
  search_field label f (a ++ rest) = search_field label f rest.
Proof.
  induction a as [|c a IH]; [reflexivity|].
  intros [H1 H2]. cbn [app search_field]. cbn [app] in H1. rewrite H1.
  apply IH. exact H2.
Qed.

Lemma search_field_head (label : str) (f : ascii -> bool) (c : ascii)
  (s : str) :
  label <> [] -> f c = true ->
  search_field label f (label ++ c :: s)
  = Some (fst (span f (c :: s))).
Proof.
  intros Hl Hc. destruct label as [|d label]; [congruence|].
  cbn [app search_field].
  change (d :: label ++ c :: s) with ((d :: label) ++ c :: s).
  rewrite startswith_app.
  replace (skipn (length (d :: label)) ((d :: label) ++ c :: s))
    with (c :: s)
    by (rewrite skipn_app, skipn_all, Nat.sub_diag; reflexivity).
  cbn [span]. rewrite Hc. destruct (span f s). reflexivity.
Qed.

(** A line without the label is passed over. *)
Lemma search_field_skip_line (label : str) (f : ascii -> bool)
  (line rest : str) :
  single_line label = true -> label <> [] -> occurs label line = false ->
  search_field label f (line ++ nl :: rest) = search_field label f rest.
Proof.
  intros Hs Hl Ho.
  change (line ++ nl :: rest) with (line ++ [nl] ++ rest).
  rewrite app_assoc. apply search_field_clear.
  apply clear_before_app. split.
  - pose proof (@clear_before_line_pattern label [] line rest Hs Ho) as C.
    rewrite app_nil_r in C. exact C.
  - split; [|exact I]. destruct label as [|d label]; [congruence|].
    cbn [single_line forallb] in Hs. apply andb_true_iff in Hs as [Hd _].
    unfold not_nl in Hd. apply negb_true_iff in Hd.
    cbn [app startswith]. rewrite Hd. reflexivity.
Qed.

Definition blank_lines (s : str) : bool := forallb (Ascii.eqb nl) s.

Lemma search_field_blank (label : str) (f : ascii -> bool) (s : str) :
  single_line label = true -> label <> [] -> blank_lines s = true ->
  search_field label f s = None.
Proof.
  intros Hs Hl. destruct label as [|d label]; [congruence|].
  cbn [single_line forallb] in Hs. apply andb_true_iff in Hs as [Hd _].
  unfold not_nl in Hd. apply negb_true_iff in Hd.
  induction s as [|c s IH]; [reflexivity|].
  intros H. unfold blank_lines in H. cbn [forallb] in H.
  apply andb_true_iff in H as [Hc H]. apply Ascii.eqb_eq in Hc. subst c.
  cbn [search_field startswith]. rewrite Hd. cbn [andb]. apply IH. exact H.
Qed.

(** A text that lacks a character of the label does not hold the label. *)
Lemma occurs_needs_char (c0 : ascii) (label s : str) :
  existsb (Ascii.eqb c0) label = true ->
  forallb (fun c => negb (Ascii.eqb c c0)) s = true ->
  occurs label s = false.
Proof.
  intros Hl Hs. destruct (occurs label s) eqn:E; [|reflexivity].
  apply occurs_split in E as (a & b & E). apply split_first_spec in E.
  subst s. rewrite !forallb_app in Hs.
  apply andb_true_iff in Hs as [_ Hs]. apply andb_true_iff in Hs as [Hs _].
  apply existsb_exists in Hl as (c & Hin & Hc). apply Ascii.eqb_eq in Hc.
  subst c. rewrite forallb_forall in Hs. specialize (Hs c0 Hin).
  rewrite Ascii.eqb_refl in Hs. discriminate Hs.
Qed.

Lemma occurs_behind (label head x : str) :
  clear_before label head x -> occurs label x = false ->
  occurs label (head ++ x) = false.
Proof. intros C H. rewrite (@clear_occurs label head x C). exact H. Qed.

(** ** The search for the task id *)

Definition no_open (s : str) : bool :=
  forallb (fun c => negb (Ascii.eqb c "("%char)) s.

Definition no_close (s : str) : bool :=
  forallb (fun c => negb (Ascii.eqb c ")"%char)) s.

Lemma search_parens_clear (a rest : str) :
  no_open a = true -> search_parens (a ++ rest) = search_parens rest.
Proof.
  induction a as [|c a IH]; [reflexivity|].
  intros H. unfold no_open in H. cbn [forallb] in H.
  apply andb_true_iff in H as [Hc Ha]. apply negb_true_iff in Hc.
  cbn [app search_parens]. rewrite Hc. apply IH. exact Ha.
Qed.

Lemma search_parens_none (s : str) :
  no_open s = true -> search_parens s = None.
Proof.
  intros H. rewrite <- (app_nil_r s). rewrite (@search_parens_clear s [] H).
  reflexivity.
Qed.

Lemma search_parens_head (c : ascii) (x r : str) :
  no_close (c :: x) = true ->
  search_parens ("("%char :: (c :: x) ++ ")"%char :: r) = Some (c :: x).
Proof.
  intros H. cbn [search_parens]. cbn [Ascii.eqb Bool.eqb andb].
  change (if (Ascii.eqb "(" "(")%char then
            let (run, rest) :=
              span (fun c0 => negb (Ascii.eqb c0 ")"%char))
                ((c :: x) ++ ")"%char :: r) in
            match run, rest with
            | _ :: _, _ :: _ => Some run
            | _, _ => search_parens ((c :: x) ++ ")"%char :: r)
            end
          else search_parens ((c :: x) ++ ")"%char :: r))
    with (let (run, rest) :=
            span (fun c0 => negb (Ascii.eqb c0 ")"%char))
              ((c :: x) ++ ")"%char :: r) in
          match run, rest with
          | _ :: _, _ :: _ => Some run
          | _, _ => search_parens ((c :: x) ++ ")"%char :: r)
          end).
  rewrite (@span_stop _ (c :: x) ")"%char r H eq_refl). reflexivity.
Qed.

(** ** White space at the ends *)

Lemma strip_snoc (s : str) (c : ascii) :
  isspace c = true -> strip (s ++ [c]) = strip s.
Proof.
  intros Hc. induction s as [|d s IH].
  - unfold strip. cbn [app lstrip]. rewrite Hc. reflexivity.
  - destruct (isspace d) eqn:Hd.
    + cbn [app].
      rewrite (@strip_cons_space d (s ++ [c]) Hd), (@strip_cons_space d s Hd).
      exact IH.
    + unfold strip. cbn [app lstrip]. rewrite Hd.
      change (d :: s ++ [c]) with ((d :: s) ++ [c]).
      apply rstrip_snoc_space. exact Hc.
Qed.

Lemma iso_char_not_space (c : ascii) : iso_char c = true -> isspace c = false.
Proof.
  destruct c as [[] [] [] [] [] [] [] []]; try reflexivity; discriminate.
Qed.

Lemma strip_no_space (s : str) :
  forallb (fun c => negb (isspace c)) s = true -> strip s = s.
Proof.
  intros H. apply strip_fix. split; [|apply rstrip_no_space; exact H].
  destruct s as [|c s]; [reflexivity|]. cbn [forallb] in H.
  apply andb_true_iff in H as [Hc _]. apply negb_true_iff in Hc.
  cbn [lstrip]. rewrite Hc. reflexivity.
Qed.

Lemma stamp_stripped (d : datetime) (n : nat) :
  strip (firstn n (isoformat d)) = firstn n (isoformat d).
Proof.
  apply strip_no_space. apply forallb_firstn.
  apply (forallb_impl iso_char _ _
           (fun c H => proj2 (negb_true_iff _) (iso_char_not_space c H))
           (isoformat_chars d)).
Qed.

(** ** The text of an entry and what is read back from it *)

(** Characters of a name: no line break, carriage return, [#],
    parenthesis or colon. *)
Definition plain_char (c : ascii) : bool :=
  negb (existsb (Ascii.eqb c) [nl; cr; "#"; "("; ")"; ":"]%char).

Definition plain (s : str) : bool := forallb plain_char s.

Definition plain_opt (o : option str) : bool :=
  match o with Some s => plain s | None => true end.

(** Characters of a message or a link: a colon is allowed. *)
Definition text_char (c : ascii) : bool :=
  negb (existsb (Ascii.eqb c) [nl; cr; "#"; "("; ")"]%char).

Definition text_opt (o : option str) : bool :=
  match o with Some s => forallb text_char s | None => true end.

(** A message that is read back as written: one non-empty line without
    carriage return, [#] and parentheses, in which the labels of the
    later fields do not occur. *)
Definition message_ok (m : str) : Prop :=
  m <> [] /\ forallb text_char m = true /\
  occurs (lit "Time: ") m = false /\ occurs (lit "Link: ") m = false.

Definition task_part (task_id : option str) : str :=
  match task_id with
  | Some (c :: s) => lit " (" ++ c :: s ++ lit ")"
  | _ => []
  end.

Definition link_part (link : option str) : str :=
  match link with
  | Some (c :: s) => lit "Link: " ++ c :: s
  | _ => []
  end.

(** The four lines [add_notification] writes behind the header of an
    entry; a blank line follows them. *)
Definition entry_lines (from_agent message stamp : str)
  (task_id link : option str) : str :=
  lit "From: " ++ from_agent ++ task_part task_id ++ [nl] ++
  lit "Message: " ++ message ++ [nl] ++
  lit "Time: " ++ stamp ++ [nl] ++
  link_part link ++ [nl].

(** The dict [get_notifications] builds from such an entry *)
Definition read_back (from_agent message stamp : str)
  (task_id link : option str) : Notification :=
  mkNotification
    (Some (strip from_agent))
    (match task_id with Some (c :: s) => Some (c :: s) | _ => None end)
    (Some (strip message))
    (Some stamp)
    (match link with Some (c :: s) => Some (strip (c :: s)) | _ => None end).

Lemma plain_text_char (c : ascii) : plain_char c = true -> text_char c = true.
Proof. destruct c as [[] [] [] [] [] [] [] []]; try reflexivity; discriminate. Qed.

Lemma text_char_not_nl (c : ascii) : text_char c = true -> not_nl c = true.
Proof. destruct c as [[] [] [] [] [] [] [] []]; try reflexivity; discriminate. Qed.

Lemma text_char_no_hash (c : ascii) :
  text_char c = true -> negb (Ascii.eqb c "#"%char) = true.
Proof. destruct c as [[] [] [] [] [] [] [] []]; try reflexivity; discriminate. Qed.

Lemma text_char_no_open (c : ascii) :
  text_char c = true -> negb (Ascii.eqb c "("%char) = true.
Proof. destruct c as [[] [] [] [] [] [] [] []]; try reflexivity; discriminate. Qed.

Lemma text_char_no_close (c : ascii) :
  text_char c = true -> negb (Ascii.eqb c ")"%char) = true.
Proof. destruct c as [[] [] [] [] [] [] [] []]; try reflexivity; discriminate. Qed.

Lemma plain_char_no_colon (c : ascii) :
  plain_char c = true -> negb (Ascii.eqb c ":"%char) = true.
Proof. destruct c as [[] [] [] [] [] [] [] []]; try reflexivity; discriminate. Qed.

Lemma text_char_from_class (c : ascii) :
  text_char c = true -> not_nl c && negb (Ascii.eqb c "("%char) = true.
Proof. destruct c as [[] [] [] [] [] [] [] []]; try reflexivity; discriminate. Qed.

Lemma iso_char_text (c : ascii) : iso_char c = true -> text_char c = true.
Proof. destruct c as [[] [] [] [] [] [] [] []]; try reflexivity; discriminate. Qed.

Lemma iso_char_no_L (c : ascii) :
  iso_char c = true -> negb (Ascii.eqb c "L"%char) = true.
Proof. destruct c as [[] [] [] [] [] [] [] []]; try reflexivity; discriminate. Qed.

Lemma blank_text (s : str) : blank_lines s = true -> no_open s = true.
Proof.
  apply forallb_impl. intros c H. apply Ascii.eqb_eq in H. subst c.
  reflexivity.
Qed.

Lemma blank_no_hash (s : str) : blank_lines s = true -> no_hash s = true.
Proof.
  apply forallb_impl. intros c H. apply Ascii.eqb_eq in H. subst c.
  reflexivity.
Qed.

Lemma task_part_no_colon (task_id : option str) :
  plain_opt task_id = true ->
  forallb (fun c => negb (Ascii.eqb c ":"%char)) (task_part task_id) = true.
Proof.
  destruct task_id as [[|c s]|]; cbn [task_part plain_opt];
    try reflexivity.
  intros H. rewrite forallb_app.
  change (c :: s ++ lit ")") with ((c :: s) ++ lit ")").
  rewrite forallb_app.
  rewrite (forallb_impl plain_char _ _ plain_char_no_colon H). reflexivity.
Qed.

Lemma task_part_no_hash (task_id : option str) :
  plain_opt task_id = true -> no_hash (task_part task_id) = true.
Proof.
  destruct task_id as [[|c s]|]; cbn [task_part plain_opt];
    try reflexivity.
  intros H. unfold no_hash. rewrite forallb_app.
  change (c :: s ++ lit ")") with ((c :: s) ++ lit ")").
  rewrite forallb_app.
  rewrite (forallb_impl plain_char _ _
             (fun c H => text_char_no_hash c (plain_text_char c H)) H).
  reflexivity.
Qed.

Lemma link_part_text (link : option str) :
  text_opt link = true -> forallb text_char (link_part link) = true.
Proof.
  destruct link as [[|c s]|]; cbn [link_part text_opt]; try reflexivity.
  intros H. rewrite forallb_app, H. reflexivity.
Qed.

Lemma stamp_text (d : datetime) (n : nat) :
  forallb text_char (firstn n (isoformat d)) = true.
Proof.
  apply forallb_firstn.
  apply (forallb_impl iso_char _ _ iso_char_text (isoformat_chars d)).
Qed.

Lemma stamp_head (d : datetime) (n : nat) :
  exists c r, firstn (S n) (isoformat d) = c :: r.
Proof.
  destruct (isoformat_head d) as (c & r & E & _). rewrite E.
  exists c, (firstn n r). reflexivity.
Qed.

(** The body of an entry holds no [#]. *)
Lemma entry_lines_no_hash (from_agent message : str) (d : datetime) (n : nat)
  (task_id link : option str) :
  plain from_agent = true -> forallb text_char message = true ->
  plain_opt task_id = true -> text_opt link = true ->
  no_hash (entry_lines from_agent message (firstn n (isoformat d)) task_id link)
  = true.
Proof.
  intros Hf Hm Ht Hl. unfold entry_lines.
  rewrite !no_hash_app.
  rewrite (forallb_impl plain_char _ _
             (fun c H => text_char_no_hash c (plain_text_char c H)) Hf
           : no_hash from_agent = true).
  rewrite (task_part_no_hash _ Ht).
  rewrite (forallb_impl text_char _ _ text_char_no_hash Hm
           : no_hash message = true).
  rewrite (time_no_hash d n).
  rewrite (forallb_impl text_char _ _ text_char_no_hash
             (link_part_text _ Hl)
           : no_hash (link_part link) = true).
  reflexivity.
Qed.

(** The lines of an entry, one behind the other *)
Lemma entry_lines_shape (from_agent message stamp : str)
  (task_id link : option str) (rest : str) :
  entry_lines from_agent message stamp task_id link ++ rest
  = (lit "From: " ++ from_agent ++ task_part task_id) ++ nl ::
    (lit "Message: " ++ message) ++ nl ::
    (lit "Time: " ++ stamp) ++ nl ::
    link_part link ++ nl :: rest.
Proof. unfold entry_lines. norm_app. reflexivity. Qed.

Section ReadBack.

Variables (from_agent message stamp : str) (task_id link : option str).
Variable rest : str.

Hypothesis from_nonempty : from_agent <> [].
Hypothesis from_plain : plain from_agent = true.
Hypothesis message_fine : message_ok message.
Hypothesis task_plain : plain_opt task_id = true.
Hypothesis link_text : text_opt link = true.
Hypothesis stamp_nonempty : stamp <> [].
Hypothesis stamp_iso : forallb iso_char stamp = true.
Hypothesis rest_blank : blank_lines rest = true.

Let line1 := lit "From: " ++ from_agent ++ task_part task_id.
Let line2 := lit "Message: " ++ message.
Let line3 := lit "Time: " ++ stamp.

Lemma line1_no_label (label : str) :
  clear_before label (lit "From: ") (from_agent ++ task_part task_id) ->
  existsb (Ascii.eqb ":"%char) label = true ->
  occurs label line1 = false.
Proof.
  intros C H. apply (@occurs_behind label _ _ C).
  apply (@occurs_needs_char ":"%char label _ H).
  rewrite forallb_app, (task_part_no_colon _ task_plain).
  rewrite (forallb_impl plain_char _ _ plain_char_no_colon from_plain).
  reflexivity.
Qed.

Lemma read_from (tail : str) :
  search_field (lit "From: ")
    (fun c => not_nl c && negb (Ascii.eqb c "("%char))
    (line1 ++ nl :: tail)
  = Some (from_agent ++
          match task_id with Some (_ :: _) => [" "%char] | _ => [] end).
Proof.
  unfold line1. destruct from_agent as [|c f] eqn:Ef; [congruence|].
  assert (Hc : not_nl c && negb (Ascii.eqb c "("%char) = true).
  { cbn [plain forallb] in from_plain.
    apply andb_true_iff in from_plain as [Hc _].
    apply text_char_from_class, plain_text_char, Hc. }
  assert (Hf : forallb (fun c => not_nl c && negb (Ascii.eqb c "("%char))
                 (c :: f) = true).
  { apply (forallb_impl plain_char _ _
             (fun c H => text_char_from_class c (plain_text_char c H))
             from_plain). }
  rewrite <- !app_assoc. cbn [app].
  rewrite (@search_field_head (lit "From: ") _ c _ ltac:(discriminate) Hc).
  f_equal.
  destruct task_id as [[|t ts]|]; cbn [task_part app].
  - change (c :: f ++ nl :: tail) with ((c :: f) ++ nl :: tail).
    rewrite (@span_stop _ (c :: f) nl tail Hf eq_refl).
    cbn [fst]. rewrite app_nil_r. reflexivity.
  - assert (E : c :: f ++ (lit " (" ++ t :: ts ++ lit ")") ++ nl :: tail
                = ((c :: f) ++ [" "%char]) ++
                  "("%char :: (t :: ts ++ lit ")") ++ nl :: tail)
      by (norm_app; reflexivity).
    rewrite E. rewrite span_stop; [reflexivity | | reflexivity].
    rewrite forallb_app, Hf. reflexivity.
  - change (c :: f ++ nl :: tail) with ((c :: f) ++ nl :: tail).
    rewrite (@span_stop _ (c :: f) nl tail Hf eq_refl).
    cbn [fst]. rewrite app_nil_r. reflexivity.
Qed.

Lemma read_message (tail : str) :
  search_field (lit "Message: ") not_nl
    (line1 ++ nl :: line2 ++ nl :: tail)
  = Some message.
Proof.
  destruct message_fine as (Hne & Hm & _).
  rewrite search_field_skip_line;
    [ | reflexivity | discriminate
      | apply line1_no_label; [repeat split; reflexivity | reflexivity] ].
  unfold line2. destruct message as [|c m] eqn:Em; [congruence|].
  assert (Hs : forallb not_nl (c :: m) = true)
    by apply (forallb_impl text_char _ _ text_char_not_nl Hm).
  assert (Hc : not_nl c = true)
    by (cbn [forallb] in Hs; apply andb_true_iff in Hs as [Hc _]; exact Hc).
  rewrite <- app_assoc. cbn [app].
  rewrite (@search_field_head (lit "Message: ") _ c _ ltac:(discriminate) Hc).
  change (c :: m ++ nl :: tail) with ((c :: m) ++ nl :: tail).
  rewrite (@span_stop _ (c :: m) nl tail Hs eq_refl). reflexivity.
Qed.

Lemma line2_no_label (label : str) :
  clear_before label (lit "Message: ") message ->
  occurs label message = false -> occurs label line2 = false.
Proof. intros C H. apply (@occurs_behind label _ _ C H). Qed.

Lemma read_time (tail : str) :
  search_field (lit "Time: ") not_nl
    (line1 ++ nl :: line2 ++ nl :: line3 ++ nl :: tail)
  = Some stamp.
Proof.
  destruct message_fine as (_ & _ & Ht & _).
  rewrite search_field_skip_line;
    [ | reflexivity | discriminate
      | apply line1_no_label; [repeat split; reflexivity | reflexivity] ].
  rewrite search_field_skip_line;
    [ | reflexivity | discriminate
      | apply line2_no_label; [repeat split; reflexivity | exact Ht] ].
  unfold line3. destruct stamp as [|c s] eqn:Es; [congruence|].
  assert (Hs : forallb not_nl (c :: s) = true)
    by apply (forallb_impl iso_char _ _ iso_char_not_nl stamp_iso).
  assert (Hc : not_nl c = true)
    by (cbn [forallb] in Hs; apply andb_true_iff in Hs as [Hc _]; exact Hc).
  rewrite <- app_assoc. cbn [app].
  rewrite (@search_field_head (lit "Time: ") _ c _ ltac:(discriminate) Hc).
  change (c :: s ++ nl :: tail) with ((c :: s) ++ nl :: tail).
  rewrite (@span_stop _ (c :: s) nl tail Hs eq_refl). reflexivity.
Qed.

Lemma line3_no_link : occurs (lit "Link: ") line3 = false.
Proof.
  apply (@occurs_needs_char "L"%char); [reflexivity|].
  unfold line3. rewrite forallb_app.
  rewrite (forallb_impl iso_char _ _ iso_char_no_L stamp_iso). reflexivity.
Qed.

Lemma read_link :
  search_field (lit "Link: ") not_nl
    (line1 ++ nl :: line2 ++ nl :: line3 ++ nl :: link_part link ++ nl :: rest)
  = match link with Some (c :: s) => Some (c :: s) | _ => None end.
Proof.
  destruct message_fine as (_ & _ & _ & Hl).
  rewrite search_field_skip_line;
    [ | reflexivity | discriminate
      | apply line1_no_label; [repeat split; reflexivity | reflexivity] ].
  rewrite search_field_skip_line;
    [ | reflexivity | discriminate
      | apply line2_no_label; [repeat split; reflexivity | exact Hl] ].
  rewrite search_field_skip_line;
    [ | reflexivity | discriminate | apply line3_no_link ].
  assert (B : search_field (lit "Link: ") not_nl (nl :: rest) = None)
    by (apply search_field_blank; [reflexivity | discriminate |];
        unfold blank_lines; cbn [forallb]; exact rest_blank).
  destruct link as [[|c s]|]; cbn [link_part app]; try exact B.
  cbn [text_opt] in link_text.
  assert (Hs : forallb not_nl (c :: s) = true)
    by apply (forallb_impl text_char _ _ text_char_not_nl link_text).
  assert (Hc : not_nl c = true)
    by (cbn [forallb] in Hs; apply andb_true_iff in Hs as [Hc _]; exact Hc).
  rewrite <- app_assoc. cbn [app].
  rewrite (@search_field_head (lit "Link: ") _ c _ ltac:(discriminate) Hc).
  change (c :: s ++ nl :: rest) with ((c :: s) ++ nl :: rest).
  rewrite (@span_stop _ (c :: s) nl rest Hs eq_refl). reflexivity.
Qed.

Lemma read_task_id :
  search_parens
    (line1 ++ nl :: line2 ++ nl :: line3 ++ nl :: link_part link ++ nl :: rest)
  = match task_id with Some (c :: s) => Some (c :: s) | _ => None end.
Proof.
  destruct message_fine as (_ & Hm & _).
  assert (Hf : no_open from_agent = true)
    by apply (forallb_impl plain_char _ _
                (fun c H => text_char_no_open c (plain_text_char c H))
                from_plain).
  assert (N : forall tail, no_open tail = true ->
                no_open (nl :: line2 ++ nl :: line3 ++ nl :: tail) = true).
  { intros tail Ht. unfold line2, line3, no_open in *.
    cbn [forallb]. rewrite !forallb_app. cbn [forallb].
    rewrite !forallb_app. cbn [forallb]. rewrite Ht.
    rewrite (forallb_impl text_char _ _ text_char_no_open Hm).
    rewrite (forallb_impl iso_char _ _
               (fun c H => text_char_no_open c (iso_char_text c H)) stamp_iso).
    reflexivity. }
  assert (Nl : no_open (link_part link ++ nl :: rest) = true).
  { unfold no_open. rewrite forallb_app. cbn [forallb].
    rewrite (forallb_impl text_char _ _ text_char_no_open
               (link_part_text _ link_text)).
    apply (@blank_text rest rest_blank). }
  unfold line1 at 1.
  destruct task_id as [[|t ts]|] eqn:Et; cbn [task_part].
  - rewrite app_nil_r. rewrite <- app_assoc.
    apply search_parens_none. unfold no_open. rewrite !forallb_app.
    fold (no_open from_agent). rewrite Hf.
    apply (N _ Nl).
  - cbn [plain_opt] in task_plain.
    assert (Hc : no_close (t :: ts) = true)
      by apply (forallb_impl plain_char _ _
                  (fun c H => text_char_no_close c (plain_text_char c H))
                  task_plain).
    match goal with
    | |- search_parens ?x = _ =>
        assert (E : x = (lit "From: " ++ from_agent ++ [" "%char]) ++
                        "("%char :: (t :: ts) ++ ")"%char ::
                        nl :: line2 ++ nl :: line3 ++ nl ::
                        link_part link ++ nl :: rest)
          by (norm_app; reflexivity)
    end.
    rewrite E. rewrite search_parens_clear.
    + apply (@search_parens_head t ts _ Hc).
    + unfold no_open. rewrite !forallb_app. fold (no_open from_agent).
      rewrite Hf. reflexivity.
  - rewrite app_nil_r. rewrite <- app_assoc.
    apply search_parens_none. unfold no_open. rewrite !forallb_app.
    fold (no_open from_agent). rewrite Hf.
    apply (N _ Nl).
Qed.

(** What [get_notifications] reads off an entry that [add_notification]
    wrote, whatever blank lines follow it *)
Lemma parse_entry_lines :
  parse_entry (entry_lines from_agent message stamp task_id link ++ rest)
  = mkNotification
      (Some (strip from_agent))
      (match task_id with Some (c :: s) => Some (c :: s) | _ => None end)
      (Some (strip message))
      (Some (strip stamp))
      (match link with Some (c :: s) => Some (strip (c :: s)) | _ => None end).
Proof.
  rewrite entry_lines_shape. fold line1 line2 line3. unfold parse_entry.
  rewrite read_task_id, read_link.
  rewrite (read_time (link_part link ++ nl :: rest)).
  rewrite (read_message (line3 ++ nl :: link_part link ++ nl :: rest)).
  change (line1 ++ nl :: line2 ++ nl :: line3 ++ nl :: link_part link ++
          nl :: rest)
    with (line1 ++ nl ::
          (line2 ++ nl :: line3 ++ nl :: link_part link ++ nl :: rest)).
  set (tail := line2 ++ nl :: line3 ++ nl :: link_part link ++ nl :: rest).
  rewrite (read_from tail). cbn [option_map]. f_equal.
  - f_equal. destruct task_id as [[|t ts]|];
      rewrite ?app_nil_r; try reflexivity.
    apply strip_snoc. reflexivity.
  - destruct link as [[|c s]|]; reflexivity.
Qed.

End ReadBack.

(** ** The Pending section of a ledger *)

Lemma pending_section_inv (content P : str) :
  pending_section content = Some P ->
  exists H D,
    content = H ++ pending_header ++ P ++ delivered_header ++ D /\
    clear_before pending_header H
      (pending_header ++ P ++ delivered_header ++ D) /\
    clear_before delivered_header P (delivered_header ++ D).
Proof.
  unfold pending_section. intros E.
  destruct (split_first pending_header content) as [[H R]|] eqn:E1;
    [|discriminate].
  destruct (split_first delivered_header R) as [[P' D]|] eqn:E2;
    [|discriminate].
  injection E as ->.
  pose proof (split_first_clear _ _ E1) as C1.
  pose proof (split_first_clear _ _ E2) as C2.
  apply split_first_spec in E1, E2. subst R content.
  exists H, D. split; [reflexivity|]. split; assumption.
Qed.

Lemma pending_section_intro (H P D X : str) :
  clear_before pending_header H (pending_header ++ X) ->
  clear_before delivered_header P (delivered_header ++ D) ->
  pending_section (H ++ pending_header ++ P ++ delivered_header ++ D) = Some P.
Proof.
  intros C1 C2. unfold pending_section.
  rewrite (@split_first_intro pending_header H _
             (@clear_before_tail pending_header H X _ C1)).
  rewrite (@split_first_intro delivered_header P D C2). reflexivity.
Qed.

Lemma flat_clear_pending (pre : str) (es : list (str * str)) (rest : str) :
  no_hash pre = true -> Forall entry_plain es ->
  clear_before pending_header (pre ++ flat es) rest.
Proof.
  intros Hp Hok.
  change pending_header with ("#"%char :: (lit "# Pending" ++ [nl; nl])).
  apply clear_before_app. split.
  - apply clear_before_no_hash. exact Hp.
  - clear pre Hp. induction es as [|[n b] es IH]; [exact I|].
    inversion Hok as [|e0 es0 (Hn & _ & Hb) Hok']; subst. cbn [fst snd] in *.
    rewrite flat_cons. apply clear_before_app. split; [|apply IH; exact Hok'].
    apply (@clear_before_render (lit "# Pending" ++ [nl; nl]) n b
             (flat es ++ rest));
      try assumption; rewrite render_entry_shape; reflexivity.
Qed.

Lemma delivered_header_clear (D : str) :
  clear_before pending_header delivered_header D.
Proof. repeat split; reflexivity. Qed.

(** ** [add_notification] on the file *)

(** The text [add_notification] inserts behind the Pending header *)
Definition inserted (to_agent from_agent message stamp : str)
  (task_id link : option str) : str :=
  nl :: render_entry
          (to_agent, entry_lines from_agent message stamp task_id link ++ [nl]).

Lemma add_notification_file (to_agent from_agent message : str)
  (task_id link : option str) (w : World) (content : str) :
  notifications_file w = Some content ->
  add_notification to_agent from_agent message task_id link w
  = (Ok tt,
     mkWorld (tasks w) (activity_log w)
       (Some (replace pending_header
                (pending_header ++
                 inserted to_agent from_agent message
                   (firstn 16 (isoformat (clock w (ticks w)))) task_id link)
                content))
       (clock w) (S (ticks w))).
Proof.
  intros Hc. unfold add_notification. rewrite Hc.
  unfold bind, now, set_notifications_file.
  cbn [fst snd tasks activity_log notifications_file clock ticks].
  f_equal. f_equal. f_equal. f_equal. f_equal.
  unfold inserted, render_entry, entry_lines, task_part, link_part.
  cbn [fst snd]. norm_app. reflexivity.
Qed.

Lemma replace_in_ledger (new H P D : str) :
  clear_before pending_header H
    (pending_header ++ P ++ delivered_header ++ D) ->
  clear_before pending_header P (delivered_header ++ D) ->
  replace pending_header new (H ++ pending_header ++ P ++ delivered_header ++ D)
  = H ++ new ++ P ++ delivered_header ++ replace pending_header new D.
Proof.
  intros C1 C2.
  rewrite (@replace_first pending_header new H _ ltac:(discriminate) C1).
  rewrite (@replace_clear pending_header new P _ C2).
  rewrite (@replace_clear pending_header new delivered_header D
             (delivered_header_clear D)).
  reflexivity.
Qed.

(** ** Sections of entries *)

Lemma blank_last (s : str) :
  blank_lines s = true -> s = [] \/ exists l, s = l ++ [nl].
Proof.
  intros H. destruct s as [|c s]; [left; reflexivity|]. right.
  destruct (@exists_last _ (c :: s) ltac:(discriminate)) as (l & a & E).
  rewrite E in *. unfold blank_lines in H. rewrite forallb_app in H.
  apply andb_true_iff in H as [_ H]. cbn [forallb] in H.
  apply andb_true_iff in H as [H _]. apply Ascii.eqb_eq in H. subst a.
  exists l. reflexivity.
Qed.

Lemma blank_removelast (s : str) : blank_lines s = true -> blank_lines (removelast s) = true.
Proof.
  intros H. destruct (@blank_last s H) as [-> | [l ->]]; [reflexivity|].
  rewrite removelast_last. unfold blank_lines in *. rewrite forallb_app in H.
  apply andb_true_iff in H as [H _]. exact H.
Qed.


(** The entry [add_notification] writes, with the blank lines that
    follow it, is an entry of the section. *)
Lemma inserted_entry_wf (to_agent from_agent message : str) (d : datetime)
  (task_id link : option str) (pre : str) :
  single_line to_agent = true -> no_hash to_agent = true ->
  plain from_agent = true -> forallb text_char message = true ->
  plain_opt task_id = true -> text_opt link = true ->
  blank_lines pre = true ->
  entry_wf
    (to_agent,
     (entry_lines from_agent message (firstn 16 (isoformat d)) task_id link
      ++ [nl]) ++ pre).
Proof.
  intros Hs Hh Hf Hm Ht Hl Hp. split.
  - split; [exact Hh|]. split; [exact Hs|]. cbn [snd].
    rewrite !no_hash_app.
    rewrite (@entry_lines_no_hash from_agent message d 16 task_id link
               Hf Hm Ht Hl).
    rewrite (@blank_no_hash pre Hp). reflexivity.
  - cbn [snd]. destruct (@blank_last pre Hp) as [-> | [l ->]].
    + eexists. rewrite app_nil_r. reflexivity.
    + exists ((entry_lines from_agent message (firstn 16 (isoformat d))
                 task_id link ++ [nl]) ++ l).
      rewrite app_assoc. reflexivity.
Qed.

Lemma inserted_section (to_agent from_agent message stamp : str)
  (task_id link : option str) (pre : str) (es : list (str * str)) :
  inserted to_agent from_agent message stamp task_id link ++ pre ++ flat es
  = [nl] ++
    flat ((to_agent,
           (entry_lines from_agent message stamp task_id link ++ [nl]) ++ pre)
          :: es).
Proof.
  unfold inserted. rewrite flat_cons. unfold render_entry. cbn [fst snd].
  norm_app. reflexivity.
Qed.

(** [get_notifications] over a section of entries *)
Lemma get_notifications_flat (agent : str) (w : World) (content pre : str)
  (es : list (str * str)) :
  notifications_file w = Some content ->
  pending_section content = Some (pre ++ flat es) ->
  regex_literal agent = true -> single_line agent = true ->
  no_hash pre = true -> Forall entry_wf es ->
  get_notifications agent w
  = Ok (filter nonempty_dict (map parse_entry (cuts agent es))).
Proof.
  intros Hc Hp Hr Hs Hpre Hwf. unfold get_notifications.
  rewrite Hc, Hp, Hr. rewrite (@findall_flat agent Hs es pre Hpre Hwf).
  rewrite map_map. reflexivity.
Qed.

(** ** Entries as [add_notification] writes them *)

Definition four_lines (l1 l2 l3 l4 : str) : str :=
  l1 ++ nl :: l2 ++ nl :: l3 ++ nl :: l4 ++ [nl].

(** An entry of four lines followed by blank lines, the way
    [add_notification] writes it when no text it is given holds a line
    break or [#]. *)
Definition posted (e : str * str) : Prop :=
  single_line (fst e) = true /\ no_hash (fst e) = true /\
  exists l1 l2 l3 l4 rest,
    snd e = four_lines l1 l2 l3 l4 ++ rest /\
    single_line l1 = true /\ single_line l2 = true /\
    single_line l3 = true /\ single_line l4 = true /\
    no_hash (four_lines l1 l2 l3 l4) = true /\
    blank_lines rest = true /\ rest <> [].





Lemma task_part_single (task_id : option str) :
  plain_opt task_id = true -> single_line (task_part task_id) = true.
Proof.
  destruct task_id as [[|c s]|]; cbn [task_part plain_opt]; try reflexivity.
  intros H. rewrite single_line_app.
  change (c :: s ++ lit ")") with ((c :: s) ++ lit ")").
  rewrite single_line_app.
  rewrite (forallb_impl plain_char _ _
             (fun c H => text_char_not_nl c (plain_text_char c H)) H
           : single_line (c :: s) = true).
  reflexivity.
Qed.

Lemma entry_lines_four (from_agent message stamp : str)
  (task_id link : option str) :
  entry_lines from_agent message stamp task_id link
  = four_lines (lit "From: " ++ from_agent ++ task_part task_id)
      (lit "Message: " ++ message) (lit "Time: " ++ stamp) (link_part link).
Proof. unfold entry_lines, four_lines. norm_app. reflexivity. Qed.

(** The entry [add_notification] writes is such an entry. *)
Lemma inserted_posted (to_agent from_agent message : str) (d : datetime)
  (task_id link : option str) (pre : str) :
  single_line to_agent = true -> no_hash to_agent = true ->
  plain from_agent = true -> forallb text_char message = true ->
  plain_opt task_id = true -> text_opt link = true ->
  blank_lines pre = true ->
  posted
    (to_agent,
     (entry_lines from_agent message (firstn 16 (isoformat d)) task_id link
      ++ [nl]) ++ pre).
Proof.
  intros Hs Hh Hf Hm Ht Hl Hp. split; [exact Hs|]. split; [exact Hh|].
  cbn [snd].
  exists (lit "From: " ++ from_agent ++ task_part task_id),
    (lit "Message: " ++ message), (lit "Time: " ++ firstn 16 (isoformat d)),
    (link_part link), (nl :: pre).
  split; [rewrite <- entry_lines_four, <- app_assoc; reflexivity|].
  split.
  { rewrite !single_line_app, (task_part_single _ Ht).
    rewrite (forallb_impl plain_char _ _
               (fun c H => text_char_not_nl c (plain_text_char c H)) Hf
             : single_line from_agent = true).
    reflexivity. }
  split.
  { rewrite single_line_app.
    rewrite (forallb_impl text_char _ _ text_char_not_nl Hm
             : single_line message = true).
    reflexivity. }
  split.
  { rewrite single_line_app.
    rewrite (forallb_impl text_char _ _ text_char_not_nl (stamp_text d 16)
             : single_line (firstn 16 (isoformat d)) = true).
    reflexivity. }
  split.
  { apply (forallb_impl text_char _ _ text_char_not_nl
             (link_part_text _ Hl)). }
  split.
  { rewrite <- entry_lines_four.
    apply (@entry_lines_no_hash from_agent message d 16 task_id link
             Hf Hm Ht Hl). }
  split; [exact Hp | discriminate].
Qed.

(** ** [add_notification], then [get_notifications] *)

(** The text that [get_notifications] cuts out of the newest entry *)
Lemma newest_cut (lines pre : str) (es : list (str * str)) :
  blank_lines pre = true ->
  exists rest,
    blank_lines rest = true /\
    match es with
    | [] => (lines ++ [nl]) ++ pre
    | _ :: _ => removelast ((lines ++ [nl]) ++ pre)
    end = lines ++ rest.
Proof.
  intros Hp. destruct es as [|e es].
  - exists (nl :: pre). split; [exact Hp|]. rewrite <- app_assoc. reflexivity.
  - exists (removelast (nl :: pre)). split.
    + apply blank_removelast. exact Hp.
    + rewrite <- app_assoc. cbn [app].
      apply removelast_app. discriminate.
Qed.

(** The ledger after [add_notification] *)
Lemma add_notification_section (to_agent from_agent message : str)
  (task_id link : option str) (w : World) (content pre : str)
  (es : list (str * str)) :
  single_line to_agent = true -> no_hash to_agent = true ->
  plain from_agent = true -> forallb text_char message = true ->
  plain_opt task_id = true -> text_opt link = true ->
  notifications_file w = Some content ->
  pending_section content = Some (pre ++ flat es) ->
  blank_lines pre = true -> Forall entry_wf es ->
  let stamp := firstn 16 (isoformat (clock w (ticks w))) in
  let es' :=
    (to_agent,
     (entry_lines from_agent message stamp task_id link ++ [nl]) ++ pre)
    :: es in
  exists content',
    add_notification to_agent from_agent message task_id link w
    = (Ok tt,
       mkWorld (tasks w) (activity_log w) (Some content') (clock w)
         (S (ticks w))) /\
    pending_section content' = Some ([nl] ++ flat es') /\
    Forall entry_wf es' /\
    (Forall posted es -> Forall posted es').
Proof.
  intros Hs Hh Hf Hm Ht Hl Hc Hp Hpre Hwf stamp es'.
  assert (Hpo : Forall posted es -> Forall posted es').
  { intros Hpo. constructor; [|exact Hpo].
    apply (@inserted_posted to_agent from_agent message
             (clock w (ticks w)) task_id link pre Hs Hh Hf Hm Ht Hl Hpre). }
  destruct (pending_section_inv _ Hp) as (H & D & -> & C1 & C2).
  assert (Hnp : no_hash pre = true) by apply (@blank_no_hash pre Hpre).
  assert (Hwf' : Forall entry_wf es').
  { constructor; [|exact Hwf].
    apply (@inserted_entry_wf to_agent from_agent message
             (clock w (ticks w)) task_id link pre Hs Hh Hf Hm Ht Hl Hpre). }
  eexists. split; [|split; [|split; [exact Hwf' | exact Hpo]]].
  - rewrite (@add_notification_file to_agent from_agent message task_id link
               w _ Hc).
    rewrite (@replace_in_ledger _ H (pre ++ flat es) D C1
               (@flat_clear_pending pre es _ Hnp (entry_wf_ok Hwf))).
    reflexivity.
  - fold stamp.
    match goal with
    | |- pending_section (H ++ (pending_header ++ ?N) ++ ?P ++ _ ++ ?D')
         = _ =>
        assert (E : H ++ (pending_header ++ N) ++ P ++ delivered_header ++ D'
                    = H ++ pending_header ++ (N ++ P) ++ delivered_header ++ D')
          by (rewrite <- !app_assoc; reflexivity);
        rewrite E; clear E
    end.
    rewrite inserted_section. fold es'.
    apply (@pending_section_intro H _ _ _ C1).
    apply flat_clear_delivered; [reflexivity|].
    apply entry_wf_ok. exact Hwf'.
Qed.

(** X16.  A notification that is added to a ledger whose Pending
    section holds entries (behind blank lines only) is the first that
    [get_notifications] returns for the addressee, in front of the ones
    returned before, with the sender, the task id, the message and the
    link as given (the texts without white space at their ends) and the
    first sixteen characters of the time.  The notifications of every
    other agent are as before, and the section is again one of entries.
    This holds for names, a task id and a link without line break,
    carriage return, [#] and parenthesis (the names and the task id
    without colon as well; the addressee's name without regex
    metacharacter, the sender's name not empty) and for a non-empty
    message of one line without carriage return, [#] and parentheses
    that does not hold the labels of the later fields. *)
Theorem add_notification_then_get (to_agent from_agent message : str)
  (task_id link : option str) (w : World) (content pre : str)
  (es : list (str * str)) :
  regex_literal to_agent = true -> single_line to_agent = true ->
  no_hash to_agent = true -> no_cr to_agent = true ->
  from_agent <> [] -> plain from_agent = true -> message_ok message ->
  plain_opt task_id = true -> text_opt link = true ->
  notifications_file w = Some content ->
  pending_section content = Some (pre ++ flat es) ->
  blank_lines pre = true -> Forall entry_wf es ->
  let stamp := firstn 16 (isoformat (clock w (ticks w))) in
  let w' := snd (add_notification to_agent from_agent message task_id link w) in
  fst (add_notification to_agent from_agent message task_id link w) = Ok tt /\
  (exists old,
      get_notifications to_agent w = Ok old /\
      get_notifications to_agent w'
      = Ok (read_back from_agent message stamp task_id link :: old)) /\
  (forall other,
      regex_literal other = true -> single_line other = true ->
      other <> to_agent ->
      get_notifications other w' = get_notifications other w) /\
  (exists content' es',
      notifications_file w' = Some content' /\
      pending_section content' = Some ([nl] ++ flat es') /\
      Forall entry_wf es' /\
      (Forall posted es -> Forall posted es')).
Proof.
  intros Hr Hs Hh _ Hne Hf Hm Ht Hl Hc Hp Hpre Hwf stamp w'.
  destruct Hm as (Hm0 & Hm1 & Hm2 & Hm3).
  destruct (@add_notification_section to_agent from_agent message task_id link
              w content pre es Hs Hh Hf Hm1 Ht Hl Hc Hp Hpre Hwf)
    as (content' & Ha & Hp' & Hwf' & Hpo).
  fold stamp in Hp', Hwf', Hpo.
  set (es' := (to_agent,
               (entry_lines from_agent message stamp task_id link ++ [nl])
               ++ pre) :: es) in *.
  assert (Hnp : no_hash pre = true) by apply (@blank_no_hash pre Hpre).
  assert (Hc' : notifications_file w' = Some content')
    by (subst w'; rewrite Ha; reflexivity).
  split; [rewrite Ha; reflexivity|].
  split; [|split].
  - exists (filter nonempty_dict (map parse_entry (cuts to_agent es))).
    split.
    + apply (@get_notifications_flat to_agent w content pre es Hc Hp Hr Hs
               Hnp Hwf).
    + rewrite (@get_notifications_flat to_agent w' content' [nl] es' Hc' Hp'
                 Hr Hs eq_refl Hwf').
      f_equal. subst es'. cbn [cuts fst snd]. rewrite str_eqb_refl.
      cbn [app map filter].
      destruct (@newest_cut
                  (entry_lines from_agent message stamp task_id link) pre es
                  Hpre) as (rest & Hb & Ecut).
      match goal with
      | |- context [parse_entry ?x] =>
          assert (E : x = entry_lines from_agent message stamp task_id link
                          ++ rest) by exact Ecut;
          rewrite E; clear E Ecut
      end.
      assert (P : parse_entry
                    (entry_lines from_agent message stamp task_id link ++ rest)
                  = read_back from_agent message stamp task_id link).
      { assert (Hst : stamp <> []).
        { destruct (stamp_head (clock w (ticks w)) 15) as (c & r & E).
          subst stamp. rewrite E. discriminate. }
        assert (Hiso : forallb iso_char stamp = true)
          by (apply forallb_firstn; apply isoformat_chars).
        rewrite (@parse_entry_lines from_agent message stamp task_id link rest
                   Hne Hf (conj Hm0 (conj Hm1 (conj Hm2 Hm3))) Ht Hl Hst Hiso
                   Hb).
        unfold read_back. subst stamp. rewrite stamp_stripped.
        reflexivity. }
      rewrite P. reflexivity.
  - intros other Hro Hso Hno.
    rewrite (@get_notifications_flat other w' content' [nl] es' Hc' Hp'
               Hro Hso eq_refl Hwf').
    rewrite (@get_notifications_flat other w content pre es Hc Hp Hro Hso
               Hnp Hwf).
    subst es'. cbn [cuts fst snd].
    rewrite (proj2 (str_eqb_neq to_agent other) (fun E => Hno (eq_sym E))).
    reflexivity.
  - exists content', es'. split; [exact Hc'|].
    split; [exact Hp'|]. split; [exact Hwf' | exact Hpo].
Qed.

Lemma add_notification_then_get_witness :
  let w := ledger_two_agents in
  let w' := snd (add_notification (lit "bob") (lit "dave")
                   (lit "Please review") (Some (lit "task-001"))
                   (Some (lit "docs/plan.md")) w) in
  let note (from : str) task (message : str) link :=
    mkNotification (Some from) task (Some message)
      (Some (lit "2026-02-02T14:30")) link in
  get_notifications (lit "bob") w
  = Ok [note (lit "alice") None (lit "second") None;
        note (lit "alice") None (lit "first") None] /\
  get_notifications (lit "bob") w'
  = Ok [note (lit "dave") (Some (lit "task-001")) (lit "Please review")
          (Some (lit "docs/plan.md"));
        note (lit "alice") None (lit "second") None;
        note (lit "alice") None (lit "first") None] /\
  get_notifications (lit "carol") w' = get_notifications (lit "carol") w.
Proof.
  cbv zeta.
  pose (body := fun (from message tail : str) =>
                  lit "From: " ++ from ++ nl :: lit "Message: " ++ message
                  ++ nl :: lit "Time: 2026-02-02T14:30" ++ nl :: nl :: tail).
  pose (es := [ (lit "bob", body (lit "alice") (lit "second") [nl; nl]);
                (lit "carol",
                 body (lit "alice (task-001)") (lit "hello") [nl; nl]);
                (lit "bob", body (lit "alice") (lit "first") [nl]) ]).
  assert (Hwf : Forall entry_wf es)
    by (repeat (constructor; [apply entry_wf_check; vm_compute; reflexivity|]);
        constructor).
  assert (Hm : message_ok (lit "Please review"))
    by (split; [discriminate|]; repeat split; reflexivity).
  assert (Hf : lit "dave" <> []) by discriminate.
  assert (Hp : pending_section (ledger_text ledger_two_agents)
               = Some ([nl] ++ flat es)) by (vm_compute; reflexivity).
  destruct (@add_notification_then_get (lit "bob") (lit "dave")
              (lit "Please review") (Some (lit "task-001"))
              (Some (lit "docs/plan.md")) ledger_two_agents
              (ledger_text ledger_two_agents) [nl] es
              eq_refl eq_refl eq_refl eq_refl Hf eq_refl Hm eq_refl eq_refl
              eq_refl Hp eq_refl Hwf)
    as (_ & (old & Ho & Hn) & Hother & _).
  split; [vm_compute; reflexivity|]. split.
  - rewrite Hn. vm_compute in Ho. injection Ho as <-. vm_compute. reflexivity.
  - apply Hother; [reflexivity | reflexivity | discriminate].
Defined.

(** ** What [mark_delivered] writes *)





Lemma covered_none_cuts (a : str) (es : list (str * str)) :
  covered a [] es -> cuts a es = [].
Proof.
  induction es as [|[n b] es IH]; [reflexivity|].
  intros H. inversion H as [|e0 es0 He Hes]; subst. cbn [cuts fst snd].
  destruct (str_eqb n a) eqn:E.
  - apply str_eqb_eq in E. destruct (He E) as (T & r & [] & _).
  - apply IH. exact Hes.
Qed.



(** ** Removing the entries of one agent from a section of entries *)












(** ** Blank lines behind an entry do not change what is read off it *)



Lemma skipn_app_le (n : nat) (u v : str) :
  n <= length u -> skipn n (u ++ v) = skipn n u ++ v.
Proof.
  intros H. rewrite skipn_app.
  replace (n - length u) with 0 by lia. reflexivity.
Qed.










(** ** [mark_delivered] and the notifications of the other agents *)

Lemma no_cuts_covered (a : str) (es : list (str * str)) :
  cuts a es = [] -> covered a [] es.
Proof.
  induction es as [|[n b] es IH]; [constructor|].
  cbn [cuts fst snd]. intros H. apply app_eq_nil in H as [H1 H2].
  constructor; [|apply IH; exact H2].
  cbn [fst]. intros ->. rewrite str_eqb_refl in H1. discriminate H1.
Qed.






(** ** From a comment to the notifications of the subscribers *)

(** The message line and the link [_notify_subscribers] writes *)
Definition comment_message (message : str) : str :=
  firstn 100 message ++ (if 100 <? length message then lit "..." else []).

Definition comment_link (task : Task) : str :=
  lit "workspace/tasks/" ++ status task ++ lit "/" ++ id task ++ lit ".md".

(** For a task with an id, [_notify_subscribers] writes what
    [add_notification] would write. *)
Lemma render_notif_inserted (agent commenter message : str) (task : Task)
  (time : str) :
  id task <> [] ->
  render_notif agent commenter message task time
  = inserted agent commenter (comment_message message) time (Some (id task))
      (Some (comment_link task)).
Proof.
  intros Hid. unfold render_notif, inserted, render_entry, entry_lines,
    task_part, link_part, comment_message, comment_link.
  destruct (id task) as [|c s]; [congruence|].
  change (lit "workspace/tasks/") with ("w"%char :: lit "orkspace/tasks/").
  cbn [app fst snd]. norm_app. reflexivity.
Qed.

Lemma occurs_firstn (p m : str) (n : nat) :
  occurs p m = false -> occurs p (firstn n m) = false.
Proof.
  intros H. destruct (occurs p (firstn n m)) eqn:E; [|reflexivity].
  apply occurs_split in E as (a & b & E). apply split_first_spec in E.
  rewrite <- (firstn_skipn n m), E, <- !app_assoc, occurs_intro in H.
  discriminate H.
Qed.

Lemma startswith_foreign (c0 : ascii) (T b z : str) :
  forallb (fun c => negb (Ascii.eqb c c0)) T = true ->
  startswith T (b ++ c0 :: z) = true -> startswith T b = true.
Proof.
  revert b; induction T as [|c T IH]; intros b HT H; [reflexivity|].
  cbn [forallb] in HT. apply andb_true_iff in HT as [Hc HT].
  destruct b as [|d b]; cbn [app startswith] in H |- *.
  - apply andb_true_iff in H as [E _]. rewrite E in Hc. discriminate Hc.
  - apply andb_true_iff in H as [E H]. rewrite E. apply (IH b HT H).
Qed.

Lemma occurs_before_dots (p x : str) :
  forallb (fun c => negb (Ascii.eqb c "."%char)) p = true -> p <> [] ->
  occurs p x = false -> occurs p (x ++ lit "...") = false.
Proof.
  intros Hp Hne. induction x as [|c x IH]; intros H.
  - destruct p as [|e p]; [congruence|]. cbn [app].
    apply (@occurs_needs_char e); [cbn; rewrite Ascii.eqb_refl; reflexivity|].
    cbn [forallb] in Hp. apply andb_true_iff in Hp as [He _].
    rewrite Ascii.eqb_sym in He.
    change (lit "...") with ["."%char; "."%char; "."%char].
    cbn [forallb]. rewrite He. reflexivity.
  - rewrite occurs_unfold in H. apply orb_false_iff in H as [H1 H2].
    cbn [app]. rewrite occurs_unfold, (IH H2), orb_false_r.
    destruct (startswith p (c :: x ++ lit "...")) eqn:E; [|reflexivity].
    change (c :: x ++ lit "...") with ((c :: x) ++ "."%char :: lit "..") in E.
    rewrite (@startswith_foreign "."%char p (c :: x) _ Hp E) in H1.
    discriminate H1.
Qed.

Lemma comment_message_ok (message : str) :
  message_ok message -> message_ok (comment_message message).
Proof.
  intros (Hne & Ht & H1 & H2). unfold comment_message.
  assert (A : forall label,
             forallb (fun c => negb (Ascii.eqb c "."%char)) label = true ->
             label <> [] -> occurs label message = false ->
             occurs label
               (firstn 100 message ++
                (if 100 <? length message then lit "..." else [])) = false).
  { intros label Hl Hn H. destruct (100 <? length message).
    - apply (@occurs_before_dots label _ Hl Hn). apply occurs_firstn. exact H.
    - rewrite app_nil_r. apply occurs_firstn. exact H. }
  split; [|split; [|split]].
  - destruct message as [|c m]; [congruence | discriminate].
  - rewrite forallb_app, (forallb_firstn _ _ _ Ht).
    destruct (100 <? length message); reflexivity.
  - apply A; [reflexivity | discriminate | exact H1].
  - apply A; [reflexivity | discriminate | exact H2].
Qed.

(** ** One insertion behind the Pending header *)

Lemma insert_section (to_agent from_agent message : str) (d : datetime)
  (task_id link : option str) (content pre : str) (es : list (str * str)) :
  single_line to_agent = true -> no_hash to_agent = true ->
  plain from_agent = true -> forallb text_char message = true ->
  plain_opt task_id = true -> text_opt link = true ->
  pending_section content = Some (pre ++ flat es) ->
  blank_lines pre = true -> Forall entry_wf es ->
  let es' :=
    (to_agent,
     (entry_lines from_agent message (firstn 16 (isoformat d)) task_id link
      ++ [nl]) ++ pre) :: es in
  pending_section
    (replace pending_header
       (pending_header ++
        inserted to_agent from_agent message (firstn 16 (isoformat d))
          task_id link) content)
  = Some ([nl] ++ flat es') /\
  Forall entry_wf es'.
Proof.
  intros Hs Hh Hf Hm Ht Hl Hp Hpre Hwf es'.
  destruct (pending_section_inv _ Hp) as (H & D & -> & C1 & C2).
  assert (Hnp : no_hash pre = true) by apply (@blank_no_hash pre Hpre).
  assert (Hwf' : Forall entry_wf es').
  { constructor; [|exact Hwf].
    apply (@inserted_entry_wf to_agent from_agent message d task_id link pre
             Hs Hh Hf Hm Ht Hl Hpre). }
  split; [|exact Hwf'].
  rewrite (@replace_in_ledger _ H (pre ++ flat es) D C1
             (@flat_clear_pending pre es _ Hnp (entry_wf_ok Hwf))).
  match goal with
  | |- pending_section (H ++ (pending_header ++ ?N) ++ ?P ++ _ ++ ?D') = _ =>
      assert (E : H ++ (pending_header ++ N) ++ P ++ delivered_header ++ D'
                  = H ++ pending_header ++ (N ++ P) ++ delivered_header ++ D')
        by (rewrite <- !app_assoc; reflexivity);
      rewrite E; clear E
  end.
  rewrite inserted_section. fold es'.
  apply (@pending_section_intro H _ _ _ C1).
  apply flat_clear_delivered; [reflexivity|].
  apply entry_wf_ok. exact Hwf'.
Qed.

(** What is read off the section with the new entry in front *)
Lemma newest_parse (other to_agent from_agent message : str) (d : datetime)
  (task_id link : option str) (pre : str) (es : list (str * str)) :
  from_agent <> [] -> plain from_agent = true -> message_ok message ->
  plain_opt task_id = true -> text_opt link = true ->
  blank_lines pre = true ->
  map parse_entry
    (cuts other
       ((to_agent,
         (entry_lines from_agent message (firstn 16 (isoformat d)) task_id link
          ++ [nl]) ++ pre) :: es))
  = (if str_eqb to_agent other
     then [read_back from_agent message (firstn 16 (isoformat d)) task_id link]
     else [])
    ++ map parse_entry (cuts other es).
Proof.
  intros Hne Hf Hm Ht Hl Hpre. cbn [cuts fst snd]. rewrite map_app.
  f_equal. destruct (str_eqb to_agent other); [|reflexivity].
  cbn [map]. f_equal.
  destruct (@newest_cut
              (entry_lines from_agent message (firstn 16 (isoformat d))
                 task_id link) pre es Hpre) as (rest & Hb & Ecut).
  match goal with
  | |- parse_entry ?x = _ =>
      assert (E : x = entry_lines from_agent message
                        (firstn 16 (isoformat d)) task_id link ++ rest)
        by exact Ecut;
      rewrite E; clear E Ecut
  end.
  assert (Hst : firstn 16 (isoformat d) <> []).
  { destruct (stamp_head d 15) as (c & r & E). rewrite E. discriminate. }
  assert (Hiso : forallb iso_char (firstn 16 (isoformat d)) = true)
    by (apply forallb_firstn; apply isoformat_chars).
  rewrite (@parse_entry_lines from_agent message (firstn 16 (isoformat d))
             task_id link rest Hne Hf Hm Ht Hl Hst Hiso Hb).
  unfold read_back. rewrite stamp_stripped. reflexivity.
Qed.

(** ** The loop of [_notify_subscribers] over a section of entries *)

(** A name that can head an entry *)
Definition addressee_ok (a : str) : Prop :=
  single_line a = true /\ no_hash a = true /\ no_cr a = true.

Section FanOut.

Variables (commenter message : str) (task : Task).

Hypothesis commenter_nonempty : commenter <> [].
Hypothesis commenter_plain : plain commenter = true.
Hypothesis message_fine : message_ok message.
Hypothesis id_nonempty : id task <> [].
Hypothesis id_plain : plain (id task) = true.
Hypothesis status_text : forallb text_char (status task) = true.

Lemma comment_link_text : text_opt (Some (comment_link task)) = true.
Proof.
  cbn [text_opt]. unfold comment_link. rewrite !forallb_app, status_text.
  rewrite (forallb_impl plain_char _ _ plain_text_char id_plain).
  reflexivity.
Qed.

Lemma insert_notifs_section (L : list str) :
  forall (content pre : str) (es : list (str * str)) (w : World),
    Forall addressee_ok L -> NoDup L ->
    pending_section content = Some (pre ++ flat es) ->
    blank_lines pre = true -> Forall entry_wf es ->
    exists content' pre' es',
      insert_notifs L commenter message task content w
      = (Ok content', advance (length L) w) /\
      pending_section content' = Some (pre' ++ flat es') /\
      blank_lines pre' = true /\ Forall entry_wf es' /\
      (forall b, In b L ->
         exists k,
           map parse_entry (cuts b es')
           = read_back commenter (comment_message message)
               (firstn 16 (isoformat (clock w k))) (Some (id task))
               (Some (comment_link task))
             :: map parse_entry (cuts b es)) /\
      (forall b, ~ In b L ->
         map parse_entry (cuts b es') = map parse_entry (cuts b es)).
Proof.
  pose proof (comment_message_ok message_fine) as Hmsg.
  pose proof comment_link_text as Hlnk.
  induction L as [|a L IH]; intros content pre es w Hok Hnd Hp Hpre Hwf.
  - exists content, pre, es. split.
    + unfold advance. destruct w; reflexivity.
    + repeat split; try assumption. intros b [].
  - inversion Hok as [|a0 L0 (Hs & Hh & _) Hok']; subst.
    inversion Hnd as [|a1 L1 Hna Hnd']; subst.
    cbn [insert_notifs]. unfold bind.
    change (now w) with (Ok (clock w (ticks w)), snd (now w)).
    cbv iota beta.
    rewrite (@render_notif_inserted a commenter message task _ id_nonempty).
    destruct Hmsg as (Hm0 & Hm1 & Hm2 & Hm3).
    destruct (@insert_section a commenter (comment_message message)
                (clock w (ticks w)) (Some (id task)) (Some (comment_link task))
                content pre es Hs Hh commenter_plain Hm1 id_plain Hlnk Hp Hpre
                Hwf) as [Hp1 Hwf1].
    destruct (IH _ [nl] _ (snd (now w)) Hok' Hnd' Hp1 eq_refl Hwf1)
      as (content' & pre' & es' & E & Hp' & Hb' & Hwf' & Hin & Hout).
    exists content', pre', es'. rewrite E, advance_succ.
    split; [reflexivity|]. repeat (split; [assumption|]).
    assert (N : forall b,
               map parse_entry
                 (cuts b
                    ((a, (entry_lines commenter (comment_message message)
                            (firstn 16 (isoformat (clock w (ticks w))))
                            (Some (id task)) (Some (comment_link task))
                          ++ [nl]) ++ pre) :: es))
               = (if str_eqb a b
                  then [read_back commenter (comment_message message)
                          (firstn 16 (isoformat (clock w (ticks w))))
                          (Some (id task)) (Some (comment_link task))]
                  else [])
                 ++ map parse_entry (cuts b es)).
    { intros b. apply newest_parse; try assumption.
      split; [|split; [|split]]; assumption. }
    split.
    + intros b [<- | Hb].
      * exists (ticks w). rewrite (Hout a Hna), N, str_eqb_refl. reflexivity.
      * destruct (Hin b Hb) as [k Hk]. exists k. rewrite Hk, N.
        assert (Hab : a <> b) by (intros ->; contradiction).
        rewrite (proj2 (str_eqb_neq a b) Hab). reflexivity.
    + intros b Hb.
      assert (Hab : a <> b) by (intros ->; apply Hb; left; reflexivity).
      rewrite (Hout b (fun H => Hb (or_intror H))), N.
      rewrite (proj2 (str_eqb_neq a b) Hab). reflexivity.
Qed.

End FanOut.

Lemma get_notifications_file (agent : str) (w1 w2 : World) :
  notifications_file w1 = notifications_file w2 ->
  get_notifications agent w1 = get_notifications agent w2.
Proof. unfold get_notifications. intros ->. reflexivity. Qed.

(** X19.  A comment reaches the other subscribers.  Let the ledger hold
    a Pending section of entries behind blank lines only.  Let the
    commenter's name and the task's id be non-empty and hold no line
    break, carriage return, [#], parenthesis or colon, the status hold
    no line break, carriage return, [#] or parenthesis, the
    subscribers be distinct names without line break, carriage return
    and [#], and the message be non-empty, of one line without
    carriage return, [#] and parentheses, and not hold the labels of
    the later fields.  After a successful [add_comment],
    [get_notifications] (asked with a name of one line without regex
    metacharacter)
    returns for every subscriber other than the commenter one new
    notification in front of the earlier ones: from the commenter, with
    the task's id, the first 100 characters of the message (and an
    ellipsis when it is longer), a reading of the clock and the path of
    the task's file.  For the commenter and for every agent who is no
    subscriber it returns what it returned before. *)
Theorem comment_reaches_subscribers (task_id agent message : str)
  (w w' : World) (t : Task) (content pre : str) (es : list (str * str)) :
  add_comment task_id agent message w = (Ok t, w') ->
  notifications_file w = Some content ->
  pending_section content = Some (pre ++ flat es) ->
  blank_lines pre = true -> Forall entry_wf es ->
  agent <> [] -> plain agent = true -> message_ok message ->
  id t <> [] -> plain (id t) = true ->
  forallb text_char (status t) = true ->
  NoDup (subscribers t) -> Forall addressee_ok (subscribers t) ->
  forall b,
    regex_literal b = true -> single_line b = true ->
    (In b (subscribers t) -> b <> agent ->
     exists k old,
       get_notifications b w = Ok old /\
       get_notifications b w'
       = Ok (read_back agent (comment_message message)
               (firstn 16 (isoformat (clock w k))) (Some (id t))
               (Some (comment_link t)) :: old)) /\
    (~ In b (subscribers t) \/ b = agent ->
     get_notifications b w' = get_notifications b w).
Proof.
  intros Hadd Hc Hp Hpre Hwf Hane Hap Hm Hid Hidp Hst Hnd Hok b Hrb Hsb.
  apply add_comment_inv in Hadd
    as (s & c & t0 & l & Hf & Hr & Hd & Hl & Et & Ew).
  set (cw := commented_world w s task_id agent t l) in *.
  assert (Hcw : notifications_file cw = Some content) by exact Hc.
  pose proof (@get_notifications_flat b w content pre es Hc Hp Hrb Hsb
                (@blank_no_hash pre Hpre) Hwf) as Gold.
  set (L := filter (fun s0 => negb (str_eqb s0 agent)) (subscribers t)).
  assert (HL : forall x, In x L <-> In x (subscribers t) /\ x <> agent).
  { intros x. unfold L. rewrite filter_In. split; intros [H1 H2].
    - split; [exact H1|]. apply negb_true_iff in H2.
      apply str_eqb_neq. exact H2.
    - split; [exact H1|]. apply negb_true_iff. apply str_eqb_neq. exact H2. }
  assert (HokL : Forall addressee_ok L).
  { rewrite Forall_forall in *. intros x Hx. apply Hok. apply HL. exact Hx. }
  assert (HndL : NoDup L) by (apply NoDup_filter; exact Hnd).
  destruct (@insert_notifs_section agent message t Hane Hap Hm Hid Hidp Hst L
              content pre es cw HokL HndL Hp Hpre Hwf)
    as (content' & pre' & es' & E & Hp' & Hb' & Hwf' & Hin & Hout).
  assert (Hw' : L <> [] -> notifications_file w' = Some content').
  { intros HLne. rewrite Ew. unfold _notify_subscribers. fold L.
    destruct L as [|a0 L0] eqn:EL; [congruence|].
    unfold bind. rewrite Hcw, E. reflexivity. }
  assert (Hnil : L = [] -> notifications_file w' = notifications_file w).
  { intros HLe. rewrite Ew. unfold _notify_subscribers. fold L.
    rewrite HLe. reflexivity. }
  split.
  - intros Hbs Hba.
    assert (HbL : In b L) by (apply HL; split; assumption).
    destruct (Hin b HbL) as [k Hk].
    exists k, (filter nonempty_dict (map parse_entry (cuts b es))).
    split; [exact Gold|].
    assert (HLne : L <> []) by (intros E0; rewrite E0 in HbL; destruct HbL).
    rewrite (@get_notifications_flat b w' content' pre' es' (Hw' HLne) Hp'
               Hrb Hsb (@blank_no_hash pre' Hb') Hwf').
    rewrite Hk. reflexivity.
  - intros Hnot.
    assert (HbL : ~ In b L).
    { intros HbL. apply HL in HbL as [H1 H2].
      destruct Hnot as [H | H]; contradiction. }
    destruct L as [|a0 L0] eqn:EL.
    + apply get_notifications_file. apply Hnil. reflexivity.
    + rewrite (@get_notifications_flat b w' content' pre' es'
                 (Hw' ltac:(discriminate)) Hp' Hrb Hsb
                 (@blank_no_hash pre' Hb') Hwf').
      rewrite Gold, (Hout b HbL). reflexivity.
Qed.

Lemma comment_reaches_subscribers_witness :
  let r := add_comment (lit "task-001") (lit "alice") (lit "Looks good")
             board_subscribed in
  exists n,
    get_notifications (lit "bob") (snd r) = Ok [n] /\
    notif_from n = Some (lit "alice") /\
    notif_task_id n = Some (lit "task-001") /\
    notif_message n = Some (lit "Looks good") /\
    notif_link n = Some (lit "workspace/tasks/inbox/task-001.md").
Proof.
  cbv zeta.
  set (r := add_comment (lit "task-001") (lit "alice") (lit "Looks good")
              board_subscribed).
  assert (E : r = (Ok (task_of (fst r)), snd r)) by (vm_compute; reflexivity).
  assert (Hc : notifications_file board_subscribed = Some fresh_ledger)
    by (vm_compute; reflexivity).
  assert (Hp : pending_section fresh_ledger = Some ([] ++ flat []))
    by (vm_compute; reflexivity).
  assert (Hm : message_ok (lit "Looks good"))
    by (split; [discriminate|]; repeat split; reflexivity).
  assert (Ha : lit "alice" <> []) by discriminate.
  assert (Hid : id (task_of (fst r)) <> []) by (vm_compute; discriminate).
  assert (Hidp : plain (id (task_of (fst r))) = true)
    by (vm_compute; reflexivity).
  assert (Hst : forallb text_char (status (task_of (fst r))) = true)
    by (vm_compute; reflexivity).
  assert (Es : subscribers (task_of (fst r))
               = [lit "alice"; lit "bob"; lit "carol"])
    by (vm_compute; reflexivity).
  assert (Hnd : NoDup (subscribers (task_of (fst r)))).
  { rewrite Es. repeat constructor; cbn [In]; intros H;
      repeat (destruct H as [H | H]; [discriminate H|]); exact H. }
  assert (Hok : Forall addressee_ok (subscribers (task_of (fst r)))).
  { rewrite Es. repeat constructor. }
  destruct (@comment_reaches_subscribers (lit "task-001") (lit "alice")
              (lit "Looks good") board_subscribed (snd r) (task_of (fst r))
              fresh_ledger [] [] E Hc Hp eq_refl (Forall_nil _) Ha eq_refl Hm
              Hid Hidp Hst Hnd Hok (lit "bob") eq_refl eq_refl) as [F _].
  destruct F as (k & old & Ho & Hn).
  - rewrite Es. right. left. reflexivity.
  - discriminate.
  - vm_compute in Ho. injection Ho as <-.
    eexists. split; [exact Hn|].
    cbn [read_back notif_from notif_task_id notif_message notif_link].
    repeat split; vm_compute; reflexivity.
Defined.

(** * Part VII. Records that are not as [to_markdown] writes them *)

(** X20.  [from_markdown] raises on a text that does not begin with the
    line [---], and on one in which no line [---] closes the
    frontmatter.  A frontmatter of one line without a colon holds no
    field: the record decodes to a task with empty id, title and
    dates, status [inbox], priority [P2], no assignee, subscriber, tag
    or link, and the description and thread of the body. *)
Theorem from_markdown_edges :
  (forall content,
      startswith (lit "---" ++ [nl]) content = false ->
      from_markdown content = Raise MalformedRecord) /\
  (forall content,
      occurs (nl :: lit "---" ++ [nl]) (skipn 4 content) = false ->
      from_markdown content = Raise MalformedRecord) /\
  (forall junk body,
      single_line junk = true -> occurs (lit ":") junk = false ->
      from_markdown
        (lit "---" ++ [nl] ++ junk ++ [nl] ++ lit "---" ++ [nl] ++ body)
      = Ok (mkTask [] [] (parse_description body) (lit "inbox") (lit "P2")
              [] [] [] [] [] None None None (parse_thread body))).
Proof.
  split; [|split].
  - intros content H. unfold from_markdown, fm_match. rewrite H. reflexivity.
  - intros content H. unfold from_markdown, fm_match.
    destruct (startswith (lit "---" ++ [nl]) content); [|reflexivity].
    unfold occurs in H.
    change ([nl] ++ lit "---" ++ [nl]) with (nl :: lit "---" ++ [nl]).
    destruct (split_first (nl :: lit "---" ++ [nl]) (skipn 4 content));
      [discriminate H | reflexivity].
  - intros junk body Hs Hc. unfold from_markdown, fm_match.
    change (lit "---" ++ [nl] ++ junk ++ [nl] ++ lit "---" ++ [nl] ++ body)
      with ((lit "---" ++ [nl]) ++
            junk ++ ([nl] ++ lit "---" ++ [nl]) ++ body).
    rewrite startswith_app.
    change (skipn 4 ((lit "---" ++ [nl]) ++
                     junk ++ ([nl] ++ lit "---" ++ [nl]) ++ body))
      with (junk ++ ([nl] ++ lit "---" ++ [nl]) ++ body).
    rewrite (@split_first_intro ([nl] ++ lit "---" ++ [nl]) junk body
               (@clear_before_single_line (lit "---" ++ [nl]) junk _ Hs)).
    rewrite (split_lines_single _ Hs). cbn [parse_fm_lines].
    unfold parse_fm_line. unfold occurs in Hc.
    destruct (split_first (lit ":") junk); [discriminate Hc|].
    reflexivity.
Qed.

Lemma from_markdown_edges_witness :
  from_markdown (lit "# Add login") = Raise MalformedRecord /\
  status (task_of (from_markdown
                     (lit "---" ++ [nl] ++ [] ++ [nl] ++ lit "---" ++ [nl] ++
                      lit "## Description" ++ [nl] ++ lit "Later")))
  = lit "inbox".
Proof.
  destruct from_markdown_edges as (A & _ & C). split.
  - apply A. reflexivity.
  - rewrite (C [] _ eq_refl eq_refl). reflexivity.
Defined.
